(* ===== verification/_CoqProject ===== *)
-Q . S2P
Prelude.v
Dlist.v
Buddy.v
Pmm.v
Slab.v
KState.v
Sched.v
Timer.v
Resume.v
Wait.v
Sem.v
Sleep.v
RbTree.v
RbHeap.v
Vma.v
PageTable.v
Mm.v
Shmem.v
Uaccess.v
Pgfault.v
Procs.v
Event.v
Mbox.v
Bitmap.v
Pipe.v
Iobuf.v
File.v
FileSafe.v
FileTabs.v
FilePool.v
