(* ===== verification/Prelude.v ===== *)
(** * A verification of the ucore kernel (ARM port)

    This library models the machine-independent core of the kernel under
    src/ucore/src/kern-ucore, as built for ARM, and proves what makes it
    correct.  File names below are relative to that directory.

    ** How the code is modelled

    - A C function is a Rocq function from the state it reads to the state it
      leaves, in the monad [res]: [Ok] is a normal return, [Panic] is a failed
      [assert], a call of [panic], or an access to memory that is no object of
      the state.  [returns m P] is total correctness: the code terminates
      without a panic and its result satisfies [P].
    - Objects are in finite maps from addresses to records; a structure's
      embedded list heads are represented by the sequence the circular list
      holds.  [Dlist] proves, for the pointer code of glue-ucore/libs/list.h,
      that its operations are these sequence operations.
    - Integers are [Z]; wherever the code can wrap around, [u32] and [s32] (32
      bit unsigned and signed, ILP32) are written out.
    - Code between [local_intr_save] and [local_intr_restore] is one atomic
      step.  A function that calls [schedule] is a resumption (file [Resume]):
      it ends, or it sleeps with the state it leaves to the others and a
      continuation that is applied to the state in which it is dispatched
      again.  [finishes] and [blocks] are the two specifications; the theorems
      say what they assume about the state after the sleep.
    - Results of an allocator that is not part of a component's model are
      arguments, so a theorem holds whether or not memory runs out.

    ** The parts

    Memory:
    - [Buddy]: the page allocator arch/arm/mm/buddy_pmm.c.  Its invariant says
      which pages are free and that the blocks are aligned and maximal;
      allocation hands out free pages only, freeing merges buddies.
    - [Pmm]: alloc_pages, free_pages and the address conversions of
      arch/arm/mm/pmm.c and arch/arm/include/pmm.h; the class [PageAlloc] is
      what the page allocator promises its clients, with the buddy allocator
      as the instance.
    - [Slab]: kmalloc and kfree of mm/slab.c, proved against [PageAlloc]:
      objects that are live never overlap and an empty slab is given back.
    - [Vma]: address spaces of mm/vmm.c.  [amap] is the abstract address space
      (address to flags); mm_map, mm_unmap, mm_brk, dup_mmap and the search
      functions refine operations on it.  It uses the red-black tree through
      the class [RbTree] and the page tables through the classes [PageTables]
      and [CopyTables].
    - [RbTree]: red-black trees as values, with the algorithms of
      libs/rb_tree.c as functions on them, the invariant (colours, black
      heights, logarithmic height) and the class [RbTree] with its instance.
    - [RbHeap]: the pointer code of libs/rb_tree.c on a heap of nodes with
      parent links and the two sentinels; insertion, deletion, search and the
      neighbour functions compute the functions of [RbTree].
    - [PageTable]: the two-level page tables of glue-ucore/pmm.c with the ARM
      entries of glue_pgmap.h, and the reference counts of the pages.  [maps]
      is the abstract content of all tables; [pt_ok] says that the tables hold
      exactly [maps], that the count of every page is the number of entries
      plus the references from elsewhere, and that no page in use is lost.
    - [Mm]: the page tables as an instance of the classes of [Vma], and what
      follows for the composition: unmapping reaches the hardware tables, fork
      is copy on write.
    - [Shmem]: shared memory objects (mm/shmem.c).  Seen from above an object
      is a page directory, so its invariant [shm_ok] reuses that of
      [PageTable] with a ghost directory per object.
    - [Pgfault]: do_pgfault of mm/vmm.c with its locks, and pgfault_handler of
      arch/arm/trap/trap.c, on top of all of these.
    - [Uaccess]: copy_from_user, copy_to_user, copy_string (arch/arm/mm/vmm.c)
      and the lock of an address space.

    Processes:
    - [KState]: the state shared by the following files.
    - [Sched]: schedule/sched.c with the classes sched_RR.c and sched_MLFQ.c;
      the class [SchedClassOk] is what the core scheduler needs of a class.
    - [Timer]: the delta list of timers in schedule/sched.c and sync/ipc.h.
    - [Procs]: pids, the hash table and the family links of process/proc.c.

    Synchronisation and communication:
    - [Wait]: wait queues (sync/wait.c).
    - [Sem]: kernel and user semaphores (sync/sem.c), with [sem_step], the
      interleavings of their users, as a step relation.
    - [Sleep]: lemmas on sleeping, waking and locking shared by what follows.
    - [Event]: event boxes (sync/event.c).
    - [Mbox]: message boxes (sync/mbox.c).
    - [Pipe]: pipe buffers (fs/pipe/pipe_state.c).

    Files:
    - [Bitmap]: the block bitmap of the simple file system (fs/sfs/bitmap.c).
    - [Iobuf]: transfer buffers (fs/iobuf.c).
    - [File]: descriptors (fs/file.c), the tables of processes (fs/fs.c and
      [copy_fs], [put_fs] of process/proc.c), the counts of inodes
      (fs/vfs/inode.c) and the operations on names (fs/vfs/vfsfile.c).  The
      file systems below are the class [Vnodes], a structure of operations for
      each inode; they may sleep.
    - [FileSafe]: what a process may rely on while a file call sleeps.  The
      processes hold keys; [Inv] says that tables and inode counts are exactly
      accounted for by the keys held, [sp] is a specification of code among
      other processes, and [VnodesOk] is what the file systems promise.
    - [FileTabs]: the same for tables that are created, copied, shared and
      destroyed.
    - [FilePool]: any number of processes making file calls, as a step
      relation, and a file system in memory as an instance of [VnodesOk].

    ** What is proved

    Every component has an invariant that its operations establish or keep
    ([buddy_inv], [slab_inv], [mm_inv], [pt_ok], [shm_ok], [sched_inv], [timer_inv], [sync_inv],
    [tab_inv], [boxes_inv], [pipe_ok], [bitmap_ok], [iob_ok], [Inv]) and theorems on
    the behaviour of each operation on all its branches, most of them total.
    Above these are properties of the composition: mutual exclusion of
    semaphores over all interleavings, no starvation under round robin, the
    refinement of an address space down to the page tables, copy on write from
    fork to the page fault that resolves it, first-in first-out message boxes whose
    messages arrive byte for byte, pipes as byte streams, pids that are unique
    for any history of forks and exits, file calls of concurrent processes that
    never fail an assertion or free an entry in use.  Theorems whose names end in
    [_panics], [_faults], [_loses], [_leaks_table] or [_use_after_free] prove defects: a run
    that stops the kernel or loses data.

    Statements that have hypotheses come with a witness, a closed instance at
    a concrete state.

    ** Fuel

    Loops that are not structural take fuel, and every theorem of the form
    [returns] shows that the fuel the definition passes is enough:
    the number of waiters or timers for the queue loops, the number of pages
    for the buddy loops, three nested steps for [kmem_cache_alloc] (a slab's
    control structure never lies in a cache with external control
    structures), [2 * MAX_PID] rounds for [get_pid], the number of nodes in the
    heap for the walks in a red-black tree, the length for message
    and string copies.  Loops that sleep take one unit per wakeup.

    ** Not modelled

    Swapping (the ARM build is configured without it), the TLB and the boot-time
    mappings; fork, exec, exit and wait apart from the process table, the
    address space and the table of open files; signals; path lookup and the
    file systems apart from the files above; boot code, interrupts, drivers; boot-time self
    tests; the other ports.  Vendored code (yaffs2, FatFs, Linux headers) is
    not part of the kernel proper. *)
From Stdlib Require Export ZArith Lia.
From stdpp Require Export functions base list gmap.

(** ** Results of C code

    [Ok a] is a normal return.  [Panic] stands for everything that stops the
    kernel: a failed [assert], a call of [panic], or an access to memory that
    is not an object of the model. *)

Inductive res (A : Type) : Type :=
| Ok (a : A)
| Panic.
Arguments Ok {A} a.
Arguments Panic {A}.

Definition res_bind {A B} (m : res A) (k : A -> res B) : res B :=
  match m with
  | Ok a => k a
  | Panic => Panic
  end.

Definition assert (b : bool) : res unit := if b then Ok tt else Panic.

Declare Scope ucore_scope.
Delimit Scope ucore_scope with ucore.

Notation "'let*' x ':=' e 'in' k" := (res_bind e (fun x => k))
  (at level 10, x pattern, e at level 200, k at level 200) : ucore_scope.
Notation "'assert!' b ';;' k" := (res_bind (assert b) (fun _ => k))
  (at level 10, b at level 99, k at level 200) : ucore_scope.

#[global] Open Scope ucore_scope.
#[global] Open Scope Z_scope.

(** [returns m P]: the code terminates without a panic and its result
    satisfies [P] (total correctness). *)
Definition returns {A} (m : res A) (P : A -> Prop) : Prop :=
  exists a, m = Ok a /\ P a.

Lemma returns_ok {A} (a : A) (P : A -> Prop) : P a -> returns (Ok a) P.
Proof. exists a; auto. Qed.

Lemma returns_bind {A B} (m : res A) (k : A -> res B) (P : A -> Prop) (Q : B -> Prop) :
  returns m P -> (forall a, P a -> returns (k a) Q) -> returns (res_bind m k) Q.
Proof. intros (a & -> & Ha) Hk; simpl; auto. Qed.

Lemma returns_mono_eq {A} (m : res A) (P Q : A -> Prop) :
  returns m P -> (forall x, m = Ok x -> P x -> Q x) -> returns m Q.
Proof. intros (x & E & H) HQ. exists x. auto. Qed.

Lemma returns_mono {A} (m : res A) (P Q : A -> Prop) :
  returns m P -> (forall a, P a -> Q a) -> returns m Q.
Proof. intros (a & -> & Ha) HPQ; exists a; auto. Qed.

Lemma returns_assert {B} (b : bool) (k : unit -> res B) (Q : B -> Prop) :
  b = true -> returns (k tt) Q -> returns (res_bind (assert b) k) Q.
Proof. intros -> ?; auto. Qed.

Lemma returns_both {A} (m : res A) (P Q : A -> Prop) :
  returns m P -> returns m Q -> returns m (fun a => P a /\ Q a).
Proof. intros (a & -> & HP) (b & [= <-] & HQ). by exists a. Qed.

Lemma bind_ok {A B} (m : res A) (k : A -> res B) (b : B) :
  res_bind m k = Ok b -> exists a, m = Ok a /\ k a = Ok b.
Proof. destruct m; simpl; [eauto | discriminate]. Qed.

Lemma bind_assoc {A B D} (m : res A) (f : A -> res B) (g : B -> res D) :
  res_bind (res_bind m f) g = res_bind m (fun a => res_bind (f a) g).
Proof. by destruct m. Qed.

Lemma assert_ok (b : bool) u : assert b = Ok u -> b = true.
Proof. destruct b; [done | discriminate]. Qed.

(** Inversion of a monadic run: every [bind] and every [assert] in an
    hypothesis [_ = Ok _] is opened. *)
Ltac inv_ok :=
  repeat match goal with
  | H : res_bind _ _ = Ok _ |- _ =>
      let x := fresh "x" in let E := fresh "E" in
      apply bind_ok in H as (x & E & H); simpl in H
  | H : assert _ = Ok _ |- _ => apply assert_ok in H
  | H : Ok _ = Ok _ |- _ => injection H as H; try subst
  | H : Panic = Ok _ |- _ => discriminate H
  end.

(** ** Machine integers (ILP32: [int], [long], [size_t] are 32 bits wide) *)

Definition u32 (z : Z) : Z := z mod 2 ^ 32.
Definition s32 (z : Z) : Z := (z + 2 ^ 31) mod 2 ^ 32 - 2 ^ 31.

Lemma u32_range z : 0 <= u32 z < 2 ^ 32.
Proof. unfold u32; apply Z.mod_pos_bound; lia. Qed.

Lemma u32_small z : 0 <= z < 2 ^ 32 -> u32 z = z.
Proof. unfold u32; apply Z.mod_small. Qed.

Lemma u32_add_l a b : u32 (u32 a + b) = u32 (a + b).
Proof. unfold u32; apply Zplus_mod_idemp_l. Qed.

Lemma u32_add_r a b : u32 (a + u32 b) = u32 (a + b).
Proof. unfold u32; apply Zplus_mod_idemp_r. Qed.

Lemma u32_sub_l a b : u32 (u32 a - b) = u32 (a - b).
Proof. unfold u32; apply Zminus_mod_idemp_l. Qed.

Lemma u32_mul_l a b : u32 (u32 a * b) = u32 (a * b).
Proof. unfold u32; apply Zmult_mod_idemp_l. Qed.

Lemma s32_small z : - 2 ^ 31 <= z < 2 ^ 31 -> s32 z = z.
Proof. intros; unfold s32; rewrite Z.mod_small; lia. Qed.

(** ** Pages and rounding (glue-ucore/libs/types.h, mmu.h) *)

Definition PGSIZE : Z := 4096.
Definition ROUNDDOWN (a n : Z) : Z := a - a mod n.
Definition ROUNDUP (a n : Z) : Z := ROUNDDOWN (u32 (u32 (a + n) - 1)) n.

(** ** Objects in memory *)

(** Access through a pointer: an address that holds no object is a fault. *)
Definition fetch {A} (m : gmap Z A) (a : Z) : res A :=
  match m !! a with
  | Some x => Ok x
  | None => Panic
  end.

Lemma fetch_ok {A} (m : gmap Z A) a x : m !! a = Some x -> fetch m a = Ok x.
Proof. unfold fetch; by intros ->. Qed.

(** ** Automation

    The database [ucore] closes the side conditions of running code: pure
    results, lookups of an entry just written, and arithmetic. *)

Create HintDb ucore.
#[export] Hint Resolve returns_ok returns_assert fetch_ok : ucore.
#[export] Hint Resolve lookup_insert_eq list_lookup_insert_eq u32_range : ucore.
#[export] Hint Rewrite @lookup_insert_eq @insert_insert_eq @lookup_delete_eq @length_insert : ucore.
#[export] Hint Extern 3 (_ <= _ < _) => lia : ucore.

(** [run_ok]: run the straight-line part of a function whose fetches are in
    the context. *)
Ltac run_ok :=
  repeat (first
    [ match goal with H : ?m !! ?a = Some ?x |- context [fetch ?m ?a] => rewrite (fetch_ok m a x H) end
    | progress cbn [res_bind assert] ]).

(** ** Error numbers of glue-ucore/libs/error.h *)

Definition E_NOENT : Z := 2.
Definition E_BUSY : Z := 16.
Definition E_EXIST : Z := 17.
Definition E_XDEV : Z := 18.
Definition E_NOTDIR : Z := 20.
Definition E_ISDIR : Z := 21.
Definition E_INVAL : Z := 22.
Definition E_MFILE : Z := 24.
Definition E_FBIG : Z := 27.
Definition E_NOMEM : Z := 12.
Definition E_SPIPE : Z := 29.
Definition E_UNIMP : Z := 35.
Definition E_KILLED : Z := 37.
Definition E_NO_MEM : Z := E_NOMEM.
Definition E_MAX_OPEN : Z := E_MFILE.
Definition E_TOO_BIG : Z := E_FBIG.
Definition E_TIMEOUT : Z := E_BUSY.
Definition E_SEEK : Z := E_SPIPE.

(** ** Lists *)

Lemma filter_ne_id {A} `{EqDecision A} (x : A) (l : list A) :
  x ∉ l -> filter (fun y => y <> x) l = l.
Proof.
  induction l as [|a l IH]; [done|]; intros [Hne Hni]%not_elem_of_cons.
  rewrite filter_cons_True by done. by rewrite IH.
Qed.

Lemma length_filter_ne {A} `{EqDecision A} (x : A) (l : list A) :
  NoDup l -> x ∈ l -> length (filter (fun y => y <> x) l) = pred (length l).
Proof.
  induction l as [|a l IH]; intros Hnd Hin; [by apply not_elem_of_nil in Hin|].
  apply NoDup_cons in Hnd as [Hna Hnd]. apply elem_of_cons in Hin as [->|Hin].
  - rewrite filter_cons_False by tauto. by rewrite filter_ne_id.
  - rewrite filter_cons_True by (intros ->; done). simpl. rewrite IH by done.
    destruct l; [by apply not_elem_of_nil in Hin | done].
Qed.
