(* ===== verification/Dlist.v ===== *)
(** * Dlist: the intrusive circular lists of glue-ucore/libs/list.h *)
From S2P Require Import Prelude.

Definition loc := Z.

(** [struct list_entry] *)
Record list_entry := mk_list_entry { prev : loc; next : loc }.

(** The store of all list entries. *)
Definition heap := gmap loc list_entry.

Definition load (h : gmap loc list_entry) (l : loc) : res list_entry :=
  match h !! l with
  | Some e => Ok e
  | None => Panic
  end.

Definition set_next (l v : loc) (h : gmap loc list_entry) : res (gmap loc list_entry) :=
  let* e := load h l in Ok (<[l := mk_list_entry (prev e) v]> h).
Definition set_prev (l v : loc) (h : gmap loc list_entry) : res (gmap loc list_entry) :=
  let* e := load h l in Ok (<[l := mk_list_entry v (next e)]> h).

Definition list_init (elm : loc) (h : gmap loc list_entry) : res (gmap loc list_entry) :=
  let* h := set_next elm elm h in
  set_prev elm elm h.

Definition __list_add (elm prv nxt : loc) (h : gmap loc list_entry) : res (gmap loc list_entry) :=
  let* h := set_prev nxt elm h in
  let* h := set_next prv elm h in
  let* h := set_next elm nxt h in
  set_prev elm prv h.

Definition __list_del (prv nxt : loc) (h : gmap loc list_entry) : res (gmap loc list_entry) :=
  let* h := set_next prv nxt h in
  set_prev nxt prv h.

Definition list_add_before (listelm elm : loc) (h : gmap loc list_entry) :=
  let* e := load h listelm in __list_add elm (prev e) listelm h.

Definition list_add_after (listelm elm : loc) (h : gmap loc list_entry) :=
  let* e := load h listelm in __list_add elm listelm (next e) h.

Definition list_add (listelm elm : loc) (h : gmap loc list_entry) :=
  list_add_after listelm elm h.

Definition list_del (listelm : loc) (h : gmap loc list_entry) :=
  let* e := load h listelm in __list_del (prev e) (next e) h.

Definition list_del_init (listelm : loc) (h : gmap loc list_entry) :=
  let* h := list_del listelm h in
  list_init listelm h.

Definition list_empty (l : loc) (h : gmap loc list_entry) : res bool :=
  let* e := load h l in Ok (next e =? l).

Definition list_next (listelm : loc) (h : gmap loc list_entry) : res loc :=
  let* e := load h listelm in Ok (next e).

Definition list_prev (listelm : loc) (h : gmap loc list_entry) : res loc :=
  let* e := load h listelm in Ok (prev e).

(** ** Rings *)

Definition next_of (h : gmap loc list_entry) (a : loc) : option loc := next <$> h !! a.
Definition prev_of (h : gmap loc list_entry) (a : loc) : option loc := prev <$> h !! a.

Definition linked (h : gmap loc list_entry) (a b : loc) : Prop :=
  next_of h a = Some b /\ prev_of h b = Some a.

(** [chain h a xs b]: following [next] from [a] visits [xs] and arrives at
    [b], and the [prev] links are the inverse. *)
Fixpoint chain (h : gmap loc list_entry) (a : loc) (xs : list loc) (b : loc) : Prop :=
  match xs with
  | [] => linked h a b
  | x :: xs => linked h a x /\ chain h x xs b
  end.

(** [ring h head xs]: the circular list with head [head] holds exactly the
    entries [xs], in this order. *)
Definition ring (h : gmap loc list_entry) (head : loc) (xs : list loc) : Prop :=
  NoDup (head :: xs) /\ chain h head xs head.

Lemma chain_app h a xs y ys b :
  chain h a (xs ++ y :: ys) b <-> chain h a xs y /\ chain h y ys b.
Proof.
  revert a; induction xs as [|x xs IH]; intros a; simpl; [tauto|].
  rewrite IH; tauto.
Qed.

Lemma chain_frame h h' a xs b :
  (forall x, x ∈ a :: xs -> next_of h' x = next_of h x) ->
  (forall x, x ∈ xs ++ [b] -> prev_of h' x = prev_of h x) ->
  chain h a xs b -> chain h' a xs b.
Proof.
  revert a; induction xs as [|x xs IH]; intros a Hn Hp; simpl; unfold linked.
  - rewrite Hn, Hp by set_solver; done.
  - rewrite Hn, Hp by set_solver. intros [? ?]; split; [done|].
    apply IH; [..|done]; intros; [apply Hn | apply Hp]; set_solver.
Qed.

(** Any member of a ring may be taken as its head. *)
Lemma ring_rotate h head xs y ys :
  ring h head (xs ++ y :: ys) -> ring h y (ys ++ head :: xs).
Proof.
  unfold ring; rewrite !chain_app. intros [Hnd [H1 H2]]; split; [|done].
  assert (Hp : y :: ys ++ head :: xs ≡ₚ head :: xs ++ y :: ys).
  { rewrite <- !Permutation_middle, (Permutation_app_comm ys xs).
    apply Permutation_swap. }
  by rewrite Hp.
Qed.

Lemma chain_end_alloc h a xs b : chain h a xs b -> is_Some (h !! a) /\ is_Some (h !! b).
Proof.
  revert a; induction xs as [|x xs IH]; intros a; simpl; unfold linked, next_of, prev_of.
  - intros [H1 H2]; destruct (h !! a), (h !! b); by eauto.
  - intros [[H1 _] Hc]; apply IH in Hc as [_ Hb]; split; [|done].
    destruct (h !! a); by eauto.
Qed.

(** ** Effect of the two primitive stores *)

Lemma set_next_ok l v h :
  is_Some (h !! l) ->
  exists h', set_next l v h = Ok h' /\ (forall a, prev_of h' a = prev_of h a) /\
    next_of h' l = Some v /\ (forall a, a <> l -> h' !! a = h !! a) /\
    (forall a, is_Some (h !! a) -> is_Some (h' !! a)).
Proof.
  intros [e He]; unfold set_next, load; rewrite He; simpl; eexists; split; [done|].
  unfold prev_of, next_of; split_and!.
  - intros a; destruct (decide (a = l)) as [->|]; simplify_map_eq; done.
  - by simplify_map_eq.
  - intros; by simplify_map_eq.
  - intros a ?; destruct (decide (a = l)) as [->|]; simplify_map_eq; eauto.
Qed.

Lemma set_prev_ok l v h :
  is_Some (h !! l) ->
  exists h', set_prev l v h = Ok h' /\ (forall a, next_of h' a = next_of h a) /\
    prev_of h' l = Some v /\ (forall a, a <> l -> h' !! a = h !! a) /\
    (forall a, is_Some (h !! a) -> is_Some (h' !! a)).
Proof.
  intros [e He]; unfold set_prev, load; rewrite He; simpl; eexists; split; [done|].
  unfold prev_of, next_of; split_and!.
  - intros a; destruct (decide (a = l)) as [->|]; simplify_map_eq; done.
  - by simplify_map_eq.
  - intros; by simplify_map_eq.
  - intros a ?; destruct (decide (a = l)) as [->|]; simplify_map_eq; eauto.
Qed.

Lemma next_of_agree h h' a : h' !! a = h !! a -> next_of h' a = next_of h a.
Proof. unfold next_of; by intros ->. Qed.
Lemma prev_of_agree h h' a : h' !! a = h !! a -> prev_of h' a = prev_of h a.
Proof. unfold prev_of; by intros ->. Qed.

(** Run the next primitive store of the goal. *)
Ltac store_step :=
  match goal with
  | |- context [set_next ?l ?v ?h] =>
      let h' := fresh "h" in
      destruct (set_next_ok l v h) as (h' & -> & ? & ? & ? & ?); [eauto | simpl]
  | |- context [set_prev ?l ?v ?h] =>
      let h' := fresh "h" in
      destruct (set_prev_ok l v h) as (h' & -> & ? & ? & ? & ?); [eauto | simpl]
  end.

(** Reduce a link of the final store to the store it was written in. *)
Ltac link_solve :=
  repeat first
    [ done
    | congruence
    | match goal with
      | H : forall a, next_of ?h' a = next_of _ a |- context [next_of ?h' _] => rewrite H
      | H : forall a, prev_of ?h' a = prev_of _ a |- context [prev_of ?h' _] => rewrite H
      | H : forall a, a <> _ -> ?h' !! a = _ |- context [next_of ?h' ?x] =>
          rewrite (next_of_agree _ h' x) by (apply H; congruence)
      | H : forall a, a <> _ -> ?h' !! a = _ |- context [prev_of ?h' ?x] =>
          rewrite (prev_of_agree _ h' x) by (apply H; congruence)
      | H : forall a, a <> _ -> ?h' !! a = _ |- context [?h' !! _] =>
          rewrite H by congruence
      end ].

(** ** The two internal routines on known neighbours *)

Lemma __list_add_spec h elm p n :
  is_Some (h !! elm) -> is_Some (h !! p) -> is_Some (h !! n) ->
  elm <> p -> elm <> n ->
  exists h', __list_add elm p n h = Ok h' /\
    linked h' p elm /\ linked h' elm n /\
    (forall a, a <> p -> a <> elm -> next_of h' a = next_of h a) /\
    (forall a, a <> n -> a <> elm -> prev_of h' a = prev_of h a) /\
    (forall a, a <> p -> a <> n -> a <> elm -> h' !! a = h !! a) /\
    (forall a, is_Some (h !! a) -> is_Some (h' !! a)).
Proof.
  intros; unfold __list_add; do 3 (store_step; eauto); store_step; eauto.
  eexists; split; [done|]. unfold linked.
  split_and!; intros; link_solve; eauto.
Qed.

Lemma __list_del_spec h p n :
  is_Some (h !! p) -> is_Some (h !! n) ->
  exists h', __list_del p n h = Ok h' /\
    linked h' p n /\
    (forall a, a <> p -> next_of h' a = next_of h a) /\
    (forall a, a <> n -> prev_of h' a = prev_of h a) /\
    (forall a, a <> p -> a <> n -> h' !! a = h !! a) /\
    (forall a, is_Some (h !! a) -> is_Some (h' !! a)).
Proof.
  intros; unfold __list_del; store_step; eauto; store_step; eauto.
  eexists; split; [done|]. unfold linked.
  split_and!; intros; link_solve; eauto.
Qed.

(** ** The public operations, as operations on the sequence of a ring

    Every specification comes with its frame: entries outside the ring (and
    the entry operated on) keep their links, and no entry disappears. *)

Definition same_off (S : list loc) (h h' : gmap loc list_entry) : Prop :=
  (forall a, a ∉ S -> h' !! a = h !! a) /\ (forall a, is_Some (h !! a) -> is_Some (h' !! a)).

(** A ring whose entries are all off [S] survives any change confined to [S]. *)
Lemma ring_frame S h h' head xs :
  same_off S h h' -> (forall a, a ∈ head :: xs -> a ∉ S) -> ring h head xs -> ring h' head xs.
Proof.
  intros [Hs _] Hd [Hnd Hc]; split; [done|].
  eapply chain_frame; [..|exact Hc]; intros x Hx;
    [apply next_of_agree | apply prev_of_agree]; apply Hs, Hd; set_solver.
Qed.

Lemma ring_next h head xs :
  ring h head xs -> next_of h head = Some (default head (hd_error xs)).
Proof. intros [_ Hc]; destruct xs; simpl in Hc; unfold linked in Hc; tauto. Qed.

Lemma ring_prev h head xs :
  ring h head xs -> prev_of h head = Some (List.last xs head).
Proof.
  intros [_ Hc]; destruct xs as [|x xs' _] using rev_ind; simpl in *; [apply Hc|].
  rewrite last_last. apply chain_app in Hc as [_ Hc]. apply Hc.
Qed.

Lemma ring_alloc h head xs x : ring h head xs -> x ∈ head :: xs -> is_Some (h !! x).
Proof.
  intros [_ Hc] [->|Hx]%elem_of_cons; [apply chain_end_alloc in Hc; tauto|].
  apply list_elem_of_split in Hx as (l1 & l2 & ->).
  apply chain_app in Hc as [Hc _]; apply chain_end_alloc in Hc; tauto.
Qed.

Lemma load_links h a p n :
  prev_of h a = Some p -> next_of h a = Some n -> load h a = Ok (mk_list_entry p n).
Proof.
  unfold prev_of, next_of, load; destruct (h !! a) as [[p' n']|]; simpl; congruence.
Qed.

Lemma list_add_after_head h head xs elm :
  ring h head xs -> is_Some (h !! elm) -> elm ∉ head :: xs ->
  exists h', list_add_after head elm h = Ok h' /\ ring h' head (elm :: xs) /\
    same_off (elm :: head :: xs) h h'.
Proof.
  intros Hr Ha Hni. pose proof (ring_next _ _ _ Hr) as Hn. pose proof (ring_prev _ _ _ Hr) as Hp.
  unfold list_add_after; rewrite (load_links _ _ _ _ Hp Hn); simpl.
  destruct (__list_add_spec h elm head (default head (hd_error xs)))
    as (h' & -> & Hl1 & Hl2 & Hfn & Hfp & Hoff & Hal); auto.
  { eapply ring_alloc; [done|left]. }
  { eapply ring_alloc; [done|]; destruct xs; set_solver. }
  { set_solver. }
  { destruct xs; set_solver. }
  exists h'; split; [done|]; split; [|split; [|done]].
  - destruct Hr as [Hnd Hc]; split.
    { apply NoDup_cons in Hnd as [??]. constructor; [set_solver|]. constructor; set_solver. }
    simpl; split; [done|]. destruct xs as [|x xs]; simpl in *; [done|]; split; [done|].
    eapply chain_frame; [..|apply Hc]; intros a ?; [apply Hfn | apply Hfp];
      inversion Hnd; inversion H3; set_solver.
  - intros a Hna; apply Hoff; destruct xs; set_solver.
Qed.

Lemma list_add_before_head h head xs elm :
  ring h head xs -> is_Some (h !! elm) -> elm ∉ head :: xs ->
  exists h', list_add_before head elm h = Ok h' /\ ring h' head (xs ++ [elm]) /\
    same_off (elm :: head :: xs) h h'.
Proof.
  intros Hr Ha Hni. pose proof (ring_next _ _ _ Hr) as Hn. pose proof (ring_prev _ _ _ Hr) as Hp.
  unfold list_add_before; rewrite (load_links _ _ _ _ Hp Hn); simpl.
  destruct xs as [|x xs' _] using rev_ind.
  - destruct (list_add_after_head h head [] elm) as (h' & Hadd & ? & ?); auto.
    unfold list_add_after in Hadd; rewrite (load_links _ _ _ _ Hp Hn) in Hadd.
    exists h'; simpl in *; auto.
  - rewrite last_last in *.
    destruct (__list_add_spec h elm x head) as (h' & -> & Hl1 & Hl2 & Hfn & Hfp & Hoff & Hal); auto.
    { eapply ring_alloc; [done|]; set_solver. }
    { eapply ring_alloc; [done|left]. }
    { set_solver. }
    { set_solver. }
    exists h'; split; [done|]; split; [|split; [|done]].
    + destruct Hr as [Hnd Hc]; split.
      { rewrite app_comm_cons, NoDup_app; split_and!; auto; [set_solver|apply NoDup_singleton]. }
      apply chain_app; split; [|done]. apply chain_app in Hc as [Hc _].
      apply chain_app; split; [|done].
      rewrite app_comm_cons, NoDup_app in Hnd. destruct Hnd as (Hnd & Hnx & _).
      eapply chain_frame; [..|exact Hc]; intros a Hina.
      * apply Hfn; set_solver.
      * apply Hfp; [|set_solver]. inversion Hnd; set_solver.
    + intros a Hna; apply Hoff; set_solver.
Qed.

Lemma ring_perm_in h head xs y ys : ring h head (xs ++ y :: ys) ->
  forall a, a ∈ y :: ys ++ head :: xs <-> a ∈ head :: xs ++ y :: ys.
Proof. intros _ a; set_solver. Qed.

Lemma same_off_mono S S' h h' :
  (forall a, a ∈ S -> a ∈ S') -> same_off S h h' -> same_off S' h h'.
Proof. intros HS [H1 H2]; split; [|done]; intros a Ha; apply H1; auto. Qed.

Lemma same_off_trans S h1 h2 h3 : same_off S h1 h2 -> same_off S h2 h3 -> same_off S h1 h3.
Proof. intros [A1 B1] [A2 B2]; split; [intros a Ha; by rewrite A2, A1 | auto]. Qed.

(** Inserting before or after any member of a ring. *)
Lemma list_add_before_at h head xs y ys elm :
  ring h head (xs ++ y :: ys) -> is_Some (h !! elm) -> elm ∉ head :: xs ++ y :: ys ->
  exists h', list_add_before y elm h = Ok h' /\ ring h' head (xs ++ elm :: y :: ys) /\
    same_off (elm :: head :: xs ++ y :: ys) h h'.
Proof.
  intros Hr Ha Hni.
  destruct (list_add_before_head h y (ys ++ head :: xs) elm) as (h' & -> & Hr' & Hs);
    [by apply ring_rotate|done|set_solver|].
  exists h'; split; [done|]; split; [|eapply same_off_mono; [|done]; set_solver].
  rewrite <- app_assoc in Hr'; simpl in Hr'. apply ring_rotate in Hr'.
  by rewrite <- app_assoc in Hr'.
Qed.

Lemma list_add_after_at h head xs y ys elm :
  ring h head (xs ++ y :: ys) -> is_Some (h !! elm) -> elm ∉ head :: xs ++ y :: ys ->
  exists h', list_add_after y elm h = Ok h' /\ ring h' head (xs ++ y :: elm :: ys) /\
    same_off (elm :: head :: xs ++ y :: ys) h h'.
Proof.
  intros Hr Ha Hni.
  destruct (list_add_after_head h y (ys ++ head :: xs) elm) as (h' & -> & Hr' & Hs);
    [by apply ring_rotate|done|set_solver|].
  exists h'; split; [done|]; split; [|eapply same_off_mono; [|done]; set_solver].
  rewrite app_comm_cons in Hr'. by apply ring_rotate in Hr'.
Qed.

(** Unlinking the head of a ring leaves the ring of the others. *)
Lemma list_del_head h elm y ys :
  ring h elm (y :: ys) ->
  exists h', list_del elm h = Ok h' /\ ring h' y ys /\ h' !! elm = h !! elm /\
    same_off (y :: ys) h h'.
Proof.
  intros Hr. pose proof (ring_next _ _ _ Hr) as Hn. pose proof (ring_prev _ _ _ Hr) as Hp.
  unfold list_del; rewrite (load_links _ _ _ _ Hp Hn); clear Hp Hn.
  cbn [prev next default from_option hd_error res_bind id].
  remember (List.last (y :: ys) elm) as p eqn:Ep.
  assert (Hpin : p ∈ y :: ys).
  { rewrite Ep. destruct ys as [|w ys' _] using rev_ind; [set_solver|].
    rewrite app_comm_cons, last_last; set_solver. }
  destruct (__list_del_spec h p y) as (h' & -> & Hl & Hfn & Hfp & Hoff & Hal).
  { eapply ring_alloc; [done|]; set_solver. }
  { eapply ring_alloc; [done|]; set_solver. }
  destruct Hr as [Hnd [_ Hc]]. apply NoDup_cons in Hnd as [Hne Hnd].
  exists h'; split_and!; [done| |apply Hoff; intros ->; [done | apply Hne; left]|].
  - split; [done|]. subst p. destruct ys as [|w ys' _] using rev_ind; [done|].
    rewrite app_comm_cons, last_last in *.
    apply chain_app in Hc as [Hc _]. apply chain_app; split; [|done].
    rewrite NoDup_app in Hnd. destruct Hnd as (Hnd & Hnw & _).
    eapply chain_frame; [..|exact Hc]; intros a Hina.
    + apply Hfn; set_solver.
    + apply Hfp. intros ->. inversion Hnd; set_solver.
  - split; [|done]. intros a Hna; apply Hoff; set_solver.
Qed.

Lemma list_init_ok h elm :
  is_Some (h !! elm) ->
  exists h', list_init elm h = Ok h' /\ ring h' elm [] /\ same_off [elm] h h'.
Proof.
  intros; unfold list_init; store_step; store_step; eexists; split; [done|].
  split; [split; [apply NoDup_singleton|]; simpl; unfold linked; split; link_solve|].
  split; [intros a Ha; assert (a <> elm) by set_solver; link_solve | eauto].
Qed.

Lemma list_del_at h head xs elm ys :
  ring h head (xs ++ elm :: ys) ->
  exists h', list_del elm h = Ok h' /\ ring h' head (xs ++ ys) /\ h' !! elm = h !! elm /\
    same_off (head :: xs ++ ys) h h'.
Proof.
  intros Hr. apply ring_rotate in Hr. destruct ys as [|y ys].
  - destruct (list_del_head h elm head xs) as (h' & -> & Hr' & He & Hs); [done|].
    exists h'; rewrite app_nil_r; auto.
  - destruct (list_del_head h elm y (ys ++ head :: xs)) as (h' & -> & Hr' & He & Hs); [done|].
    exists h'; split_and!; auto; [by apply ring_rotate|].
    eapply same_off_mono; [|done]; set_solver.
Qed.

(** [list_add_before]/[list_add_after] (with [list_add]) implement insertion
    into the sequence held by a circular list: called on any member [y] of the
    ring with an allocated entry outside it, they return without fault, the
    ring then holds the sequence with the entry inserted just before/after
    [y], and every entry outside the ring keeps its links. *)
Theorem list_add_spec h head xs y ys elm :
  ring h head (xs ++ y :: ys) -> is_Some (h !! elm) -> elm ∉ head :: xs ++ y :: ys ->
  returns (list_add_before y elm h) (fun h' =>
    ring h' head (xs ++ elm :: y :: ys) /\ same_off (elm :: head :: xs ++ y :: ys) h h') /\
  returns (list_add y elm h) (fun h' =>
    ring h' head (xs ++ y :: elm :: ys) /\ same_off (elm :: head :: xs ++ y :: ys) h h').
Proof.
  intros; split; unfold list_add;
    [apply list_add_before_at | apply list_add_after_at]; auto.
Qed.

(** [list_del_init] implements removal: it returns without fault, the ring
    holds the remaining sequence in the same order, the removed entry is a
    list of its own (so [list_empty] is true on it), and every entry outside
    the ring keeps its links. *)
Theorem list_del_init_spec h head xs elm ys :
  ring h head (xs ++ elm :: ys) ->
  returns (list_del_init elm h) (fun h' =>
    ring h' head (xs ++ ys) /\ ring h' elm [] /\ list_empty elm h' = Ok true /\
    same_off (elm :: head :: xs ++ ys) h h').
Proof.
  intros Hr. destruct (list_del_at _ _ _ _ _ Hr) as (h1 & Hd & Hr1 & He & Hs1).
  assert (Hni : elm ∉ head :: xs ++ ys).
  { destruct Hr as [Hnd _]. rewrite app_comm_cons, NoDup_app in Hnd.
    destruct Hnd as (_ & Hd2 & [Hn2 _]%NoDup_cons). rewrite app_comm_cons, elem_of_app.
    intros [Hi|Hi]; [eapply Hd2; [done | left] | done]. }
  destruct (list_init_ok h1 elm) as (h2 & Hi & Hr2 & Hs2).
  { rewrite He. eapply ring_alloc; [done|]; set_solver. }
  unfold list_del_init; rewrite Hd; simpl; rewrite Hi. eexists; split; [done|]; split_and!; auto.
  - eapply ring_frame; [exact Hs2| |done]. set_solver.
  - unfold list_empty. pose proof (ring_next _ _ _ Hr2) as Hn. pose proof (ring_prev _ _ _ Hr2) as Hp.
    rewrite (load_links _ _ _ _ Hp Hn); simpl. by rewrite Z.eqb_refl.
  - eapply same_off_trans; (eapply same_off_mono; [|done]); set_solver.
Qed.

(** Observations: emptiness and the first and last entries. *)
Lemma list_empty_spec h head xs :
  ring h head xs -> list_empty head h = Ok (bool_decide (xs = [])).
Proof.
  intros Hr. unfold list_empty. pose proof (ring_next _ _ _ Hr) as Hn. pose proof (ring_prev _ _ _ Hr) as Hp.
  rewrite (load_links _ _ _ _ Hp Hn); simpl. destruct xs as [|x xs]; simpl.
  - by rewrite Z.eqb_refl.
  - f_equal. apply Z.eqb_neq. intros ->. destruct Hr as [Hnd _]. inversion Hnd; set_solver.
Qed.

Lemma list_next_spec h head xs :
  ring h head xs -> list_next head h = Ok (default head (hd_error xs)).
Proof.
  intros Hr. unfold list_next. pose proof (ring_next _ _ _ Hr) as Hn. pose proof (ring_prev _ _ _ Hr) as Hp.
  by rewrite (load_links _ _ _ _ Hp Hn).
Qed.

Lemma list_prev_spec h head xs :
  ring h head xs -> list_prev head h = Ok (List.last xs head).
Proof.
  intros Hr. unfold list_prev. pose proof (ring_next _ _ _ Hr) as Hn. pose proof (ring_prev _ _ _ Hr) as Hp.
  by rewrite (load_links _ _ _ _ Hp Hn).
Qed.

(** ** A concrete store: head 1 with entries 2, 3 and a lone entry 4 *)

Definition demo_heap : gmap loc list_entry :=
  <[1 := mk_list_entry 3 2]> (<[2 := mk_list_entry 1 3]>
    (<[3 := mk_list_entry 2 1]> (<[4 := mk_list_entry 4 4]> ∅))).

Lemma demo_ring : ring demo_heap 1 ([2] ++ [3]).
Proof. split; [by apply (bool_decide_unpack _) | by repeat split]. Qed.

Lemma list_add_spec_witness :
  returns (list_add_before 3 4 demo_heap) (fun h' =>
    ring h' 1 [2; 4; 3] /\ same_off [4; 1; 2; 3] demo_heap h') /\
  returns (list_add 3 4 demo_heap) (fun h' =>
    ring h' 1 [2; 3; 4] /\ same_off [4; 1; 2; 3] demo_heap h').
Proof.
  apply (list_add_spec demo_heap 1 [2] 3 [] 4);
    [apply demo_ring | by eexists | by apply (bool_decide_unpack _)].
Defined.

Lemma list_del_init_spec_witness :
  returns (list_del_init 2 demo_heap) (fun h' =>
    ring h' 1 [3] /\ ring h' 2 [] /\ list_empty 2 h' = Ok true /\
    same_off [2; 1; 3] demo_heap h').
Proof. apply (list_del_init_spec demo_heap 1 [] 2 [3]), demo_ring. Defined.
