(* ===== verification/Buddy.v ===== *)
(** * Buddy: the physical page allocator of arch/arm/mm/buddy_pmm.c

    The state is the array of page descriptors ([pages], indexed by page
    number), the free areas (one free list and one counter per order) and the
    zones registered so far.  A free list is the sequence held by the ring of
    the C code (file [Dlist] shows that the ring operations are these sequence
    operations).  Reading or writing a descriptor outside the array is
    [Panic]. *)
From S2P Require Import Prelude.

(** ** Data *)

(** [struct Page]; [page_link] is represented by the free lists below. *)
Record Page := mk_Page { ref : Z; flags : Z; property : Z; zone_num : Z }.

Definition PG_reserved : Z := 0.
Definition PG_property : Z := 1.

Definition PageReserved (p : Page) : bool := Z.testbit (flags p) PG_reserved.
Definition PageProperty (p : Page) : bool := Z.testbit (flags p) PG_property.
Definition with_flags (f : Z) (p : Page) : Page := mk_Page (ref p) f (property p) (zone_num p).
Definition SetPageProperty (p : Page) : Page := with_flags (Z.setbit (flags p) PG_property) p.
Definition ClearPageProperty (p : Page) : Page := with_flags (Z.clearbit (flags p) PG_property) p.
Definition set_property (v : Z) (p : Page) : Page := mk_Page (ref p) (flags p) v (zone_num p).

Record free_area_t := mk_free_area { free_list : list Z; nr_free : Z }.

Record buddy_state := mk_buddy {
  npage : Z;                        (* number of page descriptors *)
  pages : Z -> Page;                (* struct Page *pages *)
  free_area : nat -> free_area_t;   (* free_area[MAX_ORDER + 1] *)
  zones : list Z                    (* zones[0 .. zone_num-1].mem_base *)
}.

Definition MAX_ORDER : nat := 10.
Definition MAX_ZONE_NUM : nat := 10.

Definition pow2 (k : nat) : Z := Z.shiftl 1 (Z.of_nat k).

Definition page_at (s : buddy_state) (p : Z) : res Page :=
  if (0 <=? p) && (p <? npage s) then Ok (pages s p) else Panic.

Definition set_page (p : Z) (pg : Page) (s : buddy_state) : buddy_state :=
  mk_buddy (npage s) (<[p := pg]> (pages s)) (free_area s) (zones s).

Definition upd_page (p : Z) (f : Page -> Page) (s : buddy_state) : res buddy_state :=
  let* pg := page_at s p in Ok (set_page p (f pg) s).

Definition set_area (i : nat) (a : free_area_t) (s : buddy_state) : buddy_state :=
  mk_buddy (npage s) (pages s) (<[i := a]> (free_area s)) (zones s).

(** [nr_free(i) ++], [nr_free(i) --]: unsigned counters. *)
Definition nr_free_add (i : nat) (d : Z) (s : buddy_state) : buddy_state :=
  set_area i (mk_free_area (free_list (free_area s i)) (u32 (nr_free (free_area s i) + d))) s.

(** [list_add(&free_list(i), &(p->page_link))] *)
Definition free_list_add (i : nat) (p : Z) (s : buddy_state) : buddy_state :=
  set_area i (mk_free_area (p :: free_list (free_area s i)) (nr_free (free_area s i))) s.

(** [list_del(&(p->page_link))]: unlinks the page from the list it is on. *)
Definition free_list_del (p : Z) (s : buddy_state) : buddy_state :=
  mk_buddy (npage s) (pages s)
    (fun i => mk_free_area (filter (fun q => q <> p) (free_list (free_area s i)))
                           (nr_free (free_area s i)))
    (zones s).

(** ** Operations *)

Definition buddy_init (s : buddy_state) : buddy_state :=
  mk_buddy (npage s) (pages s)
    (fun i => if (i <=? MAX_ORDER)%nat then mk_free_area [] 0 else free_area s i) (zones s).

(** The descriptor loop of [buddy_init_memmap]. *)
Fixpoint init_pages (cnt : nat) (p zn : Z) (s : buddy_state) : res buddy_state :=
  match cnt with
  | O => Ok s
  | S cnt =>
      let* pg := page_at s p in
      assert! PageReserved pg ;;
      init_pages cnt (p + 1) zn (set_page p (mk_Page 0 0 0 zn) s)
  end.

(** Marking a block free: the body shared by the three places that put a
    block on a free list. *)
Definition add_free_block (p : Z) (order : nat) (s : buddy_state) : res buddy_state :=
  let* s := upd_page p (set_property (Z.of_nat order)) s in
  let* s := upd_page p SetPageProperty s in
  Ok (free_list_add order p (nr_free_add order 1 s)).

(** The carving loop of [buddy_init_memmap]: [while (n != 0)] with the inner
    [while (n >= order_size)]. *)
Fixpoint init_blocks (fuel : nat) (order : nat) (p n : Z) (s : buddy_state) : res buddy_state :=
  if n =? 0 then Ok s else
  match fuel with
  | O => Panic
  | S fuel =>
      if pow2 order <=? n then
        let* s := add_free_block p order s in
        init_blocks fuel order (p + pow2 order) (n - pow2 order) s
      else
        init_blocks fuel (Nat.pred order) p n s
  end.

Definition buddy_init_memmap (base n : Z) (s : buddy_state) : res buddy_state :=
  assert! (0 <? n) && (length (zones s) <? MAX_ZONE_NUM)%nat ;;
  let zn := Z.of_nat (length (zones s)) in
  let* s := init_pages (Z.to_nat n) base zn s in
  let s := mk_buddy (npage s) (pages s) (free_area s) (zones s ++ [base]) in
  init_blocks (Z.to_nat n + S MAX_ORDER)%nat MAX_ORDER base n s.

(** [for (order = 0, order_size = 1; order <= MAX_ORDER; ...)]; the [panic]
    after the loop is [Panic]. *)
Fixpoint getorder_from (cnt : nat) (order : nat) (n : Z) : res nat :=
  match cnt with
  | O => Panic
  | S cnt => if n <=? pow2 order then Ok order else getorder_from cnt (S order) n
  end.

Definition getorder (n : Z) : res nat := getorder_from (S MAX_ORDER) 0 n.

(** [while (cur_order > order)]: give the upper halves back. *)
Fixpoint split_block (cur order : nat) (page : Z) (s : buddy_state) : res buddy_state :=
  match cur with
  | O => Ok s
  | S c =>
      if (order <? cur)%nat then
        let* s := add_free_block (page + pow2 c) c s in
        split_block c order page s
      else Ok s
  end.

(** [for (cur_order = order; cur_order <= MAX_ORDER; cur_order ++)] *)
Fixpoint alloc_from (cnt : nat) (cur order : nat) (s : buddy_state)
  : res (option Z * buddy_state) :=
  match cnt with
  | O => Ok (None, s)
  | S cnt =>
      match free_list (free_area s cur) with
      | [] => alloc_from cnt (S cur) order s
      | page :: _ =>
          let s := free_list_del page (nr_free_add cur (-1) s) in
          let* s := split_block cur order page s in
          let* s := upd_page page ClearPageProperty s in
          Ok (Some page, s)
      end
  end.

Definition buddy_alloc_pages_sub (order : nat) (s : buddy_state) : res (option Z * buddy_state) :=
  assert! (order <=? MAX_ORDER)%nat ;;
  alloc_from (S MAX_ORDER - order) order order s.

Definition page_is_buddy (page : Z) (order : nat) (zn : Z) (s : buddy_state) : bool :=
  if u32 page <? npage s then
    let pg := pages s page in
    if zone_num pg =? zn then
      negb (PageReserved pg) && PageProperty pg && (property pg =? Z.of_nat order)
    else false
  else false.

Definition mem_base (zn : Z) (s : buddy_state) : res Z :=
  match zones s !! Z.to_nat zn with
  | Some b => Ok b
  | None => Panic
  end.

Definition page2idx (page : Z) (s : buddy_state) : res Z :=
  let* pg := page_at s page in
  let* b := mem_base (zone_num pg) s in
  Ok (page - b).

Definition idx2page (zn idx : Z) (s : buddy_state) : res Z :=
  let* b := mem_base zn s in Ok (b + idx).

(** The descriptor loop of [buddy_free_pages_sub]. *)
Fixpoint free_pages_loop (cnt : nat) (p : Z) (s : buddy_state) : res buddy_state :=
  match cnt with
  | O => Ok s
  | S cnt =>
      let* pg := page_at s p in
      assert! negb (PageReserved pg) && negb (PageProperty pg) ;;
      free_pages_loop cnt (p + 1) (set_page p (mk_Page 0 0 (property pg) (zone_num pg)) s)
  end.

(** [while (order < MAX_ORDER)]: [more] is [MAX_ORDER - order]. *)
Fixpoint merge_loop (more order : nat) (page_idx zn : Z) (s : buddy_state)
  : res (nat * Z * buddy_state) :=
  match more with
  | O => Ok (order, page_idx, s)
  | S more =>
      let buddy_idx := Z.lxor page_idx (pow2 order) in
      let* buddy := idx2page zn buddy_idx s in
      if page_is_buddy buddy order zn s then
        let s := free_list_del buddy (nr_free_add order (-1) s) in
        let* s := upd_page buddy ClearPageProperty s in
        merge_loop more (S order) (Z.land page_idx buddy_idx) zn s
      else Ok (order, page_idx, s)
  end.

Definition buddy_free_pages_sub (base : Z) (order : nat) (s : buddy_state) : res buddy_state :=
  let* page_idx := page2idx base s in
  assert! Z.land page_idx (pow2 order - 1) =? 0 ;;
  let* s := free_pages_loop (Z.to_nat (pow2 order)) base s in
  let zn := zone_num (pages s base) in
  let* (order, page_idx, s) := merge_loop (MAX_ORDER - order) order page_idx zn s in
  let* page := idx2page zn page_idx s in
  add_free_block page order s.

(** First loop of [buddy_free_pages], [while (n >= order_size)]; [more] is
    [MAX_ORDER + 1 - order], so [more = 0] is where the [assert] fails. *)
Fixpoint free_up (more order : nat) (base n : Z) (s : buddy_state)
  : res (nat * Z * Z * buddy_state) :=
  if pow2 order <=? n then
    match more with
    | O => Panic
    | S more =>
        let* idx := page2idx base s in
        if negb (Z.land idx (pow2 order) =? 0) then
          let* s := buddy_free_pages_sub base order s in
          free_up more (S order) (base + pow2 order) (n - pow2 order) s
        else free_up more (S order) base n s
    end
  else Ok (order, base, n, s).

(** Second loop, [while (n != 0)]. *)
Fixpoint free_down (fuel order : nat) (base n : Z) (s : buddy_state) : res buddy_state :=
  if n =? 0 then Ok s else
  match fuel with
  | O => Panic
  | S fuel =>
      if n <? pow2 order then free_down fuel (Nat.pred order) base n s
      else
        let* s := buddy_free_pages_sub base order s in
        free_down fuel order (base + pow2 order) (n - pow2 order) s
  end.

Definition buddy_free_pages (base n : Z) (s : buddy_state) : res buddy_state :=
  assert! 0 <? n ;;
  if n =? 1 then buddy_free_pages_sub base 0 s
  else
    let* (order, base, n, s) := free_up (S MAX_ORDER) 0 base n s in
    free_down (Z.to_nat n + order) order base n s.

Definition buddy_alloc_pages (n : Z) (s : buddy_state) : res (option Z * buddy_state) :=
  assert! 0 <? n ;;
  let* order := getorder n in
  let* (page, s) := buddy_alloc_pages_sub order s in
  match page with
  | Some p =>
      if n =? pow2 order then Ok (Some p, s)
      else let* s := buddy_free_pages (p + n) (pow2 order - n) s in Ok (Some p, s)
  | None => Ok (None, s)
  end.

Fixpoint nr_free_sum (orders : nat) (s : buddy_state) : Z :=
  match orders with
  | O => 0
  | S k => u32 (nr_free_sum k s + u32 (nr_free (free_area s k) * pow2 k))
  end.

Definition buddy_nr_free_pages (s : buddy_state) : Z := nr_free_sum (S MAX_ORDER) s.

(** ** Invariant *)

Definition fl (s : buddy_state) (i : nat) : list Z := free_list (free_area s i).

Definition in_block (p : Z) (i : nat) (x : Z) : Prop := p <= x < p + pow2 i.

(** [x] belongs to a block on some free list. *)
Definition free_at (s : buddy_state) (x : Z) : Prop :=
  exists i p, p ∈ fl s i /\ in_block p i x.

(** [n] pages from [p] on belong to zone [zn] and may be handed out. *)
Definition range_ok (s : buddy_state) (zn p n : Z) : Prop :=
  forall x, p <= x < p + n ->
    0 <= x < npage s /\ zone_num (pages s x) = zn /\ PageReserved (pages s x) = false.

(** A block: within one zone, aligned relative to the zone's base. *)
Definition block_ok (s : buddy_state) (p : Z) (i : nat) : Prop :=
  exists zn b, zones s !! Z.to_nat zn = Some b /\ 0 <= b <= p /\ (p - b) mod pow2 i = 0 /\
    range_ok s zn p (pow2 i).

(** The invariant, up to a page [e] whose descriptor is still being written. *)
Record inv_but (e : option Z) (s : buddy_state) : Prop := {
  inv_npage : 0 <= npage s <= 2 ^ 20;
  inv_nr : forall i, (i <= MAX_ORDER)%nat ->
    nr_free (free_area s i) = u32 (Z.of_nat (length (fl s i)));
  inv_nodup : forall i, NoDup (fl s i);
  inv_head : forall i p, p ∈ fl s i ->
    (i <= MAX_ORDER)%nat /\ PageProperty (pages s p) = true /\
    property (pages s p) = Z.of_nat i /\ block_ok s p i;
  inv_marked : forall p, Some p <> e -> 0 <= p < npage s ->
    PageProperty (pages s p) = true -> PageReserved (pages s p) = false ->
    exists i, p ∈ fl s i;
  inv_disj : forall i j p q x, p ∈ fl s i -> q ∈ fl s j ->
    in_block p i x -> in_block q j x -> p = q
}.

Definition buddy_inv (s : buddy_state) : Prop := inv_but None s.

(** What allocation and release never change: the frame of the descriptors. *)
Definition same_zones (s s' : buddy_state) : Prop :=
  npage s' = npage s /\ zones s' = zones s /\
  forall x, zone_num (pages s' x) = zone_num (pages s x) /\
            PageReserved (pages s' x) = PageReserved (pages s x).

(** Number of pages on the free lists. *)
Fixpoint total_from (orders : nat) (s : buddy_state) : Z :=
  match orders with
  | O => 0
  | S k => total_from k s + Z.of_nat (length (fl s k)) * pow2 k
  end.
Definition total_free (s : buddy_state) : Z := total_from (S MAX_ORDER) s.

(** ** Powers of two and alignment *)

Lemma pow2_eq k : pow2 k = 2 ^ Z.of_nat k.
Proof. unfold pow2. rewrite Z.shiftl_mul_pow2; lia. Qed.

Lemma pow2_pos k : 0 < pow2 k.
Proof. rewrite pow2_eq. apply Z.pow_pos_nonneg; lia. Qed.

Lemma pow2_S k : pow2 (S k) = 2 * pow2 k.
Proof. rewrite !pow2_eq, Nat2Z.inj_succ, Z.pow_succ_r; lia. Qed.

Lemma pow2_le i j : (i <= j)%nat -> pow2 i <= pow2 j.
Proof. intros; rewrite !pow2_eq; apply Z.pow_le_mono_r; lia. Qed.

Lemma pow2_max i : (i <= MAX_ORDER)%nat -> pow2 i <= 1024.
Proof. intros H. pose proof (pow2_le i MAX_ORDER H) as Hle. exact Hle. Qed.

Lemma mod_pow2_weaken a i j : (i <= j)%nat -> a mod pow2 j = 0 -> a mod pow2 i = 0.
Proof.
  intros Hij Ha. apply Z.mod_divide; [pose proof (pow2_pos i); lia|].
  apply Z.mod_divide in Ha; [|pose proof (pow2_pos j); lia].
  etrans; [|exact Ha]. rewrite !pow2_eq.
  exists (2 ^ (Z.of_nat j - Z.of_nat i)). rewrite <- Z.pow_add_r; [f_equal|..]; lia.
Qed.

Lemma mod_add_aligned a i : a mod pow2 (S i) = 0 -> (a + pow2 i) mod pow2 i = 0.
Proof.
  intros H. pose proof (pow2_pos i). rewrite <- Zplus_mod_idemp_r, Z.mod_same, Z.add_0_r by lia.
  apply (mod_pow2_weaken _ i (S i)); [lia|done].
Qed.

Lemma land_low_mask a k : Z.land a (pow2 k - 1) = a mod pow2 k.
Proof. rewrite pow2_eq, <- Z.land_ones by lia. f_equal. rewrite Z.ones_equiv; lia. Qed.

(** A multiple of [2^o]: even or odd multiple. *)
Lemma aligned_split a o : a mod pow2 o = 0 ->
  a mod pow2 (S o) = 0 \/ (a - pow2 o) mod pow2 (S o) = 0.
Proof.
  intros H. pose proof (pow2_pos o) as Hp. apply Z.mod_divide in H as [k ->]; [|lia].
  rewrite pow2_S. destruct (Z.Even_or_Odd k) as [[m ->]|[m ->]]; [left|right].
  - replace (2 * m * pow2 o) with (m * (2 * pow2 o)) by lia. apply Z.mod_mul; lia.
  - replace ((2 * m + 1) * pow2 o - pow2 o) with (m * (2 * pow2 o)) by lia. apply Z.mod_mul; lia.
Qed.

Lemma lxor_even m o : Z.lxor (m * pow2 (S o)) (pow2 o) = m * pow2 (S o) + pow2 o.
Proof.
  rewrite pow2_S. replace (m * (2 * pow2 o)) with (Z.shiftl (2 * m) (Z.of_nat o)).
  2:{ rewrite Z.shiftl_mul_pow2, pow2_eq by lia; lia. }
  unfold pow2 at 1. rewrite <- Z.shiftl_lxor, <- Z.add_nocarry_lxor.
  - rewrite !Z.shiftl_mul_pow2 by lia. rewrite pow2_eq; lia.
  - change 1 with (Z.ones 1) at 1. rewrite Z.land_ones by lia.
    change (2 ^ 1) with 2. rewrite Z.mul_comm. apply Z.mod_mul; lia.
Qed.

Lemma testbit_pow2 o i : 0 <= i -> Z.testbit (pow2 o) i = bool_decide (i = Z.of_nat o).
Proof. intros. rewrite pow2_eq, Z.pow2_bits_eqb by lia. by destruct (Z.eqb_spec (Z.of_nat o) i); case_bool_decide. Qed.

Lemma testbit_mul_pow2 m o : Z.testbit (m * pow2 (S o)) (Z.of_nat o) = false.
Proof. rewrite pow2_eq. apply Z.mul_pow2_bits_low; lia. Qed.

Lemma land_even m o : Z.land (m * pow2 (S o)) (m * pow2 (S o) + pow2 o) = m * pow2 (S o).
Proof.
  rewrite <- lxor_even. pose proof (testbit_mul_pow2 m o) as Hb. revert Hb.
  generalize (m * pow2 (S o)); intros a Hb. apply Z.bits_inj'; intros i Hi.
  rewrite Z.land_spec, Z.lxor_spec, testbit_pow2 by done.
  case_bool_decide; [subst; by rewrite Hb | by rewrite xorb_false_r, andb_diag].
Qed.

(** The buddy of an aligned index and the start of the merged block. *)
Lemma buddy_idx_cases a o : a mod pow2 o = 0 ->
  let b := Z.lxor a (pow2 o) in
  (b = a + pow2 o /\ Z.land a b = a /\ a mod pow2 (S o) = 0) \/
  (b = a - pow2 o /\ Z.land a b = b /\ b mod pow2 (S o) = 0).
Proof.
  intros H b. pose proof (pow2_pos (S o)) as Hp. destruct (aligned_split a o H) as [He|Ho].
  - left. pose proof He as He'. apply Z.mod_divide in He as [m ->]; [|lia].
    subst b. rewrite lxor_even, land_even. auto.
  - right. pose proof Ho as Ho'. apply Z.mod_divide in Ho as [m Hm]; [|lia].
    assert (a = m * pow2 (S o) + pow2 o) as -> by lia.
    subst b. rewrite <- lxor_even, Z.lxor_assoc, Z.lxor_nilpotent, Z.lxor_0_r.
    rewrite lxor_even, Z.land_comm, land_even. split_and!; [lia|done|].
    apply Z.mod_mul; lia.
Qed.

Lemma land_bit_aligned a o : a mod pow2 o = 0 ->
  if Z.land a (pow2 o) =? 0 then a mod pow2 (S o) = 0 else (a + pow2 o) mod pow2 (S o) = 0.
Proof.
  intros H. pose proof (pow2_pos o) as Hpo. pose proof (pow2_pos (S o)) as Hp.
  assert (Hb : Z.land a (pow2 o) = if Z.testbit a (Z.of_nat o) then pow2 o else 0).
  { apply Z.bits_inj'; intros i Hi. rewrite Z.land_spec, testbit_pow2 by done.
    case_bool_decide; [subst; rewrite andb_true_r | rewrite andb_false_r].
    - destruct (Z.testbit a _); [|by rewrite Z.bits_0]. rewrite testbit_pow2 by done. by case_bool_decide.
    - destruct (Z.testbit a _); [|by rewrite Z.bits_0]. rewrite testbit_pow2 by done. by case_bool_decide. }
  rewrite Hb. destruct (aligned_split a o H) as [He|Ho].
  - pose proof He as He'. apply Z.mod_divide in He as [m ->]; [|lia].
    by rewrite testbit_mul_pow2, Z.eqb_refl.
  - apply Z.mod_divide in Ho as [m Hm]; [|lia].
    assert (a = m * pow2 (S o) + pow2 o) as -> by lia.
    assert (Z.testbit (m * pow2 (S o) + pow2 o) (Z.of_nat o) = true) as ->.
    { rewrite <- lxor_even, Z.lxor_spec, testbit_mul_pow2, testbit_pow2 by lia.
      by rewrite bool_decide_true. }
    destruct (Z.eqb_spec (pow2 o) 0); [lia|].
    replace (m * pow2 (S o) + pow2 o + pow2 o) with ((m + 1) * pow2 (S o)) by (rewrite pow2_S; lia).
    apply Z.mod_mul; lia.
Qed.

(** ** Descriptor bits *)

Lemma Reserved_Set p : PageReserved (SetPageProperty p) = PageReserved p.
Proof. unfold PageReserved, SetPageProperty, PG_reserved, PG_property; cbn [flags with_flags]. by rewrite Z.setbit_neq. Qed.
Lemma Property_Set p : PageProperty (SetPageProperty p) = true.
Proof. unfold PageProperty, SetPageProperty, PG_reserved, PG_property; cbn [flags with_flags]. by rewrite Z.setbit_eq. Qed.
Lemma Reserved_Clear p : PageReserved (ClearPageProperty p) = PageReserved p.
Proof. unfold PageReserved, ClearPageProperty, PG_reserved, PG_property; cbn [flags with_flags]. by rewrite Z.clearbit_neq. Qed.
Lemma Property_Clear p : PageProperty (ClearPageProperty p) = false.
Proof. unfold PageProperty, ClearPageProperty, PG_reserved, PG_property; cbn [flags with_flags]. by rewrite Z.clearbit_eq. Qed.

(** ** Frames *)

Lemma same_zones_refl s : same_zones s s.
Proof. by repeat split. Qed.

Lemma same_zones_trans s1 s2 s3 : same_zones s1 s2 -> same_zones s2 s3 -> same_zones s1 s3.
Proof.
  intros (A1 & B1 & C1) (A2 & B2 & C2); split_and!; [congruence..|].
  intros x; destruct (C1 x), (C2 x); split; congruence.
Qed.

Lemma range_ok_frame s s' zn p n : same_zones s s' -> range_ok s zn p n -> range_ok s' zn p n.
Proof.
  intros (A & _ & C) H x Hx. destruct (C x) as [-> ->]. rewrite A. by apply H.
Qed.

Lemma block_ok_frame s s' p i : same_zones s s' -> block_ok s p i -> block_ok s' p i.
Proof.
  intros Hs (zn & b & Hz & Hb & Hm & Hr). exists zn, b.
  pose proof Hs as (_ & B & _). rewrite B. split_and!; try done; [lia..|].
  by eapply range_ok_frame.
Qed.

Lemma block_ok_halves s p c : block_ok s p (S c) -> block_ok s p c /\ block_ok s (p + pow2 c) c.
Proof.
  intros (zn & b & Hz & Hb & Hm & Hr). pose proof (pow2_pos c).
  split; exists zn, b; split_and!; try done; try lia.
  - apply (mod_pow2_weaken _ c (S c)); [lia|done].
  - intros x Hx; apply Hr; rewrite pow2_S; lia.
  - replace (p + pow2 c - b) with (p - b + pow2 c) by lia. by apply mod_add_aligned.
  - intros x Hx; apply Hr; rewrite pow2_S; lia.
Qed.

Lemma in_block_head p i : in_block p i p.
Proof. unfold in_block. pose proof (pow2_pos i); lia. Qed.

Lemma not_free_not_head s p i : ~ free_at s p -> p ∉ fl s i.
Proof. intros Hn Hin; apply Hn; exists i, p; split; [done | apply in_block_head]. Qed.

Lemma block_ok_page s p i : block_ok s p i -> 0 <= p < npage s.
Proof. intros (zn & b & _ & _ & _ & Hr). apply Hr. pose proof (pow2_pos i); lia. Qed.

Lemma page_at_ok s p : 0 <= p < npage s -> page_at s p = Ok (pages s p).
Proof. intros; unfold page_at. destruct (0 <=? p) eqn:?, (p <? npage s) eqn:?; simpl; lia || done. Qed.

Lemma upd_page_ok s p f : 0 <= p < npage s -> upd_page p f s = Ok (set_page p (f (pages s p)) s).
Proof. intros; unfold upd_page. by rewrite page_at_ok. Qed.

Lemma total_from_upd s s' i d n :
  (forall j, j <> i -> fl s' j = fl s j) ->
  Z.of_nat (length (fl s' i)) = Z.of_nat (length (fl s i)) + d ->
  total_from n s' = total_from n s + (if (i <? n)%nat then d * pow2 i else 0).
Proof.
  intros Hne Hi. induction n as [|n IH]; [done|]. simpl. rewrite IH.
  destruct (decide (n = i)) as [->|Hn].
  - rewrite Hi. destruct (Nat.ltb_spec i i), (Nat.ltb_spec i (S i)); lia.
  - rewrite (Hne n) by done. destruct (Nat.ltb_spec i n), (Nat.ltb_spec i (S n)); lia.
Qed.

Lemma total_free_upd s s' i d :
  (i <= MAX_ORDER)%nat -> (forall j, j <> i -> fl s' j = fl s j) ->
  Z.of_nat (length (fl s' i)) = Z.of_nat (length (fl s i)) + d ->
  total_free s' = total_free s + d * pow2 i.
Proof.
  intros Hi Hne Hd. unfold total_free. rewrite (total_from_upd s s' i d) by done.
  destruct (Nat.ltb_spec i (S MAX_ORDER)); lia.
Qed.

(** The invariant only reads the reserved and property bits, the orders and
    the zone numbers: changes elsewhere in the descriptors keep it. *)
Lemma inv_pages e s s' :
  npage s' = npage s -> zones s' = zones s -> free_area s' = free_area s ->
  (forall x, zone_num (pages s' x) = zone_num (pages s x) /\
             PageReserved (pages s' x) = PageReserved (pages s x) /\
             PageProperty (pages s' x) = PageProperty (pages s x) /\
             property (pages s' x) = property (pages s x)) ->
  inv_but e s -> inv_but e s'.
Proof.
  intros Hn Hz Hf Hp I.
  assert (Hfl : forall i, fl s' i = fl s i) by (intros; unfold fl; by rewrite Hf).
  assert (Hs : same_zones s s') by (split_and!; [done..|]; intros x; split; apply Hp).
  split.
  - rewrite Hn; apply I.
  - intros i Hi; rewrite Hfl, Hf; by apply I.
  - intros i; rewrite Hfl; apply I.
  - intros i p; rewrite Hfl; intros Hin. destruct (inv_head _ _ I i p Hin) as (A & B & C & D).
    destruct (Hp p) as (_ & _ & -> & ->). split_and!; auto. by eapply block_ok_frame.
  - intros p He. rewrite Hn. destruct (Hp p) as (_ & -> & -> & _). intros.
    destruct (inv_marked _ _ I p) as [i Hi]; auto. exists i; by rewrite Hfl.
  - intros i j p q x; rewrite !Hfl; apply I.
Qed.

(** ** Putting a block on a free list, and taking it off *)

Lemma add_free_block_ok e s p i :
  inv_but e s -> Some p <> e -> (i <= MAX_ORDER)%nat -> block_ok s p i ->
  (forall x, in_block p i x -> ~ free_at s x) ->
  returns (add_free_block p i s) (fun s' =>
    inv_but e s' /\ same_zones s s' /\
    (forall x, free_at s' x <-> free_at s x \/ in_block p i x) /\
    total_free s' = total_free s + pow2 i).
Proof.
  intros I Hpe Hi Hb Hnf. pose proof (block_ok_page _ _ _ Hb) as Hp.
  unfold add_free_block. rewrite upd_page_ok by done. cbn [res_bind].
  rewrite upd_page_ok by done. cbn [res_bind]. eexists; split; [done|].
  set (s' := free_list_add _ _ _).
  set (pg' := SetPageProperty (set_property (Z.of_nat i) (pages s p))).
  assert (Hpp : pages s' p = pg').
  { unfold s'; cbn. by rewrite !fn_lookup_insert. }
  assert (Hpn : forall x, x <> p -> pages s' x = pages s x).
  { intros x Hx. unfold s'; cbn. by rewrite !fn_lookup_insert_ne. }
  assert (Hfi : fl s' i = p :: fl s i).
  { unfold s', fl; cbn. by rewrite !fn_lookup_insert. }
  assert (Hfj : forall j, j <> i -> fl s' j = fl s j).
  { intros j Hj. unfold s', fl; cbn. by rewrite !fn_lookup_insert_ne. }
  assert (Hin : forall j q, q ∈ fl s' j <-> q ∈ fl s j \/ (q = p /\ j = i)).
  { intros j q. destruct (decide (j = i)) as [->|]; [rewrite Hfi, elem_of_cons | rewrite Hfj by done]; naive_solver. }
  assert (Hz : same_zones s s').
  { split_and!; [done..|]. intros x. destruct (decide (x = p)) as [->|Hx].
    - rewrite Hpp. unfold pg'. by rewrite Reserved_Set.
    - by rewrite Hpn. }
  assert (Hpni : forall j, p ∉ fl s j).
  { intros j. apply not_free_not_head, Hnf, in_block_head. }
  split_and!; [split|done| |].
  - apply I.
  - intros j Hj. destruct (decide (j = i)) as [->|Hne].
    + rewrite Hfi. unfold s'; cbn. rewrite !fn_lookup_insert; cbn.
      rewrite (inv_nr _ _ I i Hj), u32_add_l. f_equal. unfold fl. lia.
    + rewrite (Hfj j Hne). unfold s'; cbn. rewrite !fn_lookup_insert_ne by done. by apply I.
  - intros j. destruct (decide (j = i)) as [->|Hne].
    + rewrite Hfi. apply NoDup_cons; split; [done|apply I].
    + rewrite (Hfj j Hne). apply I.
  - intros j q [Hq|[-> ->]]%Hin.
    + destruct (inv_head _ _ I j q Hq) as (A & B & C & D).
      rewrite Hpn by (intros ->; by apply (Hpni j)). split_and!; auto. by eapply block_ok_frame.
    + rewrite Hpp. unfold pg'. rewrite Property_Set. split_and!; auto. by eapply block_ok_frame.
  - intros q He Hq. destruct (decide (q = p)) as [->|Hne].
    + intros _ _. exists i. apply Hin; auto.
    + rewrite Hpn by done. intros HP HR. destruct (inv_marked _ _ I q He Hq HP HR) as [j Hj].
      exists j. apply Hin; auto.
  - intros j k q r x [Hq|[-> ->]]%Hin [Hr|[-> ->]]%Hin Hx1 Hx2; auto.
    + by eapply I.
    + exfalso. apply (Hnf x Hx2). exists j, q; auto.
    + exfalso. apply (Hnf x Hx1). exists k, r; auto.
  - intros x. split.
    + intros (j & q & [Hq|[-> ->]]%Hin & Hx); [left; by exists j, q | by right].
    + intros [(j & q & Hq & Hx)|Hx]; [exists j, q | exists i, p]; rewrite Hin; auto.
  - rewrite (total_free_upd s s' i 1) by (auto; rewrite Hfi; simpl; lia). lia.
Qed.

Lemma unlink_ok s p i :
  buddy_inv s -> p ∈ fl s i ->
  let s' := free_list_del p (nr_free_add i (-1) s) in
  inv_but (Some p) s' /\ same_zones s s' /\ pages s' = pages s /\
  (forall x, free_at s' x <-> free_at s x /\ ~ in_block p i x) /\
  total_free s' = total_free s - pow2 i.
Proof.
  intros I Hp s'. destruct (inv_head _ _ I i p Hp) as (Hi & HP & Hpr & Hb).
  assert (Hfl : forall j, fl s' j = filter (fun q => q <> p) (fl s j)).
  { intros j. unfold s', fl; cbn. destruct (decide (j = i)) as [->|]; by rewrite ?fn_lookup_insert, ?fn_lookup_insert_ne. }
  assert (Hpj : forall j, j <> i -> p ∉ fl s j).
  { intros j Hj Hin. apply (inv_head _ _ I) in Hin as (_ & _ & H & _). lia. }
  assert (Hin : forall j q, q ∈ fl s' j <-> q ∈ fl s j /\ q <> p).
  { intros j q. rewrite Hfl, list_elem_of_filter. tauto. }
  assert (Hz : same_zones s s') by by repeat split.
  assert (Hfj : forall j, j <> i -> fl s' j = fl s j).
  { intros j Hj. rewrite Hfl. by apply filter_ne_id, Hpj. }
  assert (Hlen : Z.of_nat (length (fl s' i)) = Z.of_nat (length (fl s i)) + -1).
  { rewrite Hfl, length_filter_ne by (auto; apply I).
    destruct (fl s i) eqn:E; [by apply not_elem_of_nil in Hp|]. simpl; lia. }
  split_and!; [split|done|done| |].
  - apply I.
  - intros j Hj. destruct (decide (j = i)) as [->|Hne].
    + rewrite Hlen. unfold s'; cbn. rewrite !fn_lookup_insert; cbn.
      by rewrite (inv_nr _ _ I i Hj), u32_add_l.
    + rewrite (Hfj j Hne). unfold s'; cbn. rewrite !fn_lookup_insert_ne by done. by apply I.
  - intros j. rewrite Hfl. apply NoDup_filter, I.
  - intros j q [Hq _]%Hin. destruct (inv_head _ _ I j q Hq) as (A & B & C & D).
    split_and!; auto.
  - intros q He Hq HPq HRq. destruct (inv_marked _ _ I q) as [j Hj]; auto.
    exists j. apply Hin; split; [done | congruence].
  - intros j k q r x [Hq _]%Hin [Hr _]%Hin. by apply I.
  - intros x. split.
    + intros (j & q & [Hq Hne]%Hin & Hx); split; [by exists j, q|].
      intros Hx'. apply Hne. by eapply I.
    + intros [(j & q & Hq & Hx) Hn]. exists j, q. rewrite Hin. split_and!; auto.
      intros ->. destruct (inv_head _ _ I j p Hq) as (_ & _ & H & _).
      apply Hn. by assert (i = j) as -> by lia.
  - rewrite (total_free_upd s s' i (-1)) by auto. lia.
Qed.

Lemma clear_ok s p :
  inv_but (Some p) s -> 0 <= p < npage s -> (forall i, p ∉ fl s i) ->
  returns (upd_page p ClearPageProperty s) (fun s' =>
    buddy_inv s' /\ same_zones s s' /\ (forall i, fl s' i = fl s i)).
Proof.
  intros I Hp Hni. rewrite upd_page_ok by done. eexists; split; [done|].
  set (s' := set_page _ _ _).
  assert (Hpp : pages s' p = ClearPageProperty (pages s p)).
  { unfold s'; cbn. by rewrite fn_lookup_insert. }
  assert (Hpn : forall x, x <> p -> pages s' x = pages s x).
  { intros x Hx. unfold s'; cbn. by rewrite fn_lookup_insert_ne. }
  assert (Hz : same_zones s s').
  { split_and!; [done..|]. intros x. destruct (decide (x = p)) as [->|Hx].
    - rewrite Hpp. by rewrite Reserved_Clear.
    - by rewrite Hpn. }
  split_and!; [split|done|done]; try apply I.
  - intros j q Hq. assert (q <> p) by (intros ->; by apply (Hni j)).
    destruct (inv_head _ _ I j q Hq) as (A & B & C & D). rewrite Hpn by done.
    split_and!; auto. by eapply block_ok_frame.
  - intros q _ Hq. destruct (decide (q = p)) as [->|Hne].
    + rewrite Hpp, Property_Clear. done.
    + rewrite Hpn by done. apply I; [congruence | done].
Qed.

Lemma free_at_fl s s' x : (forall i, fl s' i = fl s i) -> free_at s' x <-> free_at s x.
Proof. intros H; unfold free_at. setoid_rewrite H. done. Qed.

Lemma total_free_fl s s' : (forall i, fl s' i = fl s i) -> total_free s' = total_free s.
Proof.
  intros H. rewrite (total_free_upd s s' 0 0) by (auto with lia; rewrite H; lia). lia.
Qed.

(** ** Allocation *)

Lemma split_block_ok cur : forall order page s,
  inv_but (Some page) s -> (order <= cur)%nat -> (cur <= MAX_ORDER)%nat ->
  block_ok s page cur -> (forall x, in_block page cur x -> ~ free_at s x) ->
  returns (split_block cur order page s) (fun s' =>
    inv_but (Some page) s' /\ same_zones s s' /\
    (forall x, free_at s' x <-> free_at s x \/ page + pow2 order <= x < page + pow2 cur) /\
    total_free s' = total_free s + pow2 cur - pow2 order).
Proof.
  induction cur as [|c IH]; intros order page s I Hoc Hc Hb Hnf; simpl.
  - assert (order = 0%nat) as -> by lia. apply returns_ok.
    split_and!; [done|apply same_zones_refl| |lia]. intros x. intuition lia.
  - destruct (Nat.ltb_spec order (S c)) as [Hlt|Hge].
    2:{ assert (order = S c) as -> by lia. apply returns_ok.
        split_and!; [done|apply same_zones_refl| |lia]. intros x. intuition lia. }
    destruct (block_ok_halves _ _ _ Hb) as [Hb1 Hb2]. pose proof (pow2_pos c).
    eapply returns_bind.
    { apply (add_free_block_ok (Some page) s (page + pow2 c) c); auto; [|lia|].
      - intros [=]; lia.
      - intros x Hx. apply Hnf. unfold in_block in *. rewrite pow2_S; lia. }
    intros s1 (I1 & Z1 & F1 & T1). eapply returns_mono.
    { apply (IH order page s1); auto; [lia|lia|by eapply block_ok_frame|].
      intros x Hx Hf. apply F1 in Hf as [Hf|Hf].
      - eapply Hnf; [|done]. unfold in_block in *. rewrite pow2_S; lia.
      - unfold in_block in *; lia. }
    intros s2 (I2 & Z2 & F2 & T2). split_and!; auto.
    + by eapply same_zones_trans.
    + intros x. rewrite F2, F1. unfold in_block. rewrite pow2_S.
      pose proof (pow2_le order c ltac:(lia)). intuition lia.
    + rewrite T2, T1, pow2_S; lia.
Qed.

(** The block [p .. p + 2^order) leaves the free lists; nothing else moves. *)
Definition took (s s' : buddy_state) (p n : Z) : Prop :=
  buddy_inv s' /\ same_zones s s' /\
  (forall x, p <= x < p + n -> free_at s x) /\
  (forall x, free_at s' x <-> free_at s x /\ ~ (p <= x < p + n)) /\
  total_free s' = total_free s - n.

Lemma alloc_from_ok cnt : forall cur order s,
  buddy_inv s -> (order <= cur)%nat -> (cur + cnt = S MAX_ORDER)%nat ->
  returns (alloc_from cnt cur order s) (fun '(r, s') =>
    match r with
    | Some p => took s s' p (pow2 order) /\ block_ok s' p order
    | None => s' = s /\ (forall i, (cur <= i)%nat -> fl s i = [])
    end).
Proof.
  induction cnt as [|cnt IH]; intros cur order s I Ho Hcnt; simpl.
  - apply returns_ok; split; [done|]. intros i Hi. destruct (fl s i) as [|p l] eqn:E; [done|].
    destruct (inv_head _ _ I i p) as [? _]; [rewrite E; left|lia].
  - destruct (free_list (free_area s cur)) as [|page rest] eqn:E.
    { eapply returns_mono; [apply IH; auto; lia|]. intros [[p|] s'] H; [done|].
      destruct H as [-> Hno]; split; [done|]. intros i Hi.
      destruct (decide (i = cur)) as [->|]; [done|]. apply Hno; lia. }
    assert (Hp : page ∈ fl s cur) by (unfold fl; rewrite E; left).
    destruct (inv_head _ _ I cur page Hp) as (Hc & _ & _ & Hb).
    destruct (unlink_ok s page cur I Hp) as (I1 & Z1 & _ & F1 & T1).
    set (s1 := free_list_del page (nr_free_add cur (-1) s)) in *.
    pose proof (pow2_le order cur Ho) as Hle. pose proof (pow2_pos order).
    eapply returns_bind.
    { apply (split_block_ok cur order page s1); auto.
      intros x Hx Hf. apply F1 in Hf; tauto. }
    intros s2 (I2 & Z2 & F2 & T2).
    assert (Hb2 : block_ok s2 page cur) by (eapply block_ok_frame; [|done]; by eapply same_zones_trans).
    assert (Hnf2 : ~ free_at s2 page).
    { rewrite F2, F1. pose proof (in_block_head page cur). intros [[_ ?]|?]; [done|lia]. }
    eapply returns_bind.
    { apply (clear_ok s2 page); auto; [by eapply block_ok_page|].
      intros i. by apply not_free_not_head. }
    intros s3 (I3 & Z3 & F3). apply returns_ok. split; [split_and!|].
    + done.
    + eapply same_zones_trans; [exact Z1|]. by eapply same_zones_trans.
    + intros x Hx. exists cur, page. split; [done|]. unfold in_block; lia.
    + intros x. rewrite (free_at_fl _ _ _ F3), F2, F1. unfold in_block.
      split; [|destruct (decide (page + pow2 order <= x < page + pow2 cur)); [auto|]].
      * intros [[Hf Hn]|Hx]; [split; [done|lia]|]. split; [exists cur, page; split; [done|unfold in_block; lia]|lia].
      * intros [Hf Hn]. left; split; [done|lia].
    + rewrite (total_free_fl _ _ F3), T2, T1. lia.
    + eapply block_ok_frame; [exact Z3|]. clear -Hb2 Ho.
      induction Ho as [|c Ho IH]; [done|]. apply IH, block_ok_halves, Hb2.
Qed.

(** ** Release *)

Lemma page_is_buddy_in s p o zn :
  buddy_inv s -> 0 <= p < 2 ^ 32 -> page_is_buddy p o zn s = true ->
  p ∈ fl s o /\ zone_num (pages s p) = zn.
Proof.
  intros I Hp. unfold page_is_buddy. rewrite u32_small by done.
  destruct (Z.ltb_spec p (npage s)) as [Hlt|]; [|done].
  destruct (Z.eqb_spec (zone_num (pages s p)) zn) as [Hz|]; [|done].
  rewrite !andb_true_iff, negb_true_iff, Z.eqb_eq. intros [[HR HP] Ho]. split; [|done].
  destruct (inv_marked _ _ I p) as [i Hi]; [done|lia|done..|].
  destruct (inv_head _ _ I i p Hi) as (_ & _ & Hpr & _).
  by assert (o = i) as -> by lia.
Qed.

(** State of the merge: the block at [b + idx] of the given order is whole,
    aligned and not on a free list. *)
Record merging (zn b : Z) (order : nat) (idx : Z) (s : buddy_state) : Prop := {
  mg_inv : buddy_inv s;
  mg_order : (order <= MAX_ORDER)%nat;
  mg_zone : zones s !! Z.to_nat zn = Some b;
  mg_base : 0 <= b;
  mg_idx : 0 <= idx;
  mg_align : idx mod pow2 order = 0;
  mg_range : range_ok s zn (b + idx) (pow2 order);
  mg_off : forall x, in_block (b + idx) order x -> ~ free_at s x
}.

Lemma merging_step zn b order idx s :
  merging zn b order idx s -> (order < MAX_ORDER)%nat ->
  let bidx := Z.lxor idx (pow2 order) in
  page_is_buddy (b + bidx) order zn s = true ->
  returns (upd_page (b + bidx) ClearPageProperty
             (free_list_del (b + bidx) (nr_free_add order (-1) s))) (fun s' =>
    merging zn b (S order) (Z.land idx bidx) s' /\ same_zones s s' /\
    (forall x, free_at s' x \/ in_block (b + Z.land idx bidx) (S order) x <->
               free_at s x \/ in_block (b + idx) order x) /\
    total_free s' + pow2 (S order) = total_free s + pow2 order).
Proof.
  intros [I Ho Hz Hb Hi Ha Hr Hoff] Hlt bidx HB.
  pose proof (pow2_pos order) as Hp2. pose proof (pow2_max order Ho) as Hpm. pose proof (pow2_S order) as HS.
  assert (Hc : (bidx = idx + pow2 order /\ Z.land idx bidx = idx /\ idx mod pow2 (S order) = 0) \/
    (bidx = idx - pow2 order /\ Z.land idx bidx = bidx /\ bidx mod pow2 (S order) = 0))
    by exact (buddy_idx_cases idx order Ha).
  clearbody bidx.
  assert (Hb0 : 0 <= bidx).
  { destruct Hc as [(-> & _)|(Hc & _ & Hm)]; [lia|].
    apply Z.mod_divide in Hm as [k Hk]; [|lia].
    rewrite HS in Hk. destruct (decide (0 <= k)); nia. }
  assert (Hpg : 0 <= b + idx < npage s) by (apply Hr; lia). pose proof (inv_npage _ _ I) as Hnp.
  destruct (page_is_buddy_in s (b + bidx) order zn) as [Hin Hzn]; auto; [destruct Hc as [(-> & _)|(-> & _)]; lia|].
  destruct (inv_head _ _ I _ _ Hin) as (_ & _ & _ & (zn' & b' & Hz' & Hb' & Ha' & Hr')).
  assert (zn' = zn) as ->.
  { destruct (Hr' (b + bidx)) as (_ & H & _); [lia|congruence]. }
  assert (b' = b) as -> by congruence.
  destruct (unlink_ok s (b + bidx) order I Hin) as (I1 & Z1 & _ & F1 & T1).
  set (s1 := free_list_del _ _) in *.
  eapply returns_mono.
  { apply (clear_ok s1 (b + bidx)); auto; [apply Hr'; lia|].
    intros i. apply not_free_not_head. rewrite F1. pose proof (in_block_head (b + bidx) order); tauto. }
  intros s2 (I2 & Z2 & F2).
  assert (Z12 : same_zones s s2) by by eapply same_zones_trans.
  assert (Hrange : range_ok s zn (b + Z.land idx bidx) (pow2 (S order))).
  { intros x Hx. destruct Hc as [(-> & Hl & _)|(-> & Hl & _)]; rewrite Hl in Hx;
      destruct (decide (in_block (b + idx) order x)) as [Hx'|Hx']; unfold in_block in Hx';
      (apply Hr; lia) || (apply Hr'; lia). }
  assert (HF : forall x, free_at s2 x <-> free_at s x /\ ~ in_block (b + bidx) order x).
  { intros x. rewrite (free_at_fl _ _ _ F2). apply F1. }
  assert (Hbl : forall x, in_block (b + Z.land idx bidx) (S order) x <->
                 in_block (b + idx) order x \/ in_block (b + bidx) order x).
  { intros x. unfold in_block. destruct Hc as [(-> & -> & _)|(-> & -> & _)]; rewrite HS; lia. }
  split_and!; [split|done| |].
  - done.
  - lia.
  - destruct Z12 as (_ & -> & _); done.
  - done.
  - destruct Hc as [(_ & -> & _)|(_ & -> & _)]; done.
  - destruct Hc as [(_ & -> & ?)|(_ & -> & ?)]; done.
  - by eapply range_ok_frame.
  - intros x Hx Hf. apply HF in Hf as [Hf Hn]. apply Hbl in Hx as [Hx|Hx]; [by eapply Hoff | done].
  - intros x. rewrite HF, Hbl. destruct (decide (in_block (b + bidx) order x)) as [Hx|Hx]; [|tauto].
    split; [|tauto]. intros _. left. by exists order, (b + bidx).
  - rewrite (total_free_fl _ _ F2), T1. lia.
Qed.

Lemma merge_loop_ok more : forall order idx zn b s,
  merging zn b order idx s -> (order + more = MAX_ORDER)%nat ->
  returns (merge_loop more order idx zn s) (fun '(o', idx', s') =>
    merging zn b o' idx' s' /\ same_zones s s' /\
    (forall x, free_at s' x \/ in_block (b + idx') o' x <->
               free_at s x \/ in_block (b + idx) order x) /\
    total_free s' + pow2 o' = total_free s + pow2 order).
Proof.
  induction more as [|more IH]; intros order idx zn b s M Hm; cbn [merge_loop].
  - apply returns_ok; auto using same_zones_refl.
  - unfold idx2page, mem_base. rewrite (mg_zone _ _ _ _ _ M). cbn [res_bind].
    destruct (page_is_buddy _ _ _ _) eqn:HB; [|apply returns_ok; by auto using same_zones_refl].
    eapply returns_bind; [apply merging_step; eauto; lia|].
    intros s1 (M1 & Z1 & F1 & T1). eapply returns_mono; [apply (IH _ _ zn b); auto; lia|].
    intros [[o' idx'] s2] (M2 & Z2 & F2 & T2). split_and!; auto; [by eapply same_zones_trans| |lia].
    intros x. by rewrite F2, F1.
Qed.

(** [n] pages from [p] on, in zone [zn] with base [b], none of them free. *)
Definition in_use (zn b : Z) (s : buddy_state) (p n : Z) : Prop :=
  zones s !! Z.to_nat zn = Some b /\ 0 <= b <= p /\ range_ok s zn p n /\
  (forall x, p <= x < p + n -> ~ free_at s x).

(** The range [p .. p + n) joins the free pages; nothing else moves. *)
Definition gave (s s' : buddy_state) (p n : Z) : Prop :=
  buddy_inv s' /\ same_zones s s' /\
  (forall x, free_at s' x <-> free_at s x \/ p <= x < p + n) /\
  total_free s' = total_free s + n.

Lemma gave_trans s1 s2 s3 p n m :
  0 <= n -> 0 <= m -> gave s1 s2 p n -> gave s2 s3 (p + n) m -> gave s1 s3 p (n + m).
Proof.
  intros Hn Hm (I1 & Z1 & F1 & T1) (I2 & Z2 & F2 & T2).
  split_and!; auto; [by eapply same_zones_trans| |lia].
  intros x. rewrite F2, F1. intuition lia.
Qed.

Lemma gave_nil s p : buddy_inv s -> gave s s p 0.
Proof. intros; split_and!; auto using same_zones_refl; [|lia]. intros x; intuition lia. Qed.

Lemma in_use_rest zn b s s' p n m :
  0 <= n -> 0 <= m -> gave s s' p n -> in_use zn b s p (n + m) -> in_use zn b s' (p + n) m.
Proof.
  intros Hn Hm (I & Z & F & _) (Hz & Hb & Hr & Hnf).
  pose proof Z as (_ & HZ & _). rewrite <- HZ in Hz. split_and!; auto; [lia..| |].
  - eapply range_ok_frame; [done|]. intros x Hx; apply Hr; lia.
  - intros x Hx. rewrite F. intros [Hf|?]; [eapply Hnf; [|done]; lia | lia].
Qed.

Lemma in_use_sub zn b s p n m : m <= n -> in_use zn b s p n -> in_use zn b s p m.
Proof.
  intros Hm (Hz & Hb & Hr & Hnf); split_and!; auto; [lia..| |]; intros x Hx; [apply Hr | apply Hnf]; lia.
Qed.

Lemma free_pages_loop_ok cnt : forall p s,
  buddy_inv s ->
  (forall x, p <= x < p + Z.of_nat cnt ->
     0 <= x < npage s /\ PageReserved (pages s x) = false /\ ~ free_at s x) ->
  returns (free_pages_loop cnt p s) (fun s' =>
    buddy_inv s' /\ same_zones s s' /\ (forall i, fl s' i = fl s i)).
Proof.
  induction cnt as [|cnt IH]; intros p s I H; cbn [free_pages_loop].
  - apply returns_ok; auto using same_zones_refl.
  - destruct (H p) as (Hp & HR & Hnf); [lia|]. rewrite page_at_ok by done. cbn [res_bind].
    assert (HP : PageProperty (pages s p) = false).
    { destruct (PageProperty (pages s p)) eqn:E; [|done]. exfalso. apply Hnf.
      destruct (inv_marked _ _ I p) as [i Hi]; auto. exists i, p. split; [done|apply in_block_head]. }
    apply returns_assert; [by rewrite HR, HP|]. set (s1 := set_page _ _ _).
    assert (Hpg : forall x, zone_num (pages s1 x) = zone_num (pages s x) /\
             PageReserved (pages s1 x) = PageReserved (pages s x) /\
             PageProperty (pages s1 x) = PageProperty (pages s x) /\
             property (pages s1 x) = property (pages s x)).
    { intros x. unfold s1, set_page; cbn [pages]. destruct (decide (x = p)) as [->|].
      - rewrite !fn_lookup_insert. by rewrite HR, HP.
      - by rewrite !fn_lookup_insert_ne. }
    assert (Z1 : same_zones s s1) by (split_and!; [done..|]; intros x; split; apply Hpg).
    eapply returns_mono.
    { apply (IH (p + 1) s1); [by eapply (inv_pages _ s)|]. intros x Hx.
      destruct (Hpg x) as (_ & -> & _). apply H; lia. }
    intros s' (I' & Z' & F'). split_and!; auto. by eapply same_zones_trans.
Qed.

Lemma buddy_free_pages_sub_ok zn b s p order :
  buddy_inv s -> (order <= MAX_ORDER)%nat -> in_use zn b s p (pow2 order) ->
  (p - b) mod pow2 order = 0 ->
  returns (buddy_free_pages_sub p order s) (fun s' => gave s s' p (pow2 order)).
Proof.
  intros I Ho (Hz & Hb & Hr & Hnf) Ha. pose proof (pow2_pos order) as Hp2.
  assert (Hpg : 0 <= p < npage s) by (apply Hr; lia).
  assert (Hzn : zone_num (pages s p) = zn) by (apply Hr; lia).
  unfold buddy_free_pages_sub, page2idx, mem_base. rewrite page_at_ok by done. cbn [res_bind].
  rewrite Hzn, Hz. cbn [res_bind]. apply returns_assert.
  { rewrite land_low_mask, Ha. done. }
  eapply returns_bind.
  { apply (free_pages_loop_ok (Z.to_nat (pow2 order)) p s I). intros x Hx.
    rewrite Z2Nat.id in Hx by lia. destruct (Hr x Hx) as (? & _ & ?). auto. }
  intros s1 (I1 & Z1 & F1). pose proof Z1 as (_ & HZ1 & Hpz).
  destruct (Hpz p) as [-> _]. rewrite Hzn.
  assert (M : merging zn b order (p - b) s1).
  { split; auto; try lia; [by rewrite HZ1| |].
    - replace (b + (p - b)) with p by lia. by eapply range_ok_frame.
    - replace (b + (p - b)) with p by lia. intros x Hx. rewrite (free_at_fl _ _ _ F1). by apply Hnf. }
  eapply returns_bind; [apply (merge_loop_ok _ order (p - b) zn b s1 M); lia|].
  intros [[o' idx'] s2] (M2 & Z2 & F2 & T2). unfold idx2page, mem_base.
  destruct M2 as [I2 Ho2 Hz2 Hb2 Hi2 Ha2 Hr2 Hoff2]. rewrite Hz2. cbn [res_bind].
  eapply returns_mono.
  { apply (add_free_block_ok None s2 (b + idx') o'); auto.
    exists zn, b. split_and!; auto; [lia|]. by replace (b + idx' - b) with idx' by lia. }
  intros s3 (I3 & Z3 & F3 & T3). split_and!; [done|by repeat (eapply same_zones_trans; [done|])| |].
  - intros x. rewrite F3, F2, (free_at_fl _ _ _ F1). unfold in_block.
    by replace (b + (p - b)) with p by lia.
  - rewrite T3. rewrite (total_free_fl _ _ F1) in T2. lia.
Qed.

Lemma free_up_ok zn b more : forall order base n s,
  buddy_inv s -> in_use zn b s base n -> 0 <= n < pow2 (S MAX_ORDER) ->
  (base - b) mod pow2 order = 0 -> (order + more = S MAX_ORDER)%nat ->
  returns (free_up more order base n s) (fun '(o, base', n', s') =>
    exists m, 0 <= m <= n /\ base' = base + m /\ n' = n - m /\ n' < pow2 o /\
      (base' - b) mod pow2 o = 0 /\ gave s s' base m).
Proof.
  induction more as [|more IH]; intros order base n s I U Hn Ha Hm; cbn [free_up];
    pose proof (pow2_pos order) as Hp2; destruct (Z.leb_spec (pow2 order) n) as [Hle|Hlt];
    try (apply returns_ok; exists 0; rewrite Z.add_0_r, Z.sub_0_r; split_and!; auto using gave_nil; lia).
  { replace order with (S MAX_ORDER) in Hle by lia. lia. }
  pose proof U as (Hz & Hb & Hr & Hnf).
  assert (Hpg : 0 <= base < npage s) by (apply Hr; lia).
  assert (Hzn : zone_num (pages s base) = zn) by (apply Hr; lia).
  unfold page2idx, mem_base. rewrite page_at_ok by done. cbn [res_bind]. rewrite Hzn, Hz. cbn [res_bind].
  pose proof (land_bit_aligned _ _ Ha) as HL.
  destruct (Z.land (base - b) (pow2 order) =? 0); cbn [negb].
  - apply IH; auto; lia.
  - eapply returns_bind.
    { apply (buddy_free_pages_sub_ok zn b s base order); auto; [lia|]. eapply in_use_sub; [|done]; lia. }
    intros s1 G1. eapply returns_mono.
    { apply (IH (S order) (base + pow2 order) (n - pow2 order) s1); [apply G1| |lia| |lia].
      - eapply in_use_rest; [| |exact G1|]; [lia|lia|]. by replace (pow2 order + (n - pow2 order)) with n by lia.
      - by replace (base + pow2 order - b) with (base - b + pow2 order) by lia. }
    intros [[[o base'] n'] s2] (m & Hm' & -> & -> & Ho & Ha' & G2).
    exists (pow2 order + m). split_and!; try (lia || by rewrite Z.add_assoc).
    eapply gave_trans; [..|exact G1|exact G2]; lia.
Qed.

Lemma free_down_ok zn b fuel : forall order base n s,
  buddy_inv s -> in_use zn b s base n -> 0 <= n < pow2 (S MAX_ORDER) ->
  (base - b) mod pow2 order = 0 -> n + Z.of_nat order <= Z.of_nat fuel ->
  returns (free_down fuel order base n s) (fun s' => gave s s' base n).
Proof.
  induction fuel as [|fuel IH]; intros order base n s I U Hn Ha Hf; cbn [free_down];
    destruct (Z.eqb_spec n 0) as [->|Hn0]; try (apply returns_ok; by apply gave_nil); [lia|].
  destruct (Z.ltb_spec n (pow2 order)) as [Hlt|Hge].
  - destruct order as [|order]; [change (pow2 0) with 1 in Hlt; lia|]. cbn [Nat.pred].
    apply IH; auto; [|lia]. apply (mod_pow2_weaken _ order (S order)); [lia|done].
  - pose proof (pow2_pos order) as Hp2. eapply returns_bind.
    { apply (buddy_free_pages_sub_ok zn b s base order); auto.
      - destruct (decide (order <= MAX_ORDER)%nat); [done|].
        pose proof (pow2_le (S MAX_ORDER) order). lia.
      - eapply in_use_sub; [|done]; lia. }
    intros s1 G1. eapply returns_mono.
    { apply (IH order (base + pow2 order) (n - pow2 order) s1); [apply G1| |lia| |lia].
      - eapply in_use_rest; [| |exact G1|]; [lia|lia|]. by replace (pow2 order + (n - pow2 order)) with n by lia.
      - replace (base + pow2 order - b) with (base - b + 1 * pow2 order) by lia.
        rewrite Z.mod_add by lia. done. }
    intros s2 G2. replace n with (pow2 order + (n - pow2 order)) by lia.
    eapply gave_trans; [..|exact G1|exact G2]; lia.
Qed.

Lemma buddy_free_pages_ok zn b s p n :
  buddy_inv s -> 0 < n < 2048 -> in_use zn b s p n ->
  returns (buddy_free_pages p n s) (fun s' => gave s s' p n).
Proof.
  intros I Hn U. unfold buddy_free_pages. apply returns_assert; [lia|].
  change 2048 with (pow2 (S MAX_ORDER)) in Hn. destruct (Z.eqb_spec n 1) as [->|].
  - apply (buddy_free_pages_sub_ok zn b s p 0); auto; [lia|]. change (pow2 0) with 1. apply Z.mod_1_r.
  - eapply returns_bind.
    { apply (free_up_ok zn b (S MAX_ORDER) 0 p n s); auto; [lia|]. change (pow2 0) with 1. apply Z.mod_1_r. }
    intros [[[o p'] n'] s1] (m & Hm & -> & -> & Ho & Ha & G1). eapply returns_mono.
    { apply (free_down_ok zn b _ o (p + m) (n - m) s1); [apply G1| |lia|done|lia].
      eapply in_use_rest; [| |exact G1|]; [lia|lia|]. by replace (m + (n - m)) with n by lia. }
    intros s2 G2. replace n with (m + (n - m)) by lia. eapply gave_trans; [..|exact G1|exact G2]; lia.
Qed.

Lemma getorder_from_ok cnt : forall order n,
  (order + cnt = S MAX_ORDER)%nat -> 0 < n <= pow2 MAX_ORDER ->
  (forall i, (i < order)%nat -> pow2 i < n) -> (order <= MAX_ORDER)%nat ->
  exists o, getorder_from cnt order n = Ok o /\ (o <= MAX_ORDER)%nat /\ n <= pow2 o /\
    (forall i, (i < o)%nat -> pow2 i < n).
Proof.
  induction cnt as [|cnt IH]; intros order n Hc Hn Hlo Ho; cbn [getorder_from]; [lia|].
  destruct (Z.leb_spec n (pow2 order)) as [Hle|Hgt]; [by exists order|].
  destruct (decide (order = MAX_ORDER)) as [->|]; [lia|]. apply IH; [lia|done| |lia].
  intros i Hi. destruct (decide (i = order)) as [->|]; [lia|apply Hlo; lia].
Qed.

Lemma getorder_ok n : 0 < n <= 1024 ->
  exists o, getorder n = Ok o /\ (o <= MAX_ORDER)%nat /\ n <= pow2 o /\
    (forall i, (i < o)%nat -> pow2 i < n).
Proof. intros H; apply getorder_from_ok; [done | exact H | intros; lia | lia]. Qed.

Lemma nr_free_sum_total s n : inv_but None s -> (n <= S MAX_ORDER)%nat ->
  nr_free_sum n s = u32 (total_from n s).
Proof.
  intros I. induction n as [|n IH]; intros Hn; [done|]. cbn [nr_free_sum total_from].
  rewrite IH, (inv_nr _ _ I) by lia. by rewrite u32_mul_l, u32_add_l, u32_add_r.
Qed.

(** ** Initialisation *)

Lemma init_pages_ok cnt : forall p zn s,
  (forall x, p <= x < p + Z.of_nat cnt -> 0 <= x < npage s /\ PageReserved (pages s x) = true) ->
  returns (init_pages cnt p zn s) (fun s' =>
    npage s' = npage s /\ zones s' = zones s /\ free_area s' = free_area s /\
    forall x, pages s' x = if decide (p <= x < p + Z.of_nat cnt) then mk_Page 0 0 0 zn else pages s x).
Proof.
  induction cnt as [|cnt IH]; intros p zn s H; cbn [init_pages].
  - apply returns_ok; split_and!; auto. intros x; case_decide; [lia|done].
  - destruct (H p) as [Hp HR]; [lia|]. rewrite page_at_ok by done. cbn [res_bind].
    apply returns_assert; [done|]. eapply returns_mono.
    { apply IH. cbn [npage set_page pages]. intros x Hx.
      rewrite fn_lookup_insert_ne by lia. apply H; lia. }
    intros s' (-> & -> & -> & Hpg); split_and!; auto. intros x. rewrite Hpg.
    cbn [set_page pages]. destruct (decide (x = p)) as [->|Hne].
    + rewrite fn_lookup_insert. do 2 case_decide; done || lia.
    + rewrite fn_lookup_insert_ne by done. do 2 case_decide; done || lia.
Qed.

Lemma init_blocks_ok zn b fuel : forall order p n s,
  buddy_inv s -> in_use zn b s p n -> 0 <= n -> (order <= MAX_ORDER)%nat ->
  (p - b) mod pow2 order = 0 -> n + Z.of_nat order <= Z.of_nat fuel ->
  returns (init_blocks fuel order p n s) (fun s' => gave s s' p n).
Proof.
  induction fuel as [|fuel IH]; intros order p n s I U Hn Ho Ha Hf; cbn [init_blocks];
    destruct (Z.eqb_spec n 0) as [->|Hn0]; try (apply returns_ok; by apply gave_nil); [lia|].
  pose proof (pow2_pos order) as Hp2. destruct (Z.leb_spec (pow2 order) n) as [Hle|Hgt].
  - pose proof U as (Hz & Hb & Hr & Hnf). eapply returns_bind.
    { apply (add_free_block_ok None s p order); auto.
      - exists zn, b. split_and!; auto; [lia..|]. intros x Hx; apply Hr; lia.
      - intros x Hx. apply Hnf. unfold in_block in Hx; lia. }
    intros s1 G1. eapply returns_mono.
    { apply (IH order (p + pow2 order) (n - pow2 order) s1); [apply G1| |lia|done| |lia].
      - eapply in_use_rest; [| |exact G1|]; [lia|lia|].
        by replace (pow2 order + (n - pow2 order)) with n by lia.
      - replace (p + pow2 order - b) with (p - b + 1 * pow2 order) by lia.
        rewrite Z.mod_add by lia. done. }
    intros s2 G2. replace n with (pow2 order + (n - pow2 order)) by lia.
    eapply gave_trans; [..|exact G1|exact G2]; lia.
  - destruct order as [|order]; [change (pow2 0) with 1 in Hgt; lia|]. cbn [Nat.pred].
    apply IH; auto; [lia| |lia]. apply (mod_pow2_weaken _ order (S order)); [lia|done].
Qed.

(** Registering a zone turns exactly its pages into free pages.  The pages
    must be reserved before, as page_init leaves them. *)
Lemma buddy_init_memmap_ok s base n :
  buddy_inv s -> 0 < n -> 0 <= base -> (length (zones s) < MAX_ZONE_NUM)%nat ->
  (forall x, base <= x < base + n -> x < npage s /\ PageReserved (pages s x) = true) ->
  returns (buddy_init_memmap base n s) (fun s' =>
    buddy_inv s' /\ zones s' = zones s ++ [base] /\
    (forall x, free_at s' x <-> free_at s x \/ base <= x < base + n) /\
    total_free s' = total_free s + n).
Proof.
  intros I Hn Hb Hz Hres. unfold buddy_init_memmap.
  apply returns_assert; [apply andb_true_intro; split; [lia | by apply Nat.ltb_lt]|].
  eapply returns_bind.
  { apply init_pages_ok. intros x Hx. destruct (Hres x); [lia|]. split; [lia|done]. }
  intros s1 (Hnp & Hzs & Hfa & Hpg). rewrite Z2Nat.id in Hpg by lia. rewrite Hzs.
  set (zn := Z.of_nat (length (zones s))) in *.
  set (s2 := mk_buddy _ _ _ _).
  assert (Hfl : forall i, fl s2 i = fl s i) by (intros; unfold fl, s2; cbn; by rewrite Hfa).
  assert (Hout : forall x, ~ (base <= x < base + n) -> pages s2 x = pages s x).
  { intros x Hx. unfold s2; cbn. rewrite Hpg. by rewrite decide_False. }
  assert (Hlive : forall x, PageReserved (pages s x) = false -> ~ (base <= x < base + n)).
  { intros x HR Hx. destruct (Hres x Hx) as [_ HR']. congruence. }
  assert (Hblk : forall p i, block_ok s p i -> block_ok s2 p i).
  { intros p i (z & b & Hz' & Hb' & Ha & Hr). exists z, b. split_and!; auto; [|lia..|].
    - apply lookup_app_l_Some, Hz'.
    - intros x Hx. destruct (Hr x Hx) as (A & B & C). rewrite Hout by auto.
      unfold s2; cbn [npage]. rewrite Hnp. auto. }
  assert (I2 : buddy_inv s2).
  { split.
    - unfold s2; cbn. rewrite Hnp; apply I.
    - intros i Hi. rewrite Hfl. unfold s2; cbn. rewrite Hfa. by apply I.
    - intros i. rewrite Hfl. apply I.
    - intros i p. rewrite Hfl. intros Hin. destruct (inv_head _ _ I i p Hin) as (A & B & C & D).
      assert (PageReserved (pages s p) = false).
      { destruct D as (? & ? & _ & _ & _ & Hr). apply Hr. pose proof (pow2_pos i); lia. }
      rewrite Hout by auto. auto.
    - intros p He Hp. destruct (decide (base <= p < base + n)) as [Hin|Hni].
      + unfold s2; cbn [pages]. rewrite Hpg, decide_True by done. done.
      + rewrite Hout by done. setoid_rewrite Hfl. apply I; [done|].
        unfold s2 in Hp; cbn in Hp. lia.
    - intros i j p q x. rewrite !Hfl. apply I. }
  assert (U2 : in_use zn base s2 base n).
  { split_and!; auto; [|lia| |].
    - unfold s2, zn; cbn. rewrite Nat2Z.id. by apply list_lookup_middle.
    - intros x Hx. unfold s2; cbn [npage pages]. rewrite Hnp, Hpg, decide_True by done.
      destruct (Hres x Hx). split_and!; auto; lia.
    - intros x Hx. rewrite (free_at_fl _ _ _ Hfl). intros (i & p & Hin & Hbx).
      destruct (inv_head _ _ I i p Hin) as (_ & _ & _ & (? & ? & _ & _ & _ & Hr)).
      apply (Hlive x); [apply Hr|]; done. }
  eapply returns_mono.
  { apply (init_blocks_ok zn base _ MAX_ORDER base n s2); auto; [lia| |lia].
    rewrite Z.sub_diag. by rewrite Z.mod_0_l. }
  intros s3 (I3 & (_ & Z3 & _) & F3 & T3). split_and!; auto.
  - intros x. rewrite F3. by rewrite (free_at_fl _ _ _ Hfl).
  - rewrite T3. by rewrite (total_free_fl _ _ Hfl).
Qed.

Lemma buddy_init_ok s :
  0 <= npage s <= 2 ^ 20 -> (forall i, (MAX_ORDER < i)%nat -> fl s i = []) ->
  (forall p, 0 <= p < npage s -> PageReserved (pages s p) = true) ->
  buddy_inv (buddy_init s) /\ (forall x, ~ free_at (buddy_init s) x).
Proof.
  intros Hnp Hhi Hres.
  assert (Hfl : forall i, fl (buddy_init s) i = []).
  { intros i. unfold fl, buddy_init; cbn [free_area]. destruct (Nat.leb_spec i MAX_ORDER); [done|].
    by apply Hhi. }
  split.
  - split; cbn [npage pages buddy_init].
    + done.
    + intros i Hi. rewrite Hfl. unfold buddy_init; cbn [free_area].
      destruct (Nat.leb_spec i MAX_ORDER); [done|lia].
    + intros i; rewrite Hfl; apply NoDup_nil_2.
    + intros i p; rewrite Hfl; by intros ?%not_elem_of_nil.
    + intros p _ Hp _. by rewrite Hres.
    + intros i j p q x; rewrite Hfl; by intros ?%not_elem_of_nil.
  - intros x (i & p & Hin & _). rewrite Hfl in Hin. by apply not_elem_of_nil in Hin.
Qed.

Lemma buddy_alloc_pages_ok s n :
  buddy_inv s -> 0 < n <= 1024 ->
  returns (buddy_alloc_pages n s) (fun '(r, s') =>
    match r with
    | Some p => took s s' p n /\ exists zn b, in_use zn b s' p n
    | None => s' = s /\ (forall i p, p ∈ fl s i -> pow2 i < n)
    end).
Proof.
  intros I Hn. unfold buddy_alloc_pages. apply returns_assert; [lia|].
  destruct (getorder_ok n Hn) as (o & -> & Ho & Hle & Hlo). cbn [res_bind].
  unfold buddy_alloc_pages_sub. eapply returns_bind.
  { apply returns_assert; [by apply Nat.leb_le|]. apply (alloc_from_ok _ o o s); auto; lia. }
  intros [[p|] s1] H1.
  2:{ apply returns_ok. destruct H1 as [-> Hno]; split; [done|]. intros i p Hin.
      destruct (decide (i < o)%nat) as [|Hge]; [by apply Hlo|].
      rewrite Hno in Hin by lia. by apply not_elem_of_nil in Hin. }
  destruct H1 as [(I1 & Z1 & Fs & F1 & T1) (zn & b & Hz & Hb & Ha & Hr)].
  assert (U1 : in_use zn b s1 p (pow2 o)).
  { split_and!; auto; [lia..|]. intros x Hx. rewrite F1. tauto. }
  destruct (Z.eqb_spec n (pow2 o)) as [->|Hne]; [by apply returns_ok; split; eauto|].
  eapply returns_bind.
  { apply (buddy_free_pages_ok zn b s1 (p + n) (pow2 o - n)); auto.
    - pose proof (pow2_max o Ho); lia.
    - destruct U1 as (A & B & C & D). split_and!; auto; [lia..| |];
        intros x Hx; [apply C | apply D]; lia. }
  intros s2 (I2 & Z2 & F2 & T2). apply returns_ok. split; [split_and!|].
  - done.
  - by eapply same_zones_trans.
  - intros x Hx; apply Fs; lia.
  - intros x. rewrite F2, F1. split; [intros [[? ?]|Hx]|].
    + split; [done|lia].
    + split; [apply Fs; lia|lia].
    + intros [Hf Hx]. destruct (decide (p + n <= x < p + pow2 o)); [by right; lia|].
      left; split; [done|lia].
  - lia.
  - exists zn, b. destruct U1 as (A & B & C & D). split_and!; [|lia|lia| |].
    + destruct Z2 as (_ & -> & _); done.
    + eapply range_ok_frame; [done|]. intros x Hx; apply C; lia.
    + intros x Hx. rewrite F2. intros [Hf|?]; [|lia]. eapply D; [|done]; lia.
Qed.

(** ** Properties *)

(** C1: [buddy_alloc_pages n], for [0 < n <= 1024], on a well-formed allocator:
    either it returns [n] consecutive pages of one zone that were all free, the
    free pages afterwards are exactly the others (the surplus of the power of
    two block went back), the invariant holds and the free-page counter drops
    by [n]; or it returns NULL without changing the state, and then every free
    block has fewer than [n] pages. *)
Theorem buddy_alloc_pages_spec s n :
  buddy_inv s -> 0 < n <= 1024 ->
  returns (buddy_alloc_pages n s) (fun '(r, s') =>
    match r with
    | Some p => took s s' p n /\ (exists zn b, in_use zn b s' p n) /\
        buddy_nr_free_pages s' = u32 (buddy_nr_free_pages s - n)
    | None => s' = s /\ (forall i p, p ∈ fl s i -> pow2 i < n)
    end).
Proof.
  intros I Hn. eapply returns_mono; [by apply buddy_alloc_pages_ok|].
  intros [[p|] s'] H; [|done]. destruct H as [Ht Hu]. split_and!; auto.
  destruct Ht as (I' & _ & _ & _ & T). unfold buddy_nr_free_pages.
  rewrite !nr_free_sum_total by (done || lia). unfold total_free in T. by rewrite T, u32_sub_l.
Qed.


(** [buddy_init_memmap] on a range of reserved pages: it registers the zone,
    makes exactly the pages of the range free, and keeps the invariant. *)
Theorem buddy_init_memmap_spec s base n :
  buddy_inv s -> 0 < n -> 0 <= base -> (length (zones s) < MAX_ZONE_NUM)%nat ->
  (forall x, base <= x < base + n -> x < npage s /\ PageReserved (pages s x) = true) ->
  returns (buddy_init_memmap base n s) (fun s' =>
    buddy_inv s' /\ zones s' = zones s ++ [base] /\
    (forall x, free_at s' x <-> free_at s x \/ base <= x < base + n) /\
    buddy_nr_free_pages s' = u32 (buddy_nr_free_pages s + n)).
Proof.
  intros. eapply returns_mono; [by apply buddy_init_memmap_ok|].
  intros s' (I' & ? & ? & T); split_and!; auto. unfold buddy_nr_free_pages.
  rewrite !nr_free_sum_total by (done || lia). unfold total_free in T. by rewrite T, u32_add_l.
Qed.

(** Allocating and then releasing the same range gives back the same set of
    free pages and the same counter. *)
Theorem buddy_alloc_free_roundtrip s n p s1 :
  buddy_inv s -> buddy_alloc_pages n s = Ok (Some p, s1) ->
  returns (buddy_free_pages p n s1) (fun s2 =>
    buddy_inv s2 /\ (forall x, free_at s2 x <-> free_at s x) /\
    buddy_nr_free_pages s2 = buddy_nr_free_pages s).
Proof.
  intros I Ha.
  assert (Hn : 0 < n <= 1024).
  { pose proof Ha as Hb. unfold buddy_alloc_pages in Hb. inv_ok. apply Z.ltb_lt in E.
    split; [done|]. destruct (decide (n <= 1024)); [done|]. exfalso.
    assert (Hg : forall cnt o, (o + cnt = S MAX_ORDER)%nat -> getorder_from cnt o n = Panic).
    { induction cnt as [|cnt IH]; intros o Ho; [done|]. cbn [getorder_from].
      destruct (Z.leb_spec n (pow2 o)); [|apply IH; lia]. pose proof (pow2_max o). lia. }
    unfold getorder in E0. by rewrite Hg in E0. }
  destruct (buddy_alloc_pages_ok s n I Hn) as ([r s'] & Ha' & H).
  rewrite Ha in Ha'. injection Ha' as <- <-. destruct H as [(I1 & _ & Fs & F1 & T1) (zn & b & U)].
  eapply returns_mono; [apply (buddy_free_pages_ok zn b s1 p n); auto; lia|].
  intros s2 (I2 & _ & F2 & T2). split_and!; auto.
  - intros x. rewrite F2, F1. split; [intros [[? _]|?]; auto|].
    intros Hf. destruct (decide (p <= x < p + n)); auto.
  - unfold buddy_nr_free_pages. rewrite !nr_free_sum_total by (done || lia).
    unfold total_free in *. f_equal; lia.
Qed.

(** ** A concrete machine: 24 reserved pages, pages 5 to 20 made one zone *)

Definition boot_state : buddy_state :=
  buddy_init (mk_buddy 24 (fun _ => mk_Page 0 1 0 0) (fun _ => mk_free_area [] 0) []).

Definition run {A} (d : A) (m : res A) : A := match m with Ok a => a | Panic => d end.

Definition demo_state : buddy_state := run boot_state (buddy_init_memmap 5 16 boot_state).

Lemma boot_inv : buddy_inv boot_state.
Proof. apply buddy_init_ok; cbn; [lia|done|done]. Qed.

Lemma demo_inv : buddy_inv demo_state.
Proof.
  destruct (buddy_init_memmap_ok boot_state 5 16) as (s & Hs & H).
  - apply boot_inv.
  - lia.
  - lia.
  - by apply Nat.ltb_lt.
  - intros x Hx; cbn. split; [lia|done].
  - unfold demo_state. rewrite Hs. apply H.
Qed.

Lemma buddy_init_memmap_spec_witness :
  returns (buddy_init_memmap 5 16 boot_state) (fun s' =>
    buddy_inv s' /\ zones s' = [5] /\
    (forall x, free_at s' x <-> free_at boot_state x \/ 5 <= x < 21) /\
    buddy_nr_free_pages s' = 16).
Proof.
  apply (buddy_init_memmap_spec boot_state 5 16 boot_inv); [lia|lia|by apply Nat.ltb_lt|].
  intros x Hx; cbn. split; [lia|done].
Defined.

Lemma buddy_alloc_pages_spec_witness :
  returns (buddy_alloc_pages 3 demo_state) (fun '(r, s') =>
    match r with
    | Some p => took demo_state s' p 3 /\ (exists zn b, in_use zn b s' p 3) /\
        buddy_nr_free_pages s' = u32 (buddy_nr_free_pages demo_state - 3)
    | None => s' = demo_state /\ (forall i p, p ∈ fl demo_state i -> pow2 i < 3)
    end) /\ fst (run (None, boot_state) (buddy_alloc_pages 3 demo_state)) = Some 5.
Proof. split; [apply (buddy_alloc_pages_spec demo_state 3 demo_inv); lia | by vm_compute]. Defined.

(** The state after [alloc_pages(6)]: pages 5 to 10 are in use. *)
Definition used_state : buddy_state := snd (run (None, boot_state) (buddy_alloc_pages 6 demo_state)).

Lemma used_alloc : buddy_alloc_pages 6 demo_state = Ok (Some 5, used_state).
Proof.
  destruct (buddy_alloc_pages_ok demo_state 6 demo_inv) as ([r s] & Hs & _); [lia|].
  assert (Hr : fst (run (None, boot_state) (buddy_alloc_pages 6 demo_state)) = Some 5) by by vm_compute.
  unfold used_state. rewrite Hs in *. cbn in Hr |- *. by subst r.
Qed.

Lemma used_inv : buddy_inv used_state /\ exists zn b, in_use zn b used_state 5 6.
Proof.
  destruct (buddy_alloc_pages_ok demo_state 6 demo_inv) as ([r s] & Hs & H); [lia|].
  rewrite used_alloc in Hs. injection Hs as <- <-. destruct H as [(I & _) U]. auto.
Qed.


Lemma buddy_alloc_free_roundtrip_witness :
  returns (buddy_free_pages 5 6 used_state) (fun s2 =>
    buddy_inv s2 /\ (forall x, free_at s2 x <-> free_at demo_state x) /\
    buddy_nr_free_pages s2 = buddy_nr_free_pages demo_state).
Proof. apply (buddy_alloc_free_roundtrip demo_state 6 5 used_state demo_inv), used_alloc. Defined.
