(* ===== verification/Pmm.v ===== *)
(** * Pmm: pages for the rest of the kernel (arch/arm/mm/pmm.c,
      arch/arm/include/pmm.h)

    [alloc_pages] and [free_pages] over the buddy allocator, the conversions
    between page descriptors and kernel addresses, and the interface
    [PageAlloc] that the clients of the page allocator are verified against. *)
From S2P Require Import Prelude Buddy.

Definition PGSHIFT : Z := 12.

(** ** The code *)

Record pmm := mk_pmm { buddy : buddy_state; used_pages : Z }.

Definition alloc_pages (n : Z) (s : pmm) : res (option Z * pmm) :=
  let* (page, b) := buddy_alloc_pages n (buddy s) in
  match page with
  | Some p => Ok (Some p, mk_pmm b (u32 (used_pages s + n)))
  | None => Ok (None, mk_pmm b (used_pages s))
  end.

Definition free_pages (base n : Z) (s : pmm) : res pmm :=
  let* b := buddy_free_pages base n (buddy s) in
  Ok (mk_pmm b (u32 (used_pages s - n))).

Definition nr_free_pages (s : pmm) : Z := buddy_nr_free_pages (buddy s).
Definition nr_used_pages (s : pmm) : Z := used_pages s.

(** Physical memory is mapped at its own address: [KADDR] and [PADDR] only
    check their argument.  A page descriptor is its index in [pages]. *)
Section Convert.
Context (KERNBASE npage : Z).

Definition page2pa (page : Z) : Z := u32 (Z.shiftl page PGSHIFT).
Definition PPN (pa : Z) : Z := Z.shiftr pa PGSHIFT.
Definition KADDR (pa : Z) : res Z := if npage <=? PPN pa then Panic else Ok pa.
Definition PADDR (kva : Z) : res Z := if kva <? KERNBASE then Panic else Ok kva.
Definition pa2page (pa : Z) : res Z := if npage <=? PPN pa then Panic else Ok (PPN pa).
Definition page2kva (page : Z) : res Z := KADDR (page2pa page).
Definition kva2page (kva : Z) : res Z := let* pa := PADDR kva in pa2page pa.

Lemma PPN_eq a : PPN a = a / PGSIZE.
Proof. unfold PPN, PGSHIFT, PGSIZE. by rewrite Z.shiftr_div_pow2. Qed.

Lemma PPN_page p off : 0 <= off < PGSIZE -> PPN (p * PGSIZE + off) = p.
Proof. intros. rewrite PPN_eq. unfold PGSIZE in *. rewrite Z.div_add_l by lia. rewrite Z.div_small; lia. Qed.

Lemma page2pa_eq p : 0 <= p < 2 ^ 20 -> page2pa p = p * PGSIZE.
Proof.
  intros. unfold page2pa, PGSHIFT, PGSIZE. rewrite Z.shiftl_mul_pow2 by lia.
  change (2 ^ 12) with 4096. apply u32_small; lia.
Qed.

Lemma page2kva_ok p : npage <= 2 ^ 20 -> 0 <= p < npage -> page2kva p = Ok (p * PGSIZE).
Proof.
  intros Hn Hp. unfold page2kva, KADDR. rewrite page2pa_eq by lia.
  rewrite <- (Z.add_0_r (p * PGSIZE)), PPN_page by (unfold PGSIZE; lia).
  destruct (Z.leb_spec npage p); [lia|]. by rewrite Z.add_0_r.
Qed.

Lemma kva2page_ok p off :
  0 <= off < PGSIZE -> KERNBASE <= p * PGSIZE -> p < npage -> kva2page (p * PGSIZE + off) = Ok p.
Proof.
  intros Ho Hk Hp. unfold kva2page, PADDR, pa2page.
  destruct (Z.ltb_spec (p * PGSIZE + off) KERNBASE); [lia|]. cbn [res_bind].
  rewrite PPN_page by done. destruct (Z.leb_spec npage p); [lia|done].
Qed.

End Convert.

(** ** The interface

    [pg_owned s p n]: the pages [p .. p + n) were handed out and not yet given
    back.  A client may rely on: pages are handed out to one owner at a time,
    and the owner can give them back. *)

Definition apart (p n q m : Z) : Prop := forall x, p <= x < p + n -> q <= x < q + m -> False.

Class PageAlloc (KERNBASE : Z) := {
  pg_state : Type;
  pg_npage : pg_state -> Z;
  pg_alloc : Z -> pg_state -> res (option Z * pg_state);
  pg_free : Z -> Z -> pg_state -> res pg_state;
  pg_inv : pg_state -> Prop;
  pg_owned : pg_state -> Z -> Z -> Prop;
  pg_bound : forall s, pg_inv s -> pg_npage s <= 2 ^ 20;
  pg_range : forall s p n, pg_inv s -> 0 < n -> pg_owned s p n ->
    0 < p /\ KERNBASE <= p * PGSIZE /\ p + n <= pg_npage s;
  pg_alloc_ok : forall n s, pg_inv s -> 0 < n <= 1024 ->
    returns (pg_alloc n s) (fun '(o, s') => pg_inv s' /\ pg_npage s' = pg_npage s /\
      match o with
      | Some p => pg_owned s' p n /\
          forall q m, pg_owned s q m -> pg_owned s' q m /\ apart p n q m
      | None => forall q m, pg_owned s q m -> pg_owned s' q m
      end);
  pg_free_ok : forall p n s, pg_inv s -> 0 < n <= 1024 -> pg_owned s p n ->
    returns (pg_free p n s) (fun s' => pg_inv s' /\ pg_npage s' = pg_npage s /\
      forall q m, pg_owned s q m -> apart p n q m -> pg_owned s' q m);
  pg_alloc_only : forall n s o s' q, pg_inv s -> 0 < n <= 1024 -> pg_alloc n s = Ok (o, s') -> pg_owned s' q 1 ->
    pg_owned s q 1 \/ exists p, o = Some p /\ p <= q < p + n;
  pg_free_gone : forall p n s s' q, pg_inv s -> 0 < n <= 1024 -> pg_owned s p n -> pg_free p n s = Ok s' ->
    pg_owned s' q 1 -> pg_owned s q 1 /\ ~ p <= q < p + n
}.

(** ** [alloc_pages] and [free_pages] implement it *)

Section Instance.
Context (KERNBASE : Z).

Definition pmm_inv (s : pmm) : Prop :=
  buddy_inv (buddy s) /\ Forall (fun b => 0 < b /\ KERNBASE <= b * PGSIZE) (zones (buddy s)).

Definition pmm_owned (s : pmm) (p n : Z) : Prop := exists zn b, in_use zn b (buddy s) p n.

Lemma in_use_frame zn b s s' p n :
  same_zones s s' -> (forall x, p <= x < p + n -> free_at s' x -> free_at s x) ->
  in_use zn b s p n -> in_use zn b s' p n.
Proof.
  intros Z Hf (A & B & C & D). pose proof Z as (_ & Ez & _). split_and!; [by rewrite Ez|lia..| |].
  - by eapply range_ok_frame.
  - intros x Hx Hfr. by eapply D, Hf.
Qed.

Lemma alloc_pages_ok n s :
  pmm_inv s -> 0 < n <= 1024 ->
  returns (alloc_pages n s) (fun '(o, s') => pmm_inv s' /\ npage (buddy s') = npage (buddy s) /\
    match o with
    | Some p => pmm_owned s' p n /\ forall q m, pmm_owned s q m -> pmm_owned s' q m /\ apart p n q m
    | None => forall q m, pmm_owned s q m -> pmm_owned s' q m
    end).
Proof.
  intros [I Hz] Hn. unfold alloc_pages. eapply returns_bind; [by apply buddy_alloc_pages_ok|].
  intros [[p|] b'] H; apply returns_ok; cbn [buddy].
  - destruct H as [(I' & Z & Fs & F & _) U]. pose proof Z as (En & Ez & _).
    split_and!; [split; cbn [buddy]; [done|by rewrite Ez] | done | done |].
    intros q m (zn & b & Uq). split.
    + exists zn, b. eapply in_use_frame; [done| |done]. intros x _. rewrite F. tauto.
    + intros x Hp Hq. destruct Uq as (_ & _ & _ & D). by eapply D, Fs.
  - destruct H as [-> _]. by split_and!.
Qed.

Lemma free_pages_ok p n s :
  pmm_inv s -> 0 < n <= 1024 -> pmm_owned s p n ->
  returns (free_pages p n s) (fun s' => pmm_inv s' /\ npage (buddy s') = npage (buddy s) /\
    forall q m, pmm_owned s q m -> apart p n q m -> pmm_owned s' q m).
Proof.
  intros [I Hz] Hn (zn & b & U). unfold free_pages.
  eapply returns_bind; [apply (buddy_free_pages_ok zn b); [done|lia|done]|].
  intros b' (I' & Z & F & _). apply returns_ok. cbn [buddy]. pose proof Z as (En & Ez & _).
  split_and!; [split; cbn [buddy]; [done|by rewrite Ez]|done|].
  intros q m (zn' & b0 & Uq) Ha. exists zn', b0. eapply in_use_frame; [done| |done].
  intros x Hx. rewrite F. intros [?|?]; [done|]. exfalso. by eapply Ha.
Qed.

Lemma same_zones_sym s s' : same_zones s s' -> same_zones s' s.
Proof. intros (A & B & D). split_and!; [done..|]. intros x. destruct (D x) as [D1 D2]. by split. Qed.

Lemma owned_frame s s' q :
  same_zones (buddy s) (buddy s') -> (free_at (buddy s) q -> free_at (buddy s') q) ->
  pmm_owned s' q 1 -> pmm_owned s q 1.
Proof.
  intros Z Hf (zn & b & U). exists zn, b. eapply in_use_frame; [by apply same_zones_sym| |done].
  intros x Hx. replace x with q by lia. done.
Qed.

Lemma alloc_pages_only n s o s' q :
  pmm_inv s -> 0 < n <= 1024 -> alloc_pages n s = Ok (o, s') -> pmm_owned s' q 1 ->
  pmm_owned s q 1 \/ exists p, o = Some p /\ p <= q < p + n.
Proof.
  intros [I Hz] Hn E Ho. unfold alloc_pages in E. destruct (buddy_alloc_pages_ok (buddy s) n I Hn) as ([r b'] & Eb & H).
  rewrite Eb in E. cbn [res_bind] in E. destruct r as [p|]; injection E as <- <-.
  - destruct H as [(_ & Z & _ & F & _) _].
    destruct (decide (p <= q < p + n)); [right; by exists p|left]. eapply owned_frame; [| |exact Ho]; [exact Z|]. cbn [buddy]. intros Hq. apply F. tauto.
  - destruct H as [-> _]. by left.
Qed.

Lemma free_pages_gone p n s s' q :
  pmm_inv s -> 0 < n <= 1024 -> pmm_owned s p n -> free_pages p n s = Ok s' ->
  pmm_owned s' q 1 -> pmm_owned s q 1 /\ ~ p <= q < p + n.
Proof.
  intros [I Hz] Hn (zn & b & U) E Ho. unfold free_pages in E.
  destruct (buddy_free_pages_ok zn b (buddy s) p n I ltac:(lia) U) as (b' & Eb & (_ & Z & F & _)).
  rewrite Eb in E. cbn [res_bind] in E. injection E as <-. split.
  - eapply owned_frame; [| |exact Ho]; [exact Z|]. cbn [buddy]. intros Hq. apply F. tauto.
  - destruct Ho as (zn' & b0 & _ & _ & _ & D). intros Hq. apply (D q); [lia|]. apply F. tauto.
Qed.

#[export] Instance pmm_PageAlloc : PageAlloc KERNBASE.
Proof.
  refine {| pg_state := pmm; pg_npage := fun s => npage (buddy s); pg_alloc := alloc_pages;
            pg_free := free_pages; pg_inv := pmm_inv; pg_owned := pmm_owned |}.
  - intros s [I _]. apply I.
  - intros s p n [I Hz] Hn (zn & b & A & B & C & _).
    eapply Forall_lookup_1 in Hz as [Hb Hk]; [|exact A].
    destruct (C p ltac:(lia)) as (? & _). destruct (C (p + n - 1) ltac:(lia)) as (? & _).
    unfold PGSIZE in *. split_and!; nia.
  - apply alloc_pages_ok.
  - apply free_pages_ok.
  - apply alloc_pages_only.
  - apply free_pages_gone.
Defined.

End Instance.
