(* ===== verification/Slab.v ===== *)
(** * Slab: kernel memory objects (mm/slab.c)

    [kmalloc] rounds a size up to one of thirteen object sizes; the cache of
    that size keeps slabs, runs of pages carved into equal objects.  The
    control structure of a slab ([slab_t] and the [bufctl] array that links the
    free objects) lies at the start of its pages or, for large objects, in an
    object of another cache.

    The page allocator is used through the interface [PageAlloc] of [Pmm]. *)
From S2P Require Import Prelude Buddy Pmm.

(** ** Data *)

Definition BUFCTL_END : Z := 0xFFFFFFFF.
Definition SLAB_LIMIT : Z := 0xFFFFFFFE.
Definition MIN_SIZE_ORDER : nat := 5.
Definition MAX_SIZE_ORDER : nat := 17.
Definition SLAB_CACHE_NUM : nat := MAX_SIZE_ORDER - MIN_SIZE_ORDER + 1.
Definition KMALLOC_MAX_ORDER : nat := 10.
(** [sizeof(slab_t)], [sizeof(kmem_bufctl_t)] *)
Definition sizeof_slab : Z := 24.
Definition sizeof_bufctl : Z := 4.

(** [slab_t]; [bufctl] is the array [slab_bufctl(slabp)] behind it. *)
Record slab_t := mk_slab { s_mem : Z; inuse : Z; s_offset : Z; free : Z; bufctl : list Z }.

(** [struct kmem_cache_s]; a cache is named by its index in [slab_cache], and
    [slab_cachep] by that of the cache it points to. *)
Record kmem_cache_t := mk_cache {
  slabs_full : list Z; slabs_notfull : list Z;
  objsize : Z; num : Z; offset : Z; off_slab : bool; page_order : nat; slab_cachep : nat }.

(** ** Sizes *)

Definition slab_mgmt_size (n align : Z) : Z := ROUNDUP (u32 (sizeof_slab + u32 (n * sizeof_bufctl))) align.

(** [while (slab_mgmt_size(nr_objs, align) + nr_objs * objsize > slab_size) nr_objs --;] *)
Fixpoint fit_loop (fuel : nat) (nr objsize align slab_size : Z) : res Z :=
  if slab_size <? u32 (slab_mgmt_size nr align + u32 (nr * objsize)) then
    match fuel with
    | O => Panic
    | S fuel => fit_loop fuel (u32 (nr - 1)) objsize align slab_size
    end
  else Ok nr.

(** Returns [*remainder] and [*num]. *)
Definition cache_estimate (order : nat) (objsize align : Z) (off_slab : bool) : res (Z * Z) :=
  let slab_size := u32 (Z.shiftl PGSIZE (Z.of_nat order)) in
  let* (nr_objs, mgmt_size) :=
    if off_slab then
      let nr := slab_size / objsize in
      Ok (if SLAB_LIMIT <? nr then SLAB_LIMIT else nr, 0)
    else
      let nr := u32 (slab_size - sizeof_slab) / u32 (objsize + sizeof_bufctl) in
      let* nr := fit_loop (Z.to_nat nr) nr objsize align slab_size in
      let nr := if SLAB_LIMIT <? nr then SLAB_LIMIT else nr in
      Ok (nr, slab_mgmt_size nr align) in
  Ok (u32 (u32 (slab_size - u32 (nr_objs * objsize)) - mgmt_size), nr_objs).

(** [for (order = 0; order <= KMALLOC_MAX_ORDER; order ++)]: [cnt] rounds are
    left.  Returns [cachep->num], [cachep->page_order] and [*left_over]. *)
Fixpoint calculate_slab_order (cnt order : nat) (objsize align : Z) (off_slab : bool) : res (Z * nat * Z) :=
  match cnt with
  | O => Panic
  | S cnt =>
      let* (remainder, n) := cache_estimate order objsize align off_slab in
      if negb (n =? 0) then
        if off_slab && (u32 (objsize - sizeof_slab) / sizeof_bufctl <? n) then Panic else
        if u32 (remainder * 8) <=? u32 (Z.shiftl PGSIZE (Z.of_nat order)) then Ok (n, order, remainder)
        else calculate_slab_order cnt (S order) objsize align off_slab
      else calculate_slab_order cnt (S order) objsize align off_slab
  end.

(** [for (; order <= MAX_SIZE_ORDER; order ++, order_size <<= 1)] *)
Fixpoint size_order_from (cnt order : nat) (n : Z) : res nat :=
  match cnt with
  | O => Panic
  | S cnt => if n <=? pow2 order then Ok order else size_order_from cnt (S order) n
  end.

(** [getorder] of slab.c. *)
Definition size_order (n : Z) : res nat := size_order_from SLAB_CACHE_NUM MIN_SIZE_ORDER n.

Definition init_kmem_cache (size align : Z) : res kmem_cache_t :=
  let size := ROUNDUP size align in
  let off := Z.shiftr PGSIZE 3 <=? size in
  let* (n, order, left_over) := calculate_slab_order (S KMALLOC_MAX_ORDER) 0 size align off in
  assert! 0 <? n ;;
  let mgmt_size := slab_mgmt_size n align in
  let off := if off && (mgmt_size <=? left_over) then false else off in
  if off then
    let* o := size_order mgmt_size in
    Ok (mk_cache [] [] size n 0 true order (o - MIN_SIZE_ORDER))
  else Ok (mk_cache [] [] size n mgmt_size false order 0).

Fixpoint init_caches (cnt i : nat) : res (list kmem_cache_t) :=
  match cnt with
  | O => Ok []
  | S cnt =>
      let* c := init_kmem_cache (pow2 (i + MIN_SIZE_ORDER)) 16 in
      let* l := init_caches cnt (S i) in
      Ok (c :: l)
  end.

Section Slab.
Context {KERNBASE : Z} `{PA : PageAlloc KERNBASE}.

(** The pages, the caches, the control structures by address, and of every
    page descriptor the flag [PG_slab] and the two pointers kept in
    [page_link] ([next] the cache, [prev] the slab). *)
Record slab_state := mk_st {
  pgs : pg_state;
  slab_cache : list kmem_cache_t;
  slabs : gmap Z slab_t;
  page_link : gmap Z (nat * Z);
  PG_slab : gset Z }.

Definition set_pgs g s := mk_st g (slab_cache s) (slabs s) (page_link s) (PG_slab s).
Definition set_caches l s := mk_st (pgs s) l (slabs s) (page_link s) (PG_slab s).
Definition set_slabs m s := mk_st (pgs s) (slab_cache s) m (page_link s) (PG_slab s).

Definition get_cache (c : nat) (s : slab_state) : res kmem_cache_t :=
  match slab_cache s !! c with
  | Some x => Ok x
  | None => Panic
  end.
Definition upd_cache (c : nat) (f : kmem_cache_t -> kmem_cache_t) (s : slab_state) : res slab_state :=
  let* x := get_cache c s in Ok (set_caches (<[c := f x]> (slab_cache s)) s).
Definition set_lists (full notfull : list Z) (x : kmem_cache_t) : kmem_cache_t :=
  mk_cache full notfull (objsize x) (num x) (offset x) (off_slab x) (page_order x) (slab_cachep x).

(** [list_del(&(slabp->slab_link))] *)
Definition unlink (a : Z) (x : kmem_cache_t) : kmem_cache_t :=
  set_lists (filter (fun b => b <> a) (slabs_full x)) (filter (fun b => b <> a) (slabs_notfull x)) x.
Definition link_full (a : Z) (x : kmem_cache_t) : kmem_cache_t := set_lists (a :: slabs_full x) (slabs_notfull x) x.
Definition link_notfull (a : Z) (x : kmem_cache_t) : kmem_cache_t := set_lists (slabs_full x) (a :: slabs_notfull x) x.

Definition slab_init (s : slab_state) : res slab_state :=
  let* l := init_caches SLAB_CACHE_NUM 0 in Ok (set_caches l s).

(** ** Allocation *)

(** [kmem_cache_alloc] calls itself through [kmem_cache_grow] and
    [kmem_cache_slabmgmt]; here these take the recursive call as an argument. *)
Definition kmem_cache_slabmgmt (alloc : nat -> slab_state -> res (option Z * slab_state)) (c : nat) (page : Z)
    (s : slab_state) : res (option Z * slab_state) :=
  let* cachep := get_cache c s in
  let* objp := page2kva (pg_npage (pgs s)) page in
  let* (o, s) :=
    if off_slab cachep then alloc (slab_cachep cachep) s
    else let* a := page2kva (pg_npage (pgs s)) page in Ok (Some a, s) in
  match o with
  | None => Ok (None, s)
  | Some slabp =>   (* [free] and [bufctl] are not set yet *)
      Ok (Some slabp, set_slabs (<[slabp := mk_slab (u32 (objp + offset cachep)) 0 (offset cachep) 0 []]> (slabs s)) s)
  end.

(** [do { ... } while (-- order_size);] *)
Fixpoint mark_pages (cnt : nat) (page : Z) (c : nat) (slabp : Z) (s : slab_state) : slab_state :=
  match cnt with
  | O => s
  | S cnt =>
      mark_pages cnt (page + 1) c slabp
        (mk_st (pgs s) (slab_cache s) (slabs s) (<[page := (c, slabp)]> (page_link s)) ({[page]} ∪ PG_slab s))
  end.

(** [slab_bufctl(slabp)[i] = i + 1] for all objects, then the end marker. *)
Definition init_bufctl (n : Z) : list Z := <[Z.to_nat (n - 1) := BUFCTL_END]> (seqZ 1 n).

Definition kmem_cache_grow (alloc : nat -> slab_state -> res (option Z * slab_state)) (c : nat) (s : slab_state) :
    res (bool * slab_state) :=
  let* cachep := get_cache c s in
  let* (o, g) := pg_alloc (pow2 (page_order cachep)) (pgs s) in
  let s := set_pgs g s in
  match o with
  | None => Ok (false, s)
  | Some page =>
      let* (o, s) := kmem_cache_slabmgmt alloc c page s in
      match o with
      | None =>
          let* g := pg_free page (pow2 (page_order cachep)) (pgs s) in
          Ok (false, set_pgs g s)
      | Some slabp =>
          let s := mark_pages (Z.to_nat (pow2 (page_order cachep))) page c slabp s in
          let* x := fetch (slabs s) slabp in
          let s := set_slabs (<[slabp := mk_slab (s_mem x) (inuse x) (s_offset x) 0 (init_bufctl (num cachep))]> (slabs s)) s in
          let* s := upd_cache c (link_notfull slabp) s in
          Ok (true, s)
      end
  end.

Definition kmem_cache_alloc_one (c : nat) (slabp : Z) (s : slab_state) : res (Z * slab_state) :=
  let* cachep := get_cache c s in
  let* x := fetch (slabs s) slabp in
  let objp := u32 (s_mem x + u32 (free x * objsize cachep)) in
  match bufctl x !! Z.to_nat (free x) with
  | None => Panic
  | Some nxt =>
      let s := set_slabs (<[slabp := mk_slab (s_mem x) (u32 (inuse x + 1)) (s_offset x) nxt (bufctl x)]> (slabs s)) s in
      let* s := if nxt =? BUFCTL_END then upd_cache c (fun y => link_full slabp (unlink slabp y)) s else Ok s in
      Ok (objp, s)
  end.

(** [goto try_again] and the recursive call are the fuel's steps. *)
Fixpoint kmem_cache_alloc (fuel : nat) (c : nat) (s : slab_state) : res (option Z * slab_state) :=
  match fuel with
  | O => Panic
  | S fuel =>
      let* cachep := get_cache c s in
      match slabs_notfull cachep with
      | slabp :: _ => let* (objp, s) := kmem_cache_alloc_one c slabp s in Ok (Some objp, s)
      | [] =>
          let* (ok, s) := kmem_cache_grow (kmem_cache_alloc fuel) c s in
          if ok then kmem_cache_alloc fuel c s else Ok (None, s)
      end
  end.

(** The control structure of a slab is never in a cache that keeps its own
    control structures elsewhere: three steps are enough. *)
Definition kmalloc (size : Z) (s : slab_state) : res (option Z * slab_state) :=
  assert! 0 <? size ;;
  let* order := size_order size in
  if (MAX_SIZE_ORDER <? order)%nat then Ok (None, s)
  else kmem_cache_alloc 3 (order - MIN_SIZE_ORDER) s.

(** ** Release *)

Fixpoint unmark_pages (cnt : nat) (page : Z) (s : slab_state) : res slab_state :=
  match cnt with
  | O => Ok s
  | S cnt =>
      assert! bool_decide (page ∈ PG_slab s) ;;
      unmark_pages cnt (page + 1)
        (mk_st (pgs s) (slab_cache s) (slabs s) (page_link s) (PG_slab s ∖ {[page]}))
  end.

Definition kmem_slab_destroy (kmem_cache_free : nat -> Z -> slab_state -> res slab_state) (c : nat) (slabp : Z)
    (s : slab_state) : res slab_state :=
  let* cachep := get_cache c s in
  let* x := fetch (slabs s) slabp in
  let* page := kva2page KERNBASE (pg_npage (pgs s)) (u32 (s_mem x - s_offset x)) in
  let* s := unmark_pages (Z.to_nat (pow2 (page_order cachep))) page s in
  let* g := pg_free page (pow2 (page_order cachep)) (pgs s) in
  let s := set_slabs (delete slabp (slabs s)) (set_pgs g s) in
  if off_slab cachep then kmem_cache_free (slab_cachep cachep) slabp s else Ok s.

Definition kmem_cache_free_one (kmem_cache_free : nat -> Z -> slab_state -> res slab_state) (c : nat) (slabp objp : Z)
    (s : slab_state) : res slab_state :=
  let* cachep := get_cache c s in
  let* x := fetch (slabs s) slabp in
  let objnr := u32 (objp - s_mem x) / objsize cachep in
  match bufctl x !! Z.to_nat objnr with
  | None => Panic
  | Some _ =>
      let n := u32 (inuse x - 1) in
      let s := set_slabs (<[slabp := mk_slab (s_mem x) n (s_offset x) objnr (<[Z.to_nat objnr := free x]> (bufctl x))]> (slabs s)) s in
      if n =? 0 then
        let* s := upd_cache c (unlink slabp) s in
        kmem_slab_destroy kmem_cache_free c slabp s
      else if n =? u32 (num cachep - 1) then
        upd_cache c (fun y => link_notfull slabp (unlink slabp y)) s
      else Ok s
  end.

Fixpoint kmem_cache_free (fuel : nat) (c : nat) (objp : Z) (s : slab_state) : res slab_state :=
  match fuel with
  | O => Panic
  | S fuel =>
      let* page := kva2page KERNBASE (pg_npage (pgs s)) objp in
      assert! bool_decide (page ∈ PG_slab s) ;;
      let* link := fetch (page_link s) page in
      kmem_cache_free_one (kmem_cache_free fuel) c (snd link) objp s
  end.

Definition kfree (objp : Z) (s : slab_state) : res slab_state :=
  if objp =? 0 then Ok s else
  let* page := kva2page KERNBASE (pg_npage (pgs s)) objp in
  let* link := fetch (page_link s) page in
  kmem_cache_free 2 (fst link) objp s.

(** [slab_allocated] *)
Definition allocated_in (s : slab_state) (x : kmem_cache_t) (total : Z) : res Z :=
  let total := foldl (fun t _ => u32 (t + u32 (num x * objsize x))) total (slabs_full x) in
  foldl (fun t a => let* t := t in let* y := fetch (slabs s) a in Ok (u32 (t + u32 (inuse y * objsize x))))
    (Ok total) (slabs_notfull x).
Definition slab_allocated (s : slab_state) : res Z :=
  foldl (fun t x => let* t := t in allocated_in s x t) (Ok 0) (slab_cache s).

End Slab.

(** ** The free chain of a slab *)

(** [chain b f l]: following [b] from [f] visits [l] and stops at the end
    marker. *)
Fixpoint chain (b : list Z) (f : Z) (l : list Z) : Prop :=
  match l with
  | [] => f = BUFCTL_END
  | i :: l => f = i /\ 0 <= i < BUFCTL_END /\ exists g, b !! Z.to_nat i = Some g /\ chain b g l
  end.

(** The same walk as a function. *)
Fixpoint walk (fuel : nat) (b : list Z) (f : Z) : list Z :=
  match fuel with
  | O => []
  | S fuel =>
      if f =? BUFCTL_END then [] else
      match b !! Z.to_nat f with
      | Some g => f :: walk fuel b g
      | None => []
      end
  end.

Definition free_idx (x : slab_t) : list Z := walk (length (bufctl x)) (bufctl x) (free x).

Lemma walk_chain b l : forall fuel f, chain b f l -> (length l <= fuel)%nat -> walk fuel b f = l.
Proof.
  induction l as [|i l IH]; intros fuel f H Hl; cbn in H.
  - destruct fuel; cbn [walk]; [done|]. by rewrite (proj2 (Z.eqb_eq _ _) H).
  - destruct H as (-> & Hi & g & Hg & Hc). destruct fuel; [cbn in Hl; lia|]. cbn [walk].
    destruct (Z.eqb_spec i BUFCTL_END); [lia|]. rewrite Hg. f_equal. apply IH; [done|]. cbn in Hl; lia.
Qed.

Lemma chain_insert b f l i v : Z.of_nat i ∉ l -> chain b f l -> chain (<[i := v]> b) f l.
Proof.
  revert f. induction l as [|j l IH]; intros f Hni H; [done|]. cbn in *.
  apply not_elem_of_cons in Hni as [Hne Hni]. destruct H as (-> & Hj & g & Hg & Hc).
  split_and!; [done|lia|lia|]. exists g. rewrite list_lookup_insert_ne by lia. auto.
Qed.

Lemma bounded_length (l : list Z) n : NoDup l -> Forall (fun i => 0 <= i < n) l -> Z.of_nat (length l) <= Z.max 0 n.
Proof.
  intros Hnd Hb. assert (Hs : (length l <= length (seqZ 0 n))%nat).
  { apply submseteq_length, NoDup_submseteq; [done|]. intros x Hx. rewrite Forall_forall in Hb.
    specialize (Hb x Hx). apply elem_of_seqZ. lia. }
  rewrite length_seqZ in Hs. lia.
Qed.

(** A chain that misses an index does not fill the slab. *)
Lemma bounded_length_lt (l : list Z) n i :
  NoDup l -> Forall (fun i => 0 <= i < n) l -> 0 <= i < n -> i ∉ l -> Z.of_nat (length l) < n.
Proof.
  intros Hnd Hb Hi Hni. pose proof (bounded_length (i :: l) n) as H. cbn [length] in H.
  assert (Z.of_nat (S (length l)) <= Z.max 0 n); [|lia].
  apply H; [by constructor|by constructor].
Qed.

(** [l] is the free chain of the [n] objects of slab [x]. *)
Definition slab_chain (n : Z) (x : slab_t) (l : list Z) : Prop :=
  Z.of_nat (length (bufctl x)) = n /\ chain (bufctl x) (free x) l /\ NoDup l /\
  Forall (fun i => 0 <= i < n) l /\ inuse x = n - Z.of_nat (length l).

Lemma slab_chain_idx n x l : slab_chain n x l -> free_idx x = l.
Proof.
  intros (Hn & Hc & Hnd & Hb & _). apply walk_chain; [done|].
  pose proof (bounded_length l n Hnd Hb). lia.
Qed.

Lemma slab_chain_init n m o :
  0 < n < BUFCTL_END -> slab_chain n (mk_slab m 0 o 0 (init_bufctl n)) (seqZ 0 n).
Proof.
  intros Hn. unfold slab_chain, init_bufctl. cbn [bufctl free inuse].
  split_and!.
  - rewrite length_insert, length_seqZ. lia.
  - assert (Hc : forall k j, 0 <= j -> j + Z.of_nat k = n ->
      chain (<[Z.to_nat (n - 1):=BUFCTL_END]> (seqZ 1 n)) (if j =? n then BUFCTL_END else j) (seqZ j (Z.of_nat k))).
    { induction k as [|k IH]; intros j Hj Hk.
      - replace (Z.of_nat 0) with 0 by lia. cbn. destruct (Z.eqb_spec j n); [done|lia].
      - rewrite (seqZ_cons j) by lia. destruct (Z.eqb_spec j n); [lia|]. cbn [chain]. split_and!; [done|lia|lia|].
        replace (Z.pred (Z.of_nat (S k))) with (Z.of_nat k) by lia.
        specialize (IH (Z.succ j) ltac:(lia) ltac:(lia)).
        destruct (Z.eqb_spec (Z.succ j) n) as [E|E].
        + exists BUFCTL_END. split; [|done]. replace (Z.to_nat j) with (Z.to_nat (n - 1)) by lia.
          apply list_lookup_insert_eq. rewrite length_seqZ; lia.
        + exists (Z.succ j). split; [|done]. rewrite list_lookup_insert_ne by lia.
          apply lookup_seqZ. split; lia. }
    specialize (Hc (Z.to_nat n) 0 ltac:(lia) ltac:(lia)). rewrite Z2Nat.id in Hc by lia.
    destruct (Z.eqb_spec 0 n); [lia|done].
  - apply NoDup_seqZ.
  - apply Forall_forall. intros i Hi. apply elem_of_seqZ in Hi. lia.
  - rewrite length_seqZ. lia.
Qed.

(** Taking the first free object. *)
Lemma slab_chain_take n x i l nxt :
  n < BUFCTL_END -> slab_chain n x (i :: l) -> bufctl x !! Z.to_nat i = Some nxt ->
  slab_chain n (mk_slab (s_mem x) (u32 (inuse x + 1)) (s_offset x) nxt (bufctl x)) l /\
  (nxt = BUFCTL_END <-> l = []).
Proof.
  intros Hn (Hlen & (_ & Hi & g & Hg & Hc) & Hnd & Hb & Hu) Hx. rewrite Hg in Hx. injection Hx as ->.
  apply NoDup_cons in Hnd as [Hni Hnd]. apply Forall_cons in Hb as [Hbi Hb].
  pose proof (bounded_length_lt l n i Hnd Hb Hbi Hni). cbn [length] in Hu.
  split.
  - split_and!; cbn [bufctl free inuse]; try done. unfold BUFCTL_END in Hn. rewrite u32_small; lia.
  - destruct l as [|j l]; cbn in Hc; [done|]. destruct Hc as (-> & ? & _). split; [lia|done].
Qed.

(** Giving an object back. *)
Lemma slab_chain_give n x l i :
  n < BUFCTL_END -> slab_chain n x l -> 0 <= i < n -> i ∉ l ->
  slab_chain n (mk_slab (s_mem x) (u32 (inuse x - 1)) (s_offset x) i (<[Z.to_nat i := free x]> (bufctl x))) (i :: l).
Proof.
  intros Hn (Hlen & Hc & Hnd & Hb & Hu) Hi Hni.
  pose proof (bounded_length_lt l n i Hnd Hb Hi Hni).
  split_and!; cbn [bufctl free inuse length].
  - by rewrite length_insert.
  - split_and!; [done|lia|lia|]. exists (free x). split; [apply list_lookup_insert_eq; lia|].
    apply chain_insert; [|done]. by rewrite Z2Nat.id by lia.
  - by constructor.
  - by constructor.
  - unfold BUFCTL_END in Hn. rewrite u32_small; lia.
Qed.

(** ** Invariant *)

Section Inv.
Context {KERNBASE : Z} `{PA : PageAlloc KERNBASE}.

Record geom (cp : kmem_cache_t) : Prop := {
  g_size : 0 < objsize cp;
  g_align : objsize cp mod 16 = 0 /\ offset cp mod 16 = 0;
  g_num : 0 < num cp;
  g_order : (page_order cp <= KMALLOC_MAX_ORDER)%nat;
  g_fit : 0 <= offset cp /\ offset cp + num cp * objsize cp <= PGSIZE * pow2 (page_order cp);
  g_ctl : off_slab cp = false -> sizeof_slab + num cp * sizeof_bufctl <= offset cp }.

Definition caches_ok (l : list kmem_cache_t) : Prop :=
  forall c cp, l !! c = Some cp -> geom cp /\
    (off_slab cp = true -> exists cp', l !! slab_cachep cp = Some cp' /\ off_slab cp' = false /\
       sizeof_slab + num cp * sizeof_bufctl <= objsize cp').

(** Slab [a] is on one of the lists of cache [c]. *)
Definition on_cache (s : slab_state) (c : nat) (cp : kmem_cache_t) (a : Z) : Prop :=
  slab_cache s !! c = Some cp /\ (a ∈ slabs_full cp \/ a ∈ slabs_notfull cp).

(** The pages of a slab start at [p]. *)
Definition slab_ok (s : slab_state) (c : nat) (cp : kmem_cache_t) (a : Z) (x : slab_t) (p : Z) : Prop :=
  slabs s !! a = Some x /\ s_mem x = p * PGSIZE + offset cp /\ s_offset x = offset cp /\
  pg_owned (pgs s) p (pow2 (page_order cp)) /\
  (forall y, p <= y < p + pow2 (page_order cp) -> page_link s !! y = Some (c, a) /\ y ∈ PG_slab s) /\
  slab_chain (num cp) x (free_idx x) /\ (off_slab cp = false -> a = p * PGSIZE).

(** [o] is the address of object [i] of slab [a]. *)
Definition obj_at (s : slab_state) (c : nat) (cp : kmem_cache_t) (a : Z) (x : slab_t) (i o : Z) : Prop :=
  on_cache s c cp a /\ slabs s !! a = Some x /\ 0 <= i < num cp /\ o = s_mem x + i * objsize cp.

Definition obj_live (s : slab_state) (c : nat) (o : Z) : Prop :=
  exists cp a x i, obj_at s c cp a x i o /\ i ∉ free_idx x.

Record slab_inv (s : slab_state) : Prop := {
  si_pg : pg_inv (pgs s);
  si_caches : caches_ok (slab_cache s);
  si_nodup : forall c cp, slab_cache s !! c = Some cp -> NoDup (slabs_full cp) /\ NoDup (slabs_notfull cp);
  si_full : forall c cp a x, slab_cache s !! c = Some cp -> slabs s !! a = Some x ->
    (a ∈ slabs_full cp -> free_idx x = []) /\ (a ∈ slabs_notfull cp -> free_idx x <> []);
  si_slab : forall c cp a, on_cache s c cp a -> exists x p, slab_ok s c cp a x p;
  si_dom : forall a, is_Some (slabs s !! a) -> exists c cp, on_cache s c cp a;
  si_off : forall c cp a, on_cache s c cp a -> off_slab cp = true -> obj_live s (slab_cachep cp) a;
  si_marked : forall y, y ∈ PG_slab s -> exists c cp a x p,
    on_cache s c cp a /\ slab_ok s c cp a x p /\ p <= y < p + pow2 (page_order cp) }.

(** The objects the clients hold: live objects that are not the control
    structure of a slab. *)
Definition ulive (s : slab_state) (c : nat) (o : Z) : Prop := obj_live s c o /\ slabs s !! o = None.

(** Pages that were handed out to somebody else than a slab. *)
Definition reserved (s : slab_state) (p n : Z) : Prop :=
  pg_owned (pgs s) p n /\ forall y, p <= y < p + n -> y ∉ PG_slab s.

(** Caches differ in their lists only. *)
Definition same_caches (s s' : slab_state) : Prop :=
  forall c, set_lists [] [] <$> slab_cache s' !! c = set_lists [] [] <$> slab_cache s !! c.

(** ** Geometry *)

Lemma geom_num cp : geom cp -> num cp < BUFCTL_END.
Proof.
  intros [Hs _ Hn Ho [H1 H2] _]. pose proof (pow2_max (page_order cp) Ho) as Hp. unfold BUFCTL_END, PGSIZE in *. nia.
Qed.

Lemma pow2_order cp : geom cp -> 0 < pow2 (page_order cp) <= 1024.
Proof. intros G. pose proof (pow2_pos (page_order cp)). pose proof (pow2_max _ (g_order _ G)). lia. Qed.

(** An address inside object [i] lies on a page of its slab. *)
Lemma obj_page cp p i z :
  geom cp -> 0 <= i < num cp -> p * PGSIZE + offset cp + i * objsize cp <= z < p * PGSIZE + offset cp + i * objsize cp + objsize cp ->
  p <= z / PGSIZE < p + pow2 (page_order cp).
Proof.
  intros [Hs _ Hn Ho [H1 H2] _] Hi Hz. unfold PGSIZE in *. split.
  - apply Z.div_le_lower_bound; nia.
  - apply Z.div_lt_upper_bound; nia.
Qed.

Section At.
Context (s : slab_state) (I : slab_inv s).

Lemma on_geom c cp a : on_cache s c cp a -> geom cp.
Proof. intros [H _]. by apply (si_caches _ I) in H as [? _]. Qed.

Lemma slab_range c cp a x p : on_cache s c cp a -> slab_ok s c cp a x p ->
  0 < p /\ KERNBASE <= p * PGSIZE /\ p + pow2 (page_order cp) <= pg_npage (pgs s) /\ pg_npage (pgs s) <= 2 ^ 20.
Proof.
  intros Hon (_ & _ & _ & Ho & _). pose proof (on_geom _ _ _ Hon) as G.
  pose proof (pg_range _ _ _ (si_pg _ I) (proj1 (pow2_order _ G)) Ho).
  pose proof (pg_bound _ (si_pg _ I)). lia.
Qed.

(** Two slabs that share a page are one slab. *)
Lemma same_slab c cp a x p c2 cp2 a2 x2 p2 y :
  on_cache s c cp a -> slab_ok s c cp a x p -> on_cache s c2 cp2 a2 -> slab_ok s c2 cp2 a2 x2 p2 ->
  p <= y < p + pow2 (page_order cp) -> p2 <= y < p2 + pow2 (page_order cp2) ->
  c2 = c /\ cp2 = cp /\ a2 = a /\ x2 = x.
Proof.
  intros [Hc _] (Hx & _ & _ & _ & Hl & _) [Hc2 _] (Hx2 & _ & _ & _ & Hl2 & _) Hy Hy2.
  destruct (Hl y Hy) as [E _]. destruct (Hl2 y Hy2) as [E2 _]. rewrite E in E2. injection E2 as <- <-.
  split_and!; congruence.
Qed.

Lemma obj_at_ok c cp a x i o :
  obj_at s c cp a x i o -> exists p, slab_ok s c cp a x p /\ o = p * PGSIZE + offset cp + i * objsize cp.
Proof.
  intros (Hon & Hx & Hi & ->). destruct (si_slab _ I _ _ _ Hon) as (x' & p & Hok).
  pose proof Hok as (Hx' & Hm & _). rewrite Hx in Hx'. injection Hx' as <-. exists p. split; [done|]. lia.
Qed.

(** Objects do not overlap. *)
Lemma obj_sep c cp a x i o c2 cp2 a2 x2 i2 o2 z :
  obj_at s c cp a x i o -> obj_at s c2 cp2 a2 x2 i2 o2 ->
  o <= z < o + objsize cp -> o2 <= z < o2 + objsize cp2 ->
  c2 = c /\ cp2 = cp /\ a2 = a /\ x2 = x /\ i2 = i.
Proof.
  intros H H2 Hz Hz2. destruct (obj_at_ok _ _ _ _ _ _ H) as (p & Hok & Eo).
  destruct (obj_at_ok _ _ _ _ _ _ H2) as (p2 & Hok2 & Eo2).
  destruct H as (Hon & Hx & Hi & E). destruct H2 as (Hon2 & Hx2 & Hi2 & E2).
  pose proof (on_geom _ _ _ Hon) as G. pose proof (on_geom _ _ _ Hon2) as G2.
  edestruct (same_slab c cp a x p c2 cp2 a2 x2 p2 (z / PGSIZE)) as (-> & -> & -> & ->); try done.
  { apply (obj_page cp p i); [done|done|lia]. }
  { apply (obj_page cp2 p2 i2); [done|done|lia]. }
  split_and!; try done. pose proof (g_size _ G). nia.
Qed.

Lemma obj_at_inj c cp a x i c2 cp2 a2 x2 i2 o :
  obj_at s c cp a x i o -> obj_at s c2 cp2 a2 x2 i2 o -> c2 = c /\ cp2 = cp /\ a2 = a /\ x2 = x /\ i2 = i.
Proof.
  intros H H2. assert (G : geom cp) by (destruct H as [H _]; by eapply on_geom).
  assert (G2 : geom cp2) by (destruct H2 as [H2 _]; by eapply on_geom).
  apply (obj_sep c cp a x i o c2 cp2 a2 x2 i2 o o H H2); [pose proof (g_size _ G)|pose proof (g_size _ G2)]; lia.
Qed.

(** Whether object [i] of a slab is live depends on that slab only. *)
Lemma obj_live_at c cp a x i o : obj_at s c cp a x i o -> obj_live s c o <-> i ∉ free_idx x.
Proof.
  intros H. split.
  - intros (cp2 & a2 & x2 & i2 & H2 & Hi). by destruct (obj_at_inj _ _ _ _ _ _ _ _ _ _ _ H H2) as (_ & _ & _ & -> & ->).
  - intros Hi. by exists cp, a, x, i.
Qed.

(** A free object is not the address of a control structure. *)
Lemma free_obj_not_slab c cp a x i o : obj_at s c cp a x i o -> i ∈ free_idx x -> slabs s !! o = None.
Proof.
  intros H Hi. destruct (slabs s !! o) as [x2|] eqn:Ho; [|done]. exfalso.
  destruct (si_dom _ I o) as (c2 & cp2 & Hon2); [by rewrite Ho|].
  destruct (off_slab cp2) eqn:Hoff.
  - destruct (si_off _ I _ _ _ Hon2 Hoff) as (cp3 & a3 & x3 & i3 & H3 & Hl).
    by destruct (obj_at_inj _ _ _ _ _ _ _ _ _ _ _ H H3) as (_ & _ & _ & -> & ->).
  - destruct (si_slab _ I _ _ _ Hon2) as (x2' & p2 & Hok2). pose proof Hok2 as (_ & _ & _ & _ & _ & _ & Ea).
    specialize (Ea Hoff). destruct (obj_at_ok _ _ _ _ _ _ H) as (p & Hok & Eo).
    destruct H as (Hon & Hx & Hr & E). pose proof (on_geom _ _ _ Hon) as G. pose proof (on_geom _ _ _ Hon2) as G2.
    pose proof (g_size _ G). edestruct (same_slab c cp a x p c2 cp2 o x2' p2 (o / PGSIZE)) as (-> & -> & -> & ->); try done.
    + apply (obj_page cp p i); [done|done|lia].
    + rewrite Ea. rewrite Z.div_mul by done. pose proof (pow2_order _ G2). lia.
    + pose proof (g_ctl _ G Hoff). unfold sizeof_slab, sizeof_bufctl in *. destruct Hok as (_ & Hm & _).
      destruct Hok2 as (_ & Hm2 & _). pose proof (g_num _ G). nia.
Qed.

End At.
End Inv.

(** ** Changing the state of one slab *)

Section Touch.
Context {KERNBASE : Z} `{PA : PageAlloc KERNBASE}.

Lemma on_unique s c cp c2 cp2 a : slab_inv s -> on_cache s c cp a -> on_cache s c2 cp2 a -> c2 = c /\ cp2 = cp.
Proof.
  intros I H H2. destruct (si_slab _ I _ _ _ H) as (x & p & Hok). destruct (si_slab _ I _ _ _ H2) as (x2 & p2 & Hok2).
  pose proof Hok as (Hx & Hm & Ho & _). pose proof Hok2 as (Hx2 & Hm2 & Ho2 & _).
  rewrite Hx in Hx2. injection Hx2 as <-. assert (p2 = p) as -> by (unfold PGSIZE in *; lia).
  pose proof (pow2_order _ (on_geom _ I _ _ _ H)). pose proof (pow2_order _ (on_geom _ I _ _ _ H2)).
  edestruct (same_slab s c cp a x p c2 cp2 a x p p) as (-> & -> & _); try done; lia.
Qed.

Definition touched (s : slab_state) (c : nat) (cp : kmem_cache_t) (a : Z) (x : slab_t) (f n : list Z) : slab_state :=
  set_caches (<[c := set_lists f n cp]> (slab_cache s)) (set_slabs (<[a := x]> (slabs s)) s).

Section One.
Context (s : slab_state) (c : nat) (cp : kmem_cache_t) (a : Z) (x x' : slab_t) (l' f n : list Z).
Context (I : slab_inv s) (Hon : on_cache s c cp a) (Hx : slabs s !! a = Some x).
Context (Hm : s_mem x' = s_mem x) (Ho : s_offset x' = s_offset x) (Hch : slab_chain (num cp) x' l').
Context (Nf : NoDup f) (Nn : NoDup n).
Context (Hf : forall b, b ∈ f <-> if decide (b = a) then l' = [] else b ∈ slabs_full cp).
Context (Hn : forall b, b ∈ n <-> if decide (b = a) then l' <> [] else b ∈ slabs_notfull cp).
Context (Hkeep : forall i, i ∉ free_idx x -> i ∈ l' -> slabs s !! (s_mem x + i * objsize cp) = None).
Let s' := touched s c cp a x' f n.

Lemma touched_cache c2 cp2 :
  slab_cache s' !! c2 = Some cp2 <->
  exists cp0, slab_cache s !! c2 = Some cp0 /\ cp2 = if decide (c2 = c) then set_lists f n cp0 else cp0.
Proof.
  destruct Hon as [Hc _]. cbn. destruct (decide (c2 = c)) as [->|].
  - rewrite list_lookup_insert_eq by (by eapply lookup_lt_Some). split.
    + intros [= <-]. eauto.
    + intros (cp0 & E & ->). congruence.
  - rewrite list_lookup_insert_ne by done. split; [eauto|]. by intros (cp0 & E & ->).
Qed.

Lemma touched_on c2 cp2 a2 :
  on_cache s' c2 cp2 a2 <->
  exists cp0, on_cache s c2 cp0 a2 /\ cp2 = if decide (c2 = c) then set_lists f n cp0 else cp0.
Proof.
  unfold on_cache. rewrite touched_cache. split.
  - intros ((cp0 & E & ->) & Hin). exists cp0. split; [|done]. split; [done|].
    destruct (decide (c2 = c)) as [->|]; [|done]. cbn in Hin. rewrite Hf, Hn in Hin.
    destruct Hon as [Hc Hin0]. assert (cp0 = cp) as -> by congruence. by destruct (decide (a2 = a)) as [->|].
  - intros (cp0 & [E Hin] & ->). split; [eauto|]. destruct (decide (c2 = c)) as [->|]; [|done]. cbn. rewrite Hf, Hn.
    destruct Hon as [Hc Hin0]. assert (cp0 = cp) as -> by congruence. destruct (decide (a2 = a)); [|done].
    destruct l'; [by left|by right].
Qed.

Lemma touched_slab_ok c2 cp2 a2 x2 p :
  on_cache s c2 cp2 a2 -> slab_ok s c2 cp2 a2 x2 p ->
  slab_ok s' c2 (if decide (c2 = c) then set_lists f n cp2 else cp2) a2 (if decide (a2 = a) then x' else x2) p.
Proof.
  intros Hon2 (Hx2 & Hm2 & Ho2 & Hp & Hl & Hch2 & Ea). unfold slab_ok.
  assert (E : forall A (g : kmem_cache_t -> A), (forall f n y, g (set_lists f n y) = g y) ->
    g (if decide (c2 = c) then set_lists f n cp2 else cp2) = g cp2).
  { intros A g Hg. by destruct (decide (c2 = c)). }
  rewrite !E by done. cbn. destruct (decide (a2 = a)) as [->|Hne].
  - rewrite lookup_insert_eq. rewrite Hx in Hx2. injection Hx2 as <-.
    destruct (on_unique _ _ _ _ _ _ I Hon Hon2) as [-> ->]. rewrite (slab_chain_idx _ _ _ Hch).
    split_and!; try done; congruence.
  - rewrite lookup_insert_ne by done. by split_and!.
Qed.

Lemma touched_live c2 o :
  obj_live s' c2 o <->
  exists cp2 a2 x2 i, obj_at s c2 cp2 a2 x2 i o /\ i ∉ (if decide (a2 = a) then l' else free_idx x2).
Proof.
  unfold obj_live, obj_at. split.
  - intros (cp2 & a2 & x2 & i & (Hon2 & Hx2 & Hi & ->) & Hl). apply touched_on in Hon2 as (cp0 & Hon2 & ->). cbn in Hx2.
    assert (E : objsize (if decide (c2 = c) then set_lists f n cp0 else cp0) = objsize cp0 /\
      num (if decide (c2 = c) then set_lists f n cp0 else cp0) = num cp0) by by destruct (decide (c2 = c)).
    destruct E as [E1 E2]. rewrite E2 in Hi. rewrite E1. destruct (decide (a2 = a)) as [->|Hne].
    + rewrite lookup_insert_eq in Hx2. injection Hx2 as <-. exists cp0, a, x, i. rewrite decide_True by done.
      rewrite Hm. rewrite (slab_chain_idx _ _ _ Hch) in Hl. done.
    + rewrite lookup_insert_ne in Hx2 by done. exists cp0, a2, x2, i. by rewrite decide_False by done.
  - intros (cp0 & a2 & x2 & i & (Hon2 & Hx2 & Hi & ->) & Hl).
    exists (if decide (c2 = c) then set_lists f n cp0 else cp0), a2, (if decide (a2 = a) then x' else x2), i.
    assert (E : objsize (if decide (c2 = c) then set_lists f n cp0 else cp0) = objsize cp0 /\
      num (if decide (c2 = c) then set_lists f n cp0 else cp0) = num cp0) by by destruct (decide (c2 = c)).
    destruct E as [E1 E2]. rewrite E1, E2. split_and!; [apply touched_on; eauto| |lia|lia| |]; cbn.
    + destruct (decide (a2 = a)) as [->|]; [by rewrite lookup_insert_eq|by rewrite lookup_insert_ne].
    + destruct (decide (a2 = a)) as [->|]; [|done]. congruence.
    + destruct (decide (a2 = a)) as [->|]; [|done]. by rewrite (slab_chain_idx _ _ _ Hch).
Qed.

Lemma touched_inv : slab_inv s'.
Proof.
  split.
  - apply I.
  - intros c2 cp2 H. apply touched_cache in H as (cp0 & H & ->). apply (si_caches _ I) in H as [G Hoff]. split.
    + destruct (decide (c2 = c)); [|done]. by destruct G.
    + intros Ht. destruct Hoff as (cp' & E & Hn' & Hs); [by destruct (decide (c2 = c))|].
      exists (if decide (slab_cachep cp0 = c) then set_lists f n cp' else cp'). split_and!.
      * apply touched_cache. exists cp'. by destruct (decide (c2 = c)).
      * by destruct (decide (slab_cachep cp0 = c)).
      * destruct (decide (slab_cachep cp0 = c)), (decide (c2 = c)); done.
  - intros c2 cp2 H. apply touched_cache in H as (cp0 & H & ->). destruct (decide (c2 = c)); [done|]. by apply (si_nodup _ I) in H.
  - intros c2 cp2 b y H Hy. apply touched_cache in H as (cp0 & H & ->). cbn in Hy.
    destruct (decide (b = a)) as [->|Hne].
    + rewrite lookup_insert_eq in Hy. injection Hy as <-. rewrite (slab_chain_idx _ _ _ Hch).
      destruct (decide (c2 = c)) as [->|Hc]; cbn.
      * rewrite Hf, Hn. by rewrite !decide_True by done.
      * assert (Hno : ~ (a ∈ slabs_full cp0 \/ a ∈ slabs_notfull cp0)); [|tauto].
        intros Hin. by destruct (on_unique s c cp c2 cp0 a I Hon (conj H Hin)).
    + rewrite lookup_insert_ne in Hy by done. pose proof (si_full _ I _ _ _ _ H Hy) as Hb.
      destruct (decide (c2 = c)) as [->|Hc]; [|done]. cbn. rewrite Hf, Hn, !decide_False by done.
      destruct Hon as [Hc _]. by assert (cp0 = cp) as -> by congruence.
  - intros c2 cp2 b H. apply touched_on in H as (cp0 & H & ->).
    destruct (si_slab _ I _ _ _ H) as (y & p & Hok). eauto using touched_slab_ok.
  - intros b Hb. assert (is_Some (slabs s !! b)) as Hb'.
    { cbn in Hb. destruct (decide (b = a)) as [->|]; [by rewrite Hx|by rewrite lookup_insert_ne in Hb]. }
    apply (si_dom _ I) in Hb' as (c2 & cp2 & H). eexists c2, _. apply touched_on. eauto.
  - intros c2 cp2 b H Hoff. apply touched_on in H as (cp0 & H & ->).
    assert (E : slab_cachep (if decide (c2 = c) then set_lists f n cp0 else cp0) = slab_cachep cp0) by by destruct (decide (c2 = c)).
    rewrite E. assert (Hoff' : off_slab cp0 = true) by by destruct (decide (c2 = c)).
    destruct (si_off _ I _ _ _ H Hoff') as (cp3 & a3 & x3 & i & Hat & Hi). apply touched_live.
    exists cp3, a3, x3, i. split; [done|]. destruct (decide (a3 = a)) as [->|]; [|done].
    destruct Hat as (Hon3 & Hx3 & _ & Eb). destruct (on_unique _ _ _ _ _ _ I Hon Hon3) as [_ ->].
    rewrite Hx in Hx3. injection Hx3 as <-. intros Hi'. specialize (Hkeep i Hi Hi').
    rewrite <- Eb in Hkeep. destruct (si_slab _ I _ _ _ H) as (y & ? & Hy & _). congruence.
  - intros y Hy. destruct (si_marked _ I y Hy) as (c2 & cp2 & b & z & p & H & Hok & Hr).
    exists c2, (if decide (c2 = c) then set_lists f n cp2 else cp2), b, (if decide (b = a) then x' else z), p.
    split_and!; [apply touched_on; eauto|by apply touched_slab_ok| |]; destruct (decide (c2 = c)); cbn; lia.
Qed.

End One.
End Touch.

(** ** Taking an object from a slab *)

Section Take.
Context {KERNBASE : Z} `{PA : PageAlloc KERNBASE}.

Lemma same_caches_refl (s : slab_state) : same_caches s s.
Proof. by intros c. Qed.
Lemma same_caches_trans (s1 s2 s3 : slab_state) : same_caches s1 s2 -> same_caches s2 s3 -> same_caches s1 s3.
Proof. intros H1 H2 c. by rewrite H2. Qed.

Lemma same_caches_insert (s s' : slab_state) c cp f n :
  slab_cache s !! c = Some cp -> slab_cache s' = <[c := set_lists f n cp]> (slab_cache s) -> same_caches s s'.
Proof.
  intros H E c2. rewrite E. destruct (decide (c2 = c)) as [->|].
  - rewrite list_lookup_insert_eq by (by eapply lookup_lt_Some). by rewrite H.
  - by rewrite list_lookup_insert_ne.
Qed.

Lemma same_caches_lookup (s s' : slab_state) c cp :
  same_caches s s' -> slab_cache s !! c = Some cp ->
  exists cp', slab_cache s' !! c = Some cp' /\ cp' = set_lists (slabs_full cp') (slabs_notfull cp') cp.
Proof.
  intros H E. specialize (H c). rewrite E in H. destruct (slab_cache s' !! c) as [cp'|]; [|done].
  exists cp'. split; [done|]. cbn in H. injection H as H1 H2 H3 H4 H5 H6. destruct cp, cp'; cbn in *. unfold set_lists; cbn.
  congruence.
Qed.

Lemma set_lists_id (cp : kmem_cache_t) : set_lists (slabs_full cp) (slabs_notfull cp) cp = cp.
Proof. by destruct cp. Qed.

Lemma live_range s c o cp :
  slab_inv s -> obj_live s c o -> slab_cache s !! c = Some cp ->
  o mod 16 = 0 /\ 0 < o /\ KERNBASE <= o /\ o + objsize cp <= pg_npage (pgs s) * PGSIZE.
Proof.
  intros I (cp' & a & x & i & H & _) Hc. destruct (obj_at_ok _ I _ _ _ _ _ _ H) as (p & Hok & E).
  destruct H as (Hon & _ & Hi & _). pose proof Hon as [Hc' _]. assert (cp' = cp) as -> by congruence.
  pose proof (on_geom _ I _ _ _ Hon) as G. pose proof (slab_range _ I _ _ _ _ _ Hon Hok) as (H1 & H2 & H3 & _).
  destruct (g_align _ G) as [Ha Hb]. destruct (g_fit _ G). pose proof (g_size _ G). unfold PGSIZE in *.
  split_and!; [|nia|nia|nia].
  rewrite E. rewrite <- Zplus_mod_idemp_r, Zmult_mod, Ha, Z.mul_0_r. change (0 mod 16) with 0. rewrite Z.add_0_r.
  rewrite <- Zplus_mod_idemp_r, Hb, Z.add_0_r. replace (p * 4096) with (p * 256 * 16) by lia. apply Z.mod_mul. lia.
Qed.

Lemma obj_no_wrap s c cp a x i o :
  slab_inv s -> obj_at s c cp a x i o -> u32 (s_mem x + u32 (i * objsize cp)) = o /\ u32 (o - s_mem x) / objsize cp = i.
Proof.
  intros I H. destruct (obj_at_ok _ I _ _ _ _ _ _ H) as (p & Hok & E). destruct H as (Hon & _ & Hi & ->).
  pose proof (on_geom _ I _ _ _ Hon) as G. pose proof (slab_range _ I _ _ _ _ _ Hon Hok) as (H1 & H2 & H3 & H4).
  destruct (g_fit _ G). pose proof (g_size _ G). unfold PGSIZE in *. split.
  - rewrite u32_add_r. apply u32_small. nia.
  - replace (s_mem x + i * objsize cp - s_mem x) with (i * objsize cp) by lia.
    rewrite u32_small by nia. apply Z.div_mul. lia.
Qed.

Lemma kmem_cache_alloc_one_ok s c cp a :
  slab_inv s -> slab_cache s !! c = Some cp -> a ∈ slabs_notfull cp ->
  returns (kmem_cache_alloc_one c a s) (fun '(o, s') =>
    slab_inv s' /\ same_caches s s' /\ pgs s' = pgs s /\ PG_slab s' = PG_slab s /\
    (forall b, slabs s' !! b = None <-> slabs s !! b = None) /\ ulive s' c o /\ ~ obj_live s c o /\
    (forall c2 o2, obj_live s' c2 o2 <-> obj_live s c2 o2 \/ (c2 = c /\ o2 = o))).
Proof.
  intros I Hc Hin. assert (Hon : on_cache s c cp a) by (split; auto).
  destruct (si_slab _ I _ _ _ Hon) as (x & p & Hok). pose proof Hok as (Hx & Hm & Hof & _ & _ & Hch & _).
  pose proof (on_geom _ I _ _ _ Hon) as G. pose proof (geom_num _ G) as Hnum.
  destruct (si_nodup _ I _ _ Hc) as [Nf Nn]. destruct (si_full _ I _ _ _ _ Hc Hx) as [Ff Fn].
  destruct (free_idx x) as [|i l] eqn:Hl; [by destruct (Fn Hin)|].
  assert (Hnf : a ∉ slabs_full cp) by (intros H; by specialize (Ff H)).
  pose proof Hch as (_ & (Ef & Hi & nxt & Hnxt & _) & Hnd & Hb & _). apply Forall_cons in Hb as [Hbi _].
  destruct (slab_chain_take _ _ _ _ _ Hnum Hch Hnxt) as [Hch' Hend].
  set (x' := mk_slab (s_mem x) (u32 (inuse x + 1)) (s_offset x) nxt (bufctl x)) in *.
  assert (Hat : obj_at s c cp a x i (s_mem x + i * objsize cp)) by (split_and!; auto; lia).
  destruct (obj_no_wrap _ _ _ _ _ _ _ I Hat) as [Ho _].
  assert (Hfree : i ∈ free_idx x) by (rewrite Hl; by left).
  assert (Hpost : forall f n, NoDup f -> NoDup n ->
    (forall b, b ∈ f <-> if decide (b = a) then l = [] else b ∈ slabs_full cp) ->
    (forall b, b ∈ n <-> if decide (b = a) then l <> [] else b ∈ slabs_notfull cp) ->
    let s' := touched s c cp a x' f n in let o := s_mem x + i * objsize cp in
    slab_inv s' /\ same_caches s s' /\ pgs s' = pgs s /\ PG_slab s' = PG_slab s /\
    (forall b, slabs s' !! b = None <-> slabs s !! b = None) /\ ulive s' c o /\ ~ obj_live s c o /\
    (forall c2 o2, obj_live s' c2 o2 <-> obj_live s c2 o2 \/ (c2 = c /\ o2 = o))).
  { intros f n Nf' Nn' Hf Hn s' o.
    assert (Hk : forall j, j ∉ free_idx x -> j ∈ l -> slabs s !! (s_mem x + j * objsize cp) = None).
    { intros j Hj Hj'. exfalso. apply Hj. rewrite Hl. by right. }
    assert (Hdom : forall b, slabs s' !! b = None <-> slabs s !! b = None).
    { intros b. cbn. destruct (decide (b = a)) as [->|]; [by rewrite lookup_insert_eq, Hx|by rewrite lookup_insert_ne]. }
    assert (Hlive : forall c2 o2, obj_live s' c2 o2 <-> obj_live s c2 o2 \/ (c2 = c /\ o2 = o)).
    { intros c2 o2. unfold s'. rewrite (touched_live s c cp a x x' l f n) by done. split.
      - intros (cp2 & a2 & x2 & i2 & Hat2 & Hi2). destruct (decide (a2 = a)) as [->|]; [|left; by exists cp2, a2, x2, i2].
        pose proof Hat2 as (Hon2 & Hx2 & _). destruct (on_unique _ _ _ _ _ _ I Hon Hon2) as [-> ->].
        assert (x2 = x) as -> by congruence. destruct (decide (i2 = i)) as [->|]; [right; split; [done|by apply Hat2]|].
        left. exists cp, a, x, i2. split; [done|]. rewrite Hl. by apply not_elem_of_cons.
      - intros [(cp2 & a2 & x2 & i2 & Hat2 & Hi2)|[-> ->]].
        + exists cp2, a2, x2, i2. split; [done|]. destruct (decide (a2 = a)) as [->|]; [|done].
          destruct Hat2 as (_ & Hx2 & _). assert (x2 = x) as -> by congruence. rewrite Hl in Hi2.
          by apply not_elem_of_cons in Hi2 as [_ ?].
        + exists cp, a, x, i. split; [done|]. rewrite decide_True by done. by apply NoDup_cons in Hnd as [? _]. }
    split_and!; try done.
    - apply (touched_inv s c cp a x x' l f n); done.
    - eapply same_caches_insert; done.
    - split; [apply Hlive; auto|]. apply Hdom. by eapply free_obj_not_slab.
    - intros H. by apply (obj_live_at _ I _ _ _ _ _ _ Hat) in H. }
  unfold kmem_cache_alloc_one, get_cache. rewrite Hc. cbn [res_bind]. unfold fetch. rewrite Hx. cbn [res_bind].
  rewrite Ef, Hnxt. fold x'. cbn zeta. rewrite Ho. destruct (Z.eqb_spec nxt BUFCTL_END) as [E|E].
  - unfold upd_cache, get_cache. cbn [slab_cache set_slabs]. rewrite Hc. cbn [res_bind]. apply returns_ok. cbv beta.
    apply (Hpost (a :: filter (fun b => b <> a) (slabs_full cp)) (filter (fun b => b <> a) (slabs_notfull cp))).
    + constructor; [|by apply NoDup_filter]. rewrite list_elem_of_filter. tauto.
    + by apply NoDup_filter.
    + intros b. rewrite elem_of_cons, list_elem_of_filter. destruct (decide (b = a)) as [->|]; [|tauto].
      apply Hend in E. tauto.
    + intros b. rewrite list_elem_of_filter. destruct (decide (b = a)) as [->|]; [|tauto]. apply Hend in E. tauto.
  - cbn [res_bind]. apply returns_ok. cbv beta. specialize (Hpost (slabs_full cp) (slabs_notfull cp) Nf Nn).
    unfold touched in Hpost. rewrite set_lists_id, list_insert_id in Hpost by done. apply Hpost.
    + intros b. destruct (decide (b = a)) as [->|]; [|done]. split; [done|]. intros ->. by destruct E; apply Hend.
    + intros b. destruct (decide (b = a)) as [->|]; [|done]. split; [|done]. intros _ ->. by destruct E; apply Hend.
Qed.

End Take.

(** ** Adding a slab *)

Section Grow.
Context {KERNBASE : Z} `{PA : PageAlloc KERNBASE}.

(** The page allocator moves, the slabs keep their pages. *)
Lemma set_pgs_inv s g :
  slab_inv s -> pg_inv g ->
  (forall c cp a x p, on_cache s c cp a -> slab_ok s c cp a x p -> pg_owned g p (pow2 (page_order cp))) ->
  slab_inv (set_pgs g s) /\ (forall c o, obj_live (set_pgs g s) c o <-> obj_live s c o).
Proof.
  intros I Hg Hown. split; [|done].
  assert (Hok : forall c cp a x p, on_cache s c cp a -> slab_ok s c cp a x p -> slab_ok (set_pgs g s) c cp a x p).
  { intros c cp a x p Hon Hok. pose proof (Hown _ _ _ _ _ Hon Hok). destruct Hok as (? & ? & ? & _ & ? & ? & ?). by split_and!. }
  split; try apply I; [done|..].
  - intros c cp a Hon. destruct (si_slab _ I c cp a Hon) as (x & p & H). exists x, p. by apply Hok.
  - intros y Hy. destruct (si_marked _ I y Hy) as (c & cp & a & x & p & Hon & H & Hr).
    exists c, cp, a, x, p. split_and!; [done|by apply Hok|lia..].
Qed.

Lemma mark_pages_ok cnt c a : forall p s, let s' := mark_pages cnt p c a s in
  pgs s' = pgs s /\ slab_cache s' = slab_cache s /\ slabs s' = slabs s /\
  (forall y, page_link s' !! y = if decide (p <= y < p + Z.of_nat cnt) then Some (c, a) else page_link s !! y) /\
  (forall y, y ∈ PG_slab s' <-> p <= y < p + Z.of_nat cnt \/ y ∈ PG_slab s).
Proof.
  induction cnt as [|cnt IH]; intros p s; cbn [mark_pages].
  - cbn zeta. split_and!; try done; intros y.
    + by rewrite decide_False by lia.
    + split; [auto|]. intros [?|?]; [lia|done].
  - destruct (IH (p + 1) (mk_st (pgs s) (slab_cache s) (slabs s) (<[p := (c, a)]> (page_link s)) ({[p]} ∪ PG_slab s)))
      as (-> & -> & -> & Hl & Hm).
    split_and!; try done; intros y.
    + rewrite Hl. cbn [page_link]. destruct (decide (p = y)) as [->|].
      * rewrite decide_False, decide_True, lookup_insert_eq by lia. done.
      * rewrite lookup_insert_ne by done.
        destruct (decide (p + 1 <= y < p + 1 + Z.of_nat cnt)), (decide (p <= y < p + Z.of_nat (S cnt))); try done; lia.
    + rewrite Hm. cbn [PG_slab]. rewrite elem_of_union, elem_of_singleton. split.
      * intros [?|[->|?]]; [left; lia|left; lia|by right].
      * intros [?|?]; [|auto]. destruct (decide (y = p)); [auto|left; lia].
Qed.

(** The lists are the only fields that linking changes. *)
Lemma if_link {A} (g : kmem_cache_t -> A) (P : Prop) (d : {P} + {~ P}) a cp :
  (forall f n y, g (set_lists f n y) = g y) -> g (if d then link_notfull a cp else cp) = g cp.
Proof. intros Hg. destruct d; [apply Hg|done]. Qed.

Section Link.
Context (s s' : slab_state) (c : nat) (cp : kmem_cache_t) (a p : Z).
Let n := pow2 (page_order cp).
Let x := mk_slab (p * PGSIZE + offset cp) 0 (offset cp) 0 (init_bufctl (num cp)).
Context (I : slab_inv s) (Hc : slab_cache s !! c = Some cp) (Hr : reserved s p n) (Ha : slabs s !! a = None).
Context (Hctl : if off_slab cp then obj_live s (slab_cachep cp) a else a = p * PGSIZE).
Context (Epg : pgs s' = pgs s) (Ec : slab_cache s' = <[c := link_notfull a cp]> (slab_cache s)).
Context (Es : slabs s' = <[a := x]> (slabs s)).
Context (El : forall y, page_link s' !! y = if decide (p <= y < p + n) then Some (c, a) else page_link s !! y).
Context (Em : forall y, y ∈ PG_slab s' <-> p <= y < p + n \/ y ∈ PG_slab s).

Let G : geom cp := proj1 (si_caches _ I _ _ Hc).

Lemma link_idx : free_idx x = seqZ 0 (num cp).
Proof. eapply slab_chain_idx, slab_chain_init. pose proof (g_num _ G). pose proof (geom_num _ G). lia. Qed.

Lemma link_cache c2 cp2 :
  slab_cache s' !! c2 = Some cp2 <->
  exists cp0, slab_cache s !! c2 = Some cp0 /\ cp2 = if decide (c2 = c) then link_notfull a cp0 else cp0.
Proof.
  rewrite Ec. destruct (decide (c2 = c)) as [->|].
  - rewrite list_lookup_insert_eq by (by eapply lookup_lt_Some). split.
    + intros [= <-]. eauto.
    + intros (cp0 & E & ->). congruence.
  - rewrite list_lookup_insert_ne by done. split; [eauto|]. by intros (cp0 & E & ->).
Qed.

Lemma link_on c2 cp2 b :
  on_cache s' c2 cp2 b <->
  exists cp0, slab_cache s !! c2 = Some cp0 /\ cp2 = (if decide (c2 = c) then link_notfull a cp0 else cp0) /\
    (on_cache s c2 cp0 b \/ (c2 = c /\ b = a)).
Proof.
  unfold on_cache. rewrite link_cache. split.
  - intros ((cp0 & E & ->) & Hin). exists cp0. split_and!; try done.
    destruct (decide (c2 = c)) as [->|]; [|auto]. cbn in Hin. rewrite elem_of_cons in Hin. intuition.
  - intros (cp0 & E & -> & Hin). split; [eauto|]. destruct (decide (c2 = c)) as [->|]; cbn.
    + rewrite elem_of_cons. intuition.
    + intuition.
Qed.

Lemma link_old c2 cp2 b : on_cache s c2 cp2 b -> b <> a.
Proof. intros H ->. destruct (si_slab _ I _ _ _ H) as (y & q & Hy & _). congruence. Qed.

Lemma link_slab_ok c2 cp2 b y q :
  on_cache s c2 cp2 b -> slab_ok s c2 cp2 b y q ->
  slab_ok s' c2 (if decide (c2 = c) then link_notfull a cp2 else cp2) b y q.
Proof.
  intros Hon (Hy & Hm & Ho & Hp & Hl & Hch & Eb). unfold slab_ok.
  rewrite !if_link by done. rewrite Epg, Es. split_and!; try done.
  - rewrite lookup_insert_ne; [done|]. intros <-. by destruct (link_old _ _ _ Hon).
  - intros z Hz. destruct (Hl z Hz) as [H1 H2]. rewrite El, Em. rewrite decide_False; [auto|].
    intros Hz'. by destruct (proj2 Hr z Hz').
Qed.

Lemma link_new_ok : slab_ok s' c (link_notfull a cp) a x p.
Proof.
  unfold slab_ok. cbn [link_notfull set_lists offset page_order num off_slab]. rewrite Es, Epg, link_idx. split_and!; try done.
  - by rewrite lookup_insert_eq.
  - apply Hr.
  - intros y Hy. rewrite El, Em. rewrite decide_True by done. auto.
  - apply slab_chain_init. pose proof (g_num _ G). pose proof (geom_num _ G). lia.
  - intros E. by rewrite E in Hctl.
Qed.

Lemma link_live c2 o : obj_live s' c2 o <-> obj_live s c2 o.
Proof.
  unfold obj_live, obj_at. split.
  - intros (cp2 & b & y & i & (Hon & Hy & Hi & ->) & Hl). apply link_on in Hon as (cp0 & Hc0 & -> & Hon).
    rewrite (if_link num) in Hi by done; rewrite (if_link objsize) by done. rewrite Es in Hy. destruct Hon as [Hon|[-> ->]].
    + rewrite lookup_insert_ne in Hy by (intros <-; by destruct (link_old _ _ _ Hon)). by exists cp0, b, y, i.
    + exfalso. rewrite lookup_insert_eq in Hy. injection Hy as <-. rewrite link_idx in Hl. apply Hl, elem_of_seqZ.
      assert (cp0 = cp) as -> by congruence. lia.
  - intros (cp0 & b & y & i & (Hon & Hy & Hi & ->) & Hl).
    exists (if decide (c2 = c) then link_notfull a cp0 else cp0), b, y, i. rewrite (if_link num), (if_link objsize) by done.
    split_and!; [|rewrite Es; rewrite lookup_insert_ne; [done|]|lia..|done].
    + apply link_on. exists cp0. split_and!; [apply Hon|done|by left].
    + intros <-. by destruct (link_old _ _ _ Hon).
Qed.

Lemma link_inv : slab_inv s'.
Proof.
  assert (Hno : forall c2 cp2, slab_cache s !! c2 = Some cp2 -> ~ (a ∈ slabs_full cp2 \/ a ∈ slabs_notfull cp2)).
  { intros c2 cp2 H Hin. by destruct (link_old c2 cp2 a). }
  split.
  - rewrite Epg. apply I.
  - intros c2 cp2 H. apply link_cache in H as (cp0 & H & ->). apply (si_caches _ I) in H as [G' Hoff]. split.
    + destruct (decide (c2 = c)); [by destruct G'|done].
    + rewrite (if_link off_slab), (if_link slab_cachep), (if_link num) by done. intros Ht. destruct (Hoff Ht) as (cp' & H' & Hn' & Hs).
      exists (if decide (slab_cachep cp0 = c) then link_notfull a cp' else cp'). rewrite (if_link off_slab), (if_link objsize) by done.
      split_and!; [apply link_cache; eauto|done..].
  - intros c2 cp2 H. apply link_cache in H as (cp0 & H & ->). pose proof (si_nodup _ I _ _ H) as [N1 N2].
    destruct (decide (c2 = c)); [|done]. cbn. split; [done|]. constructor; [|done].
    intros Hin. by destruct (Hno _ _ H); right.
  - intros c2 cp2 b y H Hy. apply link_cache in H as (cp0 & H & ->). rewrite Es in Hy. pose proof (Hno _ _ H) as Hna.
    destruct (decide (b = a)) as [->|Hne].
    + rewrite lookup_insert_eq in Hy. injection Hy as <-. rewrite link_idx.
      assert (seqZ 0 (num cp) <> []) by (pose proof (g_num _ G); rewrite seqZ_cons by lia; done).
      destruct (decide (c2 = c)); cbn; [|tauto]. tauto.
    + rewrite lookup_insert_ne in Hy by done. pose proof (si_full _ I _ _ _ _ H Hy) as [F1 F2].
      destruct (decide (c2 = c)); [|done]. cbn. rewrite elem_of_cons. tauto.
  - intros c2 cp2 b H. apply link_on in H as (cp0 & H & -> & [Hon|[-> ->]]).
    + destruct (si_slab _ I _ _ _ Hon) as (y & q & Hok). eauto using link_slab_ok.
    + assert (cp0 = cp) as -> by congruence. rewrite decide_True by done. eauto using link_new_ok.
  - intros b Hb. rewrite Es in Hb. destruct (decide (b = a)) as [->|Hne].
    + exists c, (link_notfull a cp). apply link_on. exists cp. rewrite decide_True by done. auto.
    + rewrite lookup_insert_ne in Hb by done. apply (si_dom _ I) in Hb as (c2 & cp2 & Hon).
      eexists c2, _. apply link_on. exists cp2. split_and!; [apply Hon|done|by left].
  - intros c2 cp2 b H Hoff. apply link_on in H as (cp0 & H & -> & Hon). rewrite (if_link off_slab) in Hoff by done; rewrite (if_link slab_cachep) by done. apply link_live.
    destruct Hon as [Hon|[-> ->]]; [by apply (si_off _ I _ _ _ Hon)|].
    assert (cp0 = cp) as -> by congruence. by rewrite Hoff in Hctl.
  - intros y Hy. apply Em in Hy as [Hy|Hy].
    + exists c, (link_notfull a cp), a, x, p. split_and!; [|apply link_new_ok|cbn; unfold n in Hy; lia..].
      apply link_on. exists cp. rewrite decide_True by done. auto.
    + destruct (si_marked _ I y Hy) as (c2 & cp2 & b & z & q & Hon & Hok & Hq).
      exists c2, (if decide (c2 = c) then link_notfull a cp2 else cp2), b, z, q. rewrite (if_link page_order) by done.
      split_and!; [|by apply link_slab_ok|lia..]. apply link_on. exists cp2. split_and!; [apply Hon|done|by left].
Qed.

End Link.
End Grow.

(** ** Allocation *)

Section Alloc.
Context {KERNBASE : Z} `{PA : PageAlloc KERNBASE}.

(** What every operation keeps: the invariant, the shape of the caches, and
    the pages other parts of the kernel hold. *)
Definition kept (s s' : slab_state) : Prop :=
  slab_inv s' /\ same_caches s s' /\ forall p n, reserved s p n -> reserved s' p n.

Lemma kept_trans s1 s2 s3 : kept s1 s2 -> kept s2 s3 -> kept s1 s3.
Proof. intros (_ & C1 & R1) (I2 & C2 & R2). split_and!; [done|by eapply same_caches_trans|auto]. Qed.

(** Asked from [g] on, the page allocator ends up without pages. *)
Inductive refused : pg_state -> Prop :=
| refused_now n g g' : pg_alloc n g = Ok (None, g') -> refused g
| refused_later n p g g' : pg_alloc n g = Ok (Some p, g') -> refused g' -> refused g.

Definition alloc_post (c : nat) (s : slab_state) (r : option Z * slab_state) : Prop :=
  kept s r.2 /\
  match r.1 with
  | Some o => ulive r.2 c o /\ ~ ulive s c o /\
      forall c2 o2, ulive r.2 c2 o2 <-> ulive s c2 o2 \/ (c2 = c /\ o2 = o)
  | None => refused (pgs s) /\ forall c2 o2, ulive r.2 c2 o2 <-> ulive s c2 o2
  end.

Lemma slab_reserved_apart s c cp a x p q m :
  on_cache s c cp a -> slab_ok s c cp a x p -> reserved s q m -> apart p (pow2 (page_order cp)) q m.
Proof. intros Hon (_ & _ & _ & _ & Hl & _) [_ Hr] y Hy Hq. by destruct (Hr y Hq); apply Hl. Qed.

(** Pages fresh from the page allocator are no pages of a slab. *)
Lemma fresh_reserved s g p n :
  slab_inv s -> pg_owned g p n -> (forall q m, pg_owned (pgs s) q m -> pg_owned g q m /\ apart p n q m) ->
  reserved (set_pgs g s) p n.
Proof.
  intros I Ho Hf. split; [done|]. intros y Hy Hm.
  destruct (si_marked _ I y Hm) as (c & cp & a & x & q & Hon & Hok & Hq).
  destruct Hok as (_ & _ & _ & Hown & _). destruct (Hf _ _ Hown) as [_ Ha]. by eapply Ha.
Qed.

Section GrowOk.
Context (s : slab_state) (c : nat) (cp : kmem_cache_t).
Context (alloc : nat -> slab_state -> res (option Z * slab_state)).
Context (I : slab_inv s) (Hc : slab_cache s !! c = Some cp).
Context (Halloc : off_slab cp = true -> forall s1, slab_inv s1 -> same_caches s s1 ->
  returns (alloc (slab_cachep cp) s1) (alloc_post (slab_cachep cp) s1)).
Let n := pow2 (page_order cp).
Context (G : geom cp).

(** The control structure: where it is, and that nothing else changed for the
    clients. *)
Definition mgmt_post (p : Z) (s1 : slab_state) (r : option Z * slab_state) : Prop :=
  exists s2, kept s1 s2 /\
  match r.1 with
  | Some a =>
      r.2 = set_slabs (<[a := mk_slab (p * PGSIZE + offset cp) 0 (offset cp) 0 []]> (slabs s2)) s2 /\
      slabs s2 !! a = None /\ (if off_slab cp then obj_live s2 (slab_cachep cp) a else a = p * PGSIZE) /\
      (forall c2 o, (ulive s2 c2 o /\ o <> a) <-> ulive s1 c2 o)
  | None => r.2 = s2 /\ refused (pgs s1) /\ forall c2 o, ulive s2 c2 o <-> ulive s1 c2 o
  end.

Lemma page_base_not_slab s1 p :
  slab_inv s1 -> reserved s1 p n -> slabs s1 !! (p * PGSIZE) = None /\ (forall c2, ~ obj_live s1 c2 (p * PGSIZE)).
Proof.
  intros I1 [_ Hr].
  assert (Hn : forall c2, ~ obj_live s1 c2 (p * PGSIZE)).
  { intros c2 (cp2 & a2 & x2 & i & H & _). destruct (obj_at_ok _ I1 _ _ _ _ _ _ H) as (q & Hok & E).
    destruct H as (Hon & _ & Hi & _). pose proof (on_geom _ I1 _ _ _ Hon) as G2.
    pose proof (obj_page cp2 q i (p * PGSIZE) G2 Hi) as Hp. rewrite Z.div_mul in Hp by done.
    destruct Hok as (_ & _ & _ & _ & Hl & _). pose proof (pow2_order _ G). destruct (Hr p); [unfold n; lia|].
    apply Hl, Hp. pose proof (g_size _ G2). lia. }
  split; [|done]. destruct (slabs s1 !! (p * PGSIZE)) as [x|] eqn:Hx; [|done]. exfalso.
  destruct (si_dom _ I1 (p * PGSIZE)) as (c2 & cp2 & Hon); [by rewrite Hx|]. destruct (off_slab cp2) eqn:Hoff.
  - by eapply Hn, (si_off _ I1).
  - destruct (si_slab _ I1 _ _ _ Hon) as (y & q & _ & _ & _ & _ & Hl & _ & Ea). specialize (Ea Hoff).
    assert (q = p) as -> by (unfold PGSIZE in *; lia). pose proof (pow2_order _ G).
    pose proof (pow2_order _ (on_geom _ I1 _ _ _ Hon)). destruct (Hr p); [unfold n; lia|]. apply Hl. lia.
Qed.

Lemma kmem_cache_slabmgmt_ok s1 p :
  slab_inv s1 -> same_caches s s1 -> slab_cache s1 !! c = Some cp -> reserved s1 p n ->
  returns (kmem_cache_slabmgmt alloc c p s1) (mgmt_post p s1).
Proof.
  intros I1 C1 Hc1 Hr. unfold kmem_cache_slabmgmt, get_cache. rewrite Hc1. cbn [res_bind].
  pose proof (pow2_order _ G) as Hn. pose proof (pg_bound _ (si_pg _ I1)) as Hb. fold n in Hn.
  pose proof (pg_range _ _ _ (si_pg _ I1) (proj1 Hn) (proj1 Hr)) as (R1 & R2 & R3).
  rewrite page2kva_ok by lia. cbn [res_bind].
  assert (Hw : u32 (p * PGSIZE + offset cp) = p * PGSIZE + offset cp).
  { apply u32_small. destruct (g_fit _ G). pose proof (g_size _ G). pose proof (g_num _ G). unfold PGSIZE, n in *. nia. }
  destruct (off_slab cp) eqn:Hoff.
  - eapply returns_bind; [by apply Halloc|]. intros [[a|] s2] (K & H); cbn in *.
    + destruct H as (Hu & Hnu & Hl). apply returns_ok. exists s2. rewrite Hw. cbn [fst snd]. split; [done|].
      split_and!; [done|apply Hu|by rewrite Hoff; apply Hu|].
      intros c2 o. rewrite Hl. split.
      * intros [[?|[_ ->]] ?]; done.
      * intros Ho. split; [by left|]. intros ->. pose proof Ho as [Ho' _]. apply Hnu.
        destruct Hu as [Hu _]. assert (slab_cachep cp = c2) as ->; [|done].
        assert (Ho2 : ulive s2 c2 a) by (apply Hl; by left). destruct Ho2 as [Ho2 _].
        destruct Hu as (cq & aq & xq & iq & Hq & _). destruct Ho2 as (cr & ar & xr & ir & Hr2 & _).
        destruct K as (I2 & _). by destruct (obj_at_inj _ I2 _ _ _ _ _ _ _ _ _ _ _ Hr2 Hq) as (-> & _).
    + destruct H as [Hr' H]. apply returns_ok. exists s2. by split_and!.
  - cbn [res_bind]. apply returns_ok. exists s1. rewrite Hw. cbn [fst snd].
    destruct (page_base_not_slab s1 p I1 Hr) as [Hs Ho]. split; [split_and!; [done|by intros ?|done]|].
    rewrite Hoff. split_and!; try done. intros c2 o. split; [tauto|]. intros H. split; [done|]. intros ->.
    by destruct (Ho c2); apply H.
Qed.

Lemma kmem_cache_grow_ok :
  returns (kmem_cache_grow alloc c s) (fun '(ok, s') =>
    kept s s' /\ (forall c2 o, ulive s' c2 o <-> ulive s c2 o) /\
    (ok = true -> exists cp' a l, slab_cache s' !! c = Some cp' /\ slabs_notfull cp' = a :: l) /\
    (ok = false -> refused (pgs s))).
Proof.
  unfold kmem_cache_grow, get_cache. rewrite Hc. cbn [res_bind]. fold n.
  pose proof (pow2_order _ G) as Hn. fold n in Hn.
  destruct (pg_alloc_ok n (pgs s)) as ([o g] & Epg & Ig & _ & Hg); [apply I|done|]. rewrite Epg. cbn [res_bind].
  destruct o as [p|].
  2:{ apply returns_ok. edestruct (set_pgs_inv s g) as [I' L']; [done|done|by intros ????? _ (_ & _ & _ & ? & _); auto|].
      split_and!; [|done|done|intros _; by eapply refused_now]. split_and!; [done|done|]. intros p m [? ?]. split; [by apply Hg|done]. }
  destruct Hg as [Hown Hfr]. edestruct (set_pgs_inv s g) as [I1 L1]; [done|done|by intros ????? _ (_ & _ & _ & H & _); apply Hfr in H as [? _]|].
  pose proof (fresh_reserved s g p n I Hown Hfr) as Hr. set (s1 := set_pgs g s) in *.
  eapply returns_bind; [by apply (kmem_cache_slabmgmt_ok s1 p)|].
  intros [o s2'] (s2 & (I2 & C2 & R2) & H). cbn [fst snd] in H.
  assert (Rq : forall q m, reserved s q m -> reserved s2 q m /\ apart p n q m).
  { intros q m [Hq Hq']. destruct (Hfr _ _ Hq) as [? ?]. split; [apply R2; by split|done]. }
  pose proof (R2 _ _ Hr) as Hr2. destruct o as [a|].
  - destruct H as (-> & Ha & Hctl & Hlive).
    set (s2' := set_slabs _ _).
    destruct (mark_pages_ok (Z.to_nat n) c a p s2') as (E1 & E2 & E3 & E4 & E5).
    set (s3 := mark_pages _ _ _ _ _) in *. rewrite Z2Nat.id in E4, E5 by lia.
    unfold fetch. rewrite E3. cbn [slabs s2' set_slabs]. rewrite lookup_insert_eq. cbn [res_bind s_mem inuse s_offset].
    rewrite insert_insert_eq. unfold upd_cache, get_cache. cbn [slab_cache set_slabs].
    assert (C : same_caches s s2) by (by eapply same_caches_trans).
    destruct (same_caches_lookup s s2 c cp C Hc) as (cp2 & Hc2 & Ecp). rewrite E2. cbn [slab_cache s2' set_slabs].
    rewrite Hc2. cbn [res_bind]. apply returns_ok. set (sF := set_caches _ _).
    assert (Hg : offset cp2 = offset cp /\ num cp2 = num cp /\ page_order cp2 = page_order cp /\ off_slab cp2 = off_slab cp /\ slab_cachep cp2 = slab_cachep cp) by (rewrite Ecp; done).
    destruct Hg as (G1 & G2 & G3 & G4 & G5).
    assert (Hlink : slab_inv sF /\ forall c2 o, obj_live sF c2 o <-> obj_live s2 c2 o).
    { split; [eapply (link_inv s2 sF c cp2 a p)|intros c2 o; eapply (link_live s2 sF c cp2 a p)];
        rewrite ?G1, ?G2, ?G3, ?G4, ?G5; try done; fold n; by rewrite ?E1. }
    destruct Hlink as [IF LF]. split_and!; [split_and!|..].
    + done.
    + eapply same_caches_trans; [exact C|]. eapply same_caches_insert; [exact Hc2|reflexivity].
    + intros q m Hq. destruct (Rq q m Hq) as [[H1 H2] H3]. split; [cbn; by rewrite E1|].
      intros y Hy. cbn [PG_slab sF set_caches set_slabs]. rewrite E5. intros [Hy'|Hy']; [by eapply H3|by eapply H2].
    + intros c2 o. change (ulive s c2 o) with (ulive s1 c2 o). rewrite <- Hlive. unfold ulive. rewrite LF. cbn [slabs sF set_caches set_slabs].
      rewrite lookup_insert_None. intuition.
    + intros _. exists (link_notfull a cp2), a, (slabs_notfull cp2). split; [|done]. cbn.
      apply list_lookup_insert_eq. by eapply lookup_lt_Some.
    + done.
  - destruct H as (-> & Href & Hlive).
    eapply returns_bind; [by apply (pg_free_ok p n); [apply I2|lia|apply Hr2]|].
    intros g2 (Ig2 & _ & Hg2). apply returns_ok.
    edestruct (set_pgs_inv s2 g2) as [I3 L3]; [done|done| |].
    { intros c2 cp2 a2 x2 q Hon Hok. apply Hg2; [by destruct Hok as (_ & _ & _ & ? & _)|].
      intros y H1 H2. by eapply (slab_reserved_apart s2 c2 cp2 a2 x2 q p n). }
    split_and!; [split_and!; [done|by eapply (same_caches_trans s s2)|]| |done|intros _; by eapply refused_later].
    + intros q m Hq. destruct (Rq q m Hq) as [[? ?] ?]. split; [by apply Hg2|done].
    + intros c2 o. apply Hlive.
Qed.

End GrowOk.
End Alloc.

Section AllocOk.
Context {KERNBASE : Z} `{PA : PageAlloc KERNBASE}.

Lemma alloc_step fuel s c cp :
  slab_inv s -> slab_cache s !! c = Some cp ->
  (off_slab cp = true -> forall s1, slab_inv s1 -> same_caches s s1 ->
     returns (kmem_cache_alloc (S fuel) (slab_cachep cp) s1) (alloc_post (slab_cachep cp) s1)) ->
  returns (kmem_cache_alloc (S (S fuel)) c s) (alloc_post c s).
Proof.
  intros I Hc Hoff.
  assert (Htake : forall f s1 cp1 a l, slab_inv s1 -> slab_cache s1 !! c = Some cp1 -> slabs_notfull cp1 = a :: l ->
    returns (kmem_cache_alloc (S f) c s1) (fun r => alloc_post c s1 r /\ is_Some r.1)).
  { intros f s1 cp1 a l I1 Hc1 Hl. cbn [kmem_cache_alloc]. unfold get_cache. rewrite Hc1. cbn [res_bind]. rewrite Hl.
    eapply returns_bind; [apply (kmem_cache_alloc_one_ok s1 c cp1 a); [done|done|rewrite Hl; by left]|].
    intros [o s2] (I2 & C2 & E1 & E2 & Hd & Hu & Hn & Hlive). apply returns_ok. split; [|done]. split; cbn [fst snd].
    - split_and!; [done|done|]. intros p n [? ?]. split; [by rewrite E1|by rewrite E2].
    - split_and!; [done|by intros [? _]|]. intros c2 o2. unfold ulive. rewrite Hlive, Hd. split; [tauto|].
      intros [?|[-> ->]]; [tauto|]. split; [auto|]. by apply Hd, Hu. }
  destruct (slabs_notfull cp) as [|a l] eqn:Hl; [|eapply returns_mono; [by eapply Htake|]; by intros ? [? _]].
  cbn [kmem_cache_alloc]. unfold get_cache. rewrite Hc. cbn [res_bind]. rewrite Hl.
  eapply returns_bind.
  { apply (kmem_cache_grow_ok s c cp); [done|done| |by apply (si_caches _ I) in Hc as [? _]]. exact Hoff. }
  intros [ok s1] (K & Hlive & Hok & Hno). destruct ok.
  - destruct (Hok eq_refl) as (cp1 & a & l & Hc1 & Hl1). pose proof K as (I1 & _).
    eapply returns_mono; [by eapply (Htake fuel s1 cp1 a l)|].
    intros [o s2] [[K2 H] Hsome]; cbn [fst snd] in *. split; [by eapply kept_trans|]. cbn [fst snd]. destruct o as [o|].
    + destruct H as (Hu & Hn & Hl2). split_and!; [done|by rewrite <- Hlive|]. intros c2 o2. by rewrite Hl2, Hlive.
    + by destruct Hsome.
  - apply returns_ok. split; [done|]. by split; [apply Hno|].
Qed.

Lemma kmem_cache_alloc_ok s c cp :
  slab_inv s -> slab_cache s !! c = Some cp -> returns (kmem_cache_alloc 3 c s) (alloc_post c s).
Proof.
  intros I Hc. eapply alloc_step; [done|done|]. intros Hoff s1 I1 C1.
  destruct (si_caches _ I _ _ Hc) as [_ H]. destruct (H Hoff) as (cp' & Hc' & Hon & _).
  destruct (same_caches_lookup _ _ _ _ C1 Hc') as (cp1 & Hc1 & E). eapply alloc_step; [done|exact Hc1|].
  rewrite E. cbn. by rewrite Hon.
Qed.

Lemma size_order_ok n : 0 < n <= 2 ^ 17 ->
  exists o, size_order n = Ok o /\ (MIN_SIZE_ORDER <= o <= MAX_SIZE_ORDER)%nat /\ n <= pow2 o.
Proof.
  intros Hn. assert (H : forall cnt o, (o + cnt = 18)%nat -> n <= 2 ^ 17 -> (cnt = 0%nat -> False) ->
    exists o', size_order_from cnt o n = Ok o' /\ (o <= o' <= 17)%nat /\ n <= pow2 o').
  { induction cnt as [|cnt IH]; intros o Ho Hle Hne; [done|]. cbn [size_order_from].
    destruct (Z.leb_spec n (pow2 o)).
    - exists o. split_and!; [done|lia..].
    - destruct (decide (cnt = 0%nat)) as [->|].
      + assert (o = 17%nat) as -> by lia. rewrite pow2_eq in *. change (Z.of_nat 17) with 17 in *. lia.
      + destruct (IH (S o)) as (o' & E & ? & ?); [lia|lia|done|]. exists o'. split_and!; [done|lia..]. }
  destruct (H SLAB_CACHE_NUM MIN_SIZE_ORDER) as (o & E & ? & ?); [done|lia|done|]. exists o.
  unfold MAX_SIZE_ORDER. done.
Qed.

End AllocOk.

(** ** Removing a slab *)

Section Drop.
Context {KERNBASE : Z} `{PA : PageAlloc KERNBASE}.

Lemma if_unlink {A} (g : kmem_cache_t -> A) (P : Prop) (d : {P} + {~ P}) a cp :
  (forall f n y, g (set_lists f n y) = g y) -> g (if d then unlink a cp else cp) = g cp.
Proof. intros Hg. destruct d; [apply Hg|done]. Qed.

Lemma unmark_pages_ok cnt : forall p s,
  (forall y, p <= y < p + Z.of_nat cnt -> y ∈ PG_slab s) ->
  exists s', unmark_pages cnt p s = Ok s' /\
    pgs s' = pgs s /\ slab_cache s' = slab_cache s /\ slabs s' = slabs s /\ page_link s' = page_link s /\
    (forall y, y ∈ PG_slab s' <-> y ∈ PG_slab s /\ ~ (p <= y < p + Z.of_nat cnt)).
Proof.
  induction cnt as [|cnt IH]; intros p s Hm; cbn [unmark_pages].
  - exists s. split_and!; try done. intros y. split; [|tauto]. intros ?; split; [done|lia].
  - rewrite bool_decide_true by (apply Hm; lia). cbn [assert res_bind].
    destruct (IH (p + 1) (mk_st (pgs s) (slab_cache s) (slabs s) (page_link s) (PG_slab s ∖ {[p]})))
      as (s' & E & E1 & E2 & E3 & E4 & E5).
    { intros y Hy. cbn. apply elem_of_difference. split; [apply Hm; lia|]. rewrite elem_of_singleton. lia. }
    exists s'. rewrite E, E1, E2, E3, E4. split_and!; try done. intros y. rewrite E5. cbn.
    rewrite elem_of_difference, elem_of_singleton. split.
    + intros [[? ?] ?]. split; [done|lia].
    + intros [? ?]. split; [split; [done|lia]|lia].
Qed.

Context (s s' : slab_state) (c : nat) (cp : kmem_cache_t) (a : Z) (x : slab_t) (p : Z).
Let n := pow2 (page_order cp).
Context (I : slab_inv s) (Hon : on_cache s c cp a) (Hok : slab_ok s c cp a x p).
Context (Hint : forall i, 0 <= i < num cp -> i ∉ free_idx x -> slabs s !! (s_mem x + i * objsize cp) = None).
Context (Hg : pg_inv (pgs s')) (Hown : forall q m, pg_owned (pgs s) q m -> apart p n q m -> pg_owned (pgs s') q m).
Context (Ec : slab_cache s' = <[c := unlink a cp]> (slab_cache s)) (Es : slabs s' = delete a (slabs s)).
Context (El : page_link s' = page_link s) (Em : forall y, y ∈ PG_slab s' <-> y ∈ PG_slab s /\ ~ (p <= y < p + n)).

Lemma drop_cache c2 cp2 :
  slab_cache s' !! c2 = Some cp2 <->
  exists cp0, slab_cache s !! c2 = Some cp0 /\ cp2 = if decide (c2 = c) then unlink a cp0 else cp0.
Proof.
  destruct Hon as [Hc _]. rewrite Ec. destruct (decide (c2 = c)) as [->|].
  - rewrite list_lookup_insert_eq by (by eapply lookup_lt_Some). split.
    + intros [= <-]. eauto.
    + intros (cp0 & E & ->). congruence.
  - rewrite list_lookup_insert_ne by done. split; [eauto|]. by intros (cp0 & E & ->).
Qed.

Lemma drop_on c2 cp2 b :
  on_cache s' c2 cp2 b <->
  exists cp0, on_cache s c2 cp0 b /\ b <> a /\ cp2 = if decide (c2 = c) then unlink a cp0 else cp0.
Proof.
  unfold on_cache. rewrite drop_cache. split.
  - intros ((cp0 & E & ->) & Hin). exists cp0. destruct (decide (c2 = c)) as [->|Hne]; cbn in Hin.
    + rewrite !list_elem_of_filter in Hin. tauto.
    + split_and!; [done|done| |done]. intros ->. by destruct (on_unique s c cp c2 cp0 a I Hon (conj E Hin)).
  - intros (cp0 & [E Hin] & Hb & ->). split; [eauto|]. destruct (decide (c2 = c)); [|done]. cbn.
    rewrite !list_elem_of_filter. tauto.
Qed.

Lemma drop_slab_ok c2 cp2 b y q :
  on_cache s c2 cp2 b -> b <> a -> slab_ok s c2 cp2 b y q ->
  slab_ok s' c2 (if decide (c2 = c) then unlink a cp2 else cp2) b y q.
Proof.
  intros Hon2 Hne Hok2. assert (Ha : forall z, p <= z < p + n -> q <= z < q + pow2 (page_order cp2) -> False).
  { intros z H1 H2. by destruct (same_slab s c cp a x p c2 cp2 b y q z Hon Hok Hon2 Hok2 H1 H2) as (_ & _ & ? & _). }
  destruct Hok2 as (Hy & Hm & Ho & Hp & Hl & Hch & Eb). unfold slab_ok.
  rewrite (if_unlink offset), (if_unlink page_order), (if_unlink num), (if_unlink off_slab) by done.
  rewrite Es, El. split_and!; try done.
  - by rewrite lookup_delete_ne.
  - by apply Hown.
  - intros z Hz. destruct (Hl z Hz) as [H1 H2]. split; [done|]. apply Em. split; [done|]. intros Hz'. by eapply Ha.
Qed.

Lemma drop_live c2 o :
  obj_live s' c2 o <-> exists cp2 a2 x2 i, obj_at s c2 cp2 a2 x2 i o /\ a2 <> a /\ i ∉ free_idx x2.
Proof.
  unfold obj_live, obj_at. split.
  - intros (cp2 & b & y & i & (Hon2 & Hy & Hi & ->) & Hl). apply drop_on in Hon2 as (cp0 & Hon2 & Hb & ->).
    rewrite (if_unlink num) in Hi by done. rewrite (if_unlink objsize) by done. rewrite Es, lookup_delete_ne in Hy by done.
    by exists cp0, b, y, i.
  - intros (cp0 & b & y & i & (Hon2 & Hy & Hi & ->) & Hb & Hl).
    exists (if decide (c2 = c) then unlink a cp0 else cp0), b, y, i. rewrite (if_unlink num), (if_unlink objsize) by done.
    split_and!; [apply drop_on; eauto|by rewrite Es, lookup_delete_ne|lia..|done].
Qed.

Lemma drop_inv : slab_inv s'.
Proof.
  split.
  - done.
  - intros c2 cp2 H. apply drop_cache in H as (cp0 & H & ->). apply (si_caches _ I) in H as [G' Hoff]. split.
    + destruct (decide (c2 = c)); [by destruct G'|done].
    + rewrite (if_unlink off_slab), (if_unlink slab_cachep), (if_unlink num) by done.
      intros Ht. destruct (Hoff Ht) as (cp' & H' & Hn' & Hs).
      exists (if decide (slab_cachep cp0 = c) then unlink a cp' else cp').
      rewrite (if_unlink off_slab), (if_unlink objsize) by done. split_and!; [apply drop_cache; eauto|done..].
  - intros c2 cp2 H. apply drop_cache in H as (cp0 & H & ->). pose proof (si_nodup _ I _ _ H) as [N1 N2].
    destruct (decide (c2 = c)); [|done]. cbn. split; by apply NoDup_filter.
  - intros c2 cp2 b y H Hy. apply drop_cache in H as (cp0 & H & ->). rewrite Es in Hy.
    apply lookup_delete_Some in Hy as [Hne Hy]. pose proof (si_full _ I _ _ _ _ H Hy) as [F1 F2].
    destruct (decide (c2 = c)); [|done]. cbn. rewrite !list_elem_of_filter. tauto.
  - intros c2 cp2 b H. apply drop_on in H as (cp0 & H & Hb & ->).
    destruct (si_slab _ I _ _ _ H) as (y & q & Hok2). eauto using drop_slab_ok.
  - intros b [y Hy]. rewrite Es in Hy. apply lookup_delete_Some in Hy as [Hne Hy].
    destruct (si_dom _ I b) as (c2 & cp2 & Hon2); [by rewrite Hy|]. eexists c2, _. apply drop_on. eauto.
  - intros c2 cp2 b H Hoff. apply drop_on in H as (cp0 & H & Hb & ->).
    rewrite (if_unlink off_slab) in Hoff by done. rewrite (if_unlink slab_cachep) by done.
    destruct (si_off _ I _ _ _ H Hoff) as (cp3 & a3 & x3 & i & Hat & Hi). apply drop_live.
    exists cp3, a3, x3, i. split_and!; [done| |done]. intros ->.
    destruct Hat as (Hon3 & Hx3 & Hr & Eb). destruct (on_unique _ _ _ _ _ _ I Hon Hon3) as [_ ->].
    pose proof Hok as (Hx & _). assert (x3 = x) as -> by congruence. specialize (Hint i Hr Hi).
    rewrite <- Eb in Hint. destruct (si_slab _ I _ _ _ H) as (y & ? & Hy & _). congruence.
  - intros y Hy. apply Em in Hy as [Hy Hny].
    destruct (si_marked _ I y Hy) as (c2 & cp2 & b & z & q & Hon2 & Hok2 & Hq).
    assert (Hb : b <> a).
    { intros ->. destruct (on_unique _ _ _ _ _ _ I Hon Hon2) as [-> ->]. apply Hny.
      pose proof Hok as (H1 & H2 & H3 & _). pose proof Hok2 as (H4 & H5 & H6 & _). rewrite H1 in H4. injection H4 as <-.
      unfold PGSIZE, n in *. lia. }
    exists c2, (if decide (c2 = c) then unlink a cp2 else cp2), b, z, q. rewrite (if_unlink page_order) by done.
    split_and!; [apply drop_on; eauto|by apply drop_slab_ok|lia..].
Qed.

End Drop.

(** ** Release *)

Section Free.
Context {KERNBASE : Z} `{PA : PageAlloc KERNBASE}.

Definition free_post (o : Z) (s s' : slab_state) : Prop :=
  kept s s' /\ forall c2 o2, ulive s' c2 o2 <-> ulive s c2 o2 /\ o2 <> o.

(** A control structure in its own slab is no object. *)
Lemma on_slab_not_obj s c cp a c2 o :
  slab_inv s -> on_cache s c cp a -> off_slab cp = false -> obj_live s c2 o -> o <> a.
Proof.
  intros I Hon Hoff (cp2 & b & y & i & H & _) ->.
  destruct (si_slab _ I _ _ _ Hon) as (x & p & Hok). pose proof Hok as (_ & _ & _ & _ & _ & _ & Ea). specialize (Ea Hoff).
  destruct (obj_at_ok _ I _ _ _ _ _ _ H) as (q & Hok2 & E). destruct H as (Hon2 & _ & Hi & _).
  pose proof (on_geom _ I _ _ _ Hon) as G. pose proof (on_geom _ I _ _ _ Hon2) as G2. pose proof (g_size _ G2).
  edestruct (same_slab s c cp a x p c2 cp2 b y q p) as (-> & -> & -> & ->); try done.
  - pose proof (pow2_order _ G). lia.
  - pose proof (obj_page cp2 q i a G2 Hi) as Hp. rewrite Ea, Z.div_mul in Hp by done. apply Hp. lia.
  - destruct Hok as (_ & Hm & _), Hok2 as (_ & Hm2 & _). pose proof (g_ctl _ G Hoff). pose proof (g_num _ G).
    unfold sizeof_slab, sizeof_bufctl, PGSIZE in *. nia.
Qed.

Section One.
Context (fuel : nat) (s : slab_state) (c : nat) (cp : kmem_cache_t) (a : Z) (x : slab_t) (p i o : Z).
Context (I : slab_inv s) (Hat : obj_at s c cp a x i o) (Hok : slab_ok s c cp a x p) (Hi : i ∉ free_idx x).
Context (Ho : slabs s !! o = None).
Context (Hrec : off_slab cp = true -> forall s1 b, slab_inv s1 -> same_caches s s1 -> ulive s1 (slab_cachep cp) b ->
  returns (kmem_cache_free fuel (slab_cachep cp) b s1) (free_post b s1)).

Lemma one_chain : slab_chain (num cp) x (free_idx x) /\ 0 <= i < num cp /\ num cp < BUFCTL_END /\
  Z.of_nat (length (free_idx x)) < num cp.
Proof.
  destruct Hat as (Hon & _ & Hr & _). pose proof Hok as (_ & _ & _ & _ & _ & Hch & _).
  pose proof Hch as (_ & _ & Hnd & Hb & _). pose proof (geom_num _ (on_geom _ I _ _ _ Hon)).
  split_and!; [done|lia|lia|lia|]. by eapply bounded_length_lt.
Qed.

(** The object was one of several: the slab stays. *)
Lemma give_ok f n :
  let x' := mk_slab (s_mem x) (u32 (inuse x - 1)) (s_offset x) i (<[Z.to_nat i := free x]> (bufctl x)) in
  NoDup f -> NoDup n ->
  (forall b, b ∈ f <-> b <> a /\ b ∈ slabs_full cp) -> (forall b, b ∈ n <-> b = a \/ b ∈ slabs_notfull cp) ->
  free_post o s (touched s c cp a x' f n).
Proof.
  intros x' Nf Nn Hf Hn. destruct one_chain as (Hch & Hr & Hnum & _). pose proof Hat as (Hon & Hx & _ & Eo).
  pose proof (slab_chain_give _ _ _ _ Hnum Hch Hr Hi) as Hch'. fold x' in Hch'.
  assert (Hk : forall j, j ∉ free_idx x -> j ∈ i :: free_idx x -> slabs s !! (s_mem x + j * objsize cp) = None).
  { intros j Hj Hj'. apply elem_of_cons in Hj' as [->|?]; [by rewrite <- Eo|done]. }
  assert (Hf' : forall b, b ∈ f <-> if decide (b = a) then i :: free_idx x = [] else b ∈ slabs_full cp).
  { intros b. rewrite Hf. destruct (decide (b = a)); [|tauto]. split; [tauto|done]. }
  assert (Hn' : forall b, b ∈ n <-> if decide (b = a) then i :: free_idx x <> [] else b ∈ slabs_notfull cp).
  { intros b. rewrite Hn. destruct (decide (b = a)); [|tauto]. split; [done|tauto]. }
  split; [split_and!|].
  - by apply (touched_inv s c cp a x x' (i :: free_idx x) f n).
  - eapply same_caches_insert; [apply Hon|reflexivity].
  - done.
  - intros c2 o2. unfold ulive. rewrite (touched_live s c cp a x x' (i :: free_idx x) f n) by done.
    cbn [slabs touched set_caches set_slabs]. rewrite lookup_insert_None. split.
    + intros ((cp2 & a2 & x2 & i2 & Hat2 & Hi2) & Ho2 & Hne). split; [split; [|done]|].
      * exists cp2, a2, x2, i2. split; [done|]. destruct (decide (a2 = a)) as [->|]; [|done].
        destruct Hat2 as (_ & Hx2 & _). assert (x2 = x) as -> by congruence. by apply not_elem_of_cons in Hi2 as [_ ?].
      * intros ->. destruct (obj_at_inj _ I _ _ _ _ _ _ _ _ _ _ _ Hat Hat2) as (_ & _ & -> & -> & ->).
        rewrite decide_True in Hi2 by done. apply Hi2. by left.
    + intros [[(cp2 & a2 & x2 & i2 & Hat2 & Hi2) Ho2] Hne]. split_and!; [|done|intros ->; congruence].
      exists cp2, a2, x2, i2. split; [done|]. destruct (decide (a2 = a)) as [->|]; [|done].
      pose proof Hat2 as (Hon2 & Hx2 & _ & E2). assert (x2 = x) as -> by congruence.
      apply not_elem_of_cons. split; [|done]. intros ->. apply Hne. rewrite E2, Eo.
      by destruct (on_unique _ _ _ _ _ _ I Hon Hon2) as [_ ->].
Qed.

(** The object was the last one of its slab. *)
Lemma last_one j : inuse x = 1 -> 0 <= j < num cp -> j ∉ free_idx x -> j = i.
Proof.
  intros E Hj Hnj. destruct one_chain as ((_ & _ & Hnd & Hb & Hu) & Hr & _).
  destruct (decide (j = i)); [done|]. exfalso.
  pose proof (bounded_length_lt (i :: free_idx x) (num cp) j) as H. cbn [length] in H.
  enough (Z.of_nat (S (length (free_idx x))) < num cp) by lia. apply H.
  - by constructor.
  - by constructor.
  - done.
  - by apply not_elem_of_cons.
Qed.

Lemma destroy_ok x' :
  inuse x = 1 -> s_mem x' = s_mem x -> s_offset x' = s_offset x ->
  returns (kmem_slab_destroy (kmem_cache_free fuel) c a
    (set_caches (<[c := unlink a cp]> (slab_cache s)) (set_slabs (<[a := x']> (slabs s)) s))) (free_post o s).
Proof.
  intros Hu Hm' Ho'. pose proof Hat as (Hon & Hx & Hr & Eo). pose proof Hon as [Hc _].
  pose proof (on_geom _ I _ _ _ Hon) as G. pose proof (pow2_order _ G) as Hn.
  pose proof (slab_range _ I _ _ _ _ _ Hon Hok) as (R1 & R2 & R3 & R4).
  pose proof Hok as (_ & Hm & Hof & Hown & Hl & _). set (n := pow2 (page_order cp)) in *.
  unfold kmem_slab_destroy, get_cache. cbn [slab_cache set_caches set_slabs].
  rewrite list_lookup_insert_eq by (by eapply lookup_lt_Some). cbn [res_bind]. unfold fetch. cbn [slabs set_caches set_slabs].
  rewrite lookup_insert_eq. cbn [res_bind pgs unlink set_lists page_order off_slab slab_cachep]. fold n.
  rewrite Hm', Ho', Hm, Hof. replace (p * PGSIZE + offset cp - offset cp) with (p * PGSIZE + 0) by lia.
  rewrite u32_small by (unfold PGSIZE; lia). change (pgs (set_caches (<[c := unlink a cp]> (slab_cache s)) (set_slabs (<[a := x']> (slabs s)) s))) with (pgs s).
  rewrite kva2page_ok by (unfold PGSIZE in *; lia). cbn [res_bind].
  destruct (unmark_pages_ok (Z.to_nat n) p
    (set_caches (<[c := unlink a cp]> (slab_cache s)) (set_slabs (<[a := x']> (slabs s)) s))) as (s1 & E & E1 & E2 & E3 & E4 & E5).
  { intros y Hy. apply Hl. lia. }
  rewrite E. cbn [res_bind]. rewrite Z2Nat.id in E5 by lia.
  eapply returns_bind; [by rewrite E1; apply (pg_free_ok p n); [apply I|lia|]|].
  intros g (Ig & _ & Hg). set (sd := set_slabs _ _).
  assert (Hint : forall j, 0 <= j < num cp -> j ∉ free_idx x -> slabs s !! (s_mem x + j * objsize cp) = None).
  { intros j Hj Hnj. rewrite (last_one j Hu Hj Hnj), <- Eo. done. }
  assert (Es : slabs sd = delete a (slabs s)) by (cbn; rewrite E3; cbn; by rewrite delete_insert_eq).
  assert (Hd : slab_inv sd /\ forall c2 o2, obj_live sd c2 o2 <->
    exists cp2 a2 x2 i2, obj_at s c2 cp2 a2 x2 i2 o2 /\ a2 <> a /\ i2 ∉ free_idx x2).
  { split; [eapply (drop_inv s sd c cp a x p)|intros c2 o2; eapply (drop_live s sd c cp a)]; try done;
      cbn; rewrite ?E2, ?E3, ?E4; try done; cbn; by rewrite delete_insert_eq. }
  destruct Hd as [Id Ld].
  assert (Kd : kept s sd).
  { split_and!; [done| |].
    - eapply same_caches_insert; [exact Hc|]. cbn. by rewrite E2.
    - intros q m Hq. pose proof (slab_reserved_apart s c cp a x p q m Hon Hok Hq). destruct Hq as [Hq1 Hq2].
      split; [by apply Hg|]. intros y Hy Hy'. cbn in Hy'. apply E5 in Hy' as [Hy' _]. by eapply Hq2. }
  assert (Ud : forall c2 o2, (ulive sd c2 o2 /\ o2 <> a) <-> ulive s c2 o2 /\ o2 <> o).
  { intros c2 o2. unfold ulive. rewrite Ld, Es, lookup_delete_None. split.
    - intros [[(cp2 & a2 & x2 & i2 & Hat2 & Hne & Hi2) [->|Ho2]] Hna]; [done|]. split; [split; [by exists cp2, a2, x2, i2|done]|].
      intros ->. by destruct (obj_at_inj _ I _ _ _ _ _ _ _ _ _ _ _ Hat Hat2) as (_ & _ & -> & _).
    - intros [[(cp2 & a2 & x2 & i2 & Hat2 & Hi2) Ho2] Hne]. split; [split; [|by right]|intros ->; congruence].
      exists cp2, a2, x2, i2. split_and!; [done| |done]. intros ->. pose proof Hat2 as (Hon2 & Hx2 & Hr2 & E6).
      destruct (on_unique _ _ _ _ _ _ I Hon Hon2) as [-> ->]. assert (x2 = x) as -> by congruence.
      apply Hne. rewrite E6, Eo, (last_one i2 Hu Hr2 Hi2). done. }
  destruct (off_slab cp) eqn:Hoff.
  - assert (Hua : ulive sd (slab_cachep cp) a).
    { split; [|by rewrite Es, lookup_delete_eq]. apply Ld.
      destruct (si_off _ I _ _ _ Hon Hoff) as (cp3 & a3 & x3 & i3 & Hat3 & Hi3). exists cp3, a3, x3, i3.
      split_and!; [done| |done]. intros ->. destruct Hat3 as (Hon3 & _). destruct (on_unique _ _ _ _ _ _ I Hon Hon3) as [E6 ->].
      destruct (si_caches _ I _ _ Hc) as [_ H]. destruct (H Hoff) as (cp' & Hc' & Hon' & _).
      rewrite E6, Hc in Hc'. congruence. }
    eapply returns_mono; [apply Hrec; [done|done|apply Kd|done]|]. intros s2 [K2 L2]. split; [by eapply kept_trans|].
    intros c2 o2. rewrite L2. apply Ud.
  - apply returns_ok. split; [done|]. intros c2 o2. rewrite <- Ud. split; [|tauto]. intros H. split; [done|].
    destruct H as [H _]. apply Ld in H as (cp2 & a2 & x2 & i2 & Hat2 & _ & Hi2).
    apply (on_slab_not_obj s c cp a c2 o2 I Hon Hoff). by exists cp2, a2, x2, i2.
Qed.

End One.
End Free.

Section FreeOk.
Context {KERNBASE : Z} `{PA : PageAlloc KERNBASE}.

Lemma live_page s c cp a x i o p :
  slab_inv s -> obj_at s c cp a x i o -> slab_ok s c cp a x p ->
  kva2page KERNBASE (pg_npage (pgs s)) o = Ok (o / PGSIZE) /\ o / PGSIZE ∈ PG_slab s /\ page_link s !! (o / PGSIZE) = Some (c, a).
Proof.
  intros I Hat Hok. pose proof Hat as (Hon & _ & Hi & Eo). pose proof (on_geom _ I _ _ _ Hon) as G.
  pose proof (slab_range _ I _ _ _ _ _ Hon Hok) as (R1 & R2 & R3 & _). pose proof Hok as (_ & Hm & _ & _ & Hl & _).
  pose proof (g_size _ G). assert (Hp : p <= o / PGSIZE < p + pow2 (page_order cp)) by (apply (obj_page cp p i); [done|done|lia]).
  destruct (Hl _ Hp) as [H1 H2]. split_and!; [|done|done].
  assert (E : o = o / PGSIZE * PGSIZE + o mod PGSIZE) by (pose proof (Z_div_mod_eq_full o PGSIZE); lia).
  rewrite E at 1. apply kva2page_ok; [apply Z.mod_pos_bound; done|unfold PGSIZE in *; lia|lia].
Qed.

Lemma free_step fuel s c cp o :
  slab_inv s -> slab_cache s !! c = Some cp -> ulive s c o ->
  (off_slab cp = true -> forall s1 b, slab_inv s1 -> same_caches s s1 -> ulive s1 (slab_cachep cp) b ->
     returns (kmem_cache_free fuel (slab_cachep cp) b s1) (free_post b s1)) ->
  returns (kmem_cache_free (S fuel) c o s) (free_post o s).
Proof.
  intros I Hc [(cp' & a & x & i & Hat & Hi) Ho] Hrec. pose proof Hat as (Hon & Hx & Hr & Eo). pose proof Hon as [Hc' _].
  assert (cp' = cp) as -> by congruence. destruct (obj_at_ok _ I _ _ _ _ _ _ Hat) as (p & Hok & _).
  destruct (live_page _ _ _ _ _ _ _ _ I Hat Hok) as (K1 & K2 & K3).
  cbn [kmem_cache_free]. rewrite K1. cbn [res_bind]. rewrite bool_decide_true by done. cbn [assert res_bind].
  unfold fetch at 1. rewrite K3. cbn [res_bind snd].
  destruct (one_chain s c cp a x p i o I Hat Hok Hi) as ((Hlen & _ & _ & _ & Hu) & _ & Hnum & Hlt).
  destruct (obj_no_wrap _ _ _ _ _ _ _ I Hat) as [_ Hnr].
  unfold kmem_cache_free_one, get_cache. rewrite Hc. cbn [res_bind]. unfold fetch. rewrite Hx. cbn [res_bind]. rewrite Hnr.
  destruct (bufctl x !! Z.to_nat i) as [v|] eqn:Hv; [|apply lookup_ge_None in Hv; lia].
  assert (Hw : u32 (inuse x - 1) = inuse x - 1) by (unfold BUFCTL_END in *; apply u32_small; lia).
  assert (Hw2 : u32 (num cp - 1) = num cp - 1) by (unfold BUFCTL_END in *; apply u32_small; lia).
  destruct (si_nodup _ I _ _ Hc) as [Nf Nn]. destruct (si_full _ I _ _ _ _ Hc Hx) as [Ff Fn].
  destruct (Z.eqb_spec (u32 (inuse x - 1)) 0) as [E0|E0].
  - unfold upd_cache, get_cache. cbn [slab_cache set_slabs]. rewrite Hc. cbn [res_bind].
    rewrite Hw in E0. eapply (destroy_ok fuel s c cp a x p i o); try done; lia.
  - destruct (Z.eqb_spec (u32 (inuse x - 1)) (u32 (num cp - 1))) as [E1|E1].
    + rewrite Hw, Hw2 in E1. assert (Hnil : free_idx x = []) by (apply length_zero_iff_nil; lia).
      assert (Hin : a ∈ slabs_full cp) by (destruct Hon as [_ [?|H]]; [done|by destruct (Fn H)]).
      unfold upd_cache, get_cache. cbn [slab_cache set_slabs]. rewrite Hc. cbn [res_bind]. apply returns_ok.
      apply (give_ok s c cp a x p i o I Hat Hok Hi Ho (filter (fun b => b <> a) (slabs_full cp)) (a :: filter (fun b => b <> a) (slabs_notfull cp))).
      * by apply NoDup_filter.
      * constructor; [|by apply NoDup_filter]. rewrite list_elem_of_filter. tauto.
      * intros b. by rewrite list_elem_of_filter.
      * intros b. rewrite elem_of_cons, list_elem_of_filter. destruct (decide (b = a)); tauto.
    + rewrite Hw, Hw2 in E1. assert (Hne : free_idx x <> []) by (intros E; rewrite E in Hu; cbn in Hu; lia).
      assert (Hin : a ∈ slabs_notfull cp) by (destruct Hon as [_ [H|?]]; [by specialize (Ff H)|done]).
      apply returns_ok. pose proof (give_ok s c cp a x p i o I Hat Hok Hi Ho (slabs_full cp) (slabs_notfull cp)) as H.
      unfold touched in H. rewrite set_lists_id, list_insert_id in H by done. apply H; [done|done| |].
      * intros b. split; [|tauto]. intros Hb. split; [|done]. intros ->. by specialize (Ff Hb).
      * intros b. split; [tauto|]. intros [->|?]; done.
Qed.

Lemma kmem_cache_free_ok s c cp o :
  slab_inv s -> slab_cache s !! c = Some cp -> ulive s c o -> returns (kmem_cache_free 2 c o s) (free_post o s).
Proof.
  intros I Hc Hu. eapply free_step; [done|done|done|]. intros Hoff s1 b I1 C1 Hb.
  destruct (si_caches _ I _ _ Hc) as [_ H]. destruct (H Hoff) as (cp' & Hc' & Hon & _).
  destruct (same_caches_lookup _ _ _ _ C1 Hc') as (cp1 & Hc1 & E). eapply free_step; [done|exact Hc1|done|].
  rewrite E. cbn. by rewrite Hon.
Qed.

(** Two live objects, or a live object and the control structure of a slab,
    never overlap. *)
Lemma live_apart s c cp o c2 cp2 o2 :
  slab_inv s -> slab_cache s !! c = Some cp -> slab_cache s !! c2 = Some cp2 ->
  obj_live s c o -> obj_live s c2 o2 -> (c, o) <> (c2, o2) -> apart o (objsize cp) o2 (objsize cp2).
Proof.
  intros I Hc Hc2 (cp' & a & x & i & Hat & _) (cp2' & a2 & x2 & i2 & Hat2 & _) Hne z Hz Hz2.
  assert (cp' = cp) as -> by (destruct Hat as [[? _] _]; congruence).
  assert (cp2' = cp2) as -> by (destruct Hat2 as [[? _] _]; congruence).
  destruct (obj_sep _ I _ _ _ _ _ _ _ _ _ _ _ _ z Hat Hat2 Hz Hz2) as (-> & -> & -> & -> & ->).
  destruct Hat as (_ & _ & _ & ->), Hat2 as (_ & _ & _ & ->). done.
Qed.

Lemma ctl_apart s c cp o a x :
  slab_inv s -> slab_cache s !! c = Some cp -> ulive s c o -> slabs s !! a = Some x ->
  apart o (objsize cp) a (sizeof_slab + Z.of_nat (length (bufctl x)) * sizeof_bufctl).
Proof.
  intros I Hc [Hl Hn] Hx. destruct (si_dom _ I a) as (c2 & cp2 & Hon2); [by rewrite Hx|].
  destruct (si_slab _ I _ _ _ Hon2) as (x' & p & Hok). pose proof Hok as (Hx' & Hm & _ & _ & _ & (Hlen & _) & Ea).
  assert (x' = x) as -> by congruence. rewrite Hlen. pose proof Hon2 as [Hc2 _].
  destruct (si_caches _ I _ _ Hc2) as [G2 Hoff]. destruct (off_slab cp2) eqn:E.
  - destruct (Hoff eq_refl) as (cp3 & Hc3 & _ & Hs). pose proof (si_off _ I _ _ _ Hon2 E) as Hl2.
    intros z Hz Hz2. eapply (live_apart s c cp o (slab_cachep cp2) cp3 a); try done; [congruence|lia].
  - specialize (Ea eq_refl). pose proof (g_ctl _ G2 E) as Hctl. intros z Hz Hz2.
    destruct Hl as (cp' & b & y & i & Hat & _). assert (cp' = cp) as -> by (destruct Hat as [[? _] _]; congruence).
    destruct (obj_at_ok _ I _ _ _ _ _ _ Hat) as (q & Hok2 & Eo). pose proof Hat as (Hon & _ & Hi & _).
    pose proof (on_geom _ I _ _ _ Hon) as G. destruct (g_fit _ G2). pose proof (g_size _ G2). pose proof (g_num _ G2).
    assert (Hz' : p <= z / PGSIZE < p + pow2 (page_order cp2)).
    { unfold PGSIZE in *. split; [apply Z.div_le_lower_bound; nia|apply Z.div_lt_upper_bound; nia]. }
    edestruct (same_slab s c2 cp2 a x p c cp b y q (z / PGSIZE)) as (-> & -> & -> & ->); try done.
    + apply (obj_page cp q i); [done|done|lia].
    + destruct Hok2 as (_ & Hm2 & _). nia.
Qed.

End FreeOk.

(** ** The caches that [slab_init] sets up *)

Definition geomb (cp : kmem_cache_t) : bool :=
  (0 <? objsize cp) && (objsize cp mod 16 =? 0) && (offset cp mod 16 =? 0) && (0 <? num cp) &&
  (page_order cp <=? KMALLOC_MAX_ORDER)%nat && (0 <=? offset cp) &&
  (offset cp + num cp * objsize cp <=? PGSIZE * pow2 (page_order cp)) &&
  (off_slab cp || (sizeof_slab + num cp * sizeof_bufctl <=? offset cp)).

Definition cache_okb (l : list kmem_cache_t) (i : nat) (cp : kmem_cache_t) : bool :=
  geomb cp && (objsize cp =? pow2 (i + MIN_SIZE_ORDER)) &&
  bool_decide (slabs_full cp = []) && bool_decide (slabs_notfull cp = []) &&
  (negb (off_slab cp) ||
   match l !! slab_cachep cp with
   | Some cp' => negb (off_slab cp') && (sizeof_slab + num cp * sizeof_bufctl <=? objsize cp')
   | None => false
   end).

Lemma geomb_ok cp : geomb cp = true -> geom cp.
Proof.
  unfold geomb. intros H. repeat (apply andb_true_iff in H as [H ?]). split; try lia.
  - by apply Nat.leb_le.
  - intros E. rewrite E in H0. cbn [orb] in H0. lia.
Qed.

Definition caches0 : list kmem_cache_t :=
  match init_caches SLAB_CACHE_NUM 0 with Ok l => l | Panic => [] end.

#[local] Opaque caches0 init_caches.

Lemma init_caches_eq : init_caches SLAB_CACHE_NUM 0 = Ok caches0.
Proof. by vm_compute. Qed.

Lemma caches0_len : length caches0 = SLAB_CACHE_NUM.
Proof. by vm_compute. Qed.

Lemma caches0_ok i cp : caches0 !! i = Some cp ->
  geom cp /\ objsize cp = pow2 (i + MIN_SIZE_ORDER) /\ slabs_full cp = [] /\ slabs_notfull cp = [] /\
  (off_slab cp = true -> exists cp', caches0 !! slab_cachep cp = Some cp' /\ off_slab cp' = false /\
     sizeof_slab + num cp * sizeof_bufctl <= objsize cp').
Proof.
  assert (Hall : forallb (fun i => match caches0 !! i with Some cp => cache_okb caches0 i cp | None => false end)
    (seq 0 SLAB_CACHE_NUM) = true) by by vm_compute.
  intros E. rewrite forallb_forall in Hall. specialize (Hall i). rewrite E in Hall.
  assert (Hb : cache_okb caches0 i cp = true).
  { apply Hall, in_seq. apply lookup_lt_Some in E. rewrite caches0_len in E. lia. }
  clear Hall.
  unfold cache_okb in Hb. apply andb_true_iff in Hb as [Hb Hoff]. apply andb_true_iff in Hb as [Hb H4].
  apply andb_true_iff in Hb as [Hb H3]. apply andb_true_iff in Hb as [H1 H2].
  split; [exact (geomb_ok _ H1)|]. split; [exact (proj1 (Z.eqb_eq _ _) H2)|].
  split; [exact (bool_decide_eq_true_1 _ H3)|]. split; [exact (bool_decide_eq_true_1 _ H4)|].
  intros Ht. rewrite Ht in Hoff. cbn [negb orb] in Hoff. destruct (caches0 !! slab_cachep cp) as [cp'|]; [|discriminate Hoff].
  apply andb_true_iff in Hoff as [H5 H6]. exists cp'. split; [reflexivity|].
  split; [exact (proj1 (negb_true_iff _) H5)|exact (proj1 (Z.leb_le _ _) H6)].
Qed.

Section Claims.
Context {KERNBASE : Z} `{PA : PageAlloc KERNBASE}.

(** Cache [i] holds objects of [2 ^ (i + 5)] bytes. *)
Definition sizes_ok (s : slab_state) : Prop :=
  forall i, (i < SLAB_CACHE_NUM)%nat -> exists cp, slab_cache s !! i = Some cp /\ objsize cp = pow2 (i + MIN_SIZE_ORDER).

Lemma sizes_kept s s' : same_caches s s' -> sizes_ok s -> sizes_ok s'.
Proof.
  intros C H i Hi. destruct (H i Hi) as (cp & Hc & Hs). destruct (same_caches_lookup _ _ _ _ C Hc) as (cp' & Hc' & E).
  exists cp'. split; [done|]. rewrite E. done.
Qed.

Lemma slab_init_ok s :
  pg_inv (pgs s) -> slabs s = ∅ -> PG_slab s = ∅ ->
  returns (slab_init s) (fun s' => slab_inv s' /\ sizes_ok s' /\ pgs s' = pgs s /\ forall c o, ~ ulive s' c o).
Proof.
  intros Hg Hs Hm. unfold slab_init. rewrite init_caches_eq. cbn [res_bind]. apply returns_ok.
  assert (Hno : forall c cp a, ~ on_cache (set_caches caches0 s) c cp a).
  { intros c cp a [Hc Hin]. cbn in Hc. apply caches0_ok in Hc as (_ & _ & E1 & E2 & _). rewrite E1, E2 in Hin.
    by destruct Hin as [?%not_elem_of_nil|?%not_elem_of_nil]. }
  split_and!; [|..|done|].
  - split; cbn.
    + done.
    + intros c cp Hc. apply caches0_ok in Hc as (? & _ & _ & _ & ?). done.
    + intros c cp Hc. apply caches0_ok in Hc as (_ & _ & -> & -> & _). split; constructor.
    + intros c cp a x _ Hx. by rewrite Hs, lookup_empty in Hx.
    + intros c cp a H. by destruct (Hno c cp a).
    + intros a [x Hx]. by rewrite Hs, lookup_empty in Hx.
    + intros c cp a H. by destruct (Hno c cp a).
    + intros y Hy. rewrite Hm in Hy. by apply not_elem_of_empty in Hy.
  - intros i Hi. rewrite <- caches0_len in Hi. apply lookup_lt_is_Some_2 in Hi as [cp Hc]. exists cp. split; [done|].
    by apply caches0_ok in Hc as (_ & ? & _).
  - intros c o [(cp & a & x & i & (Hon & _) & _) _]. by destruct (Hno c cp a).
Qed.

Lemma kmalloc_ok s size :
  slab_inv s -> sizes_ok s -> 0 < size <= 2 ^ 17 ->
  exists c cp, slab_cache s !! c = Some cp /\ size <= objsize cp /\ returns (kmalloc size s) (alloc_post c s).
Proof.
  intros I Hs Hn. destruct (size_order_ok size Hn) as (o & Eo & Ho & Hle).
  unfold MIN_SIZE_ORDER, MAX_SIZE_ORDER in Ho.
  destruct (Hs (o - MIN_SIZE_ORDER)%nat) as (cp & Hc & Hsz).
  { unfold SLAB_CACHE_NUM, MIN_SIZE_ORDER, MAX_SIZE_ORDER. lia. }
  exists (o - MIN_SIZE_ORDER)%nat, cp. split_and!; [done| |].
  - rewrite Hsz. replace (o - MIN_SIZE_ORDER + MIN_SIZE_ORDER)%nat with o by (unfold MIN_SIZE_ORDER; lia). done.
  - unfold kmalloc. apply returns_assert; [lia|]. rewrite Eo. cbn [res_bind].
    destruct (Nat.ltb_spec MAX_SIZE_ORDER o); [unfold MAX_SIZE_ORDER in *; lia|]. by eapply kmem_cache_alloc_ok.
Qed.

(** ** Properties *)

(** [slab_init] sets up thirteen caches of 32 bytes to 128 KB whose slabs
    hold their objects and control structures without overlap, the control
    structures of the off-slab caches fitting into objects of on-slab caches;
    on a fresh machine it establishes the invariant with no live object. *)
Theorem slab_init_spec s :
  pg_inv (pgs s) -> slabs s = ∅ -> PG_slab s = ∅ ->
  returns (slab_init s) (fun s' => slab_inv s' /\ sizes_ok s' /\ forall c o, ~ ulive s' c o).
Proof. intros Hg Hs Hm. eapply returns_mono; [by apply slab_init_ok|]. cbv beta. tauto. Qed.



(** A request for more than 128 KB stops the kernel: [getorder] panics before
    the check that would return NULL. *)
Theorem kmalloc_too_big_panics (s : slab_state) size : 2 ^ 17 < size -> kmalloc size s = Panic.
Proof.
  intros Hn. unfold kmalloc. rewrite (proj2 (Z.ltb_lt 0 size)) by lia. cbn [assert res_bind].
  assert (H : forall cnt o, (o + cnt = 18)%nat -> size_order_from cnt o size = Panic).
  { induction cnt as [|cnt IH]; intros o Ho; [done|]. cbn [size_order_from].
    destruct (Z.leb_spec size (pow2 o)); [|apply IH; lia].
    assert (pow2 o <= 2 ^ 17) by (rewrite pow2_eq; apply Z.pow_le_mono_r; lia). lia. }
  unfold size_order. by rewrite H by done.
Qed.

End Claims.

(** ** A concrete machine: the pages of [Buddy.demo_state] *)

Definition demo_slab : slab_state (PA := pmm_PageAlloc 0x5000) :=
  mk_st (PA := pmm_PageAlloc 0x5000) (mk_pmm demo_state 0) [] ∅ ∅ ∅.

Lemma demo_pg : pg_inv (PageAlloc := pmm_PageAlloc 0x5000) (pgs demo_slab).
Proof.
  split; [apply demo_inv|]. assert (E : zones (buddy (mk_pmm demo_state 0)) = [5]) by by vm_compute.
  cbn [pgs demo_slab]. rewrite E. constructor; [|constructor]. unfold PGSIZE. lia.
Qed.

Definition demo_slab1 : slab_state (PA := pmm_PageAlloc 0x5000) := run demo_slab (slab_init demo_slab).

Lemma demo_slab1_ok : slab_inv demo_slab1 /\ sizes_ok demo_slab1.
Proof.
  destruct (slab_init_ok demo_slab demo_pg eq_refl eq_refl) as (s & E & I & S & _).
  unfold demo_slab1. rewrite E. exact (conj I S).
Qed.

Lemma slab_init_spec_witness :
  returns (slab_init demo_slab) (fun s' => slab_inv s' /\ sizes_ok s' /\ forall c o, ~ ulive s' c o).
Proof. apply (slab_init_spec demo_slab demo_pg); reflexivity. Defined.



Lemma kmalloc_too_big_panics_witness : kmalloc 200000 demo_slab1 = Panic.
Proof. apply (kmalloc_too_big_panics demo_slab1 200000). lia. Defined.
