(* ===== verification/KState.v ===== *)
(** * KState: the kernel state shared by the scheduler, the timers and the
      synchronisation objects

    Objects live in stores indexed by their address; a circular list is the
    sequence of its members (see [Dlist]).  The run queues are the array
    [__rq] of schedule/sched.c, whose [rq_link] ring visits them in index
    order.  Interrupts are off inside every function that changes this state
    (the [local_intr_save] sections), so a function is one atomic step; the
    functions that call [schedule] are split at that call. *)
From S2P Require Import Prelude.

(** [enum proc_state] of process/proc.h *)
Inductive proc_state := PROC_UNINIT | PROC_SLEEPING | PROC_RUNNABLE | PROC_ZOMBIE.

#[export] Instance proc_state_eq_dec : EqDecision proc_state.
Proof. solve_decision. Defined.

(** Wait states of process/proc.h *)
Definition WT_INTERRUPTED : Z := 0x80000000.
Definition WT_CHILD : Z := Z.lor 0x1 WT_INTERRUPTED.
Definition WT_TIMER : Z := Z.lor 0x2 WT_INTERRUPTED.
Definition WT_KSWAPD : Z := 0x3.
Definition WT_KBD : Z := Z.lor 0x4 WT_INTERRUPTED.
Definition WT_KSEM : Z := 0x100.
Definition WT_USEM : Z := Z.lor 0x101 WT_INTERRUPTED.
Definition WT_EVENT_SEND : Z := Z.lor 0x110 WT_INTERRUPTED.
Definition WT_EVENT_RECV : Z := Z.lor 0x111 WT_INTERRUPTED.
Definition WT_MBOX_SEND : Z := Z.lor 0x120 WT_INTERRUPTED.
Definition WT_MBOX_RECV : Z := Z.lor 0x121 WT_INTERRUPTED.
Definition WT_PIPE : Z := Z.lor 0x200 WT_INTERRUPTED.
Definition WT_SIGNAL : Z := Z.lor 0x400 WT_INTERRUPTED.

(** The fields of [struct proc_struct] these components use. *)
Record proc_struct := mk_proc {
  state : proc_state;
  pid : Z;
  runs : Z;
  need_resched : bool;
  wait_state : Z;
  rq : option nat;      (* struct run_queue *rq; NULL is None *)
  time_slice : Z;
  event : Z;            (* event_box.event *)
  event_queue : Z       (* &event_box.wait_queue *)
}.

Definition set_state (v : proc_state) (p : proc_struct) : proc_struct :=
  mk_proc v (pid p) (runs p) (need_resched p) (wait_state p) (rq p) (time_slice p) (event p) (event_queue p).
Definition set_runs (v : Z) (p : proc_struct) : proc_struct :=
  mk_proc (state p) (pid p) v (need_resched p) (wait_state p) (rq p) (time_slice p) (event p) (event_queue p).
Definition set_need_resched (v : bool) (p : proc_struct) : proc_struct :=
  mk_proc (state p) (pid p) (runs p) v (wait_state p) (rq p) (time_slice p) (event p) (event_queue p).
Definition set_wait_state (v : Z) (p : proc_struct) : proc_struct :=
  mk_proc (state p) (pid p) (runs p) (need_resched p) v (rq p) (time_slice p) (event p) (event_queue p).
Definition set_rq (v : option nat) (p : proc_struct) : proc_struct :=
  mk_proc (state p) (pid p) (runs p) (need_resched p) (wait_state p) v (time_slice p) (event p) (event_queue p).
Definition set_time_slice (v : Z) (p : proc_struct) : proc_struct :=
  mk_proc (state p) (pid p) (runs p) (need_resched p) (wait_state p) (rq p) v (event p) (event_queue p).
Definition set_event (v : Z) (p : proc_struct) : proc_struct :=
  mk_proc (state p) (pid p) (runs p) (need_resched p) (wait_state p) (rq p) (time_slice p) v (event_queue p).

(** [struct run_queue] of schedule/sched.h *)
Record run_queue := mk_rq { run_list : list Z; proc_num : Z; max_time_slice : Z }.

(** [timer_t] of schedule/sched.h; [linux_timer] is the embedded
    [__ucore_linux_timer], [None] when its [linux_timer] pointer is NULL;
    [proc] is [None] for a NULL process. *)
Record timer_t := mk_timer { expires : Z; tproc : option Z; linux_timer : option Z }.
Definition set_expires (v : Z) (t : timer_t) : timer_t := mk_timer v (tproc t) (linux_timer t).

(** [wait_t] of sync/wait.h *)
Record wait_t := mk_wait { wproc : Z; wakeup_flags : Z; wait_queue : Z }.

(** [semaphore_t] of sync/sem.h; [sem_wq] is [&sem->wait_queue]. *)
Record semaphore := mk_sem { value : Z; valid : bool; count : Z; sem_wq : Z }.

(** The run-history arrays of schedule/sched.c ("for GDB only"). *)
Record sched_info := mk_info {
  collect : bool;
  lcpu_idx : Z;
  info_head : Z -> Z;
  info_pid : Z -> Z;
  info_times : Z -> Z;
  slices : Z -> Z -> Z
}.

Record kstate := mk_k {
  procs : gmap Z proc_struct;
  rqs : list run_queue;
  current : Z;
  idleproc : Z;
  lcpu_count : Z;
  thread_group : Z -> list Z;   (* the other threads on the ring, from next_thread on *)
  timers : gmap Z timer_t;
  timer_list : list Z;
  ticks : Z;
  waits : gmap Z wait_t;
  wqs : gmap Z (list Z);
  sems : gmap Z semaphore;
  info : sched_info
}.

Definition set_procs v s := mk_k v (rqs s) (current s) (idleproc s) (lcpu_count s) (thread_group s)
  (timers s) (timer_list s) (ticks s) (waits s) (wqs s) (sems s) (info s).
Definition set_rqs v s := mk_k (procs s) v (current s) (idleproc s) (lcpu_count s) (thread_group s)
  (timers s) (timer_list s) (ticks s) (waits s) (wqs s) (sems s) (info s).
Definition set_current v s := mk_k (procs s) (rqs s) v (idleproc s) (lcpu_count s) (thread_group s)
  (timers s) (timer_list s) (ticks s) (waits s) (wqs s) (sems s) (info s).
Definition set_timers v s := mk_k (procs s) (rqs s) (current s) (idleproc s) (lcpu_count s) (thread_group s)
  v (timer_list s) (ticks s) (waits s) (wqs s) (sems s) (info s).
Definition set_timer_list v s := mk_k (procs s) (rqs s) (current s) (idleproc s) (lcpu_count s) (thread_group s)
  (timers s) v (ticks s) (waits s) (wqs s) (sems s) (info s).
Definition set_waits v s := mk_k (procs s) (rqs s) (current s) (idleproc s) (lcpu_count s) (thread_group s)
  (timers s) (timer_list s) (ticks s) v (wqs s) (sems s) (info s).
Definition set_wqs v s := mk_k (procs s) (rqs s) (current s) (idleproc s) (lcpu_count s) (thread_group s)
  (timers s) (timer_list s) (ticks s) (waits s) v (sems s) (info s).
Definition set_sems v s := mk_k (procs s) (rqs s) (current s) (idleproc s) (lcpu_count s) (thread_group s)
  (timers s) (timer_list s) (ticks s) (waits s) (wqs s) v (info s).
Definition set_info v s := mk_k (procs s) (rqs s) (current s) (idleproc s) (lcpu_count s) (thread_group s)
  (timers s) (timer_list s) (ticks s) (waits s) (wqs s) (sems s) v.

Definition get_proc (p : Z) (s : kstate) : res proc_struct := fetch (procs s) p.
Definition upd_proc (p : Z) (f : proc_struct -> proc_struct) (s : kstate) : res kstate :=
  let* x := get_proc p s in Ok (set_procs (<[p := f x]> (procs s)) s).

Definition get_rq (q : nat) (s : kstate) : res run_queue :=
  match rqs s !! q with
  | Some r => Ok r
  | None => Panic
  end.
Definition put_rq (q : nat) (r : run_queue) (s : kstate) : kstate := set_rqs (<[q := r]> (rqs s)) s.

(** [!list_empty(&(proc->run_link))]: the process is linked on a run list. *)
Definition on_rq (p : Z) (s : kstate) : bool :=
  existsb (fun r => bool_decide (p ∈ run_list r)) (rqs s).

Lemma on_rq_spec p s : on_rq p s = true <-> exists q r, rqs s !! q = Some r /\ p ∈ run_list r.
Proof.
  unfold on_rq. rewrite existsb_exists. split.
  - intros (r & Hr & Hp). apply list_elem_of_In, list_elem_of_lookup in Hr as [q Hq].
    exists q, r. split; [done|]. by apply bool_decide_eq_true in Hp.
  - intros (q & r & Hq & Hp). exists r. rewrite <- list_elem_of_In, bool_decide_eq_true.
    split; [|done]. apply list_elem_of_lookup; eauto.
Qed.

Lemma upd_proc_ok p f s x :
  procs s !! p = Some x -> upd_proc p f s = Ok (set_procs (<[p := f x]> (procs s)) s).
Proof. intros H. unfold upd_proc, get_proc. by rewrite (fetch_ok _ _ _ H). Qed.

Lemma get_rq_ok q s r : rqs s !! q = Some r -> get_rq q s = Ok r.
Proof. unfold get_rq; by intros ->. Qed.
