(* ===== verification/Sched.v ===== *)
(** * Sched: scheduling classes and the core scheduler
      (schedule/sched_RR.c, schedule/sched_MLFQ.c, schedule/sched.c) *)
From S2P Require Import Prelude KState.

(** ** The interface [struct sched_class] of schedule/sched.h *)

Record sched_class := mk_class {
  sc_init : nat -> kstate -> res kstate;
  sc_enqueue : nat -> Z -> kstate -> res kstate;
  sc_dequeue : nat -> Z -> kstate -> res kstate;
  sc_pick_next : nat -> kstate -> res (option Z);
  sc_proc_tick : nat -> Z -> kstate -> res kstate
}.

(** ** Round robin: schedule/sched_RR.c *)

Definition RR_init (q : nat) (s : kstate) : res kstate :=
  let* r := get_rq q s in
  Ok (put_rq q (mk_rq [] 0 (max_time_slice r)) s).

Definition RR_enqueue (q : nat) (p : Z) (s : kstate) : res kstate :=
  assert! negb (on_rq p s) ;;
  let* r := get_rq q s in
  let s := put_rq q (mk_rq (run_list r ++ [p]) (proc_num r) (max_time_slice r)) s in
  let* x := get_proc p s in
  let* s := if (time_slice x =? 0) || (max_time_slice r <? time_slice x)
            then upd_proc p (set_time_slice (max_time_slice r)) s else Ok s in
  let* s := upd_proc p (set_rq (Some q)) s in
  let* r := get_rq q s in
  Ok (put_rq q (mk_rq (run_list r) (u32 (proc_num r + 1)) (max_time_slice r)) s).

(** [list_del_init(&(proc->run_link))] *)
Definition unlink_run (p : Z) (s : kstate) : kstate :=
  set_rqs (map (fun r => mk_rq (filter (fun x => x <> p) (run_list r)) (proc_num r) (max_time_slice r)) (rqs s)) s.

Definition RR_dequeue (q : nat) (p : Z) (s : kstate) : res kstate :=
  let* x := get_proc p s in
  assert! on_rq p s && bool_decide (rq x = Some q) ;;
  let s := unlink_run p s in
  let* r := get_rq q s in
  Ok (put_rq q (mk_rq (run_list r) (u32 (proc_num r - 1)) (max_time_slice r)) s).

Definition RR_pick_next (q : nat) (s : kstate) : res (option Z) :=
  let* r := get_rq q s in Ok (hd_error (run_list r)).

Definition RR_proc_tick (q : nat) (p : Z) (s : kstate) : res kstate :=
  let* x := get_proc p s in
  let* s := if 0 <? time_slice x then upd_proc p (set_time_slice (time_slice x - 1)) s else Ok s in
  let* x := get_proc p s in
  if time_slice x =? 0 then upd_proc p (set_need_resched true) s else Ok s.

Definition RR_sched_class : sched_class :=
  mk_class RR_init RR_enqueue RR_dequeue RR_pick_next RR_proc_tick.

(** ** Multi-level feedback queue: schedule/sched_MLFQ.c *)

(** [le2rq(list_next(&(rq->rq_link)), rq_link)] on the ring of [__rq]. *)
Definition next_rq (q : nat) (s : kstate) : nat :=
  if decide (S q < length (rqs s))%nat then S q else 0%nat.

(** [do { ... le = list_next(le); } while (le != list)] *)
Fixpoint MLFQ_init_loop (fuel : nat) (list q : nat) (s : kstate) : res kstate :=
  match fuel with
  | O => Panic
  | S fuel =>
      let* s := RR_init q s in
      let q := next_rq q s in
      if decide (q = list) then Ok s else MLFQ_init_loop fuel list q s
  end.

Definition MLFQ_init (q : nat) (s : kstate) : res kstate :=
  MLFQ_init_loop (length (rqs s)) q q s.

Definition MLFQ_enqueue (q : nat) (p : Z) (s : kstate) : res kstate :=
  assert! negb (on_rq p s) ;;
  let* x := get_proc p s in
  let nrq :=
    match rq x with
    | Some q0 =>
        if time_slice x =? 0 then
          let nrq := next_rq q0 s in
          if decide (nrq = q) then q0 else nrq
        else q
    | None => q
    end in
  RR_enqueue nrq p s.

Definition MLFQ_dequeue (q : nat) (p : Z) (s : kstate) : res kstate :=
  assert! on_rq p s ;;
  let* x := get_proc p s in
  match rq x with
  | Some q0 => RR_dequeue q0 p s
  | None => Panic
  end.

Fixpoint MLFQ_pick_loop (fuel : nat) (list q : nat) (s : kstate) : res (option Z) :=
  match fuel with
  | O => Panic
  | S fuel =>
      let* next := RR_pick_next q s in
      match next with
      | Some p => Ok (Some p)
      | None =>
          let q := next_rq q s in
          if decide (q = list) then Ok None else MLFQ_pick_loop fuel list q s
      end
  end.

Definition MLFQ_pick_next (q : nat) (s : kstate) : res (option Z) :=
  MLFQ_pick_loop (length (rqs s)) q q s.

Definition MLFQ_proc_tick (q : nat) (p : Z) (s : kstate) : res kstate :=
  let* x := get_proc p s in
  match rq x with
  | Some q0 => RR_proc_tick q0 p s
  | None => RR_proc_tick 0 p s   (* the queue argument is not read *)
  end.

Definition MLFQ_sched_class : sched_class :=
  mk_class MLFQ_init MLFQ_enqueue MLFQ_dequeue MLFQ_pick_next MLFQ_proc_tick.

(** ** The core scheduler: schedule/sched.c *)

Section Core.
Context (C : sched_class).

Definition sched_class_enqueue (p : Z) (s : kstate) : res kstate :=
  if decide (p = idleproc s) then Ok s else sc_enqueue C 0 p s.
Definition sched_class_dequeue (p : Z) (s : kstate) : res kstate := sc_dequeue C 0 p s.
Definition sched_class_pick_next (s : kstate) : res (option Z) := sc_pick_next C 0 s.
Definition sched_class_proc_tick (p : Z) (s : kstate) : res kstate :=
  if decide (p = idleproc s) then upd_proc p (set_need_resched true) s else sc_proc_tick C 0 p s.

Definition sched_init (s : kstate) : res kstate :=
  let s := set_timer_list [] s in
  let s := set_rqs [mk_rq [] 0 8; mk_rq [] 0 (8 * 2); mk_rq [] 0 (8 * 4); mk_rq [] 0 (8 * 8)] s in
  sc_init C 0 s.

Definition stop_proc (p wait : Z) (s : kstate) : res kstate :=
  let* s := upd_proc p (set_state PROC_SLEEPING) s in
  let* s := upd_proc p (set_wait_state wait) s in
  if on_rq p s then sched_class_dequeue p s else Ok s.

Definition wakeup_proc (p : Z) (s : kstate) : res kstate :=
  let* x := get_proc p s in
  assert! bool_decide (state x <> PROC_ZOMBIE) ;;
  if decide (state x <> PROC_RUNNABLE) then
    let* s := upd_proc p (set_state PROC_RUNNABLE) s in
    let* s := upd_proc p (set_wait_state 0) s in
    if decide (p <> current s) then
      assert! lcpu_count s <=? pid x ;;
      sched_class_enqueue p s
    else Ok s
  else Ok s.                      (* warn("wakeup runnable process") *)

(** [while ((next = next_thread(next)) != proc)] *)
Fixpoint wakeup_threads (ts : list Z) (s : kstate) : res kstate :=
  match ts with
  | [] => Ok s
  | t :: ts =>
      let* x := get_proc t s in
      let* s :=
        if decide (state x = PROC_SLEEPING /\ wait_state x = WT_SIGNAL) then
          let* s := upd_proc t (set_state PROC_RUNNABLE) s in
          let* s := upd_proc t (set_wait_state 0) s in
          if decide (t <> current s) then sched_class_enqueue t s else Ok s
        else Ok s in
      wakeup_threads ts s
  end.

Definition try_to_wakeup (p : Z) (s : kstate) : res (Z * kstate) :=
  let* x := get_proc p s in
  assert! bool_decide (state x <> PROC_ZOMBIE) ;;
  let* (ret, s) :=
    if decide (state x <> PROC_RUNNABLE) then
      let* s := upd_proc p (set_state PROC_RUNNABLE) s in
      let* s := upd_proc p (set_wait_state 0) s in
      let* s := if decide (p <> current s) then sched_class_enqueue p s else Ok s in
      Ok (1, s)
    else Ok (0, s) in
  let* s := wakeup_threads (thread_group s p) s in
  Ok (ret, s).

(** The run-history block of [schedule]. *)
Definition SLICEPOOL_SIZE : Z := 21.
Definition collect_info (npid lcpu : Z) (i : sched_info) : sched_info :=
  if collect i then
    let idx := lcpu_idx i in
    let loc := info_head i idx in
    let prev := info_pid i (loc * lcpu + idx) in
    if npid =? prev then
      mk_info (collect i) idx (info_head i) (info_pid i)
        (<[loc * lcpu + idx := (info_times i (loc * lcpu + idx) + 1) mod 2 ^ 16]> (info_times i)) (slices i)
    else
      let head := info_head i idx + 1 in
      let head := if 4096 / 2 / lcpu <=? head then 0 else head in
      let loc := head in
      let prev_pid := info_pid i (loc * lcpu + idx) in
      let prev_times := info_times i (loc * lcpu + idx) in
      mk_info (collect i) idx (<[idx := head]> (info_head i))
        (<[loc * lcpu + idx := npid mod 2 ^ 16]> (info_pid i))
        (<[loc * lcpu + idx := 1]> (info_times i))
        (if (0 <? prev_times) && (lcpu + 2 <=? prev_pid)
         then <[idx := <[prev_pid mod SLICEPOOL_SIZE :=
                          slices i idx (prev_pid mod SLICEPOOL_SIZE) + prev_times]> (slices i idx)]> (slices i)
         else slices i)
  else i.

(** [proc_run] of process/proc.c: the switch of the running process. *)
Definition proc_run (p : Z) (s : kstate) : kstate :=
  if decide (p = current s) then s else set_current p s.

Definition schedule (s : kstate) : res kstate :=
  let* s := upd_proc (current s) (set_need_resched false) s in
  let* c := get_proc (current s) s in
  let* s := if decide (state c = PROC_RUNNABLE /\ lcpu_count s <= pid c)
            then sched_class_enqueue (current s) s else Ok s in
  let* next := sched_class_pick_next s in
  let* s := match next with Some p => sched_class_dequeue p s | None => Ok s end in
  let next := default (idleproc s) next in
  let* x := get_proc next s in
  let* s := upd_proc next (set_runs (runs x + 1)) s in
  let s := set_info (collect_info (pid x) (lcpu_count s) (info s)) s in
  Ok (if decide (next <> current s) then proc_run next s else s).

End Core.

(** ** Well-formed run queues *)

Record rq_wf (s : kstate) : Prop := {
  wf_num : forall q r, rqs s !! q = Some r -> proc_num r = u32 (Z.of_nat (length (run_list r)));
  wf_nodup : forall q r, rqs s !! q = Some r -> NoDup (run_list r);
  wf_max : forall q r, rqs s !! q = Some r -> 0 < max_time_slice r;
  wf_link : forall q r p, rqs s !! q = Some r -> p ∈ run_list r ->
    exists x, procs s !! p = Some x /\ rq x = Some q /\ 0 < time_slice x <= max_time_slice r;
  wf_proc : forall p x, procs s !! p = Some x ->
    0 <= time_slice x /\ forall q, rq x = Some q -> (q < length (rqs s))%nat
}.

(** What a scheduling class reads of a process. *)
Definition sched_view (x : proc_struct) : option nat * Z := (rq x, time_slice x).

Lemma rq_wf_frame s s' :
  rqs s' = rqs s -> (forall p, sched_view <$> procs s' !! p = sched_view <$> procs s !! p) ->
  rq_wf s -> rq_wf s'.
Proof.
  intros Hr Hv W.
  assert (Hx : forall p x', procs s' !! p = Some x' ->
            exists x, procs s !! p = Some x /\ rq x' = rq x /\ time_slice x' = time_slice x).
  { intros p x' Hp. specialize (Hv p). rewrite Hp in Hv. destruct (procs s !! p) as [x|]; [|done].
    simpl in Hv. unfold sched_view in Hv. injection Hv as -> ->. eauto. }
  split; rewrite ?Hr; try apply W.
  - intros q r p Hq Hp. destruct (wf_link _ W q r p Hq Hp) as (x & Hx1 & Hx2 & Hx3).
    specialize (Hv p). rewrite Hx1 in Hv. destruct (procs s' !! p) as [x'|] eqn:E; [|done].
    exists x'. simpl in Hv. unfold sched_view in Hv. injection Hv as -> ->. auto.
  - intros p x' Hp. destruct (Hx p x' Hp) as (x & Hp' & -> & ->). exact (wf_proc _ W p x Hp').
Qed.

(** Scheduling a process in or out touches the queues and its own entry only,
    and there only [rq] and [time_slice]. *)
Definition sched_step (p : Z) (s s' : kstate) : Prop :=
  s' = set_procs (procs s') (set_rqs (rqs s') s) /\
  (forall y, y <> p -> procs s' !! y = procs s !! y) /\
  (forall x, procs s !! p = Some x -> exists q t, procs s' !! p = Some (set_time_slice t (set_rq q x))).

Lemma on_rq_false p s : on_rq p s = false <-> forall q r, rqs s !! q = Some r -> p ∉ run_list r.
Proof.
  rewrite <- not_true_iff_false, on_rq_spec. split.
  - intros H q r Hq Hp. apply H; eauto.
  - intros H (q & r & Hq & Hp). by eapply H.
Qed.

Lemma unique_queue s p q1 r1 q2 r2 :
  rq_wf s -> rqs s !! q1 = Some r1 -> p ∈ run_list r1 ->
  rqs s !! q2 = Some r2 -> p ∈ run_list r2 -> q1 = q2.
Proof.
  intros W H1 P1 H2 P2. destruct (wf_link _ W _ _ _ H1 P1) as (x1 & X1 & E1 & _).
  destruct (wf_link _ W _ _ _ H2 P2) as (x2 & X2 & E2 & _). congruence.
Qed.

(** *** Round robin on one queue *)

Lemma RR_enqueue_ok s p x q r :
  rq_wf s -> procs s !! p = Some x -> on_rq p s = false -> rqs s !! q = Some r ->
  let t := if (time_slice x =? 0) || (max_time_slice r <? time_slice x)
           then max_time_slice r else time_slice x in
  let s' := set_procs (<[p := set_time_slice t (set_rq (Some q) x)]> (procs s))
             (set_rqs (<[q := mk_rq (run_list r ++ [p]) (u32 (proc_num r + 1)) (max_time_slice r)]> (rqs s)) s) in
  RR_enqueue q p s = Ok s' /\ rq_wf s' /\ sched_step p s s' /\
  (forall y, on_rq y s' = true <-> on_rq y s = true \/ y = p).
Proof.
  intros W Hx Hn Hq t s'.
  pose proof (lookup_lt_Some _ _ _ Hq) as Hlen. pose proof (wf_max _ W _ _ Hq) as Hmax.
  assert (Hrun : RR_enqueue q p s = Ok s').
  { unfold RR_enqueue. rewrite Hn. cbn [negb assert res_bind]. rewrite (get_rq_ok _ _ _ Hq). cbn [res_bind].
    unfold get_proc; cbn [procs put_rq set_rqs]. rewrite (fetch_ok _ _ _ Hx). cbn [res_bind].
    unfold s', t. destruct ((time_slice x =? 0) || (max_time_slice r <? time_slice x));
      cbn [res_bind]; rewrite ?(upd_proc_ok p _ _ x) by done; cbn [res_bind];
      rewrite ?(upd_proc_ok p _ _ (set_time_slice (max_time_slice r) x)) by (cbn; by rewrite lookup_insert_eq);
      cbn [res_bind]; unfold get_rq; cbn [rqs set_procs put_rq set_rqs];
      rewrite list_lookup_insert_eq by done; cbn [res_bind]; unfold put_rq, set_procs, set_rqs; cbn;
      rewrite list_insert_insert_eq, ?insert_insert_eq; [done|].
    by destruct x. }
  assert (Hin : forall y, on_rq y s' = true <-> on_rq y s = true \/ y = p).
  { intros y. rewrite !on_rq_spec. unfold s'; cbn [rqs set_procs set_rqs]. split.
    - intros (q' & r' & Hq' & Hy). apply list_lookup_insert_Some in Hq' as [(<- & <- & _)|[Hne Hq']].
      + cbn in Hy. apply elem_of_app in Hy as [Hy|Hy%list_elem_of_singleton]; eauto.
      + eauto.
    - intros [(q' & r' & Hq' & Hy)| ->].
      + destruct (decide (q' = q)) as [->|Hne].
        * exists q, (mk_rq (run_list r ++ [p]) (u32 (proc_num r + 1)) (max_time_slice r)).
          rewrite list_lookup_insert_eq by done. split; [done|]. cbn. set_solver.
        * exists q', r'. by rewrite list_lookup_insert_ne.
      + exists q, (mk_rq (run_list r ++ [p]) (u32 (proc_num r + 1)) (max_time_slice r)).
        rewrite list_lookup_insert_eq by done. split; [done|]. cbn. set_solver. }
  assert (Ht : 0 < t <= max_time_slice r).
  { pose proof (wf_proc _ W p x Hx) as [? _]. unfold t.
    destruct (Z.eqb_spec (time_slice x) 0), (Z.ltb_spec (max_time_slice r) (time_slice x)); cbn; lia. }
  pose proof (proj1 (on_rq_false p s) Hn) as Hnone.
  split_and!; auto.
  - split; unfold s'; cbn [rqs procs set_procs set_rqs].
    + intros q' r' [(<- & <- & _)|[_ Hq']]%list_lookup_insert_Some; cbn; [|by eapply (wf_num _ W)].
      rewrite (wf_num _ W _ _ Hq), u32_add_l, length_app; cbn. f_equal; lia.
    + intros q' r' [(<- & <- & _)|[_ Hq']]%list_lookup_insert_Some; cbn; [|by eapply (wf_nodup _ W)].
      apply NoDup_app. split_and!; [by eapply (wf_nodup _ W)| |apply NoDup_singleton].
      intros y Hy Hs%list_elem_of_singleton. subst y. by eapply Hnone.
    + intros q' r' [(<- & <- & _)|[_ Hq']]%list_lookup_insert_Some; cbn; [done|by eapply (wf_max _ W)].
    + intros q' r' y [(<- & <- & _)|[Hne Hq']]%list_lookup_insert_Some Hy; cbn in *.
      * apply elem_of_app in Hy as [Hy|Hy%list_elem_of_singleton]; [|subst y].
        -- destruct (decide (y = p)) as [->|Hyp]; [exfalso; by eapply Hnone|].
           rewrite lookup_insert_ne by done. by eapply (wf_link _ W).
        -- rewrite lookup_insert_eq. eexists; split; [done|]. cbn. auto.
      * assert (y <> p) by (intros ->; by eapply Hnone). rewrite lookup_insert_ne by done. by eapply (wf_link _ W).
    + intros y x' Hy. rewrite length_insert. destruct (decide (y = p)) as [->|Hne].
      * rewrite lookup_insert_eq in Hy. injection Hy as <-. cbn. split; [lia|]. by intros ? [= <-].
      * rewrite lookup_insert_ne in Hy by done. by eapply (wf_proc _ W).
  - split_and!; unfold s'; cbn; [done|intros; by rewrite lookup_insert_ne|].
    intros x' Hx'. rewrite lookup_insert_eq. assert (x' = x) as -> by congruence. eauto.
Qed.

Lemma RR_dequeue_ok s p x q r :
  rq_wf s -> procs s !! p = Some x -> rq x = Some q -> rqs s !! q = Some r -> p ∈ run_list r ->
  let s' := set_rqs (<[q := mk_rq (filter (fun y => y <> p) (run_list r)) (u32 (proc_num r - 1))
                                   (max_time_slice r)]> (rqs s)) s in
  RR_dequeue q p s = Ok s' /\ rq_wf s' /\ sched_step p s s' /\
  (forall y, on_rq y s' = true <-> on_rq y s = true /\ y <> p).
Proof.
  intros W Hx Hrq Hq Hp s'. pose proof (lookup_lt_Some _ _ _ Hq) as Hlen.
  set (unl := fun r => mk_rq (filter (fun y => y <> p) (run_list r)) (proc_num r) (max_time_slice r)).
  assert (Hmap : rqs (unlink_run p s) = <[q := unl r]> (rqs s)).
  { cbn. fold unl. apply list_eq; intros i. change (map unl (rqs s)) with (unl <$> rqs s).
    rewrite list_lookup_fmap. destruct (decide (i = q)) as [->|Hne].
    - rewrite list_lookup_insert_eq by done. by rewrite Hq.
    - rewrite list_lookup_insert_ne by done. destruct (rqs s !! i) as [r'|] eqn:E; [|done]. cbn. f_equal.
      unfold unl. rewrite filter_ne_id; [by destruct r'|].
      intros Hp'. apply Hne. by eapply unique_queue. }
  assert (Hrun : RR_dequeue q p s = Ok s').
  { unfold RR_dequeue, get_proc. rewrite (fetch_ok _ _ _ Hx). cbn [res_bind].
    assert (on_rq p s = true) as -> by (apply on_rq_spec; eauto).
    rewrite bool_decide_true by done. cbn [andb assert res_bind]. unfold get_rq. rewrite Hmap.
    rewrite list_lookup_insert_eq by done. cbn [res_bind]. unfold put_rq. rewrite Hmap.
    rewrite list_insert_insert_eq. done. }
  assert (Hin : forall y, on_rq y s' = true <-> on_rq y s = true /\ y <> p).
  { intros y. rewrite !on_rq_spec. unfold s'; cbn [rqs set_rqs]. split.
    - intros (q' & r' & [(<- & <- & _)|[Hne Hq']]%list_lookup_insert_Some & Hy); cbn in Hy.
      + apply list_elem_of_filter in Hy as [? ?]. eauto.
      + split; [eauto|]. intros ->. apply Hne. by eapply unique_queue.
    - intros [(q' & r' & Hq' & Hy) Hne]. destruct (decide (q' = q)) as [->|Hnq].
      + eexists q, _. rewrite list_lookup_insert_eq by done. split; [done|]. cbn.
        apply list_elem_of_filter. split; [done|]. by assert (r' = r) as <- by congruence.
      + exists q', r'. by rewrite list_lookup_insert_ne. }
  split_and!; auto.
  - split; unfold s'; cbn [rqs procs set_rqs].
    + intros q' r' [(<- & <- & _)|[_ Hq']]%list_lookup_insert_Some; cbn; [|by eapply (wf_num _ W)].
      rewrite (wf_num _ W _ _ Hq), u32_sub_l, length_filter_ne by (auto; by eapply (wf_nodup _ W)).
      f_equal. destruct (run_list r); [by apply not_elem_of_nil in Hp|]. cbn. lia.
    + intros q' r' [(<- & <- & _)|[_ Hq']]%list_lookup_insert_Some; cbn; [|by eapply (wf_nodup _ W)].
      apply NoDup_filter. by eapply (wf_nodup _ W).
    + intros q' r' [(<- & <- & _)|[_ Hq']]%list_lookup_insert_Some; cbn; by eapply (wf_max _ W).
    + intros q' r' y [(<- & <- & _)|[Hne Hq']]%list_lookup_insert_Some Hy; cbn in *; [|by eapply (wf_link _ W)].
      apply list_elem_of_filter in Hy as [_ Hy]. by eapply (wf_link _ W).
    + intros y x' Hy. rewrite length_insert. by eapply (wf_proc _ W).
  - split_and!; unfold s'; cbn; [by destruct s|done|].
    intros x' Hx'. exists (rq x'), (time_slice x'). rewrite Hx'. by destruct x'.
Qed.

(** ** What the core scheduler relies on: the interface of a class

    [sc_inv] is the class's own invariant of the run queues. *)
Class SchedClassOk (C : sched_class) := {
  sc_inv : kstate -> Prop;
  sc_inv_frame : forall s s', rqs s' = rqs s ->
    (forall p, sched_view <$> procs s' !! p = sched_view <$> procs s !! p) -> sc_inv s -> sc_inv s';
  sc_enqueue_ok : forall s p x, sc_inv s -> procs s !! p = Some x -> on_rq p s = false ->
    returns (sc_enqueue C 0 p s) (fun s' => sc_inv s' /\ sched_step p s s' /\
      forall y, on_rq y s' = true <-> on_rq y s = true \/ y = p);
  sc_dequeue_ok : forall s p, sc_inv s -> on_rq p s = true ->
    returns (sc_dequeue C 0 p s) (fun s' => sc_inv s' /\ sched_step p s s' /\
      forall y, on_rq y s' = true <-> on_rq y s = true /\ y <> p);
  sc_pick_ok : forall s, sc_inv s ->
    returns (sc_pick_next C 0 s) (fun r =>
      match r with
      | Some p => on_rq p s = true
      | None => forall y, on_rq y s = false
      end);
  sc_tick_ok : forall s p x, sc_inv s -> procs s !! p = Some x -> on_rq p s = false ->
    returns (sc_proc_tick C 0 p s) (fun s' => sc_inv s' /\ rqs s' = rqs s /\
      exists t b, s' = set_procs (<[p := set_need_resched b (set_time_slice t x)]> (procs s)) s /\
        (t = 0 -> b = true) /\ 0 <= t <= time_slice x)
}.

(** Every queued process has an entry. *)
Lemma queued_proc s p : rq_wf s -> on_rq p s = true ->
  exists q r x, rqs s !! q = Some r /\ p ∈ run_list r /\ procs s !! p = Some x /\ rq x = Some q.
Proof.
  intros W (q & r & Hq & Hp)%on_rq_spec. destruct (wf_link _ W _ _ _ Hq Hp) as (x & ? & ? & _). eauto 10.
Qed.

Lemma RR_proc_tick_ok s p x q :
  rq_wf s -> procs s !! p = Some x -> on_rq p s = false ->
  returns (RR_proc_tick q p s) (fun s' => rq_wf s' /\ rqs s' = rqs s /\
    exists t b, s' = set_procs (<[p := set_need_resched b (set_time_slice t x)]> (procs s)) s /\
      (t = 0 -> b = true) /\ 0 <= t <= time_slice x).
Proof.
  intros W Hx Hn. pose proof (wf_proc _ W p x Hx) as [Ht Hq].
  pose proof (proj1 (on_rq_false p s) Hn) as Hnone.
  assert (Hwf : forall t b, 0 <= t -> rq_wf (set_procs (<[p := set_need_resched b (set_time_slice t x)]> (procs s)) s)).
  { intros t b Ht'. split; cbn [rqs procs set_procs]; try apply W.
    - intros q' r y Hq' Hy. assert (y <> p) by (intros ->; by eapply Hnone).
      rewrite lookup_insert_ne by done. by eapply (wf_link _ W).
    - intros y x' Hy. destruct (decide (y = p)) as [->|].
      + rewrite lookup_insert_eq in Hy. injection Hy as <-. cbn. auto.
      + rewrite lookup_insert_ne in Hy by done. by eapply (wf_proc _ W). }
  assert (Hfin : forall t b, 0 <= t <= time_slice x -> (t = 0 -> b = true) ->
    let s' := set_procs (<[p := set_need_resched b (set_time_slice t x)]> (procs s)) s in
    rq_wf s' /\ rqs s' = rqs s /\
    exists t b, s' = set_procs (<[p := set_need_resched b (set_time_slice t x)]> (procs s)) s /\
      (t = 0 -> b = true) /\ 0 <= t <= time_slice x).
  { intros t b ? ?; split_and!; [apply Hwf; lia|done|]. by exists t, b. }
  unfold RR_proc_tick, get_proc. rewrite (fetch_ok _ _ _ Hx). cbn [res_bind].
  destruct (Z.ltb_spec 0 (time_slice x)) as [Hpos|Hz].
  - rewrite (upd_proc_ok _ _ _ _ Hx). cbn [res_bind]. unfold fetch; cbn [procs set_procs].
    rewrite lookup_insert_eq. cbn [res_bind].
    destruct (Z.eqb_spec (time_slice (set_time_slice (time_slice x - 1) x)) 0) as [H0|H0].
    + erewrite upd_proc_ok by (cbn; by rewrite lookup_insert_eq). eexists; split; [done|]. cbn.
      rewrite insert_insert_eq. apply (Hfin (time_slice x - 1) true); [cbn in H0; lia|done].
    + apply returns_ok. cbn in H0. specialize (Hfin (time_slice x - 1) (need_resched x)).
      replace (set_need_resched (need_resched x) (set_time_slice (time_slice x - 1) x))
        with (set_time_slice (time_slice x - 1) x) in Hfin by by destruct x.
      apply Hfin; lia.
  - cbn [res_bind]. rewrite (fetch_ok _ _ _ Hx). cbn [res_bind].
    destruct (Z.eqb_spec (time_slice x) 0) as [H0|]; [|lia].
    rewrite (upd_proc_ok _ _ _ _ Hx). eexists; split; [done|].
    specialize (Hfin 0 true). replace (set_need_resched true (set_time_slice 0 x))
      with (set_need_resched true x) in Hfin by (destruct x; cbn in H0; by subst).
    apply Hfin; [lia|done].
Qed.

(** *** Round robin implements the interface (one queue, the others empty) *)

Definition RR_inv (s : kstate) : Prop :=
  rq_wf s /\ (0 < length (rqs s))%nat /\
  forall q r, rqs s !! q = Some r -> q <> 0%nat -> run_list r = [].

Lemma RR_queued_zero s p q r : RR_inv s -> rqs s !! q = Some r -> p ∈ run_list r -> q = 0%nat.
Proof.
  intros (_ & _ & H) Hq Hp. destruct (decide (q = 0%nat)); [done|].
  rewrite (H q r) in Hp by done. by apply not_elem_of_nil in Hp.
Qed.

#[export] Program Instance RR_class_ok : SchedClassOk RR_sched_class := {| sc_inv := RR_inv |}.
Next Obligation.
  intros s s' Hr Hv (W & Hl & He). split_and!; [by eapply rq_wf_frame | by rewrite Hr | by rewrite Hr].
Qed.
Next Obligation.
  intros s p x (W & Hl & He) Hx Hn. destruct (lookup_lt_is_Some_2 _ _ Hl) as [r Hr].
  destruct (RR_enqueue_ok s p x 0 r W Hx Hn Hr) as (Hrun & W' & Hst & Hin).
  eexists; split; [exact Hrun|]. split; [split_and!; [done| |]|done].
  - cbn. by rewrite length_insert.
  - cbn. intros q r' Hq Hne. rewrite list_lookup_insert_ne in Hq by done. by eapply He.
Qed.
Next Obligation.
  intros s p I Hp. pose proof I as (W & Hl & He).
  destruct (queued_proc s p W Hp) as (q & r & x & Hq & Hpr & Hx & Hrq).
  assert (q = 0%nat) as -> by by eapply RR_queued_zero.
  destruct (RR_dequeue_ok s p x 0 r W Hx Hrq Hq Hpr) as (Hrun & W' & Hst & Hin).
  eexists; split; [exact Hrun|]. split; [split_and!; [done| |]|done].
  - cbn. by rewrite length_insert.
  - cbn. intros q r' Hq' Hne. rewrite list_lookup_insert_ne in Hq' by done. by eapply He.
Qed.
Next Obligation.
  intros s I. pose proof I as (W & Hl & He). destruct (lookup_lt_is_Some_2 _ _ Hl) as [r Hr].
  cbn. unfold RR_pick_next. rewrite (get_rq_ok _ _ _ Hr). eexists; split; [done|].
  destruct (run_list r) as [|p l] eqn:E; cbn.
  - intros y. apply on_rq_false. intros q r' Hq. destruct (decide (q = 0%nat)) as [->|].
    + assert (r' = r) as -> by congruence. rewrite E. apply not_elem_of_nil.
    + rewrite (He q r') by done. apply not_elem_of_nil.
  - apply on_rq_spec. exists 0%nat, r. split; [done|]. rewrite E. left.
Qed.
Next Obligation.
  intros s p x (W & Hl & He) Hx Hn. eapply returns_mono; [by apply (RR_proc_tick_ok s p x 0)|].
  cbn. intros s' (W' & Hr & Hs). split_and!; [|done|done]. split_and!; [done|by rewrite Hr|by rewrite Hr].
Qed.

(** *** MLFQ implements the interface *)

Definition MLFQ_inv (s : kstate) : Prop := rq_wf s /\ (0 < length (rqs s))%nat.

Lemma next_rq_lt q s : (0 < length (rqs s))%nat -> (next_rq q s < length (rqs s))%nat.
Proof. intros; unfold next_rq; case_decide; lia. Qed.

(** The ring walk of [MLFQ_pick_next] from queue [q] visits the queues
    [q], ..., [n-1] in order and stops at the first non-empty one. *)
Lemma MLFQ_pick_loop_ok s fuel : forall q,
  (q + fuel = length (rqs s))%nat -> (0 < fuel)%nat ->
  returns (MLFQ_pick_loop fuel 0 q s) (fun r =>
    match r with
    | Some p => exists k rk, (q <= k)%nat /\ rqs s !! k = Some rk /\ hd_error (run_list rk) = Some p /\
        forall j rj, (q <= j < k)%nat -> rqs s !! j = Some rj -> run_list rj = []
    | None => forall j rj, (q <= j)%nat -> rqs s !! j = Some rj -> run_list rj = []
    end).
Proof.
  induction fuel as [|fuel IH]; intros q Hq Hf; [lia|]. cbn [MLFQ_pick_loop].
  destruct (lookup_lt_is_Some_2 (rqs s) q) as [r Hr]; [lia|].
  unfold RR_pick_next. rewrite (get_rq_ok _ _ _ Hr). cbn [res_bind].
  destruct (run_list r) as [|p l] eqn:E; cbn [hd_error].
  - unfold next_rq. destruct (decide (S q < length (rqs s))%nat) as [Hlt|Hge].
    + rewrite ?decide_False by lia. eapply returns_mono; [apply (IH (S q)); lia|].
      intros [p|]; cbn.
      * intros (k & rk & Hk & Hrk & Hhd & Hj). exists k, rk. split_and!; auto; [lia|].
        intros j rj Hjk Hrj. destruct (decide (j = q)) as [->|]; [congruence|]. apply (Hj j rj); [lia|done].
      * intros Hj j rj Hjq Hrj. destruct (decide (j = q)) as [->|]; [congruence|]. apply (Hj j rj); [lia|done].
    + rewrite ?decide_True by done. apply returns_ok. intros j rj Hj Hrj.
      apply lookup_lt_Some in Hrj as Hlen. assert (j = q) as -> by lia. congruence.
  - apply returns_ok. exists q, r. split_and!; auto; [by rewrite E|]. intros; lia.
Qed.

#[export] Program Instance MLFQ_class_ok : SchedClassOk MLFQ_sched_class := {| sc_inv := MLFQ_inv |}.
Next Obligation.
  intros s s' Hr Hv (W & Hl). split; [by eapply rq_wf_frame | by rewrite Hr].
Qed.
Next Obligation.
  intros s p x (W & Hl) Hx Hn. cbn. unfold MLFQ_enqueue. rewrite Hn. cbn [negb assert res_bind].
  unfold get_proc. rewrite (fetch_ok _ _ _ Hx). cbn [res_bind].
  match goal with |- context [RR_enqueue ?q _ _] => set (nq := q) end.
  assert (Hnq : (nq < length (rqs s))%nat).
  { unfold nq. destruct (rq x) as [q0|] eqn:E; [|done]. destruct (time_slice x =? 0); [|done].
    case_decide; [by eapply (wf_proc _ W p x Hx)|by apply next_rq_lt]. }
  destruct (lookup_lt_is_Some_2 _ _ Hnq) as [r Hr].
  destruct (RR_enqueue_ok s p x nq r W Hx Hn Hr) as (Hrun & W' & Hst & Hin).
  eexists; split; [exact Hrun|]. split; [split; [done|]|done]. cbn. by rewrite length_insert.
Qed.
Next Obligation.
  intros s p (W & Hl) Hp. destruct (queued_proc s p W Hp) as (q & r & x & Hq & Hpr & Hx & Hrq).
  cbn. unfold MLFQ_dequeue. rewrite Hp. cbn [assert res_bind]. unfold get_proc.
  rewrite (fetch_ok _ _ _ Hx). cbn [res_bind]. rewrite Hrq.
  destruct (RR_dequeue_ok s p x q r W Hx Hrq Hq Hpr) as (Hrun & W' & Hst & Hin).
  eexists; split; [exact Hrun|]. split; [split; [done|]|done]. cbn. by rewrite length_insert.
Qed.
Next Obligation.
  intros s (W & Hl). cbn. unfold MLFQ_pick_next.
  eapply returns_mono; [apply (MLFQ_pick_loop_ok s (length (rqs s)) 0); lia|]. intros [p|]; cbn.
  - intros (k & rk & _ & Hk & Hhd & _). apply on_rq_spec. exists k, rk. split; [done|].
    destruct (run_list rk); [done|]. injection Hhd as ->. left.
  - intros H y. apply on_rq_false. intros q r Hq. rewrite (H q r) by (done || lia). apply not_elem_of_nil.
Qed.
Next Obligation.
  intros s p x (W & Hl) Hx Hn. cbn. unfold MLFQ_proc_tick, get_proc. rewrite (fetch_ok _ _ _ Hx). cbn [res_bind].
  assert (forall q, returns (RR_proc_tick q p s) (fun s' => MLFQ_inv s' /\ rqs s' = rqs s /\
      exists t b, s' = set_procs (<[p := set_need_resched b (set_time_slice t x)]> (procs s)) s /\
        (t = 0 -> b = true) /\ 0 <= t <= time_slice x)) as H.
  { intros q. eapply returns_mono; [by apply (RR_proc_tick_ok s p x q)|].
    intros s' (W' & Hr & Hs). split_and!; [|done|done]. split; [done|by rewrite Hr]. }
  destruct (rq x); apply H.
Qed.

(** ** The core scheduler, against the interface *)

Section CoreProofs.
Context (C : sched_class) `{OK : !SchedClassOk C}.

(** Queued processes are runnable and not idle threads of a processor; the
    running process and the idle process are never queued. *)
Record sched_inv (s : kstate) : Prop := {
  si_class : sc_inv s;
  si_idle : is_Some (procs s !! idleproc s) /\ on_rq (idleproc s) s = false;
  si_cur : is_Some (procs s !! current s) /\ on_rq (current s) s = false;
  si_run : forall p, on_rq p s = true ->
    exists x, procs s !! p = Some x /\ state x = PROC_RUNNABLE /\ lcpu_count s <= pid x
}.

(** Changing fields of a process that the class does not read. *)
Lemma sched_inv_upd s p x x' :
  sched_inv s -> procs s !! p = Some x -> sched_view x' = sched_view x -> pid x' = pid x ->
  (on_rq p s = true -> state x' = PROC_RUNNABLE) ->
  sched_inv (set_procs (<[p := x']> (procs s)) s).
Proof.
  intros [IC II IR IQ] Hx Hv Hp Hs. split; cbn [procs idleproc current lcpu_count set_procs].
  - apply (sc_inv_frame s); [done| |exact IC]. intros y. cbn. destruct (decide (y = p)) as [->|].
    + rewrite lookup_insert_eq, Hx. cbn. by rewrite Hv.
    + by rewrite lookup_insert_ne.
  - destruct II as [II ?]; split; [|done]. apply lookup_insert_is_Some'. auto.
  - destruct IR as [IR ?]; split; [|done]. apply lookup_insert_is_Some'. auto.
  - intros y Hy. destruct (IQ y Hy) as (xy & Hxy & Hr & Hl). destruct (decide (y = p)) as [->|].
    + rewrite lookup_insert_eq. exists x'. assert (xy = x) as -> by congruence.
      split_and!; [done|by apply Hs|by rewrite Hp].
    + rewrite lookup_insert_ne by done. eauto.
Qed.

(** [s'] differs from [s] in the run queues and the entry of [p] only. *)
Definition only_proc (p : Z) (s s' : kstate) : Prop :=
  s' = set_procs (procs s') (set_rqs (rqs s') s) /\
  forall y, y <> p -> procs s' !! y = procs s !! y.

Lemma only_proc_trans p s1 s2 s3 : only_proc p s1 s2 -> only_proc p s2 s3 -> only_proc p s1 s3.
Proof.
  intros [E1 H1] [E2 H2]; split; [|intros y Hy; by rewrite H2, H1].
  rewrite E2, E1. done.
Qed.

Lemma sched_step_only p s s' : sched_step p s s' -> only_proc p s s'.
Proof. intros (? & ? & _); by split. Qed.

Lemma only_proc_set p x s : only_proc p s (set_procs (<[p := x]> (procs s)) s).
Proof. split; [by destruct s|]. intros y Hy; cbn. by rewrite lookup_insert_ne. Qed.

(** Fields outside the queues and the process table. *)
Lemma only_proc_fields p s s' : only_proc p s s' ->
  current s' = current s /\ idleproc s' = idleproc s /\ lcpu_count s' = lcpu_count s /\
  timers s' = timers s /\ timer_list s' = timer_list s /\ waits s' = waits s /\
  wqs s' = wqs s /\ sems s' = sems s /\ ticks s' = ticks s /\ thread_group s' = thread_group s.
Proof. intros [-> _]; by split_and!. Qed.

(** Queueing a runnable process that is neither running nor idle. *)
Lemma sched_enqueue_ok s p x :
  sc_inv s -> procs s !! p = Some x -> on_rq p s = false ->
  returns (sched_class_enqueue C p s) (fun s' =>
    sc_inv s' /\ only_proc p s s' /\
    (exists q t, procs s' !! p = Some (set_time_slice t (set_rq q x))) /\
    (forall y, on_rq y s' = true <-> on_rq y s = true \/ (y = p /\ p <> idleproc s))).
Proof.
  intros I Hx Hn. unfold sched_class_enqueue. case_decide as Hi.
  - apply returns_ok. split_and!; auto; [by split; [destruct s|]| |].
    + exists (rq x), (time_slice x). rewrite Hx. by destruct x.
    + intros y. naive_solver.
  - eapply returns_mono; [by eapply sc_enqueue_ok|]. intros s' (I' & Hst & Hin).
    split_and!; auto; [by apply sched_step_only|by destruct Hst as (_ & _ & H); apply H|].
    intros y. rewrite Hin. naive_solver.
Qed.

(** The two stores of [wakeup_proc] and friends. *)
Lemma mark_runnable_ok {B} p x s (k : kstate -> res B) :
  procs s !! p = Some x ->
  (let* s := upd_proc p (set_state PROC_RUNNABLE) s in
   let* s := upd_proc p (set_wait_state 0) s in k s) =
  k (set_procs (<[p := set_wait_state 0 (set_state PROC_RUNNABLE x)]> (procs s)) s).
Proof.
  intros Hx. rewrite (upd_proc_ok _ _ _ _ Hx). cbn [res_bind].
  erewrite upd_proc_ok by (cbn; by rewrite lookup_insert_eq). cbn. by rewrite insert_insert_eq.
Qed.

(** Making a process runnable: the part [wakeup_proc] and [try_to_wakeup]
    share. *)
Definition woken (p : Z) (x : proc_struct) (s s' : kstate) : Prop :=
  sched_inv s' /\ only_proc p s s' /\
  (exists q t, procs s' !! p =
     Some (set_time_slice t (set_rq q (set_wait_state 0 (set_state PROC_RUNNABLE x))))) /\
  (forall y, on_rq y s' = true <->
     on_rq y s = true \/ (y = p /\ p <> current s /\ p <> idleproc s)).

Lemma not_runnable_off s p x :
  sched_inv s -> procs s !! p = Some x -> state x <> PROC_RUNNABLE -> on_rq p s = false.
Proof.
  intros I Hx Hr. destruct (on_rq p s) eqn:E; [|done].
  destruct (si_run _ I p E) as (x0 & ? & ? & _). congruence.
Qed.

Lemma activate_ok s p x :
  sched_inv s -> procs s !! p = Some x -> state x <> PROC_RUNNABLE ->
  (p <> current s -> lcpu_count s <= pid x) ->
  let s1 := set_procs (<[p := set_wait_state 0 (set_state PROC_RUNNABLE x)]> (procs s)) s in
  returns (if decide (p <> current s1) then sched_class_enqueue C p s1 else Ok s1) (woken p x s).
Proof.
  intros I Hx Hr Hpid s1. pose proof (not_runnable_off _ _ _ I Hx Hr) as Hn.
  set (x1 := set_wait_state 0 (set_state PROC_RUNNABLE x)) in *.
  assert (I1 : sched_inv s1) by (eapply sched_inv_upd; eauto; done).
  assert (Hx1 : procs s1 !! p = Some x1) by by apply lookup_insert_eq.
  case_decide as Hc.
  - eapply returns_mono; [by apply (sched_enqueue_ok s1 p x1); auto; apply I1|].
    intros s2 (C2 & O2 & (q & t & P2) & Q2).
    pose proof (only_proc_fields _ _ _ O2) as (Fc & Fi & Fl & _).
    split_and!; [split|by eapply only_proc_trans; [apply only_proc_set|]|by exists q, t|].
    + done.
    + rewrite Fi. split.
      * destruct (decide (idleproc s1 = p)) as [->|Hne]; [rewrite P2; eauto|].
        destruct O2 as [_ O2]. rewrite O2 by done. apply I1.
      * apply not_true_is_false. rewrite Q2. intros [H|[-> H]]; [|done].
        destruct (si_idle _ I1) as [_ H']. congruence.
    + rewrite Fc. split.
      * destruct (decide (current s1 = p)) as [->|Hne]; [rewrite P2; eauto|].
        destruct O2 as [_ O2]. rewrite O2 by done. apply I1.
      * apply not_true_is_false. rewrite Q2. intros [H|[H _]]; [|done].
        destruct (si_cur _ I1) as [_ H']. congruence.
    + intros y Hy. rewrite Fl. destruct (decide (y = p)) as [->|Hne].
      * rewrite P2. eexists; split; [done|]. cbn. split; [done|]. by apply Hpid.
      * destruct O2 as [_ O2]. rewrite O2 by done. apply I1. apply Q2 in Hy as [?|[? _]]; done.
    + intros y. rewrite Q2. change (on_rq y s1) with (on_rq y s). cbn. cbn in Hc. naive_solver.
  - apply returns_ok. split_and!; auto; [apply only_proc_set| |].
    + exists (rq x1), (time_slice x1). rewrite Hx1. by destruct x.
    + intros y. change (on_rq y s1) with (on_rq y s). cbn in Hc. naive_solver.
Qed.

(** Waking a process that is not runnable. *)
Lemma wakeup_proc_ok s p x :
  sched_inv s -> procs s !! p = Some x -> state x <> PROC_ZOMBIE -> state x <> PROC_RUNNABLE ->
  (p <> current s -> lcpu_count s <= pid x) ->
  returns (wakeup_proc C p s) (woken p x s).
Proof.
  intros I Hx Hz Hr Hpid. unfold wakeup_proc, get_proc. rewrite (fetch_ok _ _ _ Hx). cbn [res_bind].
  apply returns_assert; [by apply bool_decide_true|]. rewrite decide_True by done.
  rewrite (mark_runnable_ok _ _ _ _ Hx). pose proof (activate_ok s p x I Hx Hr Hpid) as H. cbv zeta in H.
  case_decide as Hc; [|done]. apply returns_assert; [cbn; by apply Z.leb_le, Hpid|done].
Qed.

(** A process already runnable is left alone. *)
Lemma wakeup_proc_runnable s p x :
  procs s !! p = Some x -> state x = PROC_RUNNABLE -> wakeup_proc C p s = Ok s.
Proof.
  intros Hx Hr. unfold wakeup_proc, get_proc. rewrite (fetch_ok _ _ _ Hx). cbn [res_bind].
  rewrite Hr. rewrite bool_decide_true by done. cbn [assert res_bind]. by rewrite decide_False by tauto.
Qed.

(** Between the requeueing of the running process and the dispatch. *)
Record sched_mid (s : kstate) : Prop := {
  sm_class : sc_inv s;
  sm_idle : is_Some (procs s !! idleproc s) /\ on_rq (idleproc s) s = false;
  sm_run : forall p, on_rq p s = true ->
    exists x, procs s !! p = Some x /\ state x = PROC_RUNNABLE /\ lcpu_count s <= pid x
}.

(** The processes that may run: the queued ones and the running one, unless
    it is idle or no longer runnable. *)
Definition may_run (s : kstate) (y : Z) : Prop :=
  on_rq y s = true \/
  (y = current s /\ y <> idleproc s /\
   exists x, procs s !! y = Some x /\ state x = PROC_RUNNABLE /\ lcpu_count s <= pid x).

Lemma requeue_ok s c :
  sched_inv s -> procs s !! current s = Some c ->
  returns (if decide (state c = PROC_RUNNABLE /\ lcpu_count s <= pid c)
           then sched_class_enqueue C (current s) s else Ok s) (fun s' =>
    sched_mid s' /\ only_proc (current s) s s' /\
    (exists q t, procs s' !! current s = Some (set_time_slice t (set_rq q c))) /\
    forall y, on_rq y s' = true <-> may_run s y).
Proof.
  intros I Hc. case_decide as Hd.
  - eapply returns_mono; [by apply (sched_enqueue_ok s (current s) c); auto; apply I|].
    intros s' (C' & O' & (q & t & P') & Q').
    pose proof (only_proc_fields _ _ _ O') as (Fc & Fi & Fl & _). destruct O' as [E' O'].
    split_and!; [split| |by exists q, t|].
    + done.
    + rewrite Fi. split.
      * destruct (decide (idleproc s = current s)) as [->|Hne]; [rewrite P'; eauto|].
        rewrite O' by done. apply I.
      * apply not_true_is_false. rewrite Q'. intros [H|[? ?]]; [|done].
        destruct (si_idle _ I) as [_ H']. congruence.
    + intros y Hy. rewrite Fl. destruct (decide (y = current s)) as [->|Hne].
      * rewrite P'. eexists; split; [done|]. cbn. done.
      * rewrite O' by done. apply I. apply Q' in Hy as [?|[? _]]; done.
    + by split.
    + intros y. rewrite Q'. unfold may_run. naive_solver.
  - apply returns_ok. split_and!; [split; apply I|by split; [destruct s|]| |].
    + exists (rq c), (time_slice c). rewrite Hc. by destruct c.
    + intros y. unfold may_run. split; [auto|]. intros [?|(-> & _ & x & Hx & ?)]; [done|].
      assert (x = c) as -> by congruence. done.
Qed.

Lemma switch_eq p s : (if decide (p <> current s) then proc_run p s else s) = set_current p s.
Proof.
  unfold proc_run. destruct (decide (p <> current s)) as [Hne|He]; [by rewrite decide_False|].
  apply dec_stable in He. rewrite He. by destruct s.
Qed.

(** Dispatching [next], which is off the queues. *)
Lemma dispatch_ok s next x n i :
  sched_mid s -> procs s !! next = Some x -> on_rq next s = false ->
  returns (Ok (let s1 := set_info i (set_procs (<[next := set_runs n x]> (procs s)) s) in
               if decide (next <> current s1) then proc_run next s1 else s1)) (fun s' =>
  sched_inv s' /\ current s' = next /\ rqs s' = rqs s /\
  procs s' = <[next := set_runs n x]> (procs s) /\
  idleproc s' = idleproc s /\ lcpu_count s' = lcpu_count s).
Proof.
  intros [IC II IQ] Hx Hn. apply returns_ok. set (s1 := set_info _ _). cbv zeta.
  rewrite switch_eq. split_and!; try done. split; cbn [procs idleproc current lcpu_count set_current s1 set_info set_procs].
  - apply (sc_inv_frame s); [done| |done]. intros y. cbn. destruct (decide (y = next)) as [->|].
    + rewrite lookup_insert_eq, Hx. done.
    + by rewrite lookup_insert_ne.
  - destruct II as [II Hi]; split; [|done]. apply lookup_insert_is_Some'; auto.
  - split; [|done]. rewrite lookup_insert_eq. eauto.
  - intros y Hy. destruct (IQ y Hy) as (xy & Hxy & ? & ?).
    assert (y <> next) by (intros ->; unfold on_rq in *; cbn in Hy; congruence).
    rewrite lookup_insert_ne by done. eauto.
Qed.

Lemma schedule_ok s :
  sched_inv s ->
  returns (schedule C s) (fun s' =>
    sched_inv s' /\
    (forall y, y <> idleproc s -> (on_rq y s' = true \/ y = current s' <-> may_run s y)) /\
    (current s' = idleproc s <-> forall y, ~ may_run s y) /\
    (exists x x', procs s !! current s' = Some x /\ procs s' !! current s' = Some x' /\
       runs x' = runs x + 1 /\
       (current s' <> idleproc s -> state x' = PROC_RUNNABLE /\ lcpu_count s <= pid x')) /\
    idleproc s' = idleproc s /\ lcpu_count s' = lcpu_count s).
Proof.
  intros I. destruct (si_cur _ I) as [[c Hc] Hcn]. unfold schedule.
  rewrite (upd_proc_ok _ _ _ _ Hc). cbn [res_bind].
  set (c0 := set_need_resched false c). set (s0 := set_procs _ s).
  assert (I0 : sched_inv s0) by (eapply sched_inv_upd; eauto; congruence).
  assert (Hc0 : procs s0 !! current s0 = Some c0) by by apply lookup_insert_eq.
  unfold get_proc. rewrite (fetch_ok _ _ _ Hc0). cbn [res_bind].
  eapply returns_bind; [by apply (requeue_ok s0 c0)|]. intros s1 (M1 & O1 & (q & t & P1) & Q1).
  change (current s0) with (current s) in P1, O1.
  pose proof (only_proc_fields _ _ _ O1) as (Fc & Fi & Fl & _).
  assert (HM : forall y, may_run s0 y <-> may_run s y).
  { intros y. unfold may_run. change (on_rq y s0) with (on_rq y s). cbn [current idleproc lcpu_count s0 set_procs procs].
    split; (intros [?|(-> & ? & x & Hx & ? & ?)]; [by left|right]; split_and!; auto).
    - rewrite lookup_insert_eq in Hx. injection Hx as <-. eauto.
    - rewrite lookup_insert_eq. assert (x = c) as -> by congruence. eauto. }
  assert (Hruns : forall y x1, procs s1 !! y = Some x1 -> exists x, procs s !! y = Some x /\ runs x = runs x1).
  { intros y x1 Hy. destruct (decide (y = current s)) as [->|Hne].
    - rewrite P1 in Hy. injection Hy as <-. exists c. split; [done|]. done.
    - destruct O1 as [_ O1]. rewrite O1 in Hy by done. cbn in Hy.
      rewrite lookup_insert_ne in Hy by done. eauto. }
  eapply returns_bind; [apply sc_pick_ok, M1|]. intros [p|] Hpick.
  - eapply returns_bind; [by apply sc_dequeue_ok; [apply M1|]|]. intros s2 (C2 & S2 & Q2).
    pose proof (only_proc_fields _ _ _ (sched_step_only _ _ _ S2)) as (Gc & Gi & Gl & _).
    destruct S2 as (E2 & O2 & P2). destruct (sm_run _ M1 p Hpick) as (xp & Hxp & Hst & Hpd).
    destruct (P2 xp Hxp) as (q2 & t2 & Hx2). cbn [default from_option id].
    rewrite (fetch_ok _ _ _ Hx2). cbn [res_bind]. rewrite (upd_proc_ok _ _ _ _ Hx2). cbn [res_bind].
    assert (M2 : sched_mid s2).
    { split; [done| |].
      - rewrite Gi. assert (idleproc s1 <> p) as Hip.
        { intros <-. destruct (sm_idle _ M1) as [_ H]. congruence. }
        rewrite O2 by done. split; [apply M1|]. apply not_true_is_false. rewrite Q2. intros [H _].
        destruct (sm_idle _ M1) as [_ H']. congruence.
      - intros y [Hy Hne]%Q2. rewrite O2, Gl by done. by apply M1. }
    assert (Hpn : on_rq p s2 = false) by (apply not_true_is_false; rewrite Q2; tauto).
    eapply returns_mono; [by apply (dispatch_ok s2 p _ _ _ M2 Hx2 Hpn)|].
    intros s' (I' & Ec & Er & Ep & Ei & El). rewrite Ec. split_and!; [done| | | | |].
    + intros y Hy. unfold on_rq. rewrite Er. fold (on_rq y s2). rewrite Q2, <- HM, <- Q1.
      destruct (decide (y = p)) as [->|]; tauto.
    + split; [intros ->|intros H; exfalso; apply (H p), HM, Q1, Hpick].
      destruct (sm_idle _ M1) as [_ H]. rewrite Fi in H. cbn in H. congruence.
    + destruct (Hruns p xp Hxp) as (x & Hx & Hr). eexists x, _. split; [done|]. rewrite Ep, lookup_insert_eq.
      split; [done|]. cbn. rewrite Hr. split; [done|]. intros _; split; [done|]. by rewrite Fl in Hpd.
    + rewrite Ei, Gi. done.
    + rewrite El, Gl. done.
  - cbn [default from_option id res_bind]. rewrite Fi. cbn [idleproc s0 set_procs].
    destruct (sm_idle _ M1) as [[xi Hxi] Hin]. rewrite Fi in Hxi, Hin. cbn in Hxi, Hin.
    rewrite (fetch_ok _ _ _ Hxi). cbn [res_bind]. rewrite (upd_proc_ok _ _ _ _ Hxi). cbn [res_bind].
    eapply returns_mono; [by apply (dispatch_ok s1 (idleproc s) _ _ _ M1 Hxi Hin)|].
    intros s' (I' & Ec & Er & Ep & Ei & El). rewrite Ec. split_and!; [done| | | | |].
    + intros y Hy. unfold on_rq. rewrite Er. fold (on_rq y s1). rewrite <- HM, <- Q1, Hpick. naive_solver.
    + split; [|done]. intros _ y Hy. apply HM, Q1 in Hy. by rewrite Hpick in Hy.
    + destruct (Hruns _ xi Hxi) as (x & Hx & Hr). eexists x, _. split; [done|]. rewrite Ep, lookup_insert_eq.
      split; [done|]. cbn. rewrite Hr. by split.
    + by rewrite Ei, Fi.
    + by rewrite El, Fl.
Qed.

(** Putting a process to sleep takes it off its run queue. *)
Lemma stop_proc_ok s p x w :
  sched_inv s -> procs s !! p = Some x ->
  returns (stop_proc C p w s) (fun s' =>
    sched_inv s' /\ only_proc p s s' /\
    (exists q t, procs s' !! p = Some (set_time_slice t (set_rq q (set_wait_state w (set_state PROC_SLEEPING x))))) /\
    (forall y, on_rq y s' = true <-> on_rq y s = true /\ y <> p)).
Proof.
  intros I Hx. unfold stop_proc. rewrite (upd_proc_ok _ _ _ _ Hx). cbn [res_bind].
  erewrite upd_proc_ok by (cbn; by rewrite lookup_insert_eq). cbn [res_bind procs set_procs].
  rewrite insert_insert_eq. set (x1 := set_wait_state w (set_state PROC_SLEEPING x)).
  change (set_procs ?a (set_procs ?b s)) with (set_procs a s).
  set (s1 := set_procs _ _). change (on_rq p s1) with (on_rq p s).
  assert (Hx1 : procs s1 !! p = Some x1) by by apply lookup_insert_eq.
  destruct (on_rq p s) eqn:Hq.
  - assert (C1 : sc_inv s1).
    { apply (sc_inv_frame s); [done| |apply I]. intros y. cbn. destruct (decide (y = p)) as [->|].
      - by rewrite lookup_insert_eq, Hx.
      - by rewrite lookup_insert_ne. }
    eapply returns_mono; [by apply (sc_dequeue_ok s1 p)|]. intros s2 (C2 & S2 & Q2).
    pose proof (sched_step_only _ _ _ S2) as O2.
    pose proof (only_proc_fields _ _ _ O2) as (Fc & Fi & Fl & _). destruct S2 as (_ & Hoth & HP).
    destruct (HP x1 Hx1) as (q & t & P2).
    assert (Hne : current s <> p /\ idleproc s <> p).
    { destruct (si_cur _ I) as [_ H1], (si_idle _ I) as [_ H2]. split; congruence. }
    split_and!; [split|by eapply only_proc_trans; [apply only_proc_set|]|by exists q, t|].
    + done.
    + rewrite Fi. cbn. rewrite Hoth by tauto. cbn. rewrite lookup_insert_ne by (symmetry; tauto).
      split; [apply I|]. apply not_true_is_false. rewrite Q2. intros [H _].
      destruct (si_idle _ I) as [_ H']. unfold on_rq in *; cbn in H. congruence.
    + rewrite Fc. cbn. rewrite Hoth by tauto. cbn. rewrite lookup_insert_ne by (symmetry; tauto).
      split; [apply I|]. apply not_true_is_false. rewrite Q2. intros [H _].
      destruct (si_cur _ I) as [_ H']. unfold on_rq in *; cbn in H. congruence.
    + intros y [Hy Hyp]%Q2. rewrite Fl, Hoth by done. cbn. rewrite lookup_insert_ne by done. by apply I.
    + intros y. by rewrite Q2.
  - apply returns_ok. split_and!; [|apply only_proc_set| |].
    + eapply sched_inv_upd; eauto; congruence.
    + exists (rq x1), (time_slice x1). rewrite Hx1. by destruct x.
    + intros y. change (on_rq y s1) with (on_rq y s). split; [|tauto]. intros H; split; [done|congruence].
Qed.

(** Every user thread of the group: an entry and a non-idle pid. *)
Definition user_procs (l : list Z) (s : kstate) : Prop :=
  forall t, t ∈ l -> exists x, procs s !! t = Some x /\ lcpu_count s <= pid x.

Lemma woken_user p x s s' l : woken p x s s' -> procs s !! p = Some x -> user_procs l s -> user_procs l s'.
Proof.
  intros (_ & O & (q & t & P) & _) Hx U y Hy. pose proof (only_proc_fields _ _ _ O) as (_ & _ & -> & _).
  destruct (U y Hy) as (xy & Hxy & Hpid). destruct (decide (y = p)) as [->|Hne].
  - rewrite P. eexists; split; [done|]. cbn. by assert (xy = x) as <- by congruence.
  - destruct O as [_ O]. rewrite O by done. eauto.
Qed.

(** No process sleeps on a signal in [l]. *)
Definition no_signal_sleeper (l : list Z) (s : kstate) : Prop :=
  forall t x, t ∈ l -> procs s !! t = Some x -> ~ (state x = PROC_SLEEPING /\ wait_state x = WT_SIGNAL).

Lemma woken_no_sleeper p x s s' l :
  woken p x s s' -> no_signal_sleeper l s -> no_signal_sleeper (p :: l) s'.
Proof.
  intros (_ & [_ O] & (q & t & P) & _) U y xy [->|Hy]%elem_of_cons Hxy.
  - rewrite P in Hxy. injection Hxy as <-. cbn. intros [? _]; done.
  - destruct (decide (y = p)) as [->|Hne].
    + rewrite P in Hxy. injection Hxy as <-. cbn. intros [? _]; done.
    + rewrite O in Hxy by done. by eapply U.
Qed.

Lemma wakeup_threads_ok ts : forall s,
  sched_inv s -> user_procs ts s ->
  returns (wakeup_threads C ts s) (fun s' =>
    sched_inv s' /\ no_signal_sleeper ts s' /\ current s' = current s /\
    forall l, no_signal_sleeper l s -> no_signal_sleeper l s').
Proof.
  induction ts as [|t ts IH]; intros s I U; cbn [wakeup_threads].
  - apply returns_ok. split_and!; auto. intros t x Ht. by apply not_elem_of_nil in Ht.
  - destruct (U t) as (x & Hx & Hpid); [left|]. unfold get_proc. rewrite (fetch_ok _ _ _ Hx). cbn [res_bind].
    case_decide as Hd.
    + destruct Hd as [Hs Hw]. rewrite (mark_runnable_ok _ _ _ _ Hx).
      eapply returns_bind; [apply (activate_ok s t x); auto; congruence|]. intros s1 W.
      assert (U1 : user_procs ts s1) by (eapply woken_user; eauto; intros y Hy; apply U; by right).
      eapply returns_mono; [apply IH; [apply W|done]|]. intros s2 (I2 & N2 & C2 & K2).
      destruct W as (W1 & W2 & W). pose proof (only_proc_fields _ _ _ W2) as (Fc & _).
      assert (Wk : woken t x s s1) by by split.
      split_and!; [done| |by rewrite C2|].
      * intros y xy [->|Hy]%elem_of_cons Hxy; [|by eapply N2].
        eapply (K2 [t]); [|left|done]. eapply woken_no_sleeper; [done|].
        intros ? ? H. by apply not_elem_of_nil in H.
      * intros l Hl. apply K2. intros y xy Hy. eapply woken_no_sleeper; [done|exact Hl|by right].
    + cbn [res_bind]. eapply returns_mono; [apply IH; [done|intros y Hy; apply U; by right]|].
      intros s2 (I2 & N2 & C2 & K2). split_and!; auto.
      intros y xy [->|Hy]%elem_of_cons Hxy; [|by eapply N2]. eapply (K2 [t]); [|left|done].
      intros z xz Hz%list_elem_of_singleton Hxz. subst z. by assert (xz = x) as -> by congruence.
Qed.

Lemma try_to_wakeup_ok s p x :
  sched_inv s -> procs s !! p = Some x -> state x <> PROC_ZOMBIE ->
  user_procs (p :: thread_group s p) s ->
  returns (try_to_wakeup C p s) (fun '(ret, s') =>
    sched_inv s' /\ no_signal_sleeper (thread_group s p) s' /\
    ret = (if decide (state x = PROC_RUNNABLE) then 0 else 1) /\
    (state x <> PROC_RUNNABLE -> no_signal_sleeper [p] s')).
Proof.
  intros I Hx Hz U. unfold try_to_wakeup, get_proc. rewrite (fetch_ok _ _ _ Hx). cbn [res_bind].
  apply returns_assert; [by apply bool_decide_true|].
  assert (Hpid : lcpu_count s <= pid x).
  { destruct (U p) as (x' & ? & ?); [left|]. by assert (x' = x) as <- by congruence. }
  destruct (decide (state x <> PROC_RUNNABLE)) as [Hr|Hr].
  - rewrite (mark_runnable_ok _ _ _ _ Hx), !bind_assoc.
    eapply returns_bind; [by apply (activate_ok s p x)|]. intros s1 W. cbn [res_bind].
    assert (U1 : user_procs (thread_group s p) s1).
    { eapply woken_user; eauto. intros y Hy; apply U; by right. }
    pose proof W as (_ & O & _). pose proof (only_proc_fields _ _ _ O) as Hf.
    assert (thread_group s1 = thread_group s) as -> by apply Hf.
    eapply returns_bind; [by apply wakeup_threads_ok; [apply W|]|]. intros s2 (I2 & N2 & _ & K2).
    apply returns_ok. split_and!; auto; [by rewrite decide_False|]. intros _. apply K2. eapply woken_no_sleeper; [done|].
    intros ? ? H. by apply not_elem_of_nil in H.
  - cbn [res_bind]. apply dec_stable in Hr.
    eapply returns_bind; [apply wakeup_threads_ok; [done|intros y Hy; apply U; by right]|].
    intros s2 (I2 & N2 & _ & K2). apply returns_ok. split_and!; auto; [by rewrite decide_True|done].
Qed.
End CoreProofs.

(** ** Round robin keeps the order of its queue *)

Lemma filter_head_NoDup (p : Z) l : NoDup (p :: l) -> filter (fun y => y <> p) (p :: l) = l.
Proof.
  intros [Hn _]%NoDup_cons. rewrite filter_cons_False by tauto. by apply filter_ne_id.
Qed.

Lemma RR_schedule_queue s r c :
  sched_inv RR_sched_class s -> rqs s !! 0%nat = Some r -> procs s !! current s = Some c ->
  state c = PROC_RUNNABLE -> lcpu_count s <= pid c -> current s <> idleproc s ->
  returns (schedule RR_sched_class s) (fun s' =>
    exists r', rqs s' !! 0%nat = Some r' /\ current s' :: run_list r' = run_list r ++ [current s]).
Proof.
  intros I Hr Hc Hst Hpid Hid. destruct (si_cur _ _ I) as [_ Hcn]. unfold schedule.
  rewrite (upd_proc_ok _ _ _ _ Hc). cbn [res_bind]. set (c0 := set_need_resched false c). set (s0 := set_procs _ s).
  assert (I0 : sched_inv RR_sched_class s0) by (eapply sched_inv_upd; eauto; congruence).
  assert (Hc0 : procs s0 !! current s = Some c0) by by apply lookup_insert_eq.
  unfold get_proc. change (current s0) with (current s).
  rewrite (fetch_ok _ _ _ Hc0). cbn [res_bind]. rewrite decide_True by done.
  unfold sched_class_enqueue. rewrite decide_False by done. cbn [sc_enqueue RR_sched_class].
  pose proof (si_class _ _ I0) as (W0 & _).
  destruct (RR_enqueue_ok s0 (current s) c0 0 r W0 Hc0 Hcn Hr) as (-> & W1 & _). cbn [res_bind].
  set (r1 := mk_rq (run_list r ++ [current s]) _ _) in *. set (s1 := set_procs _ (set_rqs _ s0)) in *.
  assert (Hr1 : rqs s1 !! 0%nat = Some r1).
  { cbn. apply list_lookup_insert_eq. by eapply lookup_lt_Some. }
  unfold sched_class_pick_next; cbn [sc_pick_next RR_sched_class]. unfold RR_pick_next.
  rewrite (get_rq_ok _ _ _ Hr1). cbn [res_bind].
  destruct (run_list r1) as [|p l] eqn:El; [cbn in El; by destruct (run_list r)|].
  cbn [hd_error]. unfold sched_class_dequeue; cbn [sc_dequeue RR_sched_class].
  destruct (wf_link _ W1 0%nat r1 p Hr1) as (xp & Hxp & Hrq & _); [rewrite El; left|].
  destruct (RR_dequeue_ok s1 p xp 0 r1 W1 Hxp Hrq Hr1) as (-> & _); [rewrite El; left|].
  cbn [res_bind default from_option id].
  change (procs (set_rqs ?a s1)) with (procs s1). rewrite (fetch_ok _ _ _ Hxp). cbn [res_bind].
  erewrite upd_proc_ok by exact Hxp. cbn [res_bind]. eexists; split; [done|].
  eexists (mk_rq l _ _). pose proof (wf_nodup _ W1 _ _ Hr1) as Hnd. rewrite El in Hnd.
  unfold r1 in El; cbn [run_list] in El. rewrite El.
  rewrite switch_eq. cbn [rqs current set_current set_info set_procs set_rqs run_list]. split; [|done].
  rewrite list_lookup_insert_eq by (cbn; rewrite length_insert; by eapply lookup_lt_Some).
  unfold r1; cbn [run_list]. by rewrite El, filter_head_NoDup.
Qed.

(** [n] consecutive calls of [schedule] (each process yields at once). *)
Fixpoint schedules (C : sched_class) (n : nat) (s : kstate) : res kstate :=
  match n with
  | O => Ok s
  | S n => let* s := schedule C s in schedules C n s
  end.

(** Waking a process in any live state, for the callers outside the
    scheduler. *)
Definition alive (s : kstate) (p : Z) : Prop :=
  exists x, procs s !! p = Some x /\ state x <> PROC_ZOMBIE /\ lcpu_count s <= pid x.

Definition wakes (p : Z) (s s' : kstate) : Prop :=
  only_proc p s s' /\
  exists x x', procs s !! p = Some x /\ procs s' !! p = Some x' /\ state x' = PROC_RUNNABLE /\
    pid x' = pid x /\ event x' = event x /\ event_queue x' = event_queue x /\
    (wait_state x' = 0 \/ wait_state x' = wait_state x).

Lemma wakeup_alive (C : sched_class) (OK : SchedClassOk C) s p :
  sched_inv C s -> alive s p -> returns (wakeup_proc C p s) (fun s' => sched_inv C s' /\ wakes p s s').
Proof.
  intros I (x & Hx & Hz & Hp). destruct (decide (state x = PROC_RUNNABLE)) as [Hr|Hr].
  - rewrite (wakeup_proc_runnable _ _ _ _ Hx Hr). apply returns_ok. split_and!; [done|].
    split; [by split; [destruct s|]|]. exists x, x. split_and!; auto.
  - eapply returns_mono; [by apply (wakeup_proc_ok C s p x)|].
    intros s' (I' & O & (q & t & P) & _). split_and!; [done|]. split; [done|].
    eexists x, _. split_and!; [done|exact P|done..|by left].
Qed.

Lemma wakes_alive p s s' r : wakes p s s' -> alive s r -> alive s' r.
Proof.
  intros [O (x & x' & Hx & Hx' & Hr & Hpid & _)] (y & Hy & Hz & Hp). unfold alive.
  pose proof (only_proc_fields _ _ _ O) as (_ & _ & -> & _). destruct (decide (r = p)) as [->|Hne].
  - exists x'. assert (y = x) as -> by congruence. rewrite Hr, Hpid. by split_and!.
  - destruct O as [_ O]. rewrite O by done. eauto.
Qed.

Lemma wakes_runnable p s s' r x :
  wakes p s s' -> procs s !! r = Some x -> state x = PROC_RUNNABLE ->
  exists x', procs s' !! r = Some x' /\ state x' = PROC_RUNNABLE.
Proof.
  intros [[_ O] (y & y' & _ & Hy' & Hr & _)] Hx Hs. destruct (decide (r = p)) as [->|Hne]; [eauto|].
  rewrite O by done. eauto.
Qed.

(** The invariant does not read the timers, wait queues and semaphores. *)
Lemma sched_inv_frame (C : sched_class) (OK : SchedClassOk C) s s' :
  procs s' = procs s -> rqs s' = rqs s -> current s' = current s -> idleproc s' = idleproc s ->
  lcpu_count s' = lcpu_count s -> sched_inv C s -> sched_inv C s'.
Proof.
  intros Ep Er Ec Ei El [IC II IR IQ]. unfold on_rq in *.
  split; unfold on_rq; rewrite ?Ep, ?Er, ?Ec, ?Ei, ?El; auto.
  apply (sc_inv_frame s); [done|intros; by rewrite Ep|done].
Qed.

(** *** What the scheduler never touches *)

(** The part of a process the scheduler leaves alone. *)
Definition pview (x : proc_struct) : proc_state * Z * Z * Z * Z :=
  (state x, pid x, wait_state x, event x, event_queue x).

Definition keeps (s s' : kstate) : Prop :=
  (forall p, pview <$> procs s' !! p = pview <$> procs s !! p) /\
  waits s' = waits s /\ wqs s' = wqs s /\ sems s' = sems s /\ timers s' = timers s /\
  timer_list s' = timer_list s /\ ticks s' = ticks s /\ idleproc s' = idleproc s /\
  lcpu_count s' = lcpu_count s /\ thread_group s' = thread_group s.

Lemma keeps_refl s : keeps s s.
Proof. by split_and!. Qed.

Lemma keeps_trans s1 s2 s3 : keeps s1 s2 -> keeps s2 s3 -> keeps s1 s3.
Proof.
  intros (H1 & H2 & H3 & H4 & H5 & H6 & H7 & H8 & H9 & H10)
         (G1 & G2 & G3 & G4 & G5 & G6 & G7 & G8 & G9 & G10).
  split_and!; congruence.
Qed.

Lemma keeps_only p s s' x x' :
  only_proc p s s' -> procs s !! p = Some x -> procs s' !! p = Some x' -> pview x' = pview x -> keeps s s'.
Proof.
  intros [E O] Hx Hx' Hv. split; [|by rewrite E].
  intros y. destruct (decide (y = p)) as [->|Hne]; [|by rewrite O]. rewrite Hx, Hx'. cbn. by rewrite Hv.
Qed.

Lemma keeps_upd p s x x' :
  procs s !! p = Some x -> pview x' = pview x -> keeps s (set_procs (<[p := x']> (procs s)) s).
Proof.
  intros Hx Hv. eapply keeps_only; [apply only_proc_set|exact Hx| |exact Hv]. cbn. apply lookup_insert_eq.
Qed.

Lemma schedule_keeps (C : sched_class) (OK : SchedClassOk C) s :
  sched_inv C s -> returns (schedule C s) (keeps s).
Proof.
  intros I. destruct (si_cur _ _ I) as [[c Hc] Hcn]. unfold schedule.
  rewrite (upd_proc_ok _ _ _ _ Hc). cbn [res_bind].
  set (c0 := set_need_resched false c). set (s0 := set_procs _ s).
  assert (I0 : sched_inv C s0) by (eapply sched_inv_upd; eauto; congruence).
  assert (Hc0 : procs s0 !! current s0 = Some c0) by by apply lookup_insert_eq.
  assert (K0 : keeps s s0) by (by apply (keeps_upd _ _ c)).
  unfold get_proc. rewrite (fetch_ok _ _ _ Hc0). cbn [res_bind].
  eapply returns_bind; [by apply (requeue_ok C s0 c0)|]. intros s1 (M1 & O1 & (q & t & P1) & _).
  assert (K1 : keeps s s1) by (eapply keeps_trans; [exact K0|]; by eapply (keeps_only _ _ _ c0)).
  eapply returns_bind; [apply sc_pick_ok, M1|]. intros o Hpick.
  eapply (returns_bind _ _ (fun s2 => keeps s s2 /\ is_Some (procs s2 !! default (idleproc s2) o))).
  - destruct o as [p|].
    + destruct (sm_run _ _ M1 p Hpick) as (xp & Hxp & _).
      eapply returns_mono; [by apply sc_dequeue_ok; [apply M1|]|]. intros s2 (_ & S2 & _).
      pose proof (sched_step_only _ _ _ S2) as O2. destruct S2 as (_ & _ & P2).
      destruct (P2 xp Hxp) as (q2 & t2 & Hx2). split; [|cbn; eauto].
      eapply keeps_trans; [exact K1|]. by eapply keeps_only.
    + apply returns_ok. split; [done|]. apply (proj1 (sm_idle _ _ M1)).
  - intros s2 [K2 [x Hx]]. rewrite (fetch_ok _ _ _ Hx). cbn [res_bind].
    rewrite (upd_proc_ok _ _ _ _ Hx). cbn [res_bind]. apply returns_ok. cbv zeta. rewrite switch_eq.
    eapply keeps_trans; [exact K2|]. eapply keeps_trans; [exact (keeps_upd _ _ x (set_runs (runs x + 1) x) Hx eq_refl)|]. by split_and!.
Qed.

Lemma keeps_alive s s' p : keeps s s' -> alive s p -> alive s' p.
Proof.
  intros (Hv & _ & _ & _ & _ & _ & _ & _ & El & _) (x & Hx & Hz & Hp). specialize (Hv p). rewrite Hx in Hv.
  destruct (procs s' !! p) as [x'|] eqn:E; [|done]. cbn in Hv. unfold pview in Hv.
  injection Hv as E1 E2 _ _ _. exists x'. rewrite E1, E2, El. auto.
Qed.

(** ** Properties *)


(** [wakeup_proc] on a sleeping process: the process becomes runnable with an
    empty wait state and (unless it is running or idle) is put on a run queue
    exactly once; nothing else changes.  [stop_proc] is its inverse on the
    queues: the process sleeps and is on no queue. *)
Theorem wakeup_stop_spec (C : sched_class) (OK : SchedClassOk C) s p x w :
  sched_inv C s -> procs s !! p = Some x -> state x <> PROC_ZOMBIE -> state x <> PROC_RUNNABLE ->
  (p <> current s -> lcpu_count s <= pid x) ->
  returns (wakeup_proc C p s) (fun s1 => woken C p x s s1 /\
    returns (stop_proc C p w s1) (fun s2 =>
      sched_inv C s2 /\ only_proc p s s2 /\ (forall y, on_rq y s2 = true <-> on_rq y s = true) /\
      (exists x2, procs s2 !! p = Some x2 /\ state x2 = PROC_SLEEPING /\ wait_state x2 = w))).
Proof.
  intros I Hx Hz Hr Hp. pose proof (not_runnable_off _ _ _ _ I Hx Hr) as Hoff.
  eapply returns_mono; [by apply wakeup_proc_ok|].
  intros s1 W; split; [done|]. destruct W as (I1 & O1 & (q & t & P1) & Q1).
  eapply returns_mono; [by apply (stop_proc_ok C s1 p _ w I1 P1)|].
  intros s2 (I2 & O2 & (q2 & t2 & P2) & Q2). split_and!; [done|by eapply only_proc_trans| |].
  - intros y. rewrite Q2, Q1. split; [tauto|]. intros Hy; split; [auto|congruence].
  - eexists; split; [done|]. done.
Qed.

(** [try_to_wakeup] wakes the process and, in its thread group, every thread
    that sleeps on a signal; it reports whether the process itself was not
    runnable, and keeps the scheduler invariant. *)
Theorem try_to_wakeup_spec (C : sched_class) (OK : SchedClassOk C) s p x :
  sched_inv C s -> procs s !! p = Some x -> state x <> PROC_ZOMBIE ->
  user_procs (p :: thread_group s p) s ->
  returns (try_to_wakeup C p s) (fun '(ret, s') =>
    sched_inv C s' /\ no_signal_sleeper (thread_group s p) s' /\
    ret = (if decide (state x = PROC_RUNNABLE) then 0 else 1) /\
    (state x <> PROC_RUNNABLE -> no_signal_sleeper [p] s')).
Proof. intros; by apply try_to_wakeup_ok. Qed.

(** C27: Round robin starves nobody: the process at position [n] of the queue runs
    after [n + 1] calls of [schedule] when the running process is runnable. *)
Theorem RR_no_starvation n s r c p :
  sched_inv RR_sched_class s -> rqs s !! 0%nat = Some r -> procs s !! current s = Some c ->
  state c = PROC_RUNNABLE -> lcpu_count s <= pid c -> current s <> idleproc s ->
  run_list r !! n = Some p ->
  returns (schedules RR_sched_class (S n) s) (fun s' => sched_inv RR_sched_class s' /\ current s' = p).
Proof.
  revert s r c. induction n as [|n IH]; intros s r c I Hr Hc Hst Hpid Hid Hp; cbn [schedules];
    (eapply returns_bind; [apply returns_both; [by eapply schedule_ok|by eapply RR_schedule_queue]|]);
    intros s1 ((I1 & _ & Hidle & (x & x1 & _ & Hx1 & _ & Hrun) & Ei & El) & (r1 & Hr1 & Hq)).
  - apply returns_ok. split; [done|]. destruct (run_list r) as [|p0 l]; [done|]. injection Hp as ->.
    by injection Hq.
  - assert (Hne : current s1 <> idleproc s).
    { intros Heq. apply (proj1 Hidle Heq (current s)). right. split_and!; eauto. }
    destruct (Hrun Hne) as [Hs1 Hp1]. apply (IH s1 r1 x1); rewrite ?Ei, ?El; auto.
    destruct (run_list r) as [|p0 l]; [done|]. cbn in Hp, Hq. injection Hq as _ ->.
    rewrite lookup_app_l; [done|]. by eapply lookup_lt_Some.
Qed.

(** MLFQ levels: a process that used up its slice on queue [q] is queued one
    level lower (or again on the last level) with that level's slice, any
    other process enters at the top level; [MLFQ_pick_next] takes the first
    process of the highest non-empty level. *)
Theorem MLFQ_levels s p x q0 r :
  rq_wf s -> procs s !! p = Some x -> on_rq p s = false -> rq x = Some q0 -> time_slice x = 0 ->
  (0 < q0)%nat \/ (1 < length (rqs s))%nat ->
  rqs s !! (Nat.min (S q0) (length (rqs s) - 1)) = Some r ->
  returns (MLFQ_enqueue 0 p s) (fun s' =>
    rqs s' !! (Nat.min (S q0) (length (rqs s) - 1)) =
      Some (mk_rq (run_list r ++ [p]) (u32 (proc_num r + 1)) (max_time_slice r)) /\
    procs s' !! p = Some (set_time_slice (max_time_slice r)
      (set_rq (Some (Nat.min (S q0) (length (rqs s) - 1))) x))) /\
  returns (MLFQ_pick_next 0 s) (fun o =>
    match o with
    | Some p => exists k rk, rqs s !! k = Some rk /\ hd_error (run_list rk) = Some p /\
        forall j rj, (j < k)%nat -> rqs s !! j = Some rj -> run_list rj = []
    | None => forall j rj, rqs s !! j = Some rj -> run_list rj = []
    end).
Proof.
  intros W Hx Hn Hq Ht Hlv Hr. pose proof (wf_proc _ W p x Hx) as [_ Hlt]. specialize (Hlt _ Hq).
  pose proof (lookup_lt_Some _ _ _ Hr) as Hlen. split.
  - unfold MLFQ_enqueue. rewrite Hn. cbn [negb assert res_bind]. unfold get_proc.
    rewrite (fetch_ok _ _ _ Hx). cbn [res_bind]. rewrite Hq, Ht. cbn [Z.eqb].
    assert (Heq : (if decide (next_rq q0 s = 0%nat) then q0 else next_rq q0 s) =
                  Nat.min (S q0) (length (rqs s) - 1)).
    { unfold next_rq. destruct (decide (S q0 < length (rqs s))%nat) as [H|H].
      - rewrite decide_False by lia. lia.
      - rewrite decide_True by done. lia. }
    rewrite Heq. destruct (RR_enqueue_ok s p x _ r W Hx Hn Hr) as (-> & _).
    eexists; split; [done|]. cbn. rewrite list_lookup_insert_eq by done. rewrite lookup_insert_eq.
    split; [done|]. rewrite Ht. done.
  - unfold MLFQ_pick_next. eapply returns_mono; [apply (MLFQ_pick_loop_ok s (length (rqs s)) 0); lia|].
    intros [p'|]; cbn.
    + intros (k & rk & _ & Hk & Hhd & Hj). exists k, rk. split_and!; auto. intros j rj Hlt' Hrj.
      apply (Hj j rj); [lia|done].
    + intros H j rj Hrj. apply (H j rj); [lia|done].
Qed.

(** ** Concrete states

    An executable test of the invariant, used to show that it holds of
    concrete states. *)

Definition rq_okb (s : kstate) (q : nat) (r : run_queue) : bool :=
  (proc_num r =? u32 (Z.of_nat (length (run_list r)))) && bool_decide (NoDup (run_list r)) &&
  (0 <? max_time_slice r) &&
  forallb (fun p => match procs s !! p with
                    | Some x => bool_decide (rq x = Some q) && (0 <? time_slice x) &&
                                (time_slice x <=? max_time_slice r) &&
                                bool_decide (state x = PROC_RUNNABLE) && (lcpu_count s <=? pid x)
                    | None => false
                    end) (run_list r).

Definition proc_okb (s : kstate) (x : proc_struct) : bool :=
  (0 <=? time_slice x) &&
  match rq x with Some q => bool_decide (q < length (rqs s))%nat | None => true end.

Definition sched_okb (s : kstate) : bool :=
  forallb (fun q => match rqs s !! q with Some r => rq_okb s q r | None => false end)
    (seq 0 (length (rqs s))) &&
  forallb (fun px => proc_okb s px.2) (map_to_list (procs s)) &&
  bool_decide (is_Some (procs s !! idleproc s)) && bool_decide (is_Some (procs s !! current s)) &&
  negb (on_rq (idleproc s) s) && negb (on_rq (current s) s).

Lemma sched_okb_rq s q r : sched_okb s = true -> rqs s !! q = Some r -> rq_okb s q r = true.
Proof.
  unfold sched_okb. rewrite !andb_true_iff. intros (((((H & _) & _) & _) & _) & _) Hq.
  rewrite forallb_forall in H. specialize (H q). rewrite Hq in H. apply H.
  apply in_seq. apply lookup_lt_Some in Hq. lia.
Qed.

Lemma sched_okb_wf s : sched_okb s = true -> rq_wf s.
Proof.
  intros H. assert (Hr := sched_okb_rq s). split.
  - intros q r Hq. specialize (Hr _ _ H Hq). unfold rq_okb in Hr. rewrite !andb_true_iff in Hr.
    destruct Hr as (((Hn & _) & _) & _). by apply Z.eqb_eq in Hn.
  - intros q r Hq. specialize (Hr _ _ H Hq). unfold rq_okb in Hr. rewrite !andb_true_iff in Hr.
    destruct Hr as (((_ & Hn) & _) & _). by apply bool_decide_eq_true in Hn.
  - intros q r Hq. specialize (Hr _ _ H Hq). unfold rq_okb in Hr. rewrite !andb_true_iff in Hr.
    destruct Hr as ((_ & Hn) & _). by apply Z.ltb_lt in Hn.
  - intros q r p Hq Hp. specialize (Hr _ _ H Hq). unfold rq_okb in Hr. rewrite !andb_true_iff in Hr.
    destruct Hr as (_ & Hn). rewrite forallb_forall in Hn. specialize (Hn p).
    apply list_elem_of_In in Hp. specialize (Hn Hp). destruct (procs s !! p) as [x|]; [|done].
    rewrite !andb_true_iff in Hn. destruct Hn as ((((H1 & H2) & H3) & _) & _). exists x.
    apply bool_decide_eq_true in H1. split_and!; auto; lia.
  - intros p x Hp. unfold sched_okb in H. rewrite !andb_true_iff in H.
    destruct H as ((((( _ & H) & _) & _) & _) & _). rewrite forallb_forall in H.
    specialize (H (p, x)). apply elem_of_map_to_list in Hp. apply list_elem_of_In in Hp.
    specialize (H Hp). unfold proc_okb in H. cbn in H. rewrite andb_true_iff in H. destruct H as [H1 H2].
    split; [lia|]. intros q Hq. rewrite Hq in H2. by apply bool_decide_eq_true in H2.
Qed.

Lemma sched_okb_inv (C : sched_class) (OK : SchedClassOk C) s :
  sched_okb s = true -> sc_inv s -> sched_inv C s.
Proof.
  intros H Hc. split; [done| | |].
  - unfold sched_okb in H. rewrite !andb_true_iff in H. destruct H as (((( _ & H1) & _) & H2) & _).
    split; [by apply bool_decide_eq_true in H1|by apply negb_true_iff in H2].
  - unfold sched_okb in H. rewrite !andb_true_iff in H. destruct H as (((_ & H1) & _) & H2).
    split; [by apply bool_decide_eq_true in H1|by apply negb_true_iff in H2].
  - intros p (q & r & Hq & Hp)%on_rq_spec. pose proof (sched_okb_rq _ _ _ H Hq) as Hr.
    unfold rq_okb in Hr. rewrite !andb_true_iff in Hr. destruct Hr as (_ & Hn).
    rewrite forallb_forall in Hn. apply list_elem_of_In in Hp. specialize (Hn p Hp).
    destruct (procs s !! p) as [x|]; [|done]. rewrite !andb_true_iff in Hn.
    destruct Hn as ((_ & H4) & H5). apply bool_decide_eq_true in H4. exists x. split_and!; auto; lia.
Qed.

(** Five processes on one processor: 0 is idle, 10 runs, 11 and 12 are queued,
    13 sleeps on a signal. *)
Definition demo_proc (st : proc_state) (id w : Z) (q : option nat) (t : Z) : proc_struct :=
  mk_proc st id 0 false w q t 0 (1000 + id).

Definition demo : kstate :=
  mk_k (list_to_map [(0, demo_proc PROC_RUNNABLE 0 0 None 0);
                     (10, demo_proc PROC_RUNNABLE 2 0 (Some 0%nat) 3);
                     (11, demo_proc PROC_RUNNABLE 3 0 (Some 0%nat) 8);
                     (12, demo_proc PROC_RUNNABLE 4 0 (Some 0%nat) 5);
                     (13, demo_proc PROC_SLEEPING 5 WT_SIGNAL (Some 0%nat) 0)])
       [mk_rq [11; 12] 2 8; mk_rq [] 0 16; mk_rq [] 0 32; mk_rq [] 0 64] 10 0 1
       (fun p => if decide (p = 11) then [13] else []) ∅ [] 0 ∅ ∅ ∅
       (mk_info false 0 (fun _ => 0) (fun _ => 0) (fun _ => 0) (fun _ _ => 0)).

Lemma demo_wf : rq_wf demo.
Proof. apply sched_okb_wf. by vm_compute. Qed.

Lemma demo_RR : sched_inv RR_sched_class demo.
Proof.
  apply sched_okb_inv; [by vm_compute|]. split_and!; [apply demo_wf|cbn; lia|].
  intros [|[|[|[|q]]]] r Hr Hq; cbn in Hr; try done; by inversion Hr.
Qed.

Lemma demo_MLFQ : sched_inv MLFQ_sched_class demo.
Proof. apply sched_okb_inv; [by vm_compute|]. split; [apply demo_wf|cbn; lia]. Qed.


Lemma wakeup_stop_spec_witness :
  returns (wakeup_proc MLFQ_sched_class 13 demo)
    (fun s1 => returns (stop_proc MLFQ_sched_class 13 WT_PIPE s1) (fun s2 => sched_inv MLFQ_sched_class s2)).
Proof.
  eapply returns_mono.
  - apply (wakeup_stop_spec MLFQ_sched_class MLFQ_class_ok demo 13
             (demo_proc PROC_SLEEPING 5 WT_SIGNAL (Some 0%nat) 0) WT_PIPE); try done.
    apply demo_MLFQ.
  - intros s1 (_ & H). eapply returns_mono; [apply H|]. by intros s2 [? _].
Defined.

Lemma try_to_wakeup_spec_witness :
  returns (try_to_wakeup MLFQ_sched_class 11 demo) (fun '(ret, s') => ret = 0 /\ no_signal_sleeper [13] s').
Proof.
  eapply returns_mono.
  - apply (try_to_wakeup_spec MLFQ_sched_class MLFQ_class_ok demo 11
             (demo_proc PROC_RUNNABLE 3 0 (Some 0%nat) 8)); try done; [apply demo_MLFQ|].
    intros t [->|[->|H%not_elem_of_nil]%elem_of_cons]%elem_of_cons; [| |done];
      (eexists; split; [by vm_compute|by vm_compute]).
  - intros [ret s'] (_ & H & -> & _). by split.
Defined.

Lemma RR_no_starvation_witness :
  returns (schedules RR_sched_class 2 demo) (fun s' => current s' = 12).
Proof.
  eapply returns_mono.
  - apply (RR_no_starvation 1 demo (mk_rq [11; 12] 2 8) (demo_proc PROC_RUNNABLE 2 0 (Some 0%nat) 3) 12);
      try done. apply demo_RR.
  - by intros s' [_ H].
Defined.

Lemma MLFQ_levels_witness :
  returns (MLFQ_enqueue 0 13 demo) (fun s' => rqs s' !! 1%nat = Some (mk_rq [13] 1 16)).
Proof.
  eapply returns_mono.
  - apply (MLFQ_levels demo 13 (demo_proc PROC_SLEEPING 5 WT_SIGNAL (Some 0%nat) 0) 0 (mk_rq [] 0 16));
      try done; [apply demo_wf|right; cbn; lia].
  - by intros s' [H _].
Defined.
