(* ===== verification/Timer.v ===== *)
(** * Timer: the kernel timer list (schedule/sched.c, schedule/sched.h,
      sync/ipc.h, module/ucore_glue/timer_helper.c)

    [timer_list] is a delta list: the [expires] field of a timer counts from
    the expiry of the timer before it.  [deadlines] is the abstract view, the
    list of timers with their absolute expiry times. *)
From S2P Require Import Prelude KState Sched.

(** ** The code *)

(** [timer_init]: [int expires] is stored in an [unsigned int]. *)
Definition timer_init (t : Z) (proc : option Z) (exp : Z) (s : kstate) : kstate :=
  set_timers (<[t := mk_timer (u32 exp) proc None]> (timers s)) s.

(** [__ucore_is_linux_timer] *)
Definition is_linux_timer (x : timer_t) : bool := bool_decide (is_Some (linux_timer x)).

(** Store to [timer->expires]. *)
Definition store_expires (t e : Z) (s : kstate) : res kstate :=
  let* x := fetch (timers s) t in
  Ok (set_timers (<[t := set_expires e x]> (timers s)) s).

(** The loop of [add_timer] from [le] on; it returns the list from [le] on
    with the timer linked in. *)
Fixpoint add_timer_loop (t : Z) (le : list Z) (s : kstate) : res (list Z * kstate) :=
  match le with
  | [] => Ok ([t], s)
  | n :: le' =>
      let* timer := fetch (timers s) t in
      let* next := fetch (timers s) n in
      if expires timer <? expires next then
        let* s := store_expires n (u32 (expires next - expires timer)) s in
        Ok (t :: le, s)
      else
        let* s := store_expires t (u32 (expires timer - expires next)) s in
        let* (le', s) := add_timer_loop t le' s in
        Ok (n :: le', s)
  end.

Definition add_timer (t : Z) (s : kstate) : res kstate :=
  let* timer := fetch (timers s) t in
  assert! (0 <? expires timer) && bool_decide (is_Some (tproc timer)) ;;
  assert! negb (bool_decide (t ∈ timer_list s)) ;;
  let* (l, s) := add_timer_loop t (timer_list s) s in
  Ok (set_timer_list l s).

(** [list_next(&(timer->timer_link))]; [None] is [&timer_list]. *)
Fixpoint next_in (t : Z) (l : list Z) : option Z :=
  match l with
  | [] => None
  | x :: l => if decide (x = t) then hd_error l else next_in t l
  end.

Definition del_timer (t : Z) (s : kstate) : res kstate :=
  if bool_decide (t ∈ timer_list s) then
    let* timer := fetch (timers s) t in
    let* s :=
      if negb (expires timer =? 0) then
        match next_in t (timer_list s) with
        | Some n => let* next := fetch (timers s) n in store_expires n (u32 (expires next + expires timer)) s
        | None => Ok s
        end
      else Ok s in
    Ok (set_timer_list (filter (fun x => x <> t) (timer_list s)) s)
  else Ok s.

Section RunTimer.
Context (C : sched_class).
(** [if (lt->function) (lt->function)(lt->data)]: the call into a driver. *)
Context (linux_fn : Z -> kstate -> res kstate).

(** [while (timer->expires == 0) { ... }] *)
Fixpoint run_timer_loop (fuel : nat) (t : Z) (s : kstate) : res kstate :=
  match fuel with
  | O => Panic
  | S fuel =>
      let* timer := fetch (timers s) t in
      if expires timer =? 0 then
        let le := next_in t (timer_list s) in
        match linux_timer timer with
        | Some data =>
            let* s := linux_fn data s in
            let* s := del_timer t s in
            let s := set_timers (delete t (timers s)) s in    (* kfree(timer) *)
            run_timer_loop fuel t s                           (* continue *)
        | None =>
            match tproc timer with
            | None => Panic
            | Some p =>
                let* x := get_proc p s in
                assert! (wait_state x =? 0) || negb (Z.land (wait_state x) WT_INTERRUPTED =? 0) ;;
                let* s := wakeup_proc C p s in
                let* s := del_timer t s in
                match le with
                | None => Ok s
                | Some t => run_timer_loop fuel t s
                end
            end
        end
      else Ok s
  end.

Definition run_timer_list (s : kstate) : res kstate :=
  let* s :=
    match hd_error (timer_list s) with
    | None => Ok s
    | Some t =>
        let* timer := fetch (timers s) t in
        assert! negb (expires timer =? 0) ;;
        let* s := store_expires t (expires timer - 1) s in
        run_timer_loop (S (length (timer_list s))) t s
    end in
  sched_class_proc_tick C (current s) s.

End RunTimer.

(** ** sync/ipc.h *)

Definition ipc_add_timer (timer : option Z) (s : kstate) : res kstate :=
  match timer with Some t => add_timer t s | None => Ok s end.

Definition ipc_del_timer (timer : option Z) (s : kstate) : res kstate :=
  match timer with Some t => del_timer t s | None => Ok s end.

(** Returns the timer pointer and [*saved_ticks]. *)
Definition ipc_timer_init (timeout timer : Z) (s : kstate) : option Z * Z * kstate :=
  if negb (timeout =? 0)
  then (Some timer, ticks s, timer_init timer (Some (current s)) timeout s)
  else (None, 0, s).

Definition ipc_check_timeout (timeout saved_ticks : Z) (s : kstate) : Z :=
  if negb (timeout =? 0) then
    let delt := u32 (ticks s - saved_ticks) in
    if timeout <=? delt then - E_TIMEOUT else -1
  else -1.

(** [__ucore_add_timer]: [t] is the block [kmalloc] returned. *)
Definition __ucore_add_timer (t : option Z) (lt : Z) (exp : Z) (s : kstate) : res kstate :=
  match t with
  | None => Panic
  | Some t =>
      let s := timer_init t None exp s in
      let* x := fetch (timers s) t in
      let s := set_timers (<[t := mk_timer (expires x) (tproc x) (Some lt)]> (timers s)) s in
      add_timer t s
  end.

(** ** Deadlines *)

Definition exp_of (m : gmap Z timer_t) (t : Z) : Z := from_option expires 0 (m !! t).

Fixpoint deadlines (m : gmap Z timer_t) (acc : Z) (l : list Z) : list (Z * Z) :=
  match l with
  | [] => []
  | t :: l => (t, acc + exp_of m t) :: deadlines m (acc + exp_of m t) l
  end.

(** The timer list with respect to a time [acc] already passed. *)
Record timers_wf (m : gmap Z timer_t) (acc : Z) (l : list Z) : Prop := {
  tw_nodup : NoDup l;
  tw_some : forall t, t ∈ l -> exists x, m !! t = Some x /\ 0 <= expires x < 2 ^ 32;
  tw_range : Forall (fun d => acc <= d.2 < 2 ^ 32) (deadlines m acc l)
}.

(** Between ticks no timer is due. *)
Definition timer_inv (s : kstate) : Prop :=
  timers_wf (timers s) 0 (timer_list s) /\
  Forall (fun d => 0 < d.2) (deadlines (timers s) 0 (timer_list s)).

Lemma deadlines_fst m acc l : (deadlines m acc l).*1 = l.
Proof. revert acc; induction l as [|t l IH]; intros acc; cbn; [done|]. by rewrite IH. Qed.

Lemma deadlines_ext m m' acc l :
  (forall t, t ∈ l -> m' !! t = m !! t) -> deadlines m' acc l = deadlines m acc l.
Proof.
  revert acc; induction l as [|t l IH]; intros acc H; cbn; [done|].
  assert (exp_of m' t = exp_of m t) as -> by (unfold exp_of; rewrite H by set_solver; done).
  f_equal. apply IH. intros; apply H. by right.
Qed.

Lemma exp_of_some m t x : m !! t = Some x -> exp_of m t = expires x.
Proof. unfold exp_of. by intros ->. Qed.

Lemma store_expires_ok t e s x :
  timers s !! t = Some x -> store_expires t e s = Ok (set_timers (<[t := set_expires e x]> (timers s)) s).
Proof. intros H. unfold store_expires. by rewrite (fetch_ok _ _ _ H). Qed.

Lemma deadlines_ge m acc l d :
  (forall t, t ∈ l -> 0 <= exp_of m t) -> d ∈ deadlines m acc l -> acc <= d.2.
Proof.
  revert acc; induction l as [|t l IH]; intros acc H Hd; cbn in Hd; [by apply not_elem_of_nil in Hd|].
  assert (0 <= exp_of m t) by (apply H; left). apply elem_of_cons in Hd as [->|Hd]; cbn; [lia|].
  apply IH in Hd; [lia|]. intros; apply H. by right.
Qed.

Lemma timers_wf_cons m acc t l :
  timers_wf m acc (t :: l) ->
  exists x, m !! t = Some x /\ 0 <= expires x < 2 ^ 32 /\ (t ∉ l) /\ acc + expires x < 2 ^ 32 /\
    exp_of m t = expires x /\ timers_wf m (acc + expires x) l.
Proof.
  intros [Hn Hs Hr]. apply NoDup_cons in Hn as [Hni Hn].
  destruct (Hs t) as (x & Hx & Hb); [left|]. exists x. pose proof (exp_of_some _ _ _ Hx) as He.
  cbn in Hr. rewrite He in Hr. apply Forall_cons in Hr as [H1 H2]. cbn in H1.
  split_and!; auto; try lia. split; auto; [intros; apply Hs; by right|].
  apply Forall_forall. intros d Hd. rewrite Forall_forall in H2. pose proof (H2 d Hd).
  split; [|lia]. eapply deadlines_ge; [|done]. intros t' Ht'. destruct (Hs t') as (x' & Hx' & ?); [by right|].
  rewrite (exp_of_some _ _ _ Hx'). lia.
Qed.

Lemma timers_wf_intro m acc t l x :
  m !! t = Some x -> 0 <= expires x -> 0 <= acc -> acc + expires x < 2 ^ 32 -> t ∉ l ->
  timers_wf m (acc + expires x) l -> timers_wf m acc (t :: l).
Proof.
  intros Hx H0 Ha H1 Hni [Hn Hs Hr]. split.
  - by apply NoDup_cons.
  - intros t' [->|Ht']%elem_of_cons; [|auto]. exists x. split; [done|lia].
  - cbn. rewrite (exp_of_some _ _ _ Hx). constructor; [cbn; lia|].
    eapply Forall_impl; [exact Hr|]. cbn. intros; lia.
Qed.

Lemma timers_wf_ext m m' acc l :
  (forall t, t ∈ l -> m' !! t = m !! t) -> timers_wf m acc l -> timers_wf m' acc l.
Proof.
  intros H [Hn Hs Hr]. split; [done| |by rewrite (deadlines_ext m m')].
  intros t Ht. rewrite H by done. auto.
Qed.

(** What a timer carries besides its expiry. *)
Definition payload (x : timer_t) : option Z * option Z := (tproc x, linux_timer x).

Definition same_payload (m m' : gmap Z timer_t) : Prop :=
  forall t, payload <$> m' !! t = payload <$> m !! t.

Lemma same_payload_refl m : same_payload m m.
Proof. done. Qed.

Lemma same_payload_trans m1 m2 m3 : same_payload m1 m2 -> same_payload m2 m3 -> same_payload m1 m3.
Proof. intros H1 H2 t. by rewrite H2. Qed.

Lemma same_payload_set m t x e : m !! t = Some x -> same_payload m (<[t := set_expires e x]> m).
Proof.
  intros H y. destruct (decide (y = t)) as [->|]; [by rewrite lookup_insert_eq, H|by rewrite lookup_insert_ne].
Qed.

#[export] Hint Resolve same_payload_refl same_payload_set : core.

(** The deadline [d] goes after every deadline that is not later. *)
Definition inserted (d : Z * Z) (l l' : list (Z * Z)) : Prop :=
  exists l1 l2, l = l1 ++ l2 /\ l' = l1 ++ d :: l2 /\
    Forall (fun x => x.2 <= d.2) l1 /\ Forall (fun x => d.2 < x.2) l2.

Lemma inserted_cons d x l l' : x.2 <= d.2 -> inserted d l l' -> inserted d (x :: l) (x :: l').
Proof. intros Hx (l1 & l2 & -> & -> & H1 & H2). exists (x :: l1), l2. split_and!; auto. Qed.

Lemma inserted_elem d l l' x : inserted d l l' -> x ∈ l' <-> x = d \/ x ∈ l.
Proof. intros (l1 & l2 & -> & -> & _). rewrite !elem_of_app, elem_of_cons. tauto. Qed.

Lemma add_timer_loop_ok t e l : forall acc s x,
  timers_wf (timers s) acc l -> t ∉ l -> timers s !! t = Some x -> expires x = e - acc ->
  0 <= acc <= e -> e < 2 ^ 32 ->
  returns (add_timer_loop t l s) (fun '(l', s') =>
    s' = set_timers (timers s') s /\ timers_wf (timers s') acc l' /\
    (forall y, y ∉ t :: l -> timers s' !! y = timers s !! y) /\ same_payload (timers s) (timers s') /\
    (forall y, y ∈ l' <-> y = t \/ y ∈ l) /\
    inserted (t, e) (deadlines (timers s) acc l) (deadlines (timers s') acc l')).
Proof.
  induction l as [|n l IH]; intros acc s x W Hni Hx Hex Ha He; cbn [add_timer_loop].
  - apply returns_ok. split_and!; auto; [by destruct s| |intros; set_solver|].
    + apply (timers_wf_intro _ _ _ _ x); auto; try lia.
      split; [constructor|intros ? H%not_elem_of_nil; done|constructor].
    + exists [], []. cbn. rewrite (exp_of_some _ _ _ Hx). split_and!; auto. do 2 f_equal. lia.
  - apply not_elem_of_cons in Hni as [Htn Hni]. apply timers_wf_cons in W as (xn & Hxn & Hb & Hnl & Hs & Hen & W).
    rewrite (fetch_ok _ _ _ Hx). cbn [res_bind]. rewrite (fetch_ok _ _ _ Hxn). cbn [res_bind].
    destruct (Z.ltb_spec (expires x) (expires xn)) as [Hlt|Hge].
    + rewrite (store_expires_ok _ _ _ _ Hxn). cbn [res_bind]. apply returns_ok.
      set (xn' := set_expires _ xn). cbn [timers set_timers].
      assert (Hxn' : expires xn' = expires xn - expires x) by (unfold xn'; cbn; rewrite u32_small; lia).
      assert (Hl : forall y, y ∈ l -> <[n := xn']> (timers s) !! y = timers s !! y)
        by (intros y Hy; apply lookup_insert_ne; intros ->; done).
      assert (Ht : <[n := xn']> (timers s) !! t = Some x) by (by rewrite lookup_insert_ne).
      split_and!; auto.
      * apply (timers_wf_intro _ _ _ _ x); auto; try lia; [by apply not_elem_of_cons|].
        apply (timers_wf_intro _ _ _ _ xn'); auto; try lia; [by apply lookup_insert_eq|].
        replace (acc + expires x + expires xn') with (acc + expires xn) by lia. by apply (timers_wf_ext (timers s)).
      * intros y [_ [Hy _]%not_elem_of_cons]%not_elem_of_cons. by apply lookup_insert_ne.
      * by apply same_payload_set.
      * intros y. rewrite !elem_of_cons. tauto.
      * exists [], (deadlines (timers s) acc (n :: l)). cbn [deadlines app]. rewrite Hen.
        rewrite (exp_of_some _ _ _ Ht), (exp_of_some _ n xn') by apply lookup_insert_eq.
        split_and!; [done| |done|].
        -- replace (acc + expires x) with e by lia. replace (e + expires xn') with (acc + expires xn) by lia.
           by rewrite (deadlines_ext (timers s) (<[n := xn']> (timers s))).
        -- constructor; [cbn; lia|]. apply Forall_forall. intros d Hd. pose proof (tw_range _ _ _ W) as HF.
           rewrite Forall_forall in HF. apply HF in Hd. cbn. lia.
    + rewrite (store_expires_ok _ _ _ _ Hx). cbn [res_bind].
      set (x' := set_expires _ x).
      assert (Hx' : expires x' = e - (acc + expires xn)) by (unfold x'; cbn; rewrite u32_small; lia).
      set (s1 := set_timers _ s).
      assert (Hl : forall y, y <> t -> timers s1 !! y = timers s !! y)
        by (intros y Hy; by apply lookup_insert_ne).
      assert (Hd1 : deadlines (timers s1) (acc + expires xn) l = deadlines (timers s) (acc + expires xn) l)
        by (apply deadlines_ext; intros y Hy; apply Hl; congruence).
      eapply returns_bind; [apply (IH (acc + expires xn) s1 x')|]; auto; try lia.
      { apply (timers_wf_ext (timers s)); [|done]. intros y Hy. apply Hl. congruence. }
      { apply lookup_insert_eq. }
      intros [l' s'] (E & W' & Hsame & Hp & Hel & Hins). apply returns_ok. rewrite Hd1 in Hins.
      assert (Hn' : timers s' !! n = Some xn).
      { rewrite Hsame by (apply not_elem_of_cons; auto). by rewrite Hl. }
      split_and!.
      * by rewrite E.
      * apply (timers_wf_intro _ _ _ _ xn); auto; try lia. rewrite Hel. intros [?|?]; [congruence|done].
      * intros y Hy. rewrite !not_elem_of_cons in Hy. rewrite Hsame by (apply not_elem_of_cons; tauto). apply Hl. tauto.
      * eapply same_payload_trans; [|exact Hp]. by apply same_payload_set.
      * intros y. rewrite !elem_of_cons, Hel. tauto.
      * cbn [deadlines]. rewrite Hen, (exp_of_some _ _ _ Hn'). apply inserted_cons; [cbn; lia|done].
Qed.

Lemma add_timer_ok s t x :
  timer_inv s -> t ∉ timer_list s -> timers s !! t = Some x -> 0 < expires x < 2 ^ 32 ->
  is_Some (tproc x) ->
  returns (add_timer t s) (fun s' =>
    timer_inv s' /\ same_payload (timers s) (timers s') /\
    s' = set_timer_list (timer_list s') (set_timers (timers s') s) /\
    inserted (t, expires x) (deadlines (timers s) 0 (timer_list s)) (deadlines (timers s') 0 (timer_list s'))).
Proof.
  intros [W HF] Hni Hx He Hp. unfold add_timer. rewrite (fetch_ok _ _ _ Hx). cbn [res_bind].
  apply returns_assert; [apply andb_true_iff; split; [lia|by apply bool_decide_true]|].
  apply returns_assert; [by rewrite bool_decide_false|].
  eapply returns_bind; [apply (add_timer_loop_ok t (expires x) _ 0 s x); auto; lia|].
  intros [l' s'] (E & W' & _ & Hpl & _ & Hins). apply returns_ok. cbn [timers timer_list set_timer_list].
  split_and!; auto; [|by rewrite E]. split; [done|]. cbn [timers timer_list set_timer_list].
  apply Forall_forall. intros d Hd. rewrite (inserted_elem _ _ _ _ Hins) in Hd.
  destruct Hd as [->|Hd]; [cbn; lia|]. rewrite Forall_forall in HF. auto.
Qed.

(** *** Removal *)

Lemma next_in_elem t l n : next_in t l = Some n -> n ∈ l.
Proof.
  induction l as [|a l IH]; cbn; [done|]. case_decide; [|right; auto].
  destruct l; cbn; [done|]. intros [= ->]. right; left.
Qed.

Lemma next_in_ne t l n : NoDup l -> next_in t l = Some n -> n <> t.
Proof.
  induction l as [|a l IH]; cbn; [done|]. intros [Hni Hn]%NoDup_cons. case_decide as Ha; [subst a|auto].
  destruct l; cbn; [done|]. intros [= ->] ->. apply Hni; left.
Qed.

(** The timers after [t] is unlinked: the delta of [t] goes to its successor. *)
Definition unlinked (t : Z) (l : list Z) (m : gmap Z timer_t) : gmap Z timer_t :=
  match next_in t l with
  | Some n =>
      match m !! n with
      | Some xn => <[n := set_expires (u32 (expires xn + exp_of m t)) xn]> m
      | None => m
      end
  | None => m
  end.

Lemma unlinked_other t l m y : next_in t l <> Some y -> unlinked t l m !! y = m !! y.
Proof.
  unfold unlinked. destruct (next_in t l) as [n|]; [|done]. intros Hn.
  destruct (m !! n); [|done]. apply lookup_insert_ne. congruence.
Qed.

Lemma unlinked_payload t l m : same_payload m (unlinked t l m).
Proof.
  unfold unlinked. destruct (next_in t l) as [n|]; [|done].
  destruct (m !! n) eqn:E; [by apply same_payload_set|done].
Qed.

Lemma filter_deadlines t m acc l :
  t ∉ l -> filter (fun d => d.1 <> t) (deadlines m acc l) = deadlines m acc l.
Proof.
  revert acc; induction l as [|a l IH]; intros acc H; cbn [deadlines]; [done|].
  apply not_elem_of_cons in H as [Ha Hl]. rewrite filter_cons_True by (cbn; congruence). by rewrite IH.
Qed.

Lemma unlinked_ok t l : forall m acc,
  timers_wf m acc l -> 0 <= acc -> t ∈ l ->
  timers_wf (unlinked t l m) acc (filter (fun y => y <> t) l) /\
  deadlines (unlinked t l m) acc (filter (fun y => y <> t) l) =
    filter (fun d => d.1 <> t) (deadlines m acc l).
Proof.
  induction l as [|a l IH]; intros m acc W Ha Hin; [by apply not_elem_of_nil in Hin|].
  pose proof W as W0. apply timers_wf_cons in W as (x & Hx & Hb & Hni & Hs & He & W).
  destruct (decide (a = t)) as [->|Hne].
  - rewrite filter_cons_False by tauto. cbn [deadlines]. rewrite filter_cons_False by (cbn; tauto).
    rewrite filter_ne_id, filter_deadlines, He by done.
    unfold unlinked; cbn [next_in]; rewrite decide_True by done. destruct l as [|n l]; cbn [hd_error].
    { split; [|done]. split; [constructor|intros ? H%not_elem_of_nil; done|constructor]. }
    apply timers_wf_cons in W as (xn & Hxn & Hbn & Hnn & Hsn & Hen & W). rewrite Hxn, He.
    set (xn' := set_expires _ xn). set (m' := <[n := xn']> m).
    assert (Hxn' : expires xn' = expires xn + expires x) by (unfold xn'; cbn; rewrite u32_small; lia).
    assert (Hl : forall y, y ∈ l -> m' !! y = m !! y) by (intros y Hy; apply lookup_insert_ne; congruence).
    assert (Hn' : m' !! n = Some xn') by apply lookup_insert_eq. split.
    + apply (timers_wf_intro _ _ _ _ xn'); auto; try lia.
      replace (acc + expires xn') with (acc + expires x + expires xn) by lia. by apply (timers_wf_ext m).
    + cbn [deadlines]. rewrite (exp_of_some _ _ _ Hn'), Hen, Hxn'.
      replace (acc + (expires xn + expires x)) with (acc + expires x + expires xn) by lia.
      by rewrite (deadlines_ext m m').
  - apply elem_of_cons in Hin as [?|Hin]; [congruence|].
    destruct (IH m _ W ltac:(lia) Hin) as [W' D'].
    assert (Hu : unlinked t (a :: l) m = unlinked t l m)
      by (unfold unlinked; cbn [next_in]; by rewrite decide_False).
    assert (Ha' : unlinked t l m !! a = Some x).
    { rewrite unlinked_other; [done|]. intros H%next_in_elem. done. }
    rewrite Hu. rewrite filter_cons_True by done. cbn [deadlines].
    rewrite filter_cons_True by (cbn; done). split.
    + apply (timers_wf_intro _ _ _ _ x); auto; try lia. rewrite list_elem_of_filter. tauto.
    + rewrite (exp_of_some _ _ _ Ha'), He. by rewrite D'.
Qed.

Lemma del_timer_run s t :
  timers_wf (timers s) 0 (timer_list s) -> t ∈ timer_list s ->
  del_timer t s = Ok (set_timer_list (filter (fun y => y <> t) (timer_list s))
                       (set_timers (unlinked t (timer_list s) (timers s)) s)).
Proof.
  intros W Hin. unfold del_timer. rewrite bool_decide_true by done.
  destruct (tw_some _ _ _ W t Hin) as (x & Hx & Hb). rewrite (fetch_ok _ _ _ Hx). cbn [res_bind].
  unfold unlinked. rewrite (exp_of_some _ _ _ Hx).
  destruct (next_in t (timer_list s)) as [n|] eqn:En.
  - apply next_in_elem in En. destruct (tw_some _ _ _ W n En) as (xn & Hxn & Hbn). rewrite Hxn.
    destruct (Z.eqb_spec (expires x) 0) as [H0|H0]; cbn [negb].
    + rewrite H0, Z.add_0_r, u32_small by done. cbn [res_bind].
      rewrite insert_id by (rewrite Hxn; by destruct xn). by destruct s.
    + rewrite (fetch_ok _ _ _ Hxn). cbn [res_bind]. by rewrite (store_expires_ok _ _ _ _ Hxn).
  - destruct (negb _); cbn [res_bind]; by destruct s.
Qed.

Lemma del_timer_ok s t :
  timer_inv s ->
  returns (del_timer t s) (fun s' =>
    timer_inv s' /\ same_payload (timers s) (timers s') /\
    s' = set_timer_list (timer_list s') (set_timers (timers s') s) /\
    deadlines (timers s') 0 (timer_list s') =
      filter (fun d => d.1 <> t) (deadlines (timers s) 0 (timer_list s))).
Proof.
  intros [W HF]. destruct (decide (t ∈ timer_list s)) as [Hin|Hni].
  - rewrite del_timer_run by done. apply returns_ok. destruct (unlinked_ok _ _ _ _ W ltac:(lia) Hin) as [W' D'].
    cbn [timers timer_list set_timer_list set_timers]. split_and!; auto; [|apply unlinked_payload].
    split; cbn [timers timer_list set_timer_list set_timers]; [done|]. rewrite D'. rewrite Forall_forall in *.
    intros d [_ Hd]%list_elem_of_filter. auto.
  - unfold del_timer. rewrite bool_decide_false by done. apply returns_ok.
    split_and!; auto; [by split|by destruct s|by rewrite filter_deadlines].
Qed.


(** *** The clock tick *)

Section RunProofs.
Context (C : sched_class) `{OK : !SchedClassOk C}.
Context (linux_fn : Z -> kstate -> res kstate).

(** The process a timer will wake: it exists, is not a zombie, sleeps (if at
    all) interruptibly, and is no processor's idle thread. *)
Definition wakeable (s : kstate) (p : Z) : Prop :=
  exists x, procs s !! p = Some x /\ state x <> PROC_ZOMBIE /\
    (wait_state x = 0 \/ Z.land (wait_state x) WT_INTERRUPTED <> 0) /\ lcpu_count s <= pid x.

Definition process_timers (s : kstate) (l : list Z) : Prop :=
  forall t, t ∈ l -> exists x p, timers s !! t = Some x /\ linux_timer x = None /\ tproc x = Some p /\ wakeable s p.

Lemma wakeup_any s p :
  sched_inv C s -> wakeable s p ->
  returns (wakeup_proc C p s) (fun s' =>
    sched_inv C s' /\ s' = set_procs (procs s') (set_rqs (rqs s') s) /\
    (forall q, wakeable s q -> wakeable s' q) /\
    (exists x, procs s' !! p = Some x /\ state x = PROC_RUNNABLE) /\
    (forall q x, procs s !! q = Some x -> state x = PROC_RUNNABLE ->
       exists x', procs s' !! q = Some x' /\ state x' = PROC_RUNNABLE)).
Proof.
  intros I (x & Hx & Hz & Hw & Hp). assert (Hal : alive s p) by (by exists x).
  eapply returns_mono; [by apply wakeup_alive|]. intros s' (I' & K).
  pose proof K as [O (x0 & x' & H0 & Hx' & Hr & Hpid & _ & _ & Hws)]. assert (x0 = x) as -> by congruence.
  pose proof (only_proc_fields _ _ _ O) as (_ & _ & El & _).
  split_and!; [done|by destruct O| |eauto|intros; by eapply wakes_runnable].
  intros r (y & Hy & Hyz & Hyw & Hyp). unfold wakeable. rewrite El. destruct (decide (r = p)) as [->|Hne].
  - exists x'. rewrite Hr, Hpid. split_and!; try done. assert (y = x) as -> by congruence.
    destruct Hws as [->| ->]; auto.
  - destruct O as [_ O]. rewrite O by done. eauto 10.
Qed.

(** The timers due now: the leading ones with no time left. *)
Fixpoint due (m : gmap Z timer_t) (l : list Z) : list Z :=
  match l with
  | [] => []
  | t :: l => if exp_of m t =? 0 then t :: due m l else []
  end.

Lemma unlinked_zero t l m x :
  m !! t = Some x -> expires x = 0 -> (forall y, y ∈ l -> exists z, m !! y = Some z /\ 0 <= expires z < 2 ^ 32) ->
  unlinked t l m = m.
Proof.
  intros Hx H0 Hs. unfold unlinked. destruct (next_in t l) as [n|] eqn:En; [|done].
  apply next_in_elem in En. destruct (Hs n En) as (xn & Hxn & Hb). rewrite Hxn, (exp_of_some _ _ _ Hx), H0.
  rewrite Z.add_0_r, u32_small by done. rewrite insert_id; [done|]. rewrite Hxn. by destruct xn.
Qed.

(** What one tick leaves alone: everything but the processes, the run queues
    and the timer list; runnable processes stay runnable. *)
Definition woke (s s' : kstate) : Prop :=
  s' = set_procs (procs s') (set_rqs (rqs s') (set_timer_list (timer_list s') s)) /\
  (forall q, wakeable s q -> wakeable s' q) /\
  (forall q x, procs s !! q = Some x -> state x = PROC_RUNNABLE ->
     exists x', procs s' !! q = Some x' /\ state x' = PROC_RUNNABLE).

Lemma woke_trans s1 s2 s3 : woke s1 s2 -> woke s2 s3 -> woke s1 s3.
Proof.
  intros (E1 & W1 & R1) (E2 & W2 & R2). split_and!; [|auto|].
  - rewrite E2, E1. done.
  - intros q x Hq Hx. destruct (R1 q x Hq Hx) as (x1 & H1 & H2). eauto.
Qed.

Lemma expire_one fuel t l s x p :
  sched_inv C s -> timer_list s = t :: l -> timers_wf (timers s) 0 (t :: l) ->
  timers s !! t = Some x -> expires x = 0 -> linux_timer x = None -> tproc x = Some p -> wakeable s p ->
  exists s2, run_timer_loop C linux_fn (S fuel) t s =
      match hd_error l with None => Ok s2 | Some u => run_timer_loop C linux_fn fuel u s2 end /\
    sched_inv C s2 /\ timer_list s2 = l /\ woke s s2 /\
    exists y, procs s2 !! p = Some y /\ state y = PROC_RUNNABLE.
Proof.
  intros I Hl W Hx H0 Hlin Hproc Hwk. cbn [run_timer_loop]. rewrite (fetch_ok _ _ _ Hx). cbn [res_bind].
  rewrite H0. cbn [Z.eqb]. rewrite Hlin, Hproc. pose proof Hwk as (y & Hy & Hz & Hw & Hp).
  unfold get_proc. rewrite (fetch_ok _ _ _ Hy). cbn [res_bind].
  replace ((wait_state y =? 0) || negb (Z.land (wait_state y) WT_INTERRUPTED =? 0)) with true
    by (destruct Hw as [->|Hw]; [done|symmetry; apply orb_true_iff; right; by apply negb_true_iff, Z.eqb_neq]).
  cbn [assert res_bind]. destruct (wakeup_any s p I Hwk) as (s1 & -> & I1 & E1 & Hwk1 & Hr1 & Hrr1).
  assert (Et : timers s1 = timers s) by (rewrite E1; done).
  assert (El : timer_list s1 = timer_list s) by (rewrite E1; done).
  cbn [res_bind]. rewrite del_timer_run; [|by rewrite Et, El, Hl|rewrite El, Hl; left].
  rewrite El, Et, Hl. rewrite (unlinked_zero _ _ _ x); [|done|done|apply W].
  pose proof (proj1 (NoDup_cons _ _) (tw_nodup _ _ _ W)) as [Hni Hnd].
  rewrite filter_cons_False by tauto. rewrite filter_ne_id by done. cbn [next_in res_bind].
  rewrite decide_True by done. eexists; split; [by destruct l|]. split_and!.
  - destruct I1 as [IC II IR IQ]. split; [by apply (sc_inv_frame s1)|done|done|done].
  - done.
  - split_and!; [|done|done]. cbn. rewrite E1. cbn. rewrite <- Et, E1. by destruct s.
  - done.
Qed.

Lemma run_timer_loop_ok l : forall t s fuel,
  sched_inv C s -> timer_list s = t :: l -> timers_wf (timers s) 0 (t :: l) ->
  process_timers s (t :: l) -> (length l < fuel)%nat ->
  returns (run_timer_loop C linux_fn fuel t s) (fun s' =>
    sched_inv C s' /\ woke s s' /\ timer_list s = due (timers s) (t :: l) ++ timer_list s' /\
    (forall u x p, u ∈ due (timers s) (t :: l) -> timers s !! u = Some x -> tproc x = Some p ->
       exists y, procs s' !! p = Some y /\ state y = PROC_RUNNABLE)).
Proof.
  induction l as [|u l IH]; intros t s [|fuel] I Hl W Hpt Hf; try (cbn in Hf; lia);
    destruct (Hpt t) as (x & p & Hx & Hlin & Hproc & Hwk); try (by left);
    pose proof (exp_of_some _ _ _ Hx) as He;
    (destruct (Z.eqb_spec (expires x) 0) as [H0|H0];
     [destruct (expire_one fuel t _ s x p I Hl W Hx H0 Hlin Hproc Hwk) as (s2 & -> & I2 & L2 & K2 & R2)|]);
    try (cbn [run_timer_loop due]; rewrite (fetch_ok _ _ _ Hx); cbn [res_bind];
         rewrite He, (proj2 (Z.eqb_neq _ _) H0); apply returns_ok; split_and!; [done| |done|];
         [split_and!; eauto; by destruct s|intros ? ? ? H%not_elem_of_nil; done]).
  - cbn [hd_error due]. rewrite He, H0. apply returns_ok. split_and!; [done|done|by rewrite L2, Hl|].
    intros v z q Hv%list_elem_of_singleton Hz Hq. subst v. assert (z = x) as -> by congruence.
    assert (q = p) as -> by congruence. done.
  - cbn [hd_error]. assert (Et : timers s2 = timers s) by (destruct K2 as [-> _]; done).
    apply timers_wf_cons in W as (x0 & Hx0 & _ & _ & _ & _ & W). assert (x0 = x) as -> by congruence.
    rewrite H0 in W. cbn in W. eapply returns_mono; [apply (IH u s2 fuel); auto; [by rewrite Et| |cbn in Hf; lia]|].
    + intros v Hv. destruct (Hpt v) as (z & q & Hz & Hzl & Hzp & Hzw); [by right|].
      exists z, q. rewrite Et. split_and!; auto. by apply K2.
    + intros s' (I' & K' & L' & R'). rewrite Et, L2 in L'. rewrite Et in R'.
      change (due (timers s) (t :: u :: l)) with
        (if exp_of (timers s) t =? 0 then t :: due (timers s) (u :: l) else []).
      rewrite He, H0. cbn [Z.eqb]. split_and!; [done|by eapply woke_trans|by rewrite Hl; cbn [app]; f_equal|].
      intros v z q [->|Hv]%elem_of_cons Hz Hq; [|by eapply R'].
      assert (z = x) as -> by congruence. assert (q = p) as -> by congruence.
      destruct R2 as (y & Hy & Hyr). by eapply K'.
Qed.
End RunProofs.

Lemma due_deadlines m l : forall rest,
  timers_wf m 0 l -> l = due m l ++ rest ->
  timers_wf m 0 rest /\
  deadlines m 0 rest = filter (fun d => 0 < d.2) (deadlines m 0 l) /\
  forall t, (t, 0) ∈ deadlines m 0 l -> t ∈ due m l.
Proof.
  induction l as [|t l IH]; intros rest W Hr.
  { destruct rest; [|done]. split_and!; auto. intros ? H%not_elem_of_nil. done. }
  pose proof W as W0. apply timers_wf_cons in W as (x & Hx & Hb & Hni & Hs & He & W).
  cbn [due] in *. rewrite He in *. destruct (Z.eqb_spec (expires x) 0) as [H0|H0].
  - rewrite H0 in W. injection Hr as Hr. destruct (IH rest W Hr) as (W' & D' & E').
    cbn [deadlines]. rewrite He, H0. cbn [Z.add]. split_and!; [done| |].
    + rewrite filter_cons_False by (cbn; lia). done.
    + intros u [[= ->]|Hu]%elem_of_cons; [left|right; auto].
  - cbn in Hr. subst rest. pose proof (tw_range _ _ _ W) as HF.
    assert (Hpos : Forall (fun d => 0 < d.2) (deadlines m 0 (t :: l))).
    { cbn [deadlines]. rewrite He. constructor; [cbn; lia|]. eapply Forall_impl; [exact HF|]. cbn. lia. }
    split_and!; [done| |].
    + symmetry. clear -Hpos. induction Hpos as [|d ds Hd Hds IH]; [done|].
      rewrite filter_cons_True by done. by rewrite IH.
    + intros u Hu. rewrite Forall_forall in Hpos. apply Hpos in Hu. cbn in Hu. lia.
Qed.

Lemma deadlines_shift m acc k l :
  deadlines m (acc + k) l = (fun d => (d.1, d.2 + k)) <$> deadlines m acc l.
Proof.
  revert acc; induction l as [|t l IH]; intros acc; cbn; [done|]. f_equal; [f_equal; lia|].
  rewrite <- IH. f_equal. lia.
Qed.

(** The store [timer->expires --] on the first timer. *)
Lemma tick_ok s t l x :
  timer_inv s -> timer_list s = t :: l -> timers s !! t = Some x ->
  let m := <[t := set_expires (expires x - 1) x]> (timers s) in
  timers_wf m 0 (t :: l) /\
  deadlines m 0 (t :: l) = (fun d => (d.1, d.2 - 1)) <$> deadlines (timers s) 0 (t :: l) /\ 0 < expires x.
Proof.
  intros [W HF] Hl Hx m. rewrite Hl in *. pose proof HF as HF0. cbn [deadlines] in HF.
  apply timers_wf_cons in W as (x0 & Hx0 & Hb & Hni & Hs & He & W). assert (x0 = x) as -> by congruence.
  rewrite He in HF. apply Forall_cons in HF as [Hpos HF]. cbn in Hpos.
  assert (Hm : m !! t = Some (set_expires (expires x - 1) x)) by apply lookup_insert_eq.
  assert (Hext : forall y, y ∈ l -> m !! y = timers s !! y)
    by (intros y Hy; apply lookup_insert_ne; congruence).
  assert (D : deadlines m 0 (t :: l) = (fun d => (d.1, d.2 - 1)) <$> deadlines (timers s) 0 (t :: l)).
  { cbn [deadlines fmap list_fmap]. rewrite He, (exp_of_some _ _ _ Hm). cbn. f_equal.
    rewrite (deadlines_ext (timers s) m) by done.
    apply (deadlines_shift _ _ (-1)). }
  split_and!; [|done|lia]. split.
  - apply NoDup_cons. split; [done|apply W].
  - intros y [->|Hy]%elem_of_cons.
    + eexists; split; [exact Hm|]. cbn. lia.
    + rewrite Hext by done. by apply W.
  - rewrite D. apply Forall_fmap, Forall_forall. intros d Hd. cbn.
    rewrite Forall_forall in HF0. pose proof (HF0 d Hd). cbn [deadlines] in Hd. rewrite He in Hd.
    apply elem_of_cons in Hd as [->|Hd]; [cbn; lia|].
    pose proof (tw_range _ _ _ W) as HR. rewrite Forall_forall in HR. apply HR in Hd. lia.
Qed.

Section TickProofs.
Context (C : sched_class) `{OK : !SchedClassOk C}.
Context (linux_fn : Z -> kstate -> res kstate).

(** The scheduling part of the tick. *)
Lemma proc_tick_ok s :
  sched_inv C s ->
  returns (sched_class_proc_tick C (current s) s) (fun s' =>
    sched_inv C s' /\ s' = set_procs (procs s') s /\
    forall p, state <$> procs s' !! p = state <$> procs s !! p).
Proof.
  intros I. destruct (si_cur _ _ I) as [[c Hc] Hn]. unfold sched_class_proc_tick. case_decide as Hi.
  - rewrite (upd_proc_ok _ _ _ _ Hc). apply returns_ok. split_and!; [|by destruct s|].
    + eapply sched_inv_upd; eauto. congruence.
    + intros p. cbn. destruct (decide (p = current s)) as [->|]; [by rewrite lookup_insert_eq, Hc|by rewrite lookup_insert_ne].
  - eapply returns_mono; [by apply (sc_tick_ok s (current s) c); auto; apply I|].
    intros s' (C' & Hq & t & b & E & _). rewrite E in *. split_and!; [|by destruct s|].
    + destruct I as [IC II IR IQ]. split; [done| | |]; cbn [procs idleproc current lcpu_count set_procs].
      * destruct II; split; [|done]. apply lookup_insert_is_Some'. auto.
      * split; [|done]. apply lookup_insert_is_Some'. auto.
      * intros p Hp. assert (p <> current s) by (intros ->; change (on_rq (current s) s = true) in Hp; congruence).
        rewrite lookup_insert_ne by done. by apply IQ.
    + intros p. cbn. destruct (decide (p = current s)) as [->|]; [by rewrite lookup_insert_eq, Hc|by rewrite lookup_insert_ne].
Qed.

End TickProofs.

(** ** Properties *)

(** C22: [add_timer] is a sorted insertion by absolute expiry time: a fresh timer
    with timeout [e] is linked behind every timer that expires no later and
    before the others, the expiry times of all other timers stay what they
    were, the subtractions on the delta fields never wrap, and [del_timer]
    then gives back the previous expiry times. *)
Theorem add_timer_spec s t x :
  timer_inv s -> t ∉ timer_list s -> timers s !! t = Some x -> 0 < expires x < 2 ^ 32 ->
  is_Some (tproc x) ->
  returns (add_timer t s) (fun s' =>
    timer_inv s' /\ same_payload (timers s) (timers s') /\
    s' = set_timer_list (timer_list s') (set_timers (timers s') s) /\
    inserted (t, expires x) (deadlines (timers s) 0 (timer_list s)) (deadlines (timers s') 0 (timer_list s')) /\
    returns (del_timer t s') (fun s'' =>
      deadlines (timers s'') 0 (timer_list s'') = deadlines (timers s) 0 (timer_list s))).
Proof.
  intros I Hni Hx He Hp. eapply returns_mono; [by apply add_timer_ok|].
  intros s' (I' & P' & E' & Hin). split_and!; auto. eapply returns_mono; [by apply del_timer_ok|].
  intros s'' (_ & _ & _ & ->). destruct Hin as (l1 & l2 & Hd & -> & _). rewrite Hd.
  assert (Hn : forall d, d ∈ l1 ++ l2 -> d.1 <> t).
  { intros d Hdl <-. apply Hni. rewrite <- (deadlines_fst (timers s) 0). rewrite Hd. by apply list_elem_of_fmap_2. }
  rewrite !filter_app, filter_cons_False by (cbn; tauto). rewrite <- filter_app.
  clear -Hn. induction (l1 ++ l2) as [|d l IH]; [done|].
  rewrite filter_cons_True by (apply Hn; left). rewrite IH; [done|]. intros; apply Hn. by right.
Qed.

(** [del_timer] unlinks a timer without moving the expiry time of any other
    timer (its delta goes to the successor, without overflow), and does
    nothing when the timer is not queued. *)
Theorem del_timer_spec s t :
  timer_inv s ->
  returns (del_timer t s) (fun s' =>
    timer_inv s' /\ same_payload (timers s) (timers s') /\
    s' = set_timer_list (timer_list s') (set_timers (timers s') s) /\
    deadlines (timers s') 0 (timer_list s') =
      filter (fun d => d.1 <> t) (deadlines (timers s) 0 (timer_list s))).
Proof. apply del_timer_ok. Qed.


(** A due Linux timer breaks the tick: whatever its callback does, the loop
    frees the timer and then reads [timer->expires] of the freed block again
    ([continue] leaves [timer] where it was). *)
Theorem linux_timer_use_after_free (C : sched_class) linux_fn s t l x data :
  timer_list s = t :: l -> timers s !! t = Some x -> expires x = 1 -> linux_timer x = Some data ->
  run_timer_list C linux_fn s = Panic.
Proof.
  intros Hl Hx He Hd. unfold run_timer_list. rewrite Hl. cbn [hd_error]. rewrite (fetch_ok _ _ _ Hx).
  cbn [res_bind]. rewrite He. cbn [Z.eqb negb assert res_bind]. rewrite (store_expires_ok _ _ _ _ Hx).
  cbn [res_bind timer_list set_timers]. rewrite Hl. cbn [length run_timer_loop timers set_timers].
  unfold fetch at 1. rewrite lookup_insert_eq. cbn [res_bind expires set_expires linux_timer Z.eqb Z.sub].
  rewrite Hd. cbn. destruct (linux_fn data _) as [s2|]; [|done]. cbn [res_bind].
  destruct (del_timer t s2) as [s3|]; [|done]. cbn [res_bind timers set_timers].
  unfold fetch. by rewrite lookup_delete_eq.
Qed.

(** [__ucore_add_timer] never succeeds: it initialises the timer with a null
    process, which [add_timer] refuses by an assertion. *)
Theorem ucore_add_timer_panics t lt exp s : __ucore_add_timer t lt exp s = Panic.
Proof.
  destruct t as [t|]; [|done]. unfold __ucore_add_timer, timer_init. cbn [timers set_timers].
  unfold fetch at 1. rewrite lookup_insert_eq. cbn [res_bind expires tproc]. unfold add_timer. cbn [timers set_timers].
  unfold fetch at 1. rewrite lookup_insert_eq. cbn [res_bind expires tproc].
  rewrite (bool_decide_false (is_Some None)) by (by intros []). by rewrite andb_false_r.
Qed.

(** *** Witnesses *)

Definition demo_timers : kstate :=
  set_timer_list [100; 101]
    (set_timers (list_to_map [(100, mk_timer 1 (Some 13) None); (101, mk_timer 2 (Some 12) None);
                              (102, mk_timer 2 (Some 13) None)]) demo).

Lemma demo_timer_inv : timer_inv demo_timers.
Proof.
  split; [split|].
  - apply (bool_decide_unpack _). by vm_compute.
  - intros t [->|[->|H%not_elem_of_nil]%elem_of_cons]%elem_of_cons; [| |done]; (eexists; split; [reflexivity|done]).
  - apply (bool_decide_unpack _). by vm_compute.
  - apply (bool_decide_unpack _). by vm_compute.
Qed.

Lemma demo_timers_sched : sched_inv MLFQ_sched_class demo_timers.
Proof. destruct demo_MLFQ as [IC II IR IQ]. split; [by apply (sc_inv_frame demo)|done..]. Qed.

Lemma add_timer_spec_witness :
  returns (add_timer 102 demo_timers) (fun s' =>
    timer_inv s' /\ inserted (102, 2) [(100, 1); (101, 3)] (deadlines (timers s') 0 (timer_list s'))).
Proof.
  eapply returns_mono.
  - apply (add_timer_spec demo_timers 102 (mk_timer 2 (Some 13) None)); [apply demo_timer_inv| |done|done|eauto].
    apply (bool_decide_unpack _). by vm_compute.
  - intros s' (H1 & _ & _ & H2 & _). by split.
Defined.

Lemma del_timer_spec_witness :
  returns (del_timer 100 demo_timers) (fun s' => deadlines (timers s') 0 (timer_list s') = [(101, 3)]).
Proof.
  eapply returns_mono; [apply (del_timer_spec demo_timers 100), demo_timer_inv|].
  intros s' (_ & _ & _ & ->). reflexivity.
Defined.


Lemma linux_timer_use_after_free_witness :
  run_timer_list MLFQ_sched_class (fun _ s => Ok s)
    (set_timer_list [100] (set_timers {[100 := mk_timer 1 None (Some 7)]} demo)) = Panic.
Proof.
  apply (linux_timer_use_after_free _ _ _ 100 [] (mk_timer 1 None (Some 7)) 7); reflexivity.
Defined.
