(* ===== verification/Resume.v ===== *)
(** * Resume: kernel code that blocks

    A kernel function that may call [schedule] is modelled as a resumption: it
    runs to completion, or up to the call of [schedule], where it hands over
    the state the other processes see and a continuation.  The continuation is
    applied to the state in which this process is dispatched again; nothing is
    assumed about it here, the theorems state what they need of it.

    [sys E] is the kernel state with the objects a component adds to it. *)
From S2P Require Import Prelude KState Sched.

Inductive run (S A : Type) : Type :=
| Done (a : A) (s : S)
| Sleep (s : S) (k : S -> res (run S A)).
Arguments Done {S A} a s.
Arguments Sleep {S A} s k.

Definition code (S A : Type) : Type := S -> res (run S A).

Fixpoint run_bind {S A B} (r : run S A) (f : A -> code S B) : res (run S B) :=
  match r with
  | Done a s => f a s
  | Sleep s k => Ok (Sleep s (fun s' =>
      match k s' with
      | Ok r' => run_bind r' f
      | Panic => Panic
      end))
  end.

Definition ret {S A} (a : A) : code S A := fun s => Ok (Done a s).
Definition bind {S A B} (m : code S A) (f : A -> code S B) : code S B :=
  fun s => let* r := m s in run_bind r f.

Notation "'do' x <- m ; k" := (bind m (fun x => k))
  (at level 10, x pattern, m at level 99, k at level 200) : ucore_scope.
Notation "'do_' m ; k" := (bind m (fun _ => k))
  (at level 10, m at level 99, k at level 200) : ucore_scope.
Notation "'check' b ; k" := (bind (fun s => assert! b ;; ret tt s) (fun _ => k))
  (at level 10, b at level 99, k at level 200) : ucore_scope.

Record sys (E : Type) := mk_sys { ks : kstate; ext : E }.
Arguments mk_sys {E} ks ext.
Arguments ks {E} s.
Arguments ext {E} s.

(** A function of the kernel state, as code. *)
Definition atomic {E A} (f : kstate -> res (A * kstate)) : code (sys E) A :=
  fun s => let* (a, k) := f (ks s) in Ok (Done a (mk_sys k (ext s))).
Definition update {E} (f : kstate -> res kstate) : code (sys E) unit :=
  fun s => let* k := f (ks s) in Ok (Done tt (mk_sys k (ext s))).
Definition get {E} : code (sys E) (sys E) := fun s => Ok (Done s s).
Definition modify {E} (f : E -> E) : code (sys E) unit :=
  fun s => Ok (Done tt (mk_sys (ks s) (f (ext s)))).
Definition lift {S A} (r : res A) : code S A := fun s => let* a := r in Ok (Done a s).

(** [schedule()] in the middle of a function. *)
Definition yield {E} (C : sched_class) : code (sys E) unit :=
  fun s => let* k := schedule C (ks s) in Ok (Sleep (mk_sys k (ext s)) (fun s' => Ok (Done tt s'))).

(** [finishes r P]: the code ran to its end without blocking, and its result
    satisfies [P]. *)
Definition finishes {S A} (r : res (run S A)) (P : A -> S -> Prop) : Prop :=
  exists a s', r = Ok (Done a s') /\ P a s'.

(** [blocks r P Q]: the code blocks in a state that satisfies [P]; resumed in a
    state [s'] it continues as [Q s'] says. *)
Definition blocks {S A} (r : res (run S A)) (P : S -> Prop) (Q : S -> res (run S A) -> Prop) : Prop :=
  exists s1 k, r = Ok (Sleep s1 k) /\ P s1 /\ forall s', Q s' (k s').

Section Rules.
Context {S A B : Type}.

Lemma bind_done (m : code S A) (f : A -> code S B) s a s' :
  m s = Ok (Done a s') -> bind m f s = f a s'.
Proof. unfold bind. by intros ->. Qed.

Lemma finishes_bind (m : code S A) (f : A -> code S B) s P Q :
  finishes (m s) P -> (forall a s', P a s' -> finishes (f a s') Q) -> finishes (bind m f s) Q.
Proof. intros (a & s' & E & H) Hf. rewrite (bind_done _ _ _ _ _ E). by apply Hf. Qed.

Lemma blocks_bind (m : code S A) (f : A -> code S B) s P Q R :
  finishes (m s) P -> (forall a s', P a s' -> blocks (f a s') Q R) -> blocks (bind m f s) Q R.
Proof. intros (a & s' & E & H) Hf. rewrite (bind_done _ _ _ _ _ E). by apply Hf. Qed.

(** What a blocked function does before it blocks is not affected by what
    follows it. *)
Lemma blocks_then (m : code S A) (f : A -> code S B) s P Q R :
  blocks (m s) P Q -> (forall s' r, Q s' r -> R s' (let* r := r in run_bind r f)) ->
  blocks (bind m f s) P R.
Proof.
  intros (s1 & k & E & HP & HQ) HR. unfold bind. rewrite E. cbn.
  do 2 eexists; split; [done|]. split; [done|]. intros s'. apply (HR s' (k s') (HQ s')).
Qed.

Lemma finishes_ret (a : A) (s : S) (P : A -> S -> Prop) : P a s -> finishes (ret a s) P.
Proof. intros H. exists a, s. by split. Qed.

Lemma finishes_mono (r : res (run S A)) (P Q : A -> S -> Prop) :
  finishes r P -> (forall a s', P a s' -> Q a s') -> finishes r Q.
Proof. intros (a & s' & E & H) HPQ. exists a, s'. auto. Qed.

Lemma finishes_lift (r : res A) (s : S) (P : A -> S -> Prop) :
  returns r (fun a => P a s) -> finishes (lift r s) P.
Proof. intros (a & E & H). exists a, s. unfold lift. by rewrite E. Qed.

End Rules.

Lemma finishes_update {E} (f : kstate -> res kstate) (s : sys E) (P : unit -> sys E -> Prop) :
  returns (f (ks s)) (fun k => P tt (mk_sys k (ext s))) -> finishes (update f s) P.
Proof. intros (k & E1 & H). exists tt, (mk_sys k (ext s)). unfold update. by rewrite E1. Qed.

Lemma finishes_atomic {E A} (f : kstate -> res (A * kstate)) (s : sys E) (P : A -> sys E -> Prop) :
  returns (f (ks s)) (fun ak => P ak.1 (mk_sys ak.2 (ext s))) -> finishes (atomic f s) P.
Proof. intros ([a k] & E1 & H). exists a, (mk_sys k (ext s)). unfold atomic. by rewrite E1. Qed.

Lemma blocks_yield {E A} (C : sched_class) (f : unit -> code (sys E) A) s P R :
  returns (schedule C (ks s)) (fun k => P (mk_sys k (ext s))) ->
  (forall s', R s' (f tt s')) -> blocks (bind (yield C) f s) P R.
Proof.
  intros (k & E1 & H) HR. unfold bind, yield. rewrite E1. cbn. do 2 eexists; split; [done|]. by split.
Qed.

Lemma bind_get {E A} (f : sys E -> code (sys E) A) s : bind get f s = f s s.
Proof. done. Qed.

Lemma bind_lift {S A B} (a : A) (f : A -> code S B) s : bind (lift (Ok a)) f s = f a s.
Proof. done. Qed.
