(* ===== verification/Wait.v ===== *)
(** * Wait: wait queues (sync/wait.c, sync/wait.h)

    A [wait_t] stands for one blocked process.  A wait queue is the sequence of
    the [wait_t] addresses on its ring, in FIFO order. *)
From S2P Require Import Prelude KState Sched.

(** [!list_empty(&(wait->wait_link))]: the wait is linked on some queue. *)
Definition linked (w : Z) (s : kstate) : bool :=
  existsb (fun ql : Z * list Z => bool_decide (w ∈ ql.2)) (map_to_list (wqs s)).

Definition upd_wait (w : Z) (x : wait_t) (s : kstate) : kstate := set_waits (<[w := x]> (waits s)) s.

(** [wait_init]: [wait->wait_queue] is left as it is.  Re-initialising the link
    of a queued wait would corrupt the ring. *)
Definition wait_init (w p : Z) (s : kstate) : res kstate :=
  if linked w s then Panic else
  Ok (upd_wait w (mk_wait p WT_INTERRUPTED (from_option wait_queue 0 (waits s !! w))) s).

Definition wait_queue_init (q : Z) (s : kstate) : kstate := set_wqs (<[q := []]> (wqs s)) s.

Definition wait_queue_add (q w : Z) (s : kstate) : res kstate :=
  assert! negb (linked w s) ;;
  let* x := fetch (waits s) w in
  let s := upd_wait w (mk_wait (wproc x) (wakeup_flags x) q) s in
  let* l := fetch (wqs s) q in
  Ok (set_wqs (<[q := l ++ [w]]> (wqs s)) s).

(** [list_del_init(&(wait->wait_link))] *)
Definition unlink_wait (w : Z) (s : kstate) : kstate :=
  set_wqs ((fun l => filter (fun x => x <> w) l) <$> wqs s) s.

Definition wait_queue_del (q w : Z) (s : kstate) : res kstate :=
  let* x := fetch (waits s) w in
  assert! linked w s && (wait_queue x =? q) ;;
  Ok (unlink_wait w s).

(** Neighbours on a ring; [None] is the head. *)
Fixpoint ring_next (w : Z) (l : list Z) : option Z :=
  match l with
  | [] => None
  | x :: l => if decide (x = w) then hd_error l else ring_next w l
  end.

Definition wait_queue_next (q w : Z) (s : kstate) : res (option Z) :=
  let* x := fetch (waits s) w in
  assert! linked w s && (wait_queue x =? q) ;;
  let* l := fetch (wqs s) q in Ok (ring_next w l).

Definition wait_queue_prev (q w : Z) (s : kstate) : res (option Z) :=
  let* x := fetch (waits s) w in
  assert! linked w s && (wait_queue x =? q) ;;
  let* l := fetch (wqs s) q in Ok (ring_next w (rev l)).

Definition wait_queue_first (q : Z) (s : kstate) : res (option Z) :=
  let* l := fetch (wqs s) q in Ok (hd_error l).

Definition wait_queue_last (q : Z) (s : kstate) : res (option Z) :=
  let* l := fetch (wqs s) q in Ok (last l).

Definition wait_queue_empty (q : Z) (s : kstate) : res bool :=
  let* l := fetch (wqs s) q in Ok (bool_decide (l = [])).

Definition wait_in_queue (w : Z) (s : kstate) : bool := linked w s.

Section Wakeup.
Context (C : sched_class).

Definition wakeup_wait (q w flags : Z) (del : bool) (s : kstate) : res kstate :=
  let* s := if del then wait_queue_del q w s else Ok s in
  let* x := fetch (waits s) w in
  let s := upd_wait w (mk_wait (wproc x) flags (wait_queue x)) s in
  wakeup_proc C (wproc x) s.

Definition wakeup_first (q flags : Z) (del : bool) (s : kstate) : res kstate :=
  let* wait := wait_queue_first q s in
  match wait with
  | Some w => wakeup_wait q w flags del s
  | None => Ok s
  end.

(** [do { wakeup_wait(.., 1) } while ((wait = wait_queue_first(queue)) != NULL)] *)
Fixpoint wakeup_queue_del (fuel : nat) (q w flags : Z) (s : kstate) : res kstate :=
  match fuel with
  | O => Panic
  | S fuel =>
      let* s := wakeup_wait q w flags true s in
      let* wait := wait_queue_first q s in
      match wait with
      | Some w => wakeup_queue_del fuel q w flags s
      | None => Ok s
      end
  end.

(** [do { wakeup_wait(.., 0) } while ((wait = wait_queue_next(queue, wait)) != NULL)] *)
Fixpoint wakeup_queue_keep (fuel : nat) (q w flags : Z) (s : kstate) : res kstate :=
  match fuel with
  | O => Panic
  | S fuel =>
      let* s := wakeup_wait q w flags false s in
      let* wait := wait_queue_next q w s in
      match wait with
      | Some w => wakeup_queue_keep fuel q w flags s
      | None => Ok s
      end
  end.

Definition wakeup_queue (q flags : Z) (del : bool) (s : kstate) : res kstate :=
  let* l := fetch (wqs s) q in
  let* wait := wait_queue_first q s in
  match wait with
  | Some w => if del then wakeup_queue_del (length l) q w flags s
              else wakeup_queue_keep (length l) q w flags s
  | None => Ok s
  end.

End Wakeup.

Definition wait_current_set (q w wstate : Z) (s : kstate) : res kstate :=
  let* s := wait_init w (current s) s in
  let* s := upd_proc (current s) (set_state PROC_SLEEPING) s in
  let* s := upd_proc (current s) (set_wait_state wstate) s in
  wait_queue_add q w s.

(** The macro [wait_current_del]. *)
Definition wait_current_del (q w : Z) (s : kstate) : res kstate :=
  if wait_in_queue w s then wait_queue_del q w s else Ok s.

(** ** Well-formed wait queues *)

Record wait_inv (s : kstate) : Prop := {
  wi_nodup : forall q l, wqs s !! q = Some l -> NoDup l;
  wi_wait : forall q l w, wqs s !! q = Some l -> w ∈ l ->
    exists x, waits s !! w = Some x /\ wait_queue x = q /\ alive s (wproc x)
}.

Lemma linked_spec w s : linked w s = true <-> exists q l, wqs s !! q = Some l /\ w ∈ l.
Proof.
  unfold linked. rewrite existsb_exists. split.
  - intros ([q l] & Hin & Hb). apply list_elem_of_In, elem_of_map_to_list in Hin.
    apply bool_decide_eq_true in Hb. eauto.
  - intros (q & l & Hq & Hw). exists (q, l). rewrite bool_decide_eq_true. split; [|done].
    apply list_elem_of_In. by apply elem_of_map_to_list.
Qed.

Lemma linked_false w s : linked w s = false <-> forall q l, wqs s !! q = Some l -> w ∉ l.
Proof.
  rewrite <- not_true_iff_false, linked_spec. split.
  - intros H q l Hq Hw. apply H; eauto.
  - intros H (q & l & Hq & Hw). by eapply H.
Qed.

(** On a well-formed state a wait is on one queue only, so unlinking touches
    that queue only. *)
Lemma unlink_wait_eq s q l w :
  wait_inv s -> wqs s !! q = Some l -> w ∈ l ->
  unlink_wait w s = set_wqs (<[q := filter (fun x => x <> w) l]> (wqs s)) s.
Proof.
  intros I Hq Hw. unfold unlink_wait. f_equal. apply map_eq. intros i. rewrite lookup_fmap.
  destruct (decide (i = q)) as [->|Hne]; [by rewrite Hq, lookup_insert_eq|].
  rewrite lookup_insert_ne by done. destruct (wqs s !! i) as [li|] eqn:Hi; [|done]. cbn. f_equal.
  apply filter_ne_id. intros Hwi. destruct (wi_wait _ I q l w Hq Hw) as (x & Hx & E & _).
  destruct (wi_wait _ I i li w Hi Hwi) as (x' & Hx' & E' & _). congruence.
Qed.

Lemma wait_queue_del_ok s q l w :
  wait_inv s -> wqs s !! q = Some l -> w ∈ l ->
  wait_queue_del q w s = Ok (set_wqs (<[q := filter (fun x => x <> w) l]> (wqs s)) s).
Proof.
  intros I Hq Hw. unfold wait_queue_del. destruct (wi_wait _ I q l w Hq Hw) as (x & Hx & E & _).
  rewrite (fetch_ok _ _ _ Hx). cbn [res_bind]. rewrite (proj2 (linked_spec w s)) by eauto.
  rewrite E, Z.eqb_refl. cbn. by rewrite (unlink_wait_eq s q l w).
Qed.

Lemma wait_inv_del s q l w :
  wait_inv s -> wqs s !! q = Some l -> wait_inv (set_wqs (<[q := filter (fun x => x <> w) l]> (wqs s)) s).
Proof.
  intros I Hq. split; cbn [wqs waits set_wqs].
  - intros q' l' [[<- <-]|[Hne Hq']]%lookup_insert_Some; [|by eapply wi_nodup].
    apply NoDup_filter. by eapply wi_nodup.
  - intros q' l' v [[<- <-]|[Hne Hq']]%lookup_insert_Some Hv; [|by eapply (wi_wait _ I)].
    apply list_elem_of_filter in Hv as [_ Hv]. by eapply (wi_wait _ I).
Qed.

(** The invariant reads processes only through [alive]. *)
Lemma wait_inv_frame s s' :
  wqs s' = wqs s -> (forall w, waits s' !! w = waits s !! w \/
     exists x f, waits s !! w = Some x /\ waits s' !! w = Some (mk_wait (wproc x) f (wait_queue x))) ->
  (forall p, alive s p -> alive s' p) -> wait_inv s -> wait_inv s'.
Proof.
  intros Eq Ew Hp I. split; rewrite Eq; [apply I|]. intros q l w Hq Hw.
  destruct (wi_wait _ I q l w Hq Hw) as (x & Hx & E & Hwt). destruct (Ew w) as [Hs|(x' & f & Hx' & Hs)]; rewrite Hs.
  - exists x. auto.
  - assert (x' = x) as -> by congruence. eexists; split; [done|]. cbn. auto.
Qed.

(** [wqs], [waits] and [procs] are independent. *)
Lemma wakes_fields p s s' : wakes p s s' ->
  wqs s' = wqs s /\ waits s' = waits s /\ sems s' = sems s /\ timers s' = timers s /\
  timer_list s' = timer_list s /\ current s' = current s.
Proof. intros [O _]. pose proof (only_proc_fields _ _ _ O) as (? & ? & ? & ? & ? & ? & ? & ? & _). by split_and!. Qed.

(** The processor and the processes are the same, up to what waking changes. *)
Definition same_cpu (s s' : kstate) : Prop :=
  current s' = current s /\ idleproc s' = idleproc s /\ lcpu_count s' = lcpu_count s /\
  forall p, pid <$> procs s' !! p = pid <$> procs s !! p.

Lemma same_cpu_trans s1 s2 s3 : same_cpu s1 s2 -> same_cpu s2 s3 -> same_cpu s1 s3.
Proof. intros (A1 & B1 & D1 & P1) (A2 & B2 & D2 & P2). split_and!; try congruence. Qed.

Lemma wakes_cpu p s s' : wakes p s s' -> same_cpu s s'.
Proof.
  intros [O (x & x' & Hx & Hx' & _ & Hp & _)]. pose proof (only_proc_fields _ _ _ O) as (A & B & D & _).
  split_and!; try done. intros q. destruct (decide (q = p)) as [->|Hne]; [by rewrite Hx, Hx'; cbn; rewrite Hp|].
  destruct O as [_ O]. by rewrite O.
Qed.

Section WakeupProofs.
Context (C : sched_class) `{OK : !SchedClassOk C}.

(** The state in which [wakeup_wait] wakes the process. *)
Definition released (q w flags : Z) (x : wait_t) (l : list Z) (s : kstate) : kstate :=
  upd_wait w (mk_wait (wproc x) flags q) (set_wqs (<[q := filter (fun y => y <> w) l]> (wqs s)) s).

Lemma wakeup_wait_ok s q w l x flags :
  sched_inv C s -> wait_inv s -> wqs s !! q = Some l -> w ∈ l -> waits s !! w = Some x ->
  returns (wakeup_wait C q w flags true s) (fun s' =>
    sched_inv C s' /\ wait_inv s' /\ wakes (wproc x) (released q w flags x l s) s').
Proof.
  intros I W Hq Hw Hx. destruct (wi_wait _ W q l w Hq Hw) as (x0 & Hx0 & Eq & Hal).
  assert (x0 = x) as -> by congruence.
  unfold wakeup_wait. rewrite (wait_queue_del_ok s q l w) by done. cbn [res_bind waits set_wqs].
  rewrite (fetch_ok _ _ _ Hx). cbn [res_bind]. rewrite Eq. fold (released q w flags x l s).
  eapply returns_mono; [apply wakeup_alive; [by apply (sched_inv_frame C _ s)|exact Hal]|].
  intros s' (I' & K). split_and!; [done| |done]. pose proof (wakes_fields _ _ _ K) as (E1 & E2 & _).
  apply (wait_inv_frame (set_wqs (<[q := filter (fun y => y <> w) l]> (wqs s)) s)); [done| | |by apply wait_inv_del].
  - intros v. rewrite E2. cbn. destruct (decide (v = w)) as [->|]; [|by left; rewrite lookup_insert_ne].
    right. exists x, flags. by rewrite Hx, lookup_insert_eq, Eq.
  - intros p Hp. eapply wakes_alive; [exact K|]. exact Hp.
Qed.

Lemma wakeup_queue_del_ok l : forall w s fuel q flags,
  sched_inv C s -> wait_inv s -> wqs s !! q = Some (w :: l) -> (length l < fuel)%nat ->
  returns (wakeup_queue_del C fuel q w flags s) (fun s' =>
    sched_inv C s' /\ wait_inv s' /\ wqs s' = <[q := []]> (wqs s) /\
    (forall p, alive s p -> alive s' p) /\
    (forall p x, procs s !! p = Some x -> state x = PROC_RUNNABLE ->
       exists x', procs s' !! p = Some x' /\ state x' = PROC_RUNNABLE) /\
    (forall v x, v ∉ w :: l -> waits s !! v = Some x -> waits s' !! v = Some x) /\
    (forall v x, v ∈ w :: l -> waits s !! v = Some x ->
       waits s' !! v = Some (mk_wait (wproc x) flags q) /\
       exists y, procs s' !! wproc x = Some y /\ state y = PROC_RUNNABLE) /\
    sems s' = sems s /\ timers s' = timers s /\ timer_list s' = timer_list s /\ same_cpu s s').
Proof.
  induction l as [|u l IH]; intros w s [|fuel] q flags I W Hq Hf; try (cbn in Hf; lia);
    cbn [wakeup_queue_del]; pose proof (wi_nodup _ W _ _ Hq) as Hnd;
    destruct (wi_wait _ W q _ w Hq) as (x & Hx & Eq & Hal); try (by left);
    (eapply returns_bind; [eapply wakeup_wait_ok; eauto; left|]); intros s1 (I1 & W1 & K);
    pose proof (wakes_fields _ _ _ K) as (Ew & Ea & Es & Et & El & _);
    cbn [wqs waits sems timers timer_list released upd_wait set_waits set_wqs] in Ew, Ea, Es, Et, El;
    rewrite filter_head_NoDup in Ew by done; unfold wait_queue_first;
    rewrite Ew; unfold fetch at 1; rewrite lookup_insert_eq; cbn [res_bind hd_error];
    pose proof K as [_ (y0 & y & _ & Hy & Hyr & _)]; pose proof (wakes_cpu _ _ _ K) as Hcpu.
  - apply returns_ok. rewrite Ea. split_and!; auto.
    + intros p Hp. apply (wakes_alive _ _ _ _ K). exact Hp.
    + intros p z Hz Hzr. exact (wakes_runnable _ _ _ p z K Hz Hzr).
    + intros v z [Hv _]%not_elem_of_cons Hz. by rewrite lookup_insert_ne.
    + intros v z Hv%list_elem_of_singleton Hz. subst v. assert (z = x) as -> by congruence.
      rewrite lookup_insert_eq. eauto.
  - eapply returns_mono; [apply (IH u s1 fuel q flags); auto; [by rewrite Ew, lookup_insert_eq|cbn in Hf; lia]|].
    intros s' (I' & W' & Eq' & A' & R' & F' & G' & S1' & S2' & S3' & S4'). apply NoDup_cons in Hnd as [Hni Hnd]. split_and!; auto.
    + by rewrite Eq', Ew, insert_insert_eq.
    + intros p Hp. apply A', (wakes_alive _ _ _ _ K). exact Hp.
    + intros p z Hz Hzr. destruct (wakes_runnable _ _ _ p z K Hz Hzr) as (z' & ? & ?). eauto.
    + intros v z [Hv Hvl]%not_elem_of_cons Hz. apply F'; [done|]. by rewrite Ea, lookup_insert_ne.
    + intros v z [->|Hv]%elem_of_cons Hz.
      * assert (z = x) as -> by congruence. split.
        -- apply F'; [done|]. by rewrite Ea, lookup_insert_eq.
        -- eauto.
      * apply G'; [done|]. rewrite Ea, lookup_insert_ne; [done|]. intros ->. done.
    + congruence.
    + congruence.
    + congruence.
    + eapply same_cpu_trans; [exact Hcpu|exact S4'].
Qed.

End WakeupProofs.

(** ** Properties *)

(** [wakeup_queue(queue, flags, 1)] empties the queue and only that queue:
    every waiter is unlinked, finds [flags] in its [wait_t] and is runnable;
    no other wait is touched, and the loop terminates. *)
Theorem wakeup_queue_spec (C : sched_class) (OK : SchedClassOk C) s q l flags :
  sched_inv C s -> wait_inv s -> wqs s !! q = Some l ->
  returns (wakeup_queue C q flags true s) (fun s' =>
    sched_inv C s' /\ wait_inv s' /\ wqs s' = <[q := []]> (wqs s) /\
    (forall v x, v ∉ l -> waits s !! v = Some x -> waits s' !! v = Some x) /\
    (forall v x, v ∈ l -> waits s !! v = Some x ->
       waits s' !! v = Some (mk_wait (wproc x) flags q) /\
       exists y, procs s' !! wproc x = Some y /\ state y = PROC_RUNNABLE)).
Proof.
  intros I W Hq. unfold wakeup_queue, wait_queue_first. rewrite (fetch_ok _ _ _ Hq). cbn [res_bind].
  destruct l as [|w l]; cbn [hd_error].
  - apply returns_ok. split_and!; auto; [by rewrite insert_id|]. intros v x Hv%not_elem_of_nil; done.
  - eapply returns_mono; [apply (wakeup_queue_del_ok C l w); auto; cbn; lia|].
    intros s' (? & ? & ? & _ & _ & ? & ? & _). by split_and!.
Qed.

Definition demo_wait : kstate :=
  set_wqs {[512 := [600]]} (set_waits {[600 := mk_wait 13 WT_INTERRUPTED 512]} demo).

Lemma wakeup_queue_spec_witness :
  returns (wakeup_queue MLFQ_sched_class 512 WT_PIPE true demo_wait) (fun s' => wqs s' = {[512 := []]}).
Proof.
  eapply returns_mono.
  - apply (wakeup_queue_spec MLFQ_sched_class MLFQ_class_ok demo_wait 512 [600] WT_PIPE); [| |done].
    + apply (sched_inv_frame _ _ demo); try done. apply demo_MLFQ.
    + split; cbn [wqs waits demo_wait set_wqs set_waits].
      * intros q l [<- <-]%lookup_singleton_Some. apply NoDup_singleton.
      * intros q l w [<- <-]%lookup_singleton_Some Hw%list_elem_of_singleton. subst w.
        eexists; split; [apply lookup_singleton_eq|]. split; [done|]. eexists; split; [reflexivity|]. by split.
  - intros s' (_ & _ & -> & _). apply insert_singleton_eq.
Defined.
