(* ===== verification/Sem.v ===== *)
(** * Sem: kernel and user semaphores (sync/sem.c, sync/sem.h)

    [__up] wakes the first waiter and hands the unit over to it, or increments
    the value when nobody waits.  [__down] takes a unit or blocks; it is
    written with the resumption monad of [Resume]. *)
From S2P Require Import Prelude KState Sched Timer Resume Wait.

Definition put_sem (a : Z) (x : semaphore) (s : kstate) : kstate := set_sems (<[a := x]> (sems s)) s.
Definition with_value (v : Z) (x : semaphore) : semaphore := mk_sem v (valid x) (count x) (sem_wq x).

(** [sem_init]; [&(sem->wait_queue)] is 12 bytes into the structure. *)
Definition sem_init (sem v : Z) (s : kstate) : kstate :=
  wait_queue_init (sem + 12) (put_sem sem (mk_sem v true 0 (sem + 12)) s).

Section Sem.
Context (C : sched_class).

Definition __up (sem wstate : Z) (s : kstate) : res kstate :=
  let* x := fetch (sems s) sem in
  assert! valid x ;;
  let* wait := wait_queue_first (sem_wq x) s in
  match wait with
  | None => Ok (put_sem sem (with_value (s32 (value x + 1)) x) s)
  | Some w =>
      let* wt := fetch (waits s) w in
      let* p := get_proc (wproc wt) s in
      assert! wait_state p =? wstate ;;
      wakeup_wait C (sem_wq x) w wstate true s
  end.

(** [wait] is the stack slot [__wait]. *)
Definition __down {E} (sem wstate : Z) (timer : option Z) (wait : Z) : code (sys E) Z :=
  do s <- get;
  do x <- lift (fetch (sems (ks s)) sem);
  check valid x;
  if 0 <? value x then
    do_ update (fun k => Ok (put_sem sem (with_value (value x - 1) x) k)); ret 0
  else
    do_ update (wait_current_set (sem_wq x) wait wstate);
    do_ update (ipc_add_timer timer);
    do_ yield C;
    do_ update (ipc_del_timer timer);
    do_ update (wait_current_del (sem_wq x) wait);
    do s <- get;
    do w <- lift (fetch (waits (ks s)) wait);
    ret (if negb (wakeup_flags w =? wstate) then wakeup_flags w else 0).

Definition up (sem : Z) (s : kstate) : res kstate := __up sem WT_KSEM s.

Definition down {E} (sem wait : Z) : code (sys E) unit :=
  do flags <- __down sem WT_KSEM None wait;
  check flags =? 0; ret tt.

Definition try_down (sem : Z) (s : kstate) : res (bool * kstate) :=
  let* x := fetch (sems s) sem in
  if 0 <? value x then Ok (true, put_sem sem (with_value (value x - 1) x) s) else Ok (false, s).

Definition usem_up (sem : Z) (s : kstate) : res (Z * kstate) :=
  let* s := __up sem WT_USEM s in Ok (0, s).

(** [timer] and [wait] are the stack slots [__timer] and [__wait]. *)
Definition usem_down {E} (sem timeout timer wait : Z) : code (sys E) Z :=
  do s <- get;
  let '(tm, saved_ticks, k) := ipc_timer_init timeout timer (ks s) in
  do_ update (fun _ => Ok k);
  do flags <- __down sem WT_USEM tm wait;
  if flags =? 0 then ret 0 else
  check flags =? WT_INTERRUPTED;
  do s <- get;
  ret (ipc_check_timeout timeout saved_ticks (ks s)).

End Sem.

(** ** Per-process semaphore lists *)

(** [sem_queue_t]; the semaphore [sem] is its first member, so it has the
    address of the structure itself. *)
Record sem_queue_t := mk_sq { sq_count : Z; semu_list : list Z }.

(** [sem_undo_t] is represented by its [sem] pointer; [sem_queue_of] is the
    field [sem_queue] of a process. *)
Record sem_ext := mk_se {
  semus : gmap Z Z;
  semqs : gmap Z sem_queue_t;
  sem_queue_of : Z -> option Z
}.

Notation "'sem_sys'" := (sys sem_ext).

Definition put_semu (a sem : Z) (s : sem_sys) : sem_sys :=
  mk_sys (ks s) (mk_se (<[a := sem]> (semus (ext s))) (semqs (ext s)) (sem_queue_of (ext s))).
Definition free_semu (a : Z) (s : sem_sys) : sem_sys :=
  mk_sys (ks s) (mk_se (delete a (semus (ext s))) (semqs (ext s)) (sem_queue_of (ext s))).
Definition put_semq (a : Z) (q : sem_queue_t) (s : sem_sys) : sem_sys :=
  mk_sys (ks s) (mk_se (semus (ext s)) (<[a := q]> (semqs (ext s))) (sem_queue_of (ext s))).
Definition on_ks (f : kstate -> kstate) (s : sem_sys) : sem_sys := mk_sys (f (ks s)) (ext s).

(** A function of the whole state, as code. *)
Definition atomically {A} (f : sem_sys -> res (A * sem_sys)) : code sem_sys A :=
  fun s => let* (a, s) := f s in Ok (Done a s).

(** The results of [kmalloc] are arguments: [None] is a failed allocation. *)
Definition sem_queue_create (a : option Z) (s : sem_sys) : option Z * sem_sys :=
  match a with
  | Some q => (Some q, put_semq q (mk_sq 0 []) (on_ks (sem_init q 1) s))
  | None => (None, s)
  end.

Definition sem_queue_destroy (q : Z) (s : sem_sys) : sem_sys :=
  mk_sys (set_sems (delete q (sems (ks s))) (ks s))
    (mk_se (semus (ext s)) (delete q (semqs (ext s))) (sem_queue_of (ext s))).

Definition sem_count_add (sem d : Z) (s : sem_sys) : res (Z * sem_sys) :=
  let* x := fetch (sems (ks s)) sem in
  let n := s32 (count x + d) in
  Ok (n, on_ks (put_sem sem (mk_sem (value x) (valid x) n (sem_wq x))) s).

Definition semu_create (a_semu a_sem : option Z) (sem : option Z) (v : Z) (s : sem_sys) :
    res (option Z * sem_sys) :=
  match a_semu with
  | None => Ok (None, s)
  | Some semu =>
      let '(sem, s) :=
        match sem with
        | Some x => (Some x, s)
        | None => match a_sem with
                  | Some x => (Some x, on_ks (sem_init x v) s)
                  | None => (None, s)
                  end
        end in
      match sem with
      | Some x => let* (_, s) := sem_count_add x 1 s in Ok (Some semu, put_semu semu x s)
      | None => Ok (None, s)
      end
  end.

Definition semu_destroy (semu : Z) (s : sem_sys) : res sem_sys :=
  let* sem := fetch (semus (ext s)) semu in
  let* (n, s) := sem_count_add sem (-1) s in
  let s := if n =? 0 then on_ks (fun k => set_sems (delete sem (sems k)) k) s else s in
  Ok (free_semu semu s).

(** [dup_sem_queue]: [allocs] are the results of the calls of [kmalloc], one
    per live semaphore. *)
Fixpoint dup_sem_loop (allocs : list (option Z)) (le : list Z) (to : Z) (s : sem_sys) : res (Z * sem_sys) :=
  match le with
  | [] => Ok (0, s)
  | semu :: le =>
      let* sem := fetch (semus (ext s)) semu in
      let* x := fetch (sems (ks s)) sem in
      if valid x then
        let* (o, s) := semu_create (default None (hd_error allocs)) None (Some sem) 0 s in
        match o with
        | None => Ok (- E_NO_MEM, s)
        | Some new =>
            let* q := fetch (semqs (ext s)) to in
            dup_sem_loop (tail allocs) le to (put_semq to (mk_sq (sq_count q) (new :: semu_list q)) s)
        end
      else dup_sem_loop allocs le to s
  end.

Definition dup_sem_queue (allocs : list (option Z)) (to from : Z) (s : sem_sys) : res (Z * sem_sys) :=
  let* q := fetch (semqs (ext s)) from in
  dup_sem_loop allocs (semu_list q) to s.

(** [while ((le = list_next(list)) != list)] *)
Fixpoint exit_sem_loop (q : Z) (le : list Z) (s : sem_sys) : res sem_sys :=
  match le with
  | [] => Ok s
  | semu :: le =>
      let* x := fetch (semqs (ext s)) q in
      let s := put_semq q (mk_sq (sq_count x) le) s in
      let* s := semu_destroy semu s in
      exit_sem_loop q le s
  end.

Definition exit_sem_queue (q : Z) (s : sem_sys) : res sem_sys :=
  let* x := fetch (semqs (ext s)) q in
  assert! sq_count x =? 0 ;;
  exit_sem_loop q (semu_list x) s.

Section Ids.
(** [PBASE] is the board's [KERNBASE + 0x100]. *)
Context (PBASE : Z).

Definition VALID_SEMID (sem_id : Z) : bool := u32 sem_id <? u32 (u32 sem_id + PBASE).
Definition semid2sem (sem_id : Z) : Z := u32 (u32 sem_id + PBASE).
Definition sem2semid (sem : Z) : Z := u32 (sem - PBASE).

(** The first element of the list whose [sem] is the given one. *)
Fixpoint find_semu (m : gmap Z Z) (sem : Z) (le : list Z) : res (option Z) :=
  match le with
  | [] => Ok None
  | semu :: le => let* x := fetch m semu in if x =? sem then Ok (Some semu) else find_semu m sem le
  end.

Definition semu_list_search (q sem_id : Z) (s : sem_sys) : res (option Z * sem_sys) :=
  if VALID_SEMID sem_id then
    let sem := semid2sem sem_id in
    let* sq := fetch (semqs (ext s)) q in
    let* o := find_semu (semus (ext s)) sem (semu_list sq) in
    match o with
    | None => Ok (None, s)
    | Some semu =>
        let rest := filter (fun y => y <> semu) (semu_list sq) in
        let* x := fetch (sems (ks s)) sem in
        if valid x then Ok (Some semu, put_semq q (mk_sq (sq_count sq) (semu :: rest)) s)
        else
          let* s := semu_destroy semu (put_semq q (mk_sq (sq_count sq) rest) s) in
          Ok (None, s)
    end
  else Ok (None, s).

Section Ipc.
Context (C : sched_class).

(** [current->sem_queue], which must not be null. *)
Definition cur_semq : code sem_sys Z :=
  do s <- get;
  lift (match sem_queue_of (ext s) (current (ks s)) with Some q => Ok q | None => Panic end).

Definition ipc_sem_init (a_semu a_sem : option Z) (wait v : Z) : code sem_sys Z :=
  do_ cur_semq;
  do o <- atomically (semu_create a_semu a_sem None v);
  match o with
  | None => ret (- E_NO_MEM)
  | Some semu =>
      do q <- cur_semq;
      do_ down C q wait;
      do_ atomically (fun s => let* x := fetch (semqs (ext s)) q in
                               Ok (tt, put_semq q (mk_sq (sq_count x) (semu :: semu_list x)) s));
      do_ update (up C q);
      do s <- get;
      do sem <- lift (fetch (semus (ext s)) semu);
      ret (sem2semid sem)
  end.

(** The lookup shared by the operations on a semaphore id. *)
Definition search_locked (wait sem_id : Z) : code sem_sys (option Z) :=
  do q <- cur_semq;
  do_ down C q wait;
  do semu <- atomically (semu_list_search q sem_id);
  do_ update (up C q);
  ret semu.

Definition semu_sem (semu : Z) : code sem_sys Z := do s <- get; lift (fetch (semus (ext s)) semu).

Definition ipc_sem_post (wait sem_id : Z) : code sem_sys Z :=
  do semu <- search_locked wait sem_id;
  match semu with
  | Some semu => do sem <- semu_sem semu; atomic (usem_up C sem)
  | None => ret (- E_INVAL)
  end.

Definition ipc_sem_wait (wait timer wait2 sem_id timeout : Z) : code sem_sys Z :=
  do semu <- search_locked wait sem_id;
  match semu with
  | Some semu => do sem <- semu_sem semu; usem_down C sem timeout timer wait2
  | None => ret (- E_INVAL)
  end.

Definition ipc_sem_free (wait sem_id : Z) : code sem_sys Z :=
  do semu <- search_locked wait sem_id;
  match semu with
  | Some semu =>
      do sem <- semu_sem semu;
      do_ update (fun k =>
        let* x := fetch (sems k) sem in
        wakeup_queue C (sem_wq x) WT_INTERRUPTED true
          (put_sem sem (mk_sem (value x) false (count x) (sem_wq x)) k));
      ret 0
  | None => ret (- E_INVAL)
  end.

End Ipc.
End Ids.

(** ** Invariants *)

(** While a unit is available nobody waits, and every semaphore has a wait
    queue of its own. *)
Record sem_inv (s : kstate) : Prop := {
  smi_queue : forall sem x, sems s !! sem = Some x ->
    exists l, wqs s !! sem_wq x = Some l /\ (0 < value x -> l = []);
  smi_own : forall sem sem' x x', sems s !! sem = Some x -> sems s !! sem' = Some x' ->
    sem_wq x = sem_wq x' -> sem = sem'
}.

(** The state of the scheduler, the wait queues, the timers and the
    semaphores together. *)
Record sync_inv (C : sched_class) `{!SchedClassOk C} (s : kstate) : Prop := {
  sy_sched : sched_inv C s;
  sy_wait : wait_inv s;
  sy_timer : timer_inv s;
  sy_sem : sem_inv s
}.

(** Changing one semaphore. *)
Lemma sem_inv_put s sem x x' l :
  sem_inv s -> sems s !! sem = Some x -> wqs s !! sem_wq x = Some l -> sem_wq x' = sem_wq x ->
  (0 < value x' -> l = []) -> sem_inv (put_sem sem x' s).
Proof.
  intros [Q O] Hx Hl Hw Hv. split; cbn [sems wqs put_sem set_sems].
  - intros a y [[<- <-]|[Hne Hy]]%lookup_insert_Some; [|eauto]. exists l. by rewrite Hw.
  - intros a b y z [[<- <-]|[Hne Hy]]%lookup_insert_Some [[<- <-]|[Hne' Hz]]%lookup_insert_Some; try done;
      rewrite ?Hw; intros E; [by eapply (O _ _ x z)|by eapply (O _ _ y x)|by eapply (O _ _ y z)].
Qed.

(** Changing the queue of one semaphore. *)
Lemma sem_inv_queue s s' sem x l :
  sem_inv s -> sems s' = sems s -> sems s !! sem = Some x -> wqs s' = <[sem_wq x := l]> (wqs s) ->
  (0 < value x -> l = []) -> sem_inv s'.
Proof.
  intros [Q O] Es Hx Ew Hv. split; rewrite Es, ?Ew; [|exact O].
  intros a y Hy. destruct (decide (a = sem)) as [->|Hne].
  - assert (y = x) as -> by congruence. exists l. by rewrite lookup_insert_eq.
  - rewrite lookup_insert_ne; [eauto|]. intros E. apply Hne. symmetry. by eapply (O sem a x y).
Qed.

Lemma sem_inv_frame s s' : sems s' = sems s -> wqs s' = wqs s -> sem_inv s -> sem_inv s'.
Proof. intros Es Ew [Q O]. by split; rewrite Es, ?Ew. Qed.

Lemma timer_inv_frame s s' :
  timers s' = timers s -> timer_list s' = timer_list s -> timer_inv s -> timer_inv s'.
Proof. unfold timer_inv. by intros -> ->. Qed.

Section SemProofs.
Context (C : sched_class) `{OK : !SchedClassOk C}.

Lemma sync_keeps s s' : sched_inv C s' -> keeps s s' -> sync_inv C s -> sync_inv C s'.
Proof.
  intros I' K [I W T M]. pose proof K as (_ & Ea & Ew & Es & Et & El & _). split; [done| | |].
  - apply (wait_inv_frame s); [done|intros w; left; by rewrite Ea|intros p; by apply keeps_alive|done].
  - by apply (timer_inv_frame s).
  - by apply (sem_inv_frame s).
Qed.

(** The state in which the running process has put itself on a queue. *)
Definition parked (q w wstate : Z) (c : proc_struct) (l : list Z) (s : kstate) : kstate :=
  set_wqs (<[q := l ++ [w]]> (wqs s))
    (upd_wait w (mk_wait (current s) WT_INTERRUPTED q)
      (set_procs (<[current s := set_wait_state wstate (set_state PROC_SLEEPING c)]> (procs s)) s)).

Lemma wait_current_set_run s q w wstate l c :
  linked w s = false -> wqs s !! q = Some l -> procs s !! current s = Some c ->
  wait_current_set q w wstate s = Ok (parked q w wstate c l s).
Proof.
  intros Hn Hq Hc. unfold wait_current_set, wait_init. rewrite Hn. cbn [res_bind].
  rewrite (upd_proc_ok _ _ _ c) by done. cbn [res_bind current upd_wait set_waits set_procs].
  erewrite upd_proc_ok by (cbn; apply lookup_insert_eq). cbn [res_bind].
  unfold wait_queue_add. change (linked w (set_procs ?a ?b)) with (linked w s). rewrite Hn. cbn [negb assert res_bind].
  cbn [waits set_procs upd_wait set_waits]. unfold fetch at 1. rewrite lookup_insert_eq. cbn [res_bind].
  cbn [wqs set_waits set_procs upd_wait]. rewrite (fetch_ok _ _ _ Hq). cbn [res_bind]. f_equal.
  unfold parked, upd_wait, set_wqs, set_waits, set_procs; cbn. by rewrite !insert_insert_eq.
Qed.

Lemma parked_inv s q w wstate l c :
  sched_inv C s -> wait_inv s -> linked w s = false -> wqs s !! q = Some l ->
  procs s !! current s = Some c -> lcpu_count s <= pid c ->
  sched_inv C (parked q w wstate c l s) /\ wait_inv (parked q w wstate c l s).
Proof.
  intros I W Hn Hq Hc Hp. split.
  - apply (sched_inv_frame C _ (set_procs (<[current s := set_wait_state wstate (set_state PROC_SLEEPING c)]> (procs s)) s));
      try done. eapply sched_inv_upd; eauto. intros Hon. destruct (si_cur _ _ I). congruence.
  - assert (Hal : forall p, alive s p -> alive (parked q w wstate c l s) p).
    { intros p (x & Hx & Hz & Hl). destruct (decide (p = current s)) as [->|Hne].
      - eexists; split; [cbn; apply lookup_insert_eq|]. split; [done|]. cbn. done.
      - exists x. cbn. rewrite lookup_insert_ne by done. auto. }
    rewrite linked_false in Hn. split; cbn [wqs waits parked set_wqs upd_wait set_waits set_procs].
    + intros q' l' [[<- <-]|[Hne Hq']]%lookup_insert_Some; [|by eapply (wi_nodup _ W)].
      apply NoDup_app. split_and!; [by eapply (wi_nodup _ W)| |apply NoDup_singleton].
      intros y Hy Hw%list_elem_of_singleton. subst y. by eapply Hn.
    + assert (Hnew : exists x, <[w := mk_wait (current s) WT_INTERRUPTED q]> (waits s) !! w = Some x /\
                wait_queue x = q /\ alive (parked q w wstate c l s) (wproc x)).
      { eexists; split; [apply lookup_insert_eq|]. split; [done|]. eexists. split; [apply lookup_insert_eq|].
        split; [done|]. cbn. done. }
      assert (Hold : forall q' l' v, wqs s !! q' = Some l' -> v ∈ l' ->
                exists x, <[w := mk_wait (current s) WT_INTERRUPTED q]> (waits s) !! v = Some x /\
                wait_queue x = q' /\ alive (parked q w wstate c l s) (wproc x)).
      { intros q' l' v Hq' Hv. rewrite lookup_insert_ne by (intros ->; by eapply Hn).
        destruct (wi_wait _ W q' l' v Hq' Hv) as (x & Hx & E & A). eauto. }
      intros q' l' v [[<- <-]|[Hne Hq']]%lookup_insert_Some Hv; [|by eapply Hold].
      apply elem_of_app in Hv as [Hv|Hv%list_elem_of_singleton]; [by eapply Hold|by subst v].
Qed.

End SemProofs.

(** A timer that can be queued. *)
Definition timer_ready (timer : option Z) (s : kstate) : Prop :=
  match timer with
  | None => True
  | Some t => (t ∉ timer_list s) /\
      exists x, timers s !! t = Some x /\ 0 < expires x < 2 ^ 32 /\ is_Some (tproc x)
  end.

Lemma ipc_add_timer_ok timer s :
  timer_inv s -> timer_ready timer s ->
  returns (ipc_add_timer timer s) (fun s' =>
    timer_inv s' /\ s' = set_timer_list (timer_list s') (set_timers (timers s') s)).
Proof.
  intros T R. destruct timer as [t|]; cbn [ipc_add_timer].
  - destruct R as (Hn & x & Hx & He & Hp). eapply returns_mono; [by apply (add_timer_ok s t x)|].
    by intros s' (? & _ & ? & _).
  - apply returns_ok. split; [done|by destruct s].
Qed.

Lemma ipc_del_timer_ok timer s :
  timer_inv s ->
  returns (ipc_del_timer timer s) (fun s' =>
    timer_inv s' /\ s' = set_timer_list (timer_list s') (set_timers (timers s') s)).
Proof.
  intros T. destruct timer as [t|]; cbn [ipc_del_timer].
  - eapply returns_mono; [by apply (del_timer_ok s t)|]. by intros s' (? & _ & ? & _).
  - apply returns_ok. split; [done|by destruct s].
Qed.

Section SemSpecs.
Context (C : sched_class) `{OK : !SchedClassOk C}.

Lemma sync_timers s s' :
  timer_inv s' -> s' = set_timer_list (timer_list s') (set_timers (timers s') s) ->
  sync_inv C s -> sync_inv C s'.
Proof.
  intros T' E [I W T M]. split; [rewrite E; by apply (sched_inv_frame C _ s)| |done|].
  - apply (wait_inv_frame s); [by rewrite E|intros w; left; by rewrite E| |done]. intros p Hp. rewrite E. exact Hp.
  - apply (sem_inv_frame s); [by rewrite E|by rewrite E|done].
Qed.

(** The end of a blocking function: the timer and the wait are taken away. *)
Lemma wait_current_del_ok s w wt :
  sync_inv C s -> waits s !! w = Some wt ->
  returns (wait_current_del (wait_queue wt) w s) (fun s' =>
    sync_inv C s' /\ linked w s' = false /\ waits s' = waits s /\ procs s' = procs s /\ sems s' = sems s /\
    timers s' = timers s /\ timer_list s' = timer_list s /\ current s' = current s /\
    forall q l, wqs s !! q = Some l -> wqs s' !! q = Some (filter (fun y => y <> w) l)).
Proof.
  intros [I W T M] Hw. unfold wait_current_del, wait_in_queue. destruct (linked w s) eqn:El.
  - apply linked_spec in El as (q & l & Hq & Hin). destruct (wi_wait _ W q l w Hq Hin) as (x & Hx & E & _).
    assert (x = wt) as -> by congruence. rewrite E, (wait_queue_del_ok s q l w) by done.
    assert (Hqs : forall q' l', wqs s !! q' = Some l' ->
              <[q := filter (fun y => y <> w) l]> (wqs s) !! q' = Some (filter (fun y => y <> w) l')).
    { intros q' l' Hq'. destruct (decide (q' = q)) as [->|Hne].
      - rewrite lookup_insert_eq. congruence.
      - rewrite lookup_insert_ne by done. rewrite filter_ne_id; [done|]. intros Hin'.
        destruct (wi_wait _ W q' l' w Hq' Hin') as (x & Hx' & E' & _). congruence. }
    apply returns_ok. split_and!; [| |reflexivity..|exact Hqs].
    + split; [by apply (sched_inv_frame C _ s)|by apply wait_inv_del|done|].
      split; [|apply M]. intros sem x Hs. destruct (smi_queue _ M sem x Hs) as (l' & Hl' & Hv).
      eexists; split; [by apply Hqs|]. intros Hpos. by rewrite (Hv Hpos).
    + apply linked_false. cbn [wqs set_wqs]. intros q' l' [[<- <-]|[Hne Hq']]%lookup_insert_Some.
      * rewrite list_elem_of_filter. tauto.
      * intros Hin'. destruct (wi_wait _ W q' l' w Hq' Hin') as (x & Hx' & E' & _). congruence.
  - apply returns_ok. split_and!; [by split|done|reflexivity..|]. intros q l Hq. rewrite filter_ne_id; [done|].
    by apply (proj1 (linked_false w s) El q).
Qed.

Lemma down_now_ok {E} (s : sys E) sem x wstate timer w :
  sync_inv C (ks s) -> sems (ks s) !! sem = Some x -> valid x = true -> 0 < value x ->
  finishes (__down C sem wstate timer w s) (fun r s' =>
    r = 0 /\ s' = mk_sys (put_sem sem (with_value (value x - 1) x) (ks s)) (ext s) /\ sync_inv C (ks s')).
Proof.
  intros [I W T M] Hx Hv Hpos. unfold __down. rewrite bind_get, (fetch_ok _ _ _ Hx), bind_lift, Hv.
  unfold bind at 1; cbn [assert res_bind ret run_bind]. rewrite (proj2 (Z.ltb_lt _ _) Hpos).
  eexists 0, _. split; [reflexivity|]. split_and!; [done|done|]. destruct (smi_queue _ M sem x Hx) as (l & Hl & Hlv).
  split; [by apply (sched_inv_frame C _ (ks s))| |by apply (timer_inv_frame (ks s))|by eapply sem_inv_put; eauto].
  apply (wait_inv_frame (ks s)); [done|by left|done|done].
Qed.

(** The state after [__down] has blocked. *)
Definition down_blocked (sem wstate w : Z) (x : semaphore) (l : list Z) (s s1 : kstate) : Prop :=
  sync_inv C s1 /\ sems s1 = sems s /\ wqs s1 = <[sem_wq x := l ++ [w]]> (wqs s) /\
  waits s1 = <[w := mk_wait (current s) WT_INTERRUPTED (sem_wq x)]> (waits s) /\
  (exists c, procs s1 !! current s = Some c /\ state c = PROC_SLEEPING /\ wait_state c = wstate) /\
  on_rq (current s) s1 = false /\ current s1 <> current s /\
  (forall p, p <> current s -> pview <$> procs s1 !! p = pview <$> procs s !! p).

(** What [__down] does when it is resumed in [s']. *)
Definition down_resumed {E} (sem wstate w : Z) (x : semaphore) (s' : sys E) (r : res (run (sys E) Z)) : Prop :=
  forall wt, sync_inv C (ks s') -> waits (ks s') !! w = Some wt -> wait_queue wt = sem_wq x ->
  finishes r (fun v s2 =>
    v = (if wakeup_flags wt =? wstate then 0 else wakeup_flags wt) /\
    sync_inv C (ks s2) /\ linked w (ks s2) = false /\ sems (ks s2) = sems (ks s') /\
    procs (ks s2) = procs (ks s') /\ ext s2 = ext s' /\
    forall q l, wqs (ks s') !! q = Some l -> wqs (ks s2) !! q = Some (filter (fun y => y <> w) l)).

Lemma down_resume_ok {E} sem wstate timer w x (s' : sys E) :
  down_resumed sem wstate w x s'
    ((do_ update (ipc_del_timer timer);
      do_ update (wait_current_del (sem_wq x) w);
      do s <- get;
      do w <- lift (fetch (waits (ks s)) w);
      ret (if negb (wakeup_flags w =? wstate) then wakeup_flags w else 0)) s').
Proof.
  intros wt I Hw Eq. eapply finishes_bind.
  { apply (finishes_update _ _ (fun _ s1 => s1 = mk_sys (ks s1) (ext s') /\ timer_inv (ks s1) /\
      ks s1 = set_timer_list (timer_list (ks s1)) (set_timers (timers (ks s1)) (ks s')))).
    eapply returns_mono; [by apply ipc_del_timer_ok, I|]. by intros k (? & ?). }
  intros _ s1 (Es & T1 & E1). assert (I1 : sync_inv C (ks s1)) by (by eapply sync_timers).
  assert (Hw1 : waits (ks s1) !! w = Some wt) by (by rewrite E1).
  rewrite <- Eq. eapply finishes_bind.
  { apply (finishes_update _ _ (fun _ s2 => s2 = mk_sys (ks s2) (ext s') /\ sync_inv C (ks s2) /\
      linked w (ks s2) = false /\ waits (ks s2) = waits (ks s1) /\ procs (ks s2) = procs (ks s1) /\
      sems (ks s2) = sems (ks s1) /\
      forall q l, wqs (ks s1) !! q = Some l -> wqs (ks s2) !! q = Some (filter (fun y => y <> w) l))).
    eapply returns_mono; [by apply wait_current_del_ok|].
    intros k (? & ? & ? & ? & ? & _ & _ & _ & ?). rewrite Es. by split_and!. }
  intros _ s2 (Es2 & I2 & L2 & A2 & P2 & S2 & Q2). rewrite bind_get, A2, (fetch_ok _ _ _ Hw1), bind_lift.
  apply finishes_ret. split_and!; [|done|done| | | |].
  - by destruct (wakeup_flags wt =? wstate).
  - by rewrite S2, E1.
  - by rewrite P2, E1.
  - by rewrite Es2.
  - intros q l Hq. apply Q2. by rewrite E1.
Qed.

(** Blocking: the parked process gives up the processor. *)
Lemma park_yield_ok s q w wstate l c timer :
  sync_inv C s -> linked w s = false -> wqs s !! q = Some l ->
  (forall sem x, sems s !! sem = Some x -> sem_wq x = q -> value x <= 0) ->
  timer_ready timer s -> procs s !! current s = Some c -> lcpu_count s <= pid c -> current s <> idleproc s ->
  returns (let* s1 := wait_current_set q w wstate s in
           let* s2 := ipc_add_timer timer s1 in schedule C s2) (fun s1 =>
    sync_inv C s1 /\ sems s1 = sems s /\ wqs s1 = <[q := l ++ [w]]> (wqs s) /\
    waits s1 = <[w := mk_wait (current s) WT_INTERRUPTED q]> (waits s) /\
    (exists c, procs s1 !! current s = Some c /\ state c = PROC_SLEEPING /\ wait_state c = wstate) /\
    on_rq (current s) s1 = false /\ current s1 <> current s /\
    (forall p, p <> current s -> pview <$> procs s1 !! p = pview <$> procs s !! p)).
Proof.
  intros [I W T M] Hn Hq Hv Htr Hc Hp Hid. rewrite (wait_current_set_run s q w wstate l c) by done.
  cbn [res_bind]. destruct (parked_inv C s q w wstate l c) as [I1 W1]; try done.
  set (k1 := parked q w wstate c l s) in *.
  assert (J1 : sync_inv C k1).
  { split; [done|done|by apply (timer_inv_frame s)|]. split; [|exact (smi_own _ M)].
    intros sem x Hs. change (sems k1) with (sems s) in Hs. change (wqs k1) with (<[q := l ++ [w]]> (wqs s)).
    destruct (decide (sem_wq x = q)) as [E|Hne].
    - rewrite E, lookup_insert_eq. eexists; split; [done|]. intros Hpos. specialize (Hv sem x Hs E). lia.
    - rewrite lookup_insert_ne by done. by apply (smi_queue _ M sem). }
  eapply returns_bind; [apply (ipc_add_timer_ok timer k1); [apply J1|exact Htr]|].
  intros k2 (T2 & E2). assert (J2 : sync_inv C k2) by (by eapply sync_timers).
  assert (Hc2 : procs k2 !! current s = Some (set_wait_state wstate (set_state PROC_SLEEPING c))).
  { rewrite E2. cbn. apply lookup_insert_eq. }
  assert (Fc : current k2 = current s) by (by rewrite E2).
  assert (Fi : idleproc k2 = idleproc s) by (by rewrite E2).
  eapply returns_mono; [apply returns_both; [apply (schedule_ok C)|apply (schedule_keeps C _)]; apply J2|].
  intros k3 ((I3 & Hset & _) & K). pose proof (sync_keeps C _ _ I3 K J2) as J3.
  destruct K as (Kv & Ka & Kw & Ks & _).
  assert (Hnot : ~ (on_rq (current s) k3 = true \/ current s = current k3)).
  { rewrite (Hset (current s)) by (rewrite Fi; done). intros [Hon|(_ & _ & x & Hx & Hr & _)].
    - destruct (si_cur _ _ (sy_sched _ _ J2)) as [_ H]. rewrite Fc in H. congruence.
    - rewrite Hc2 in Hx. injection Hx as <-. done. }
  split_and!; [done|by rewrite Ks, E2|by rewrite Kw, E2|by rewrite Ka, E2| | | |].
  - specialize (Kv (current s)). rewrite Hc2 in Kv. destruct (procs k3 !! current s) as [c3|]; [|done].
    exists c3. cbn in Kv. unfold pview in Kv. cbn in Kv. injection Kv as E1 _ E3 _ _. by split_and!.
  - apply not_true_is_false. tauto.
  - intros E. apply Hnot. by right.
  - intros p Hpc. rewrite Kv, E2. cbn. by rewrite lookup_insert_ne.
Qed.

Lemma down_block_ok {E} (s : sys E) sem x wstate timer w l c :
  sync_inv C (ks s) -> sems (ks s) !! sem = Some x -> valid x = true -> value x <= 0 ->
  wqs (ks s) !! sem_wq x = Some l -> linked w (ks s) = false -> timer_ready timer (ks s) ->
  procs (ks s) !! current (ks s) = Some c -> lcpu_count (ks s) <= pid c -> current (ks s) <> idleproc (ks s) ->
  blocks (__down C sem wstate timer w s)
    (fun s1 => down_blocked sem wstate w x l (ks s) (ks s1) /\ ext s1 = ext s)
    (down_resumed sem wstate w x).
Proof.
  intros J Hx Hv Hpos Hl Hn Ht Hc Hp Hid. unfold __down. rewrite bind_get, (fetch_ok _ _ _ Hx), bind_lift, Hv.
  unfold bind at 1; cbn [assert res_bind ret run_bind]. rewrite (proj2 (Z.ltb_ge _ _) Hpos).
  destruct (park_yield_ok (ks s) (sem_wq x) w wstate l c timer) as (k3 & E3 & H3); try done.
  { intros sem' x' Hs' Ew. assert (sem' = sem) as -> by (by eapply (smi_own _ (sy_sem _ _ J))).
    congruence. }
  apply bind_ok in E3 as (k1 & E1 & E3). apply bind_ok in E3 as (k2 & E2 & E3).
  rewrite (bind_done _ _ _ tt (mk_sys k1 (ext s))) by (unfold update; by rewrite E1).
  rewrite (bind_done _ _ _ tt (mk_sys k2 (ext s))) by (unfold update; cbn; by rewrite E2).
  apply blocks_yield.
  - exists k3. split; [done|]. by split.
  - intros s'. apply down_resume_ok.
Qed.

(** *** [__up] *)

(** The process of the first waiter is still in the expected wait state. *)
Definition first_waits (wstate : Z) (l : list Z) (s : kstate) : Prop :=
  match l with
  | [] => True
  | w :: _ => forall wt y, waits s !! w = Some wt -> procs s !! wproc wt = Some y -> wait_state y = wstate
  end.

Definition upped (sem wstate : Z) (x : semaphore) (l : list Z) (s s' : kstate) : Prop :=
  match l with
  | [] => s' = put_sem sem (with_value (value x + 1) x) s
  | w :: l => sems s' = sems s /\ wqs s' = <[sem_wq x := l]> (wqs s) /\
      exists wt, waits s !! w = Some wt /\
        waits s' = <[w := mk_wait (wproc wt) wstate (sem_wq x)]> (waits s) /\
        (forall p, p <> wproc wt -> procs s' !! p = procs s !! p) /\
        exists y, procs s' !! wproc wt = Some y /\ state y = PROC_RUNNABLE
  end.

Lemma up_ok s sem x l wstate :
  sync_inv C s -> sems s !! sem = Some x -> valid x = true -> wqs s !! sem_wq x = Some l ->
  - 2 ^ 31 <= value x < 2 ^ 31 - 1 -> first_waits wstate l s ->
  returns (__up C sem wstate s) (fun s' => sync_inv C s' /\ upped sem wstate x l s s').
Proof.
  intros [I W T M] Hx Hv Hl Hb Hf. unfold __up. rewrite (fetch_ok _ _ _ Hx). cbn [res_bind]. rewrite Hv.
  cbn [assert res_bind]. unfold wait_queue_first. rewrite (fetch_ok _ _ _ Hl). cbn [res_bind].
  destruct l as [|w l]; cbn [hd_error].
  - apply returns_ok. rewrite s32_small by lia. split; [|done].
    split; [by apply (sched_inv_frame C _ s)| |by apply (timer_inv_frame s)|by eapply sem_inv_put].
    apply (wait_inv_frame s); [done|by left|done|done].
  - destruct (wi_wait _ W _ _ w Hl) as (wt & Hw & Eq & y & Hy & Hz & Hp); [left|].
    rewrite (fetch_ok _ _ _ Hw). cbn [res_bind]. unfold get_proc. rewrite (fetch_ok _ _ _ Hy). cbn [res_bind].
    apply returns_assert; [apply Z.eqb_eq; exact (Hf wt y Hw Hy)|].
    eapply returns_mono; [eapply (wakeup_wait_ok C s (sem_wq x) w (w :: l) wt); auto; left|].
    intros s' (I' & W' & K). pose proof (wakes_fields _ _ _ K) as (E1 & E2 & E3 & E4 & E5 & _).
    cbn [wqs waits sems timers timer_list released upd_wait set_waits set_wqs] in E1, E2, E3, E4, E5.
    rewrite filter_head_NoDup in E1 by exact (wi_nodup _ W _ _ Hl). split.
    + split; [done|done|by apply (timer_inv_frame s)|]. eapply (sem_inv_queue s); eauto.
      intros Hpos. destruct (smi_queue _ M sem x Hx) as (l0 & Hl0 & Hv0). rewrite Hl in Hl0.
      injection Hl0 as <-. by specialize (Hv0 Hpos).
    + split_and!; [done|done|]. exists wt. split_and!; [done|done|apply (proj2 (proj1 K))|].
      destruct K as [_ (z & z' & _ & Hz' & Hr & _)]. eauto.
Qed.

End SemSpecs.

(** ** A semaphore as a shared resource

    The processes that hold a unit of a kernel semaphore are tracked beside the
    state: [down] adds the running process, [up] removes it and adds the waiter
    the unit is handed to.  Other kernel activity may do anything that leaves
    the semaphore, its queue and its waiters alone (a process waiting with
    [WT_KSEM] cannot be interrupted). *)

Section Resource.
Context (C : sched_class) `{OK : !SchedClassOk C}.

(** The running process can execute [down] with the stack slot [w]. *)
Definition can_down (w : Z) (s : kstate) : Prop :=
  linked w s = false /\ current s <> idleproc s /\
  exists c, procs s !! current s = Some c /\ state c = PROC_RUNNABLE /\ lcpu_count s <= pid c.

(** The process [up] hands the unit to. *)
Definition granted (sem : Z) (s : kstate) : list Z :=
  match sems s !! sem with
  | Some x =>
      match wqs s !! sem_wq x with
      | Some (w :: _) => match waits s !! w with Some wt => [wproc wt] | None => [] end
      | _ => []
      end
  | None => []
  end.

(** The waiters of a semaphore, with the processes behind them. *)
Definition wait_view (s : kstate) (w : Z) : option wait_t * option (proc_state * Z * Z * Z * Z) :=
  (waits s !! w, waits s !! w ≫= fun wt => pview <$> procs s !! wproc wt).

Definition sem_env (sem : Z) (s s' : kstate) : Prop :=
  sync_inv C s' /\ sems s' !! sem = sems s !! sem /\
  forall x l, sems s !! sem = Some x -> wqs s !! sem_wq x = Some l ->
    wqs s' !! sem_wq x = Some l /\ forall w, w ∈ l -> wait_view s' w = wait_view s w.

Inductive sem_step (sem : Z) : kstate * list Z -> kstate * list Z -> Prop :=
| step_take s s' H w :
    can_down w s -> __down C sem WT_KSEM None w (mk_sys s tt) = Ok (Done 0 (mk_sys s' tt)) ->
    sem_step sem (s, H) (s', current s :: H)
| step_block s s' H w k :
    can_down w s -> __down C sem WT_KSEM None w (mk_sys s tt) = Ok (Sleep (mk_sys s' tt) k) ->
    sem_step sem (s, H) (s', H)
| step_up s s' H1 H2 :
    __up C sem WT_KSEM s = Ok s' -> sem_step sem (s, H1 ++ current s :: H2) (s', granted sem s ++ H1 ++ H2)
| step_env s s' H :
    sem_env sem s s' -> sem_step sem (s, H) (s', H).

(** Every waiter sleeps on the semaphore, and no process waits twice. *)
Definition waiters_ok (s : kstate) (l : list Z) : Prop :=
  (forall w, w ∈ l -> exists wt y, waits s !! w = Some wt /\ procs s !! wproc wt = Some y /\
     state y = PROC_SLEEPING /\ wait_state y = WT_KSEM) /\
  (forall v w wv ww, v ∈ l -> w ∈ l -> waits s !! v = Some wv -> waits s !! w = Some ww ->
     wproc wv = wproc ww -> v = w).

Definition resource_inv (sem n : Z) (c : kstate * list Z) : Prop :=
  sync_inv C c.1 /\
  exists x l, sems c.1 !! sem = Some x /\ valid x = true /\ wqs c.1 !! sem_wq x = Some l /\
    0 <= value x /\ value x + Z.of_nat (length c.2) = n /\ waiters_ok c.1 l.

Lemma waiters_ok_frame s s' l :
  (forall w, w ∈ l -> wait_view s' w = wait_view s w) -> waiters_ok s l -> waiters_ok s' l.
Proof.
  intros Hv [H1 H2].
  assert (Ha : forall w, w ∈ l -> waits s' !! w = waits s !! w) by (intros w Hw; by injection (Hv w Hw)).
  split.
  - intros w Hw. destruct (H1 w Hw) as (wt & y & Hwt & Hy & Hst & Hws). specialize (Hv w Hw).
    unfold wait_view in Hv. rewrite (Ha w Hw), Hwt in Hv. cbn in Hv. rewrite Hy in Hv.
    destruct (procs s' !! wproc wt) as [y'|] eqn:E'; [|done]. cbn in Hv. unfold pview in Hv.
    injection Hv as E1 E2 E3 E4 E5. exists wt, y'. rewrite Ha by done. split_and!; auto; congruence.
  - intros v w wv ww Hv1 Hw1. rewrite !Ha by done. by apply H2.
Qed.

Lemma waiters_first s l : waiters_ok s l -> first_waits WT_KSEM l s.
Proof.
  intros [H _]. destruct l as [|w l]; [done|]. intros wt y Hw Hy.
  destruct (H w) as (wt' & y' & Hw' & Hy' & _ & Hs); [left|]. congruence.
Qed.

Lemma resource_take sem n s s' H w :
  resource_inv sem n (s, H) -> can_down w s ->
  __down C sem WT_KSEM None w (mk_sys s tt) = Ok (Done 0 (mk_sys s' tt)) ->
  resource_inv sem n (s', current s :: H).
Proof.
  intros (J & x & l & Hx & Hv & Hl & H0 & Hn & Hw) (Hk & Hid & c & Hc & Hr & Hp) E. cbn [fst snd] in *.
  destruct (decide (0 < value x)) as [Hpos|Hpos].
  - destruct (down_now_ok C (mk_sys s tt) sem x WT_KSEM None w) as (r & s2 & E2 & _ & -> & J2); try done.
    rewrite E2 in E. injection E as _ <-. cbn in J2. split; [done|]. cbn.
    exists (with_value (value x - 1) x), l. rewrite lookup_insert_eq. split_and!; auto; cbn; lia.
  - destruct (down_block_ok C (mk_sys s tt) sem x WT_KSEM None w l c) as (s1 & k & E2 & _); try done; [lia|].
    rewrite E2 in E. discriminate E.
Qed.

Lemma resource_block sem n s s' H w k :
  resource_inv sem n (s, H) -> can_down w s ->
  __down C sem WT_KSEM None w (mk_sys s tt) = Ok (Sleep (mk_sys s' tt) k) ->
  resource_inv sem n (s', H).
Proof.
  intros (J & x & l & Hx & Hv & Hl & H0 & Hn & Hw) (Hk & Hid & c & Hc & Hr & Hp) E. cbn [fst snd] in *.
  destruct (decide (0 < value x)) as [Hpos|Hpos].
  { destruct (down_now_ok C (mk_sys s tt) sem x WT_KSEM None w) as (r & s2 & E2 & _); try done.
    rewrite E2 in E. discriminate E. }
  destruct (down_block_ok C (mk_sys s tt) sem x WT_KSEM None w l c) as (s1 & k1 & E2 & [D _] & _); try done; [lia|].
  rewrite E2 in E. injection E as -> _. cbn in D.
  destruct D as (J' & Es & Eq & Ea & (c' & Hc' & Hst & Hws) & _ & _ & Hoth). split; [done|]. cbn.
  exists x, (l ++ [w]). rewrite Es, Eq, lookup_insert_eq. split_and!; auto.
  pose proof (proj1 (linked_false w s) Hk _ _ Hl) as Hni. destruct Hw as [Hw1 Hw2].
  assert (Hold : forall v, v ∈ l -> exists wt y, waits s' !! v = Some wt /\ waits s !! v = Some wt /\
            wproc wt <> current s /\ procs s' !! wproc wt = Some y /\
            state y = PROC_SLEEPING /\ wait_state y = WT_KSEM).
  { intros v Hv'. destruct (Hw1 v Hv') as (wt & y & Hwt & Hy & Hys & Hyw).
    assert (Hcur : wproc wt <> current s) by (intros Hcur; rewrite Hcur in Hy; congruence).
    specialize (Hoth _ Hcur). rewrite Hy in Hoth. destruct (procs s' !! wproc wt) as [y'|] eqn:Hy'; [|done].
    cbn in Hoth. unfold pview in Hoth. injection Hoth as E1 _ E3 _ _. exists wt, y'.
    rewrite Ea, lookup_insert_ne by (intros ->; done). split_and!; auto; congruence. }
  split.
  - intros v [Hv'|Hv'%list_elem_of_singleton]%elem_of_app.
    + destruct (Hold v Hv') as (wt & y & ? & _ & _ & ? & ? & ?). eauto 10.
    + subst v. rewrite Ea, lookup_insert_eq. do 2 eexists. by split_and!.
  - assert (Hnew : waits s' !! w = Some (mk_wait (current s) WT_INTERRUPTED (sem_wq x)))
      by (by rewrite Ea, lookup_insert_eq).
    intros v u wv wu [Hv'|Hv'%list_elem_of_singleton]%elem_of_app [Hu|Hu%list_elem_of_singleton]%elem_of_app Hwv Hwu Ep;
      [| | |congruence].
    + destruct (Hold v Hv') as (wt & _ & E1 & E2' & _). destruct (Hold u Hu) as (wt' & _ & E3 & E4 & _).
      apply (Hw2 v u wv wu); auto; congruence.
    + subst u. destruct (Hold v Hv') as (wt & _ & E1 & _ & E3 & _). rewrite Hnew in Hwu. injection Hwu as <-.
      rewrite E1 in Hwv. injection Hwv as <-. done.
    + subst v. destruct (Hold u Hu) as (wt & _ & E1 & _ & E3 & _). rewrite Hnew in Hwv. injection Hwv as <-.
      rewrite E1 in Hwu. injection Hwu as <-. by rewrite <- Ep in E3.
Qed.

Lemma resource_up sem n s H1 H2 :
  n < 2 ^ 31 -> resource_inv sem n (s, H1 ++ current s :: H2) ->
  returns (__up C sem WT_KSEM s) (fun s' => resource_inv sem n (s', granted sem s ++ H1 ++ H2)).
Proof.
  intros Hb (J & x & l & Hx & Hv & Hl & H0 & Hn & Hw). cbn [fst snd] in *. rewrite length_app in Hn. cbn in Hn.
  eapply returns_mono; [apply (up_ok C s sem x l WT_KSEM); auto; [lia|by apply waiters_first]|].
  intros s' (J' & U). split; [done|]. cbn. unfold granted. rewrite Hx, Hl. destruct l as [|w l]; cbn in U.
  - rewrite U in *. exists (with_value (value x + 1) x), []. cbn. rewrite lookup_insert_eq.
    split_and!; auto; cbn; rewrite ?length_app; lia.
  - destruct U as (Es & Eq & wt & Hwt & Ea & Ho & y & Hy & Hr). rewrite Hwt.
    exists x, l. rewrite Es, Eq, lookup_insert_eq. split_and!; auto.
    { cbn. rewrite length_app. lia. }
    pose proof (wi_nodup _ (sy_wait _ _ J) _ _ Hl) as [Hni _]%NoDup_cons.
    apply (waiters_ok_frame s).
    + intros v Hv'. unfold wait_view. rewrite Ea, lookup_insert_ne by (intros ->; done).
      destruct (proj1 Hw v) as (wv & yv & Hwv & Hyv & _); [by right|]. rewrite Hwv. cbn.
      rewrite Ho; [done|]. intros Heq. apply Hni.
      rewrite <- (proj2 Hw v w wv wt); [done|by right|left|done|done|done].
    + destruct Hw as [Hw1 Hw2]. split.
      * intros v Hv'. apply Hw1. by right.
      * intros v u wv wu Hv' Hu. apply Hw2; by right.
Qed.

Lemma resource_step sem n c c' :
  n < 2 ^ 31 -> resource_inv sem n c -> sem_step sem c c' -> resource_inv sem n c'.
Proof.
  intros Hb R Hs. inversion Hs as [s s' H w Hd E|s s' H w k Hd E|s s' H1 H2 E|s s' H Henv]; subst.
  - by eapply resource_take.
  - by eapply resource_block.
  - destruct (resource_up sem n s H1 H2 Hb R) as (s2 & E2 & R2). congruence.
  - destruct R as (J & x & l & Hx & Hv & Hl & H0 & Hn & Hw). cbn [fst snd] in *. destruct Henv as (J' & Es & Hq).
    destruct (Hq x l Hx Hl) as [Hl' Hview]. split; [done|]. exists x, l. cbn. rewrite Es.
    split_and!; auto. by apply (waiters_ok_frame s).
Qed.

End Resource.

(** ** Reference counts of user semaphores *)

(** The number of [sem_undo_t] that point to a semaphore. *)
Definition refs (sem : Z) (m : gmap Z Z) : nat := size (filter (fun p => p.2 = sem) m).

Record ref_inv (s : sem_sys) : Prop := {
  ri_count : forall sem x, sems (ks s) !! sem = Some x -> count x = Z.of_nat (refs sem (semus (ext s)));
  ri_sem : forall semu sem, semus (ext s) !! semu = Some sem -> is_Some (sems (ks s) !! sem)
}.

Lemma refs_insert sem m a b :
  m !! a = None -> refs sem (<[a := b]> m) = if decide (b = sem) then S (refs sem m) else refs sem m.
Proof.
  intros Ha. unfold refs. case_decide as Hb.
  - rewrite map_filter_insert_True by done. rewrite map_size_insert_None; [done|].
    apply map_lookup_filter_None. by left.
  - rewrite map_filter_insert_False by done. f_equal. apply map_eq. intros i. rewrite delete_id; done.
Qed.

Lemma refs_delete sem m a b :
  m !! a = Some b -> refs sem m = if decide (b = sem) then S (refs sem (delete a m)) else refs sem (delete a m).
Proof.
  intros Ha. rewrite <- (refs_insert sem (delete a m) a b) by apply lookup_delete_eq.
  by rewrite insert_delete_id.
Qed.

Lemma refs_zero sem m a b : refs sem m = 0%nat -> m !! a = Some b -> b <> sem.
Proof. intros H Ha ->. rewrite (refs_delete sem m a sem Ha) in H. by rewrite decide_True in H. Qed.

(** The count of a user semaphore is the number of undo structures that
    point to it: [semu_create] keeps that (a fresh semaphore has count 1), and
    [semu_destroy] frees the semaphore exactly when the last one goes. *)
Theorem semu_refcount s semu sem x :
  ref_inv s -> sems (ks s) !! sem = Some x -> semus (ext s) !! semu = None ->
  Z.of_nat (refs sem (semus (ext s))) < 2 ^ 31 - 1 ->
  returns (semu_create (Some semu) None (Some sem) 0 s) (fun '(o, s1) =>
    o = Some semu /\ ref_inv s1 /\ semus (ext s1) !! semu = Some sem /\
    returns (semu_destroy semu s1) (fun s2 =>
      ref_inv s2 /\ semus (ext s2) = semus (ext s) /\
      (sems (ks s2) !! sem = None <-> refs sem (semus (ext s)) = 0%nat) /\
      forall a, a <> sem -> sems (ks s2) !! a = sems (ks s) !! a)).
Proof.
  intros [RC RS] Hx Hn Hb. pose proof (RC sem x Hx) as Hc.
  unfold semu_create, sem_count_add. rewrite (fetch_ok _ _ _ Hx). cbn [res_bind].
  rewrite s32_small by lia. set (x1 := mk_sem _ _ _ _). apply returns_ok.
  set (s1 := put_semu semu sem _).
  assert (Hs1 : sems (ks s1) = <[sem := x1]> (sems (ks s))) by done.
  assert (Hm1 : semus (ext s1) = <[semu := sem]> (semus (ext s))) by done.
  assert (R1 : ref_inv s1).
  { split; rewrite Hs1, Hm1.
    - intros a y [[<- <-]|[Hne Hy]]%lookup_insert_Some; rewrite refs_insert by done.
      + rewrite decide_True by done. cbn. lia.
      + rewrite decide_False by done. by apply RC.
    - intros a b [[<- <-]|[Hne Hab]]%lookup_insert_Some; apply lookup_insert_is_Some'; eauto. }
  split_and!; [done|done|by rewrite Hm1, lookup_insert_eq|].
  unfold semu_destroy, sem_count_add. rewrite Hm1. unfold fetch at 1. rewrite lookup_insert_eq. cbn [res_bind].
  rewrite Hs1. unfold fetch at 1. rewrite lookup_insert_eq. cbn [res_bind x1 count].
  rewrite s32_small by lia. apply returns_ok.
  replace (count x + 1 + -1) with (count x) by lia.
  assert (Hd : delete semu (semus (ext s1)) = semus (ext s)) by (rewrite Hm1; by apply delete_insert_id).
  destruct (Z.eqb_spec (count x) 0) as [H0|H0]; set (s2 := free_semu semu _);
    (assert (Hm2 : semus (ext s2) = semus (ext s)) by exact Hd).
  - assert (Hs2 : sems (ks s2) = delete sem (<[sem := _]> (<[sem := x1]> (sems (ks s))))) by reflexivity.
    assert (Hz : refs sem (semus (ext s)) = 0%nat) by lia. rewrite Hs2, Hm2. split_and!.
    + split; rewrite Hm2, Hs2.
      * intros a y [Hne Hy]%lookup_delete_Some. rewrite !lookup_insert_ne in Hy by done. by apply RC.
      * intros a b Hab. pose proof (refs_zero _ _ _ _ Hz Hab). rewrite lookup_delete_ne by done.
        rewrite !lookup_insert_ne by done. eauto.
    + done.
    + rewrite lookup_delete_eq. tauto.
    + intros a Ha. rewrite lookup_delete_ne by done. by rewrite !lookup_insert_ne.
  - assert (Hs2 : sems (ks s2) = <[sem := mk_sem (value x) (valid x) (count x) (sem_wq x)]>
                                   (<[sem := x1]> (sems (ks s)))) by reflexivity.
    rewrite Hs2, Hm2. split_and!.
    + split; rewrite Hm2, Hs2.
      * intros a y [[<- <-]|[Hne Hy]]%lookup_insert_Some; [done|]. rewrite lookup_insert_ne in Hy by done. by apply RC.
      * intros a b Hab. rewrite !lookup_insert_is_Some'. eauto.
    + done.
    + rewrite lookup_insert_eq. split; [done|]. lia.
    + intros a Ha. by rewrite !lookup_insert_ne.
Qed.

(** ** Properties *)

(** [__up] on a valid semaphore: with no waiter the value grows by one;
    otherwise the value stays and the first waiter in FIFO order leaves the
    queue with the caller's wait state as its wakeup flags and is runnable.
    No assertion fails, and the invariants of scheduler, wait queues, timers
    and semaphores are kept. *)
Theorem up_spec (C : sched_class) (OK : SchedClassOk C) s sem x l wstate :
  sync_inv C s -> sems s !! sem = Some x -> valid x = true -> wqs s !! sem_wq x = Some l ->
  - 2 ^ 31 <= value x < 2 ^ 31 - 1 -> first_waits wstate l s ->
  returns (__up C sem wstate s) (fun s' => sync_inv C s' /\ upped sem wstate x l s s').
Proof. apply up_ok. Qed.

(** [__down] on a valid semaphore takes a unit without blocking when there is
    one.  Otherwise the process sleeps at the end of the queue, with its timer
    running, off the run queues, and another process runs; when it is resumed
    it takes its wait off the queue and returns 0 exactly when it was woken by
    [__up], and the wakeup flags otherwise. *)
Theorem down_spec (C : sched_class) (OK : SchedClassOk C) {E} (s : sys E) sem x wstate timer w l c :
  sync_inv C (ks s) -> sems (ks s) !! sem = Some x -> valid x = true ->
  wqs (ks s) !! sem_wq x = Some l -> linked w (ks s) = false -> timer_ready timer (ks s) ->
  procs (ks s) !! current (ks s) = Some c -> lcpu_count (ks s) <= pid c -> current (ks s) <> idleproc (ks s) ->
  if 0 <? value x then
    finishes (__down C sem wstate timer w s) (fun r s' =>
      r = 0 /\ s' = mk_sys (put_sem sem (with_value (value x - 1) x) (ks s)) (ext s) /\ sync_inv C (ks s'))
  else
    blocks (__down C sem wstate timer w s)
      (fun s1 => down_blocked C sem wstate w x l (ks s) (ks s1) /\ ext s1 = ext s)
      (down_resumed C sem wstate w x).
Proof.
  intros. destruct (Z.ltb_spec 0 (value x)); [by apply down_now_ok|by eapply down_block_ok].
Qed.


(** [try_down] never blocks: it takes a unit when there is one and reports
    that, and otherwise changes nothing. *)
Theorem try_down_spec (C : sched_class) (OK : SchedClassOk C) s sem x :
  sync_inv C s -> sems s !! sem = Some x ->
  returns (try_down sem s) (fun '(r, s') => sync_inv C s' /\
    (r = true <-> 0 < value x) /\
    s' = if r then put_sem sem (with_value (value x - 1) x) s else s).
Proof.
  intros J Hx. unfold try_down. rewrite (fetch_ok _ _ _ Hx). cbn [res_bind].
  destruct (Z.ltb_spec 0 (value x)) as [Hpos|Hpos]; apply returns_ok; split_and!; try done; try lia.
  destruct J as [I W T M]. destruct (smi_queue _ M sem x Hx) as (l & Hl & Hlv).
  split; [by apply (sched_inv_frame C _ s)| |by apply (timer_inv_frame s)|by eapply sem_inv_put; eauto].
  apply (wait_inv_frame s); [done|by left|done|done].
Qed.

(** C28: Posting a user semaphore whose first waiter has been woken by something
    else (its timer or a signal) but has not run yet stops the kernel:
    [wakeup_proc] clears the waiter's wait state while its [wait_t] is still
    queued, and the assertion of [__up] on that wait state fails. *)
Theorem up_after_wakeup_panics (C : sched_class) (OK : SchedClassOk C) s s1 sem x w l wt y wstate :
  sync_inv C s -> sems s !! sem = Some x -> valid x = true -> wqs s !! sem_wq x = Some (w :: l) ->
  waits s !! w = Some wt -> procs s !! wproc wt = Some y -> state y = PROC_SLEEPING -> wstate <> 0 ->
  wakeup_proc C (wproc wt) s = Ok s1 ->
  __up C sem wstate s1 = Panic.
Proof.
  intros [I W T M] Hx Hv Hl Hw Hy Hst Hws Hwk.
  destruct (wi_wait _ W _ _ w Hl) as (wt' & Hw' & _ & y' & Hy' & _ & Hp); [left|].
  assert (wt' = wt) as -> by congruence. assert (y' = y) as -> by congruence.
  destruct (wakeup_proc_ok C s (wproc wt) y) as (s2 & E & _ & O & (q & t & P) & _); auto; try congruence.
  rewrite E in Hwk. injection Hwk as ->. pose proof (only_proc_fields _ _ _ O) as (_ & _ & _ & _ & _ & Ea & Eq & Es & _).
  unfold __up. rewrite Es, (fetch_ok _ _ _ Hx). cbn [res_bind]. rewrite Hv. cbn [assert res_bind].
  unfold wait_queue_first. rewrite Eq, (fetch_ok _ _ _ Hl). cbn [res_bind hd_error].
  rewrite Ea, (fetch_ok _ _ _ Hw). cbn [res_bind]. unfold get_proc. rewrite (fetch_ok _ _ _ P). cbn.
  destruct wstate; [done|done|done].
Qed.

(** *** Witnesses *)

(** Process 13 waits on semaphore 500, whose value is [v]. *)
Definition demo_sem (v : Z) (l : list Z) : kstate :=
  set_sems {[500 := mk_sem v true 0 512]}
    (set_wqs {[512 := l]} (set_waits {[600 := mk_wait 13 WT_INTERRUPTED 512]}
      (set_procs (<[13 := demo_proc PROC_SLEEPING 5 WT_KSEM (Some 0%nat) 0]> (procs demo)) demo))).

Lemma demo_sem_inv v l : (l = [600] /\ v = 0) \/ l = [] -> sync_inv MLFQ_sched_class (demo_sem v l).
Proof.
  intros Hl. split.
  - apply (sched_inv_frame _ _ (set_procs (<[13 := demo_proc PROC_SLEEPING 5 WT_KSEM (Some 0%nat) 0]> (procs demo)) demo));
      try done. eapply sched_inv_upd; [apply demo_MLFQ|reflexivity..|done].
  - split; cbn [wqs waits demo_sem set_sems set_wqs set_waits].
    + intros q l' [<- <-]%lookup_singleton_Some. destruct Hl as [[-> _]| ->]; [apply NoDup_singleton|constructor].
    + intros q l' w [<- <-]%lookup_singleton_Some Hw. destruct Hl as [[-> _]| ->]; [|by apply not_elem_of_nil in Hw].
      apply list_elem_of_singleton in Hw as ->. eexists; split; [apply lookup_singleton_eq|]. split; [done|].
      eexists; split; [reflexivity|]. by split.
  - split; [split|]; [constructor|intros ? H%not_elem_of_nil; done|constructor|constructor].
  - split; cbn [sems wqs demo_sem set_sems set_wqs].
    + intros sem x [<- <-]%lookup_singleton_Some. exists l. split; [apply lookup_singleton_eq|]. cbn.
      destruct Hl as [[-> ->]| ->]; [lia|done].
    + intros a b x y [<- _]%lookup_singleton_Some [<- _]%lookup_singleton_Some; done.
Qed.

Lemma up_spec_witness :
  returns (__up MLFQ_sched_class 500 WT_KSEM (demo_sem 0 [600])) (fun s' => wqs s' !! 512 = Some []).
Proof.
  eapply returns_mono.
  - apply (up_spec MLFQ_sched_class MLFQ_class_ok (demo_sem 0 [600]) 500 (mk_sem 0 true 0 512) [600] WT_KSEM);
      [apply demo_sem_inv; by left|done..|]. intros wt y [= <-] [= <-]. done.
  - intros s' (_ & _ & -> & _). done.
Defined.

Lemma down_spec_witness :
  finishes (__down MLFQ_sched_class 500 WT_KSEM None 601 (mk_sys (demo_sem 1 []) tt)) (fun r _ => r = 0) /\
  blocks (__down MLFQ_sched_class 500 WT_KSEM None 601 (mk_sys (demo_sem 0 [600]) tt))
    (fun s1 => wqs (ks s1) !! 512 = Some [600; 601]) (fun _ _ => True).
Proof.
  split.
  - eapply finishes_mono.
    + apply (down_spec MLFQ_sched_class MLFQ_class_ok (mk_sys (demo_sem 1 []) tt) 500 (mk_sem 1 true 0 512)
               WT_KSEM None 601 [] (demo_proc PROC_RUNNABLE 2 0 (Some 0%nat) 3)); try done.
      apply demo_sem_inv; by right.
    + by intros r s' [-> _].
  - destruct (down_spec MLFQ_sched_class MLFQ_class_ok (mk_sys (demo_sem 0 [600]) tt) 500 (mk_sem 0 true 0 512)
               WT_KSEM None 601 [600] (demo_proc PROC_RUNNABLE 2 0 (Some 0%nat) 3))
      as (s1 & k & E & [D _] & _); try done; [apply demo_sem_inv; by left|].
    exists s1, k. split_and!; [done| |done]. destruct D as (_ & _ & -> & _). done.
Defined.

Lemma demo_resource : resource_inv MLFQ_sched_class 500 1 (demo_sem 1 [], []).
Proof.
  split; [apply demo_sem_inv; by right|]. exists (mk_sem 1 true 0 512), []. split_and!; try done.
  split; [intros w H%not_elem_of_nil; done|intros v w wv ww H%not_elem_of_nil; done].
Qed.


Lemma try_down_spec_witness :
  returns (try_down 500 (demo_sem 1 [])) (fun '(r, s') => r = true).
Proof.
  eapply returns_mono.
  - apply (try_down_spec MLFQ_sched_class MLFQ_class_ok (demo_sem 1 []) 500 (mk_sem 1 true 0 512));
      [apply demo_sem_inv; by right|done].
  - intros [r s'] (_ & -> & _). done.
Defined.

Lemma up_after_wakeup_panics_witness :
  (let* s1 := wakeup_proc MLFQ_sched_class 13 (demo_sem 0 [600]) in
   __up MLFQ_sched_class 500 WT_KSEM s1) = Panic.
Proof.
  destruct (wakeup_proc MLFQ_sched_class 13 (demo_sem 0 [600])) as [s1|] eqn:E; [|done]. cbn [res_bind].
  apply (up_after_wakeup_panics MLFQ_sched_class MLFQ_class_ok (demo_sem 0 [600]) s1 500 (mk_sem 0 true 0 512)
           600 [] (mk_wait 13 WT_INTERRUPTED 512) (demo_proc PROC_SLEEPING 5 WT_KSEM (Some 0%nat) 0) WT_KSEM);
    try done. apply demo_sem_inv; by left.
Defined.

Lemma semu_refcount_witness :
  returns (semu_create (Some 700) None (Some 500) 0 (mk_sys (demo_sem 1 []) (mk_se ∅ ∅ (fun _ => None))))
    (fun '(o, s1) => o = Some 700).
Proof.
  eapply returns_mono.
  - apply (semu_refcount (mk_sys (demo_sem 1 []) (mk_se ∅ ∅ (fun _ => None))) 700 500 (mk_sem 1 true 0 512)); try done.
    split; cbn [ks ext sems semus demo_sem set_sems].
    + intros sem x [<- <-]%lookup_singleton_Some. done.
    + intros a b H. by rewrite lookup_empty in H.
  - intros [o s1] (-> & _). done.
Defined.
