(* ===== verification/Sleep.v ===== *)
(** * Sleep: waiting on a queue, waking from it, and kernel locks

    The pieces every component that blocks is made of: a process that puts
    itself on a wait queue and calls [schedule], what it finds when it runs
    again, and releasing the first or all waiters of a queue.  The queues meant
    here are not those of semaphores. *)
From Stdlib Require Import Sorted.
From S2P Require Import Prelude KState Sched Timer Resume Wait Sem.

Lemma bind_check {S A} (b : bool) (K : unit -> code S A) s :
  b = true -> bind (fun s => assert! b ;; ret tt s) K s = K tt s.
Proof. by intros ->. Qed.

Lemma bind_ret {S A B} (a : A) (K : A -> code S B) s : bind (ret a) K s = K a s.
Proof. done. Qed.

Lemma linked_wqs w s s' : (forall q l, wqs s' !! q = Some l -> exists l0, wqs s !! q = Some l0 /\ forall x, x ∈ l -> x ∈ l0) ->
  linked w s = false -> linked w s' = false.
Proof. rewrite !linked_false. intros H Hl q l Hq Hw. destruct (H q l Hq) as (l0 & Hl0 & Hs). by eapply Hl, Hs. Qed.

Section Sleep.
Context (C : sched_class) `{OK : !SchedClassOk C}.

(** No semaphore owns the queue. *)
Definition no_sem (q : Z) (s : kstate) : Prop := forall sem x, sems s !! sem = Some x -> sem_wq x <> q.

(** The process has gone to sleep at the end of the queue. *)
Definition asleep (q w ws : Z) (l : list Z) (s s1 : kstate) : Prop :=
  sync_inv C s1 /\ sems s1 = sems s /\ wqs s1 = <[q := l ++ [w]]> (wqs s) /\
  waits s1 = <[w := mk_wait (current s) WT_INTERRUPTED q]> (waits s) /\
  (exists c, procs s1 !! current s = Some c /\ state c = PROC_SLEEPING /\ wait_state c = ws) /\
  on_rq (current s) s1 = false /\ current s1 <> current s /\
  (forall p, p <> current s -> pview <$> procs s1 !! p = pview <$> procs s !! p).

(** It has been dispatched again in [s'] and has left the queue. *)
Definition awake {E} (w : Z) (s' s2 : sys E) : Prop :=
  sync_inv C (ks s2) /\ linked w (ks s2) = false /\ waits (ks s2) = waits (ks s') /\ sems (ks s2) = sems (ks s') /\
  procs (ks s2) = procs (ks s') /\ ext s2 = ext s' /\
  forall q l, wqs (ks s') !! q = Some l -> wqs (ks s2) !! q = Some (filter (fun y => y <> w) l).

Lemma sleep_ok {E A} (K : code (sys E) A) q w ws timer l c (s : sys E) :
  sync_inv C (ks s) -> linked w (ks s) = false -> wqs (ks s) !! q = Some l -> no_sem q (ks s) ->
  timer_ready timer (ks s) -> procs (ks s) !! current (ks s) = Some c -> lcpu_count (ks s) <= pid c ->
  current (ks s) <> idleproc (ks s) ->
  blocks ((do_ update (wait_current_set q w ws);
           do_ update (ipc_add_timer timer);
           do_ yield C;
           do_ update (ipc_del_timer timer);
           do_ update (wait_current_del q w); K) s)
    (fun s1 => asleep q w ws l (ks s) (ks s1) /\ ext s1 = ext s)
    (fun s' r => forall wt, sync_inv C (ks s') -> waits (ks s') !! w = Some wt -> wait_queue wt = q ->
       exists s2, r = K s2 /\ awake w s' s2).
Proof.
  intros J Hn Hq Hsep Ht Hc Hp Hid.
  destruct (park_yield_ok C (ks s) q w ws l c timer) as (k3 & E3 & H3); try done.
  { intros sem x Hs Ew. by destruct (Hsep sem x Hs). }
  apply bind_ok in E3 as (k1 & E1 & E3). apply bind_ok in E3 as (k2 & E2 & E3).
  rewrite (bind_done _ _ _ tt (mk_sys k1 (ext s))) by (unfold update; by rewrite E1).
  rewrite (bind_done _ _ _ tt (mk_sys k2 (ext s))) by (unfold update; cbn; by rewrite E2).
  apply blocks_yield.
  - exists k3. split; [done|]. by split.
  - intros s' wt I Hw Eq. destruct (ipc_del_timer_ok timer (ks s')) as (k4 & E4 & T4 & F4); [apply I|].
    rewrite (bind_done _ _ _ tt (mk_sys k4 (ext s'))) by (unfold update; by rewrite E4).
    assert (I4 : sync_inv C k4) by (by eapply sync_timers).
    assert (Hw4 : waits k4 !! w = Some wt) by (by rewrite F4).
    destruct (wait_current_del_ok C k4 w wt I4 Hw4) as (k5 & E5 & I5 & L5 & A5 & P5 & S5 & _ & _ & _ & Q5).
    rewrite Eq in E5. rewrite (bind_done _ _ _ tt (mk_sys k5 (ext s'))) by (unfold update; cbn; by rewrite E5).
    exists (mk_sys k5 (ext s')). split; [done|]. split_and!; cbn; [done|done|by rewrite A5, F4|by rewrite S5, F4|by rewrite P5, F4|done|].
    intros q' l' Hq'. apply Q5. by rewrite F4.
Qed.

(** The first waiter of the queue, if any, is released. *)
Definition roused (q flags : Z) (l : list Z) (s s' : kstate) : Prop :=
  sync_inv C s' /\ sems s' = sems s /\ wqs s' = <[q := tail l]> (wqs s) /\ current s' = current s /\
  match l with
  | [] => s' = s
  | w :: _ => forall wt, waits s !! w = Some wt ->
      waits s' = <[w := mk_wait (wproc wt) flags q]> (waits s) /\
      exists y, procs s' !! wproc wt = Some y /\ state y = PROC_RUNNABLE
  end.

Lemma wakeup_first_ok s q l flags :
  sync_inv C s -> wqs s !! q = Some l -> no_sem q s ->
  returns (wakeup_first C q flags true s) (roused q flags l s).
Proof.
  intros [I W T M] Hq Hsep. unfold wakeup_first, wait_queue_first. rewrite (fetch_ok _ _ _ Hq). cbn [res_bind].
  destruct l as [|w l]; cbn [hd_error].
  - apply returns_ok. split_and!; [done|done|by rewrite insert_id|done|done].
  - destruct (wi_wait _ W q (w :: l) w Hq) as (x & Hx & _ & _); [by left|].
    eapply returns_mono; [apply (wakeup_wait_ok C s q w (w :: l) x); auto; left|].
    intros s' (I' & W' & K). pose proof (wakes_fields _ _ _ K) as (E1 & E2 & E3 & E4 & E5 & E6).
    cbn [wqs waits sems timers timer_list current released upd_wait set_waits set_wqs] in E1, E2, E3, E4, E5, E6.
    rewrite filter_head_NoDup in E1 by exact (wi_nodup _ W _ _ Hq).
    split_and!; [|done|done|done|].
    + split; [done|done|by apply (timer_inv_frame s)|]. split; rewrite E3; [|apply M]. intros sem y Hy.
      rewrite E1, lookup_insert_ne by (intros ->; by eapply Hsep). by apply (smi_queue _ M sem).
    + intros wt Hwt. assert (wt = x) as -> by congruence. split; [done|].
      destruct K as [_ (y0 & y & _ & Hy & Hr & _)]. eauto.
Qed.

(** Waking everybody on a queue. *)
Lemma wakeup_all_ok s q l flags :
  sync_inv C s -> wqs s !! q = Some l -> no_sem q s ->
  returns (wakeup_queue C q flags true s) (fun s' =>
    sync_inv C s' /\ sems s' = sems s /\ wqs s' = <[q := []]> (wqs s) /\
    (forall v x, v ∉ l -> waits s !! v = Some x -> waits s' !! v = Some x) /\
    (forall p x, procs s !! p = Some x -> state x = PROC_RUNNABLE ->
       exists x', procs s' !! p = Some x' /\ state x' = PROC_RUNNABLE) /\
    (forall v x, v ∈ l -> waits s !! v = Some x ->
       waits s' !! v = Some (mk_wait (wproc x) flags q) /\
       exists y, procs s' !! wproc x = Some y /\ state y = PROC_RUNNABLE) /\ same_cpu s s').
Proof.
  intros [I W T M] Hq Hsep. unfold wakeup_queue, wait_queue_first. rewrite (fetch_ok _ _ _ Hq). cbn [res_bind].
  destruct l as [|w l]; cbn [hd_error].
  - apply returns_ok. split_and!; auto; [done|by rewrite insert_id|eauto|intros v x Hv%not_elem_of_nil; done|by split_and!].
  - eapply returns_mono; [apply (wakeup_queue_del_ok C l w); auto; cbn; lia|].
    intros s' (I' & W' & Q' & _ & R' & F' & G' & S1 & S2 & S3 & S4). split_and!; auto.
    split; [done|done|by apply (timer_inv_frame s)|]. split; rewrite S1; [|apply M]. intros sem y Hy.
    rewrite Q', lookup_insert_ne by (intros E; by eapply Hsep). by apply (smi_queue _ M sem).
Qed.

End Sleep.

(** ** Kernel locks: a semaphore with the value 1 *)

Section Lock.
Context (C : sched_class) `{OK : !SchedClassOk C}.

Lemma sync_put_sem s sem x v l :
  sync_inv C s -> sems s !! sem = Some x -> wqs s !! sem_wq x = Some l -> (0 < v -> l = []) ->
  sync_inv C (put_sem sem (with_value v x) s).
Proof.
  intros [I W T M] Hx Hl Hv. split; [by apply (sched_inv_frame C _ s)| |by apply (timer_inv_frame s)|by eapply sem_inv_put; eauto].
  apply (wait_inv_frame s); [done|by left|done|done].
Qed.

(** Taking a free lock does not block. *)
Lemma lock_ok {E A} sem x w (K : unit -> code (sys E) A) (s : sys E) :
  sync_inv C (ks s) -> sems (ks s) !! sem = Some x -> valid x = true -> 0 < value x ->
  bind (down C sem w) K s = K tt (mk_sys (put_sem sem (with_value (value x - 1) x) (ks s)) (ext s)) /\
  sync_inv C (put_sem sem (with_value (value x - 1) x) (ks s)) /\ wqs (ks s) !! sem_wq x = Some [].
Proof.
  intros I Hx Hv Hp. destruct (down_now_ok C s sem x WT_KSEM None w I Hx Hv Hp) as (r & s' & E' & -> & -> & I').
  split_and!; [|done|].
  - unfold down. rewrite (bind_done _ _ _ tt (mk_sys (put_sem sem (with_value (value x - 1) x) (ks s)) (ext s))); [done|].
    by rewrite (bind_done _ _ _ _ _ E').
  - destruct (smi_queue _ (sy_sem _ _ I) sem x Hx) as (l & Hl & Hlv). rewrite Hl. f_equal. by apply Hlv.
Qed.

(** Giving a lock back nobody waits for. *)
Lemma unlock_ok s sem x :
  sync_inv C s -> sems s !! sem = Some x -> valid x = true -> wqs s !! sem_wq x = Some [] -> - 2 ^ 31 <= value x < 2 ^ 31 - 1 ->
  up C sem s = Ok (put_sem sem (with_value (value x + 1) x) s) /\ sync_inv C (put_sem sem (with_value (value x + 1) x) s).
Proof.
  intros I Hx Hv Hq Hr. split.
  - unfold up, __up. rewrite (fetch_ok _ _ _ Hx). cbn [res_bind]. rewrite Hv. cbn [assert res_bind].
    unfold wait_queue_first. rewrite (fetch_ok _ _ _ Hq). cbn [res_bind hd_error]. by rewrite s32_small by lia.
  - eapply sync_put_sem; eauto.
Qed.

(** Sleeping without a timer. *)
Lemma nap_ok {E A} (K : code (sys E) A) q w ws l c (s : sys E) :
  sync_inv C (ks s) -> linked w (ks s) = false -> wqs (ks s) !! q = Some l -> no_sem q (ks s) ->
  procs (ks s) !! current (ks s) = Some c -> lcpu_count (ks s) <= pid c -> current (ks s) <> idleproc (ks s) ->
  blocks ((do_ update (wait_current_set q w ws);
           do_ yield C;
           do_ update (wait_current_del q w); K) s)
    (fun s1 => asleep C q w ws l (ks s) (ks s1) /\ ext s1 = ext s)
    (fun s' r => forall wt, sync_inv C (ks s') -> waits (ks s') !! w = Some wt -> wait_queue wt = q ->
       exists s2, r = K s2 /\ awake C w s' s2).
Proof.
  intros I Hw Hq Hn Hc Hp Hid.
  destruct (sleep_ok C K q w ws None l c s I Hw Hq Hn Logic.I Hc Hp Hid) as (s1 & k & E1 & H1 & H2).
  unfold bind at 1 in E1. unfold bind at 1. destruct (update (wait_current_set q w ws) s) as [[u s0|? ?]|] eqn:Eu; try done.
  2:{ unfold update in Eu. by destruct (wait_current_set _ _ _ _). }
  cbn [res_bind run_bind] in E1 |- *. exists s1.
  assert (Heta : forall (x : sys E), mk_sys (ks x) (ext x) = x) by (by intros []).
  unfold bind, update, ipc_add_timer in E1 |- *. cbn [res_bind run_bind] in E1 |- *. rewrite Heta in E1.
  unfold yield in *. destruct (schedule C (ks s0)) as [k0|]; [|done]. cbn [res_bind run_bind] in E1 |- *.
  injection E1 as <- Ek. eexists. split; [reflexivity|]. split; [done|].
  intros s' wt I' Hw' Hq'. destruct (H2 s' wt I' Hw' Hq') as (s2 & E2 & H). exists s2. split; [|done].
  by rewrite <- E2, <- Ek.
Qed.

End Lock.
