(* ===== verification/RbTree.v ===== *)
(** * RbTree: red-black trees as values

    The trees that libs/rb_tree.c keeps in memory, as values: a node has a
    colour and the address of the structure it is embedded in.  The functions
    below are the algorithms of that file on such values, written with a
    zipper: a context is the list of the frames from a position up to the
    root, which is how the pointer code walks.  File [RbHeap] proves that the
    pointer code computes them.

    [RbTree] is what the tree promises its users; [rb_tree_c] discharges it. *)
From Stdlib Require Import Sorted.
From S2P Require Import Prelude.

(** ** Trees *)

(** [true] is red. *)
Inductive tree := Leaf | Node (c : bool) (l : tree) (a : Z) (r : tree).

Fixpoint elements (t : tree) : list Z :=
  match t with
  | Leaf => []
  | Node _ l a r => elements l ++ a :: elements r
  end.

Fixpoint height (t : tree) : nat :=
  match t with
  | Leaf => O
  | Node _ l _ r => S (Nat.max (height l) (height r))
  end.

Definition col (t : tree) : bool := match t with Leaf => false | Node c _ _ _ => c end.
Definition blacken (t : tree) : tree := match t with Leaf => Leaf | Node _ l a r => Node false l a r end.

(** The interface: an insertion puts a key after the keys that are not
    greater, a deletion takes one node out. *)
Class RbTree := {
  tree_insert : (Z -> Z -> Z) -> tree -> Z -> tree;
  tree_delete : tree -> Z -> tree;
  tree_insert_ok : forall cmp key t a l1 l2,
    (forall x y, 0 < cmp x y <-> key y < key x) ->
    elements t = l1 ++ l2 ->
    Forall (fun x => key x <= key a) l1 -> Forall (fun x => key a < key x) l2 ->
    elements (tree_insert cmp t a) = l1 ++ a :: l2;
  tree_delete_ok : forall t a, NoDup (elements t) -> a ∈ elements t ->
    elements (tree_delete t a) = filter (fun x => x <> a) (elements t)
}.

(** ** Directions and contexts *)

(** The macros of rb_tree.c take [_left] and [_right]; [d] stands for the
    first and [flip d] for the second. *)
Inductive dir := L | R.
Definition flip (d : dir) : dir := match d with L => R | R => L end.

#[export] Instance dir_eq_dec : EqDecision dir.
Proof. solve_decision. Defined.

(** [near] is the child on side [d]. *)
Definition tnode (d : dir) (c : bool) (near : tree) (a : Z) (far : tree) : tree :=
  match d with L => Node c near a far | R => Node c far a near end.

Definition sub (d : dir) (t : tree) : tree :=
  match t with
  | Leaf => Leaf
  | Node _ l _ r => match d with L => l | R => r end
  end.

(** A frame: the side the hole is on, colour and address of the node, the
    other child. *)
Definition frame : Type := dir * bool * Z * tree.

Fixpoint plug (k : list frame) (t : tree) : tree :=
  match k with
  | [] => t
  | (d, c, a, s) :: k => plug k (tnode d c t a s)
  end.

(** ** Insertion *)

(** The walk of [rb_insert_binary]. *)
Fixpoint descend (cmp : Z -> Z -> Z) (a : Z) (t : tree) (k : list frame) : list frame :=
  match t with
  | Leaf => k
  | Node c l b r =>
      if 0 <? cmp b a then descend cmp a l ((L, c, b, r) :: k)
      else descend cmp a r ((R, c, b, l) :: k)
  end.

(** The rotations that end [rb_insert]: [t] is on side [d] of the red node
    [p], which is on side [d2] of [g] with uncle [u]. *)
Definition ins_rot (d d2 : dir) (t : tree) (p : Z) (s : tree) (g : Z) (u : tree) : tree :=
  if decide (d = d2) then tnode d2 false t p (tnode d2 true s g u)
  else match t with
       | Leaf => tnode d2 false (tnode d true t p s) g u
       | Node _ _ x _ =>
           tnode d2 false (tnode d2 true s p (sub d2 t)) x (tnode d2 true (sub (flip d2) t) g u)
       end.

Fixpoint ins_fix (k : list frame) (t : tree) : tree :=
  match k with
  | (d, true, p, s) :: (d2, c2, g, u) :: k2 =>
      if col u then ins_fix k2 (tnode d2 true (tnode d false t p s) g (blacken u))
      else plug k2 (ins_rot d d2 t p s g u)
  | _ => plug k t
  end.

Definition fins (cmp : Z -> Z -> Z) (t : tree) (a : Z) : tree :=
  blacken (ins_fix (descend cmp a t []) (Node true Leaf a Leaf)).

(** ** Deletion *)

(** The part of [RB_DELETE_FIXUP_SUB] after the sibling [w] is black.  The
    flag says that the loop goes on above. *)
Definition del_234 (d : dir) (pc : bool) (x : tree) (p : Z) (w : tree) : tree * bool :=
  match w with
  | Leaf => (tnode d pc x p w, false)
  | Node _ _ wa _ =>
      let wn := sub d w in
      let wf := sub (flip d) w in
      if negb (col wn) && negb (col wf) then (tnode d pc x p (tnode d true wn wa wf), true)
      else if negb (col wf) then
        match wn with
        | Leaf => (tnode d pc x p w, false)
        | Node _ _ n _ =>
            (tnode d pc (tnode d false x p (sub d wn)) n (tnode d false (sub (flip d) wn) wa wf), false)
        end
      else (tnode d pc (tnode d false x p wn) wa (blacken wf), false)
  end.

(** [rb_delete_fixup]: the subtree [x] has one black node too few. *)
Fixpoint del_fix (k : list frame) (x : tree) : tree :=
  match k with
  | [] => blacken x
  | (d, pc, p, w) :: k' =>
      if col x then plug k (blacken x)
      else match w with
      | Node true _ wa _ =>
          let '(t, more) := del_234 d true x p (sub d w) in
          plug k' (tnode d false (if more then blacken t else t) wa (sub (flip d) w))
      | _ =>
          let '(t, more) := del_234 d pc x p w in
          if more then del_fix k' t else plug k' t
      end
  end.

Definition cut (k : list frame) (c : bool) (x : tree) : tree :=
  if c then plug k x else del_fix k x.

Fixpoint locate (z : Z) (t : tree) (k : list frame) : option (list frame * tree) :=
  match t with
  | Leaf => None
  | Node c l a r =>
      if decide (a = z) then Some (k, t)
      else match locate z l ((L, c, a, r) :: k) with
           | Some res => Some res
           | None => locate z r ((R, c, a, l) :: k)
           end
  end.

(** The first node of [Node c l a r]: context, colour, address, right child. *)
Fixpoint leftmost (c : bool) (l : tree) (a : Z) (r : tree) (k : list frame) : list frame * bool * Z * tree :=
  match l with
  | Leaf => (k, c, a, r)
  | Node c1 l1 a1 r1 => leftmost c1 l1 a1 r1 ((L, c, a, r) :: k)
  end.

Definition fdel (t : tree) (z : Z) : tree :=
  match locate z t [] with
  | Some (k, Node c l _ r) =>
      match l, r with
      | Leaf, _ => cut k c r
      | _, Leaf => cut k c l
      | _, Node cr lr ar rr =>
          let '(k1, cy, y, x) := leftmost cr lr ar rr [] in cut (k1 ++ (R, c, y, l) :: k) cy x
      end
  | _ => t
  end.

(** ** Search *)

(** [rb_search]: [f node] is [compare(node, key)]. *)
Fixpoint search (f : Z -> Z) (t : tree) : option Z :=
  match t with
  | Leaf => None
  | Node _ l a r => if f a =? 0 then Some a else if 0 <? f a then search f l else search f r
  end.

(** ** The red-black invariant *)

(** Every path has [n] black nodes and no red node has a red child. *)
Fixpoint rbok (t : tree) (n : nat) : Prop :=
  match t with
  | Leaf => n = O
  | Node true l _ r => rbok l n /\ rbok r n /\ col l = false /\ col r = false
  | Node false l _ r => match n with O => False | S m => rbok l m /\ rbok r m end
  end.

Definition valid (t : tree) : Prop := col t = false /\ exists n, rbok t n.

Definition pcol (k : list frame) : bool := match k with (_, c, _, _) :: _ => c | [] => false end.

(** A context in which a subtree of black height [n] is missing. *)
Fixpoint ctxok (k : list frame) (n : nat) : Prop :=
  match k with
  | [] => True
  | (_, c, _, s) :: k' =>
      rbok s n /\
      (if c then col s = false /\ k' <> [] /\ pcol k' = false /\ ctxok k' n else ctxok k' (S n))
  end.

(** A subtree with a red root fits under a black node only. *)
Definition fits (k : list frame) (t : tree) : Prop := k = [] \/ pcol k = true -> col t = false.

(** ** The in-order sequence *)

(** What a context has before and after the hole. *)
Fixpoint before (k : list frame) : list Z :=
  match k with
  | [] => []
  | (L, _, _, _) :: k => before k
  | (R, _, a, s) :: k => before k ++ elements s ++ [a]
  end.
Fixpoint after (k : list frame) : list Z :=
  match k with
  | [] => []
  | (L, _, a, s) :: k => a :: elements s ++ after k
  | (R, _, _, _) :: k => after k
  end.

Lemma elements_plug k t : elements (plug k t) = before k ++ elements t ++ after k.
Proof.
  revert t; induction k as [|[[[d c] a] s] k IH]; intros t; cbn [plug before after].
  - by rewrite app_nil_r.
  - rewrite IH. destruct d; cbn [tnode elements]; by rewrite <- !app_assoc.
Qed.

Lemma plug_app k1 k2 t : plug (k1 ++ k2) t = plug k2 (plug k1 t).
Proof. revert t; induction k1 as [|[[[d c] a] s] k IH]; intros t; [done|apply IH]. Qed.

Lemma elements_blacken t : elements (blacken t) = elements t.
Proof. by destruct t. Qed.

Lemma elements_tnode d c c' A a B A' B' :
  elements A = elements A' -> elements B = elements B' ->
  elements (tnode d c A a B) = elements (tnode d c' A' a B').
Proof. destruct d; cbn [tnode elements]; by intros -> ->. Qed.

(** The first part of a split does not matter: equal subtrees in a context. *)
Lemma plug_elements k t t' : elements t = elements t' -> elements (plug k t) = elements (plug k t').
Proof. intros E; by rewrite !elements_plug, E. Qed.

Lemma flip_flip d : flip (flip d) = d.
Proof. by destruct d. Qed.

Lemma flip_ne d d' : d <> d' -> d = flip d'.
Proof. by destruct d, d'. Qed.

Lemma tnode_flip d c A a B : tnode (flip d) c A a B = tnode d c B a A.
Proof. by destruct d. Qed.

Lemma tnode_sub d c l a r : Node c l a r = tnode d c (sub d (Node c l a r)) a (sub (flip d) (Node c l a r)).
Proof. by destruct d. Qed.

Ltac seq := cbn [fst tnode elements sub flip]; repeat (progress (rewrite <- ?app_assoc; cbn [app])); try reflexivity.

Lemma ins_rot_elements d d2 t p s g u :
  elements (ins_rot d d2 t p s g u) = elements (tnode d2 false (tnode d true t p s) g u).
Proof.
  unfold ins_rot. case_decide as E; [subst; destruct d2; seq|].
  apply flip_ne in E as ->. destruct t; [done|]. destruct d2; seq.
Qed.

Lemma ins_fix_elements_len n : forall k t, (length k <= n)%nat -> elements (ins_fix k t) = elements (plug k t).
Proof.
  induction n as [|n IH]; intros k t Hn; destruct k as [|[[[d [|]] p] s] [|[[[d2 c2] g] u] k]]; try done; [simpl in Hn; lia|].
  cbn [ins_fix plug]. cbn [length] in Hn. destruct (col u).
  - rewrite IH by lia. apply plug_elements, elements_tnode; [by apply elements_tnode|apply elements_blacken].
  - apply plug_elements. rewrite ins_rot_elements. by apply elements_tnode.
Qed.

Lemma ins_fix_elements k t : elements (ins_fix k t) = elements (plug k t).
Proof. by eapply ins_fix_elements_len. Qed.

Lemma descend_split cmp key a t k l1 l2 :
  (forall x y, 0 < cmp x y <-> key y < key x) ->
  elements t = l1 ++ l2 -> Forall (fun x => key x <= key a) l1 -> Forall (fun x => key a < key x) l2 ->
  before (descend cmp a t k) = before k ++ l1 /\ after (descend cmp a t k) = l2 ++ after k.
Proof.
  intros Hc. revert k l1 l2. induction t as [|c l IHl b r IHr]; intros k l1 l2 E H1 H2; cbn [descend elements] in *.
  - symmetry in E; apply app_nil in E as [-> ->]. by rewrite app_nil_r.
  - destruct (Z.ltb_spec 0 (cmp b a)) as [Hb|Hb].
    + apply Hc in Hb. apply app_eq_inv in E as [(k' & El & ->)|([|x k'] & -> & E)]; cbn [app] in *.
      * apply Forall_app in H2 as [H2 H3].
        destruct (IHl ((L, c, b, r) :: k) l1 k') as [-> ->]; [done..|]. split; [done|].
        cbn [after]. by rewrite <- app_assoc.
      * subst l2. rewrite app_nil_r in *.
        destruct (IHl ((L, c, b, r) :: k) (elements l) []) as [-> ->]; [by rewrite app_nil_r|done|constructor|done].
      * injection E as -> _. apply Forall_app in H1 as [_ H1]. apply Forall_cons in H1 as [H1 _]. lia.
    + assert (Hb' : ~ key a < key b) by (intros H; apply Hc in H; lia).
      apply app_eq_inv in E as [(k' & El & ->)|([|x k'] & -> & E)]; cbn [app] in *.
      * apply Forall_app in H2 as [_ H2]. apply Forall_cons in H2 as [H2 _]. lia.
      * subst l2. apply Forall_cons in H2 as [H2 _]. lia.
      * injection E as -> E. apply Forall_app in H1 as [H0 H1]. apply Forall_cons in H1 as [_ H1].
        destruct (IHr ((R, c, x, l) :: k) k' l2) as [-> ->]; [done..|].
        split; [|done]. cbn [before]. by rewrite <- !app_assoc.
Qed.

Lemma fins_elements cmp key t a l1 l2 :
  (forall x y, 0 < cmp x y <-> key y < key x) ->
  elements t = l1 ++ l2 -> Forall (fun x => key x <= key a) l1 -> Forall (fun x => key a < key x) l2 ->
  elements (fins cmp t a) = l1 ++ a :: l2.
Proof.
  intros Hc E H1 H2. unfold fins. rewrite elements_blacken, ins_fix_elements, elements_plug.
  destruct (descend_split cmp key a t [] l1 l2) as [-> ->]; [done..|]. cbn. by rewrite app_nil_r.
Qed.

(** *** Deletion *)

Lemma del_234_elements d pc x p w : elements (del_234 d pc x p w).1 = elements (tnode d pc x p w).
Proof.
  destruct w as [|cw wl wa wr]; [done|]. unfold del_234.
  destruct d; cbn [sub flip]; case_match; [seq| |seq|]; (case_match; [by case_match; seq|]);
    cbn [fst]; seq; by rewrite elements_blacken.
Qed.

Lemma del_fix_elements k x : elements (del_fix k x) = elements (plug k x).
Proof.
  revert x; induction k as [|[[[d pc] p] w] k IH]; intros x; cbn [del_fix]; [apply elements_blacken|].
  destruct (col x); [apply plug_elements, elements_blacken|]. cbn [plug].
  destruct w as [|[|] wl wa wr].
  - done.
  - pose proof (del_234_elements d true x p (sub d (Node true wl wa wr))) as E.
    destruct (del_234 _ _ _ _ _) as [t more]; cbn [fst] in E.
    apply plug_elements. assert (E' : elements (if more then blacken t else t) = elements t)
      by (destruct more; [apply elements_blacken|done]).
    destruct d; cbn [tnode elements sub flip] in *; rewrite E', E; seq.
  - pose proof (del_234_elements d pc x p (Node false wl wa wr)) as E.
    destruct (del_234 _ _ _ _ _) as [t [|]]; cbn [fst] in E; [rewrite IH|]; by apply plug_elements.
Qed.

Lemma cut_elements k c x : elements (cut k c x) = before k ++ elements x ++ after k.
Proof. unfold cut. destruct c; [|rewrite del_fix_elements]; apply elements_plug. Qed.

Lemma leftmost_ok c l a r k k1 cy y x :
  leftmost c l a r k = (k1, cy, y, x) -> plug k1 (Node cy Leaf y x) = plug k (Node c l a r).
Proof.
  revert c a r k. induction l as [|c1 l1 IH a1 r1 _]; intros c a r k E; cbn [leftmost] in E; [by simplify_eq|].
  by rewrite (IH _ _ _ _ E).
Qed.

Lemma leftmost_before c l a r k k1 cy y x : leftmost c l a r k = (k1, cy, y, x) -> before k1 = before k.
Proof.
  revert c a r k. induction l as [|c1 l1 IH a1 r1 _]; intros c a r k E; cbn [leftmost] in E; [by simplify_eq|].
  by rewrite (IH _ _ _ _ E).
Qed.

Lemma locate_ok z t k k' t' :
  locate z t k = Some (k', t') ->
  plug k' t' = plug k t /\ exists c l r, t' = Node c l z r.
Proof.
  revert k. induction t as [|c l IHl a r IHr]; intros k E; cbn [locate] in E; [done|].
  case_decide as Ha; [simplify_eq; eauto|].
  destruct (locate z l _) eqn:El; [simplify_eq; by apply IHl in El|by apply IHr in E].
Qed.

Lemma locate_is_Some z t k : z ∈ elements t -> is_Some (locate z t k).
Proof.
  revert k. induction t as [|c l IHl a r IHr]; intros k Hz; cbn [locate elements] in *; [by apply not_elem_of_nil in Hz|].
  case_decide as Ha; [eauto|]. apply elem_of_app in Hz as [Hz|Hz].
  - by destruct (IHl ((L, c, a, r) :: k) Hz) as [? ->]; eauto.
  - apply elem_of_cons in Hz as [Hz|Hz]; [congruence|].
    destruct (locate z l _); eauto.
Qed.

Lemma filter_mid_ne (z : Z) l1 l2 :
  NoDup (l1 ++ z :: l2) -> filter (fun x => x <> z) (l1 ++ z :: l2) = l1 ++ l2.
Proof.
  intros Hn. apply NoDup_app in Hn as (_ & H1 & H2). apply NoDup_cons in H2 as [H2 _].
  rewrite filter_app, filter_cons_False, !filter_ne_id; try done; [|tauto].
  intros Hz. apply (H1 z Hz). by left.
Qed.

Lemma fdel_elements t z : NoDup (elements t) -> z ∈ elements t ->
  elements (fdel t z) = filter (fun x => x <> z) (elements t).
Proof.
  intros Hn Hz. destruct (locate_is_Some z t [] Hz) as [[k t'] E].
  pose proof (locate_ok _ _ _ _ _ E) as (Ht & c & l & r & ->). cbn [plug] in Ht.
  assert (Hseq : elements t = (before k ++ elements l) ++ z :: elements r ++ after k).
  { rewrite <- Ht, elements_plug. cbn [elements]. by rewrite <- !app_assoc. }
  rewrite Hseq in Hn |- *. rewrite filter_mid_ne by done. unfold fdel. rewrite E.
  destruct l as [|cl ll al rl]; [rewrite cut_elements; seq|].
  destruct r as [|cr lr ar rr]; [rewrite cut_elements; seq|].
  destruct (leftmost cr lr ar rr []) as [[[k1 cy] y] x] eqn:Em.
  pose proof (leftmost_before _ _ _ _ _ _ _ _ _ Em) as Hb.
  apply leftmost_ok, (f_equal elements) in Em. rewrite elements_plug, Hb in Em. cbn [plug before app] in Em.
  rewrite <- Em, cut_elements, <- elements_plug, plug_app, !elements_plug, Hb.
  cbn [before after]. seq.
Qed.

#[export] Instance rb_tree_c : RbTree := {|
  tree_insert := fins;
  tree_delete := fdel;
  tree_insert_ok := fins_elements;
  tree_delete_ok := fdel_elements
|}.

(** ** The invariant is kept *)

Lemma rbok_tnode d c A a B n :
  rbok (tnode d c A a B) n <->
  if c then rbok A n /\ rbok B n /\ col A = false /\ col B = false
  else match n with O => False | S m => rbok A m /\ rbok B m end.
Proof. destruct d, c; cbn [tnode rbok]; destruct n; naive_solver. Qed.

Lemma col_tnode d c A a B : col (tnode d c A a B) = c.
Proof. by destruct d. Qed.

Lemma blacken_tnode d c A a B : blacken (tnode d c A a B) = tnode d false A a B.
Proof. by destruct d. Qed.

Lemma col_blacken t : col (blacken t) = false.
Proof. by destruct t. Qed.

Lemma blacken_id t : col t = false -> blacken t = t.
Proof. destruct t; cbn [col blacken]; by intros; subst. Qed.

Lemma blacken_red t n : rbok t n -> col t = true -> rbok (blacken t) (S n).
Proof. destruct t as [|[|] l a r]; cbn [col blacken rbok]; naive_solver. Qed.

Lemma plug_valid k n t : ctxok k n -> rbok t n -> fits k t -> valid (plug k t).
Proof.
  revert n t. induction k as [|[[[d c] a] s] k IH]; intros n t Hk Ht Hf; cbn [plug ctxok] in *.
  - split; [apply Hf; by left|by exists n].
  - destruct Hk as [Hs Hk]. destruct c.
    + destruct Hk as (Hcs & Hne & Hp & Hk). apply (IH n); [done| |].
      * rewrite rbok_tnode. split_and!; [done..| |done]. apply Hf. by right.
      * intros [?|?]; [done|congruence].
    + apply (IH (S n)); [done|by rewrite rbok_tnode|]. intros _. apply col_tnode.
Qed.

Lemma unplug_valid k t : valid (plug k t) -> exists n, ctxok k n /\ rbok t n /\ fits k t.
Proof.
  revert t. induction k as [|[[[d c] a] s] k IH]; intros t Hv; cbn [plug ctxok] in *.
  - destruct Hv as [Hc [n Hn]]. exists n. split_and!; [done..|]. by intros _.
  - destruct (IH _ Hv) as (n & Hk & Ht & Hf). rewrite rbok_tnode in Ht. unfold fits in *. rewrite col_tnode in Hf.
    cbn [pcol]. destruct c.
    + exists n. destruct Ht as (Ht & Hs & Hct & Hcs). split_and!; try done.
      * intros ->. by discriminate Hf; left.
      * destruct (pcol k); [by discriminate Hf; right|done].
    + destruct n as [|m]; [done|]. exists m. destruct Ht as [Ht Hs]. split_and!; try done. by intros [?|?].
Qed.

Lemma ins_rot_ok d d2 t p s g u n :
  rbok t n -> col t = true -> rbok s n -> col s = false -> rbok u n -> col u = false ->
  rbok (ins_rot d d2 t p s g u) (S n) /\ col (ins_rot d d2 t p s g u) = false.
Proof.
  intros Ht Hct Hs Hcs Hu Hcu. unfold ins_rot. case_decide.
  - rewrite !rbok_tnode, col_tnode. naive_solver.
  - destruct t as [|c l x r]; [done|]. cbn [col] in Hct; subst c. cbn [rbok] in Ht.
    rewrite !rbok_tnode, col_tnode. destruct d2; cbn [sub flip]; naive_solver.
Qed.

Lemma ins_fix_valid_len len : forall k n t, (length k <= len)%nat ->
  ctxok k n -> rbok t n -> col t = true -> valid (blacken (ins_fix k t)).
Proof.
  induction len as [|len IH]; intros k n t Hl Hk Ht Hc; destruct k as [|[[[d c] p] s] k1]; try (simpl in Hl; lia);
    try (split; [apply col_blacken|exists (S n); by apply blacken_red]).
  cbn [ctxok length] in Hk, Hl. destruct Hk as [Hs Hk]. destruct c.
  - destruct Hk as (Hcs & Hne & Hp & Hk). destruct k1 as [|[[[d2 c2] g] u] k2]; [done|].
    cbn [pcol] in Hp. subst c2. cbn [ctxok length] in Hk, Hl. destruct Hk as [Hu Hk]. cbn [ins_fix].
    destruct (col u) eqn:Ecu.
    + apply (IH k2 (S n)); [lia|done| |apply col_tnode]. rewrite !rbok_tnode, col_tnode, col_blacken.
      split_and!; try done. by apply blacken_red.
    + destruct (ins_rot_ok d d2 t p s g u n) as [Hr Hcr]; [done..|].
      assert (Hv : valid (plug k2 (ins_rot d d2 t p s g u))) by (apply (plug_valid k2 (S n)); [done..|by intros _]).
      rewrite blacken_id by apply Hv. done.
  - assert (Hv : valid (plug ((d, false, p, s) :: k1) t)).
    { apply (plug_valid _ n); [by cbn [ctxok]|done|by intros [?|?]]. }
    change (ins_fix ((d, false, p, s) :: k1) t) with (plug ((d, false, p, s) :: k1) t).
    rewrite blacken_id by apply Hv. done.
Qed.

Lemma descend_plug cmp a t k : plug (descend cmp a t k) Leaf = plug k t.
Proof.
  revert k. induction t as [|c l IHl b r IHr]; intros k; cbn [descend]; [done|].
  destruct (0 <? cmp b a); [by rewrite IHl|by rewrite IHr].
Qed.

Lemma fins_valid cmp t a : valid t -> valid (fins cmp t a).
Proof.
  intros Hv. unfold fins. change t with (plug [] t) in Hv. rewrite <- (descend_plug cmp a) in Hv.
  apply unplug_valid in Hv as (n & Hk & Hn & _). cbn [rbok] in Hn; subst n.
  by apply (ins_fix_valid_len (length (descend cmp a t [])) _ O).
Qed.

(** A subtree that is one black node short of black height [S n]; a red root
    may have a red child, it is about to become black. *)
Definition short (x : tree) (n : nat) : Prop := if col x then rbok (blacken x) (S n) else rbok x n.

Lemma rbok_short x n : rbok x n -> short x n.
Proof. unfold short. destruct (col x) eqn:E; [|done]. intros; by apply blacken_red. Qed.

Lemma del_234_ok d pc x p w n t more :
  rbok x n -> col x = false -> rbok w (S n) -> col w = false -> del_234 d pc x p w = (t, more) ->
  col t = pc /\
  (if more then rbok (blacken t) (S n) else rbok t (if pc then S n else S (S n))).
Proof.
  intros Hx Hcx Hw Hcw E. destruct w as [|[|] wl wa wr]; [done|done|].
  cbn [rbok] in Hw. destruct Hw as [Hwl Hwr]. unfold del_234 in E.
  assert (Hs : rbok (sub d (Node false wl wa wr)) n /\ rbok (sub (flip d) (Node false wl wa wr)) n)
    by (by destruct d).
  destruct (sub d _) as [|cn nl na nr] eqn:En; destruct (sub (flip d) _) as [|cf fl fa fr] eqn:Ef;
    destruct Hs as [Hsn Hsf]; try destruct cn; try destruct cf; cbn [col negb andb] in E; simplify_eq;
    rewrite ?blacken_tnode, col_tnode; (split; [done|]); destruct pc; rewrite !rbok_tnode; cbn [col blacken] in *;
    rewrite ?col_tnode, ?Hcx; cbn [rbok] in *; destruct d; cbn [sub flip]; naive_solver.
Qed.

Lemma del_fix_valid k n x : ctxok k (S n) -> short x n -> valid (del_fix k x).
Proof.
  revert n x. induction k as [|[[[d pc] p] w] k IH]; intros n x Hk Hx; unfold short in Hx.
  - cbn [del_fix]. split; [apply col_blacken|].
    destruct (col x) eqn:E; [by eauto|]. rewrite blacken_id by done. eauto.
  - cbn [del_fix]. destruct (col x) eqn:Ex.
    { apply (plug_valid _ (S n)); [done..|]. intros _. apply col_blacken. }
    cbn [ctxok] in Hk. destruct Hk as [Hw Hk]. destruct w as [|[|] wl wa wr]; [done| |].
    + destruct pc; [by destruct Hk|].
      cbn [rbok] in Hw. destruct Hw as (Hl & Hr & Hcl & Hcr).
      destruct (del_234 d true x p (sub d (Node true wl wa wr))) as [t more] eqn:E.
      apply (del_234_ok _ _ _ _ _ n) in E as [Hct Ht]; [|done|done|by destruct d|by destruct d].
      apply (plug_valid _ (S (S n))); [done| |intros _; apply col_tnode].
      rewrite rbok_tnode. split; [by destruct more|by destruct d].
    + destruct (del_234 d pc x p (Node false wl wa wr)) as [t more] eqn:E.
      apply (del_234_ok _ _ _ _ _ n) in E as [Hct Ht]; [|done..].
      destruct more.
      * destruct pc.
        -- apply (IH n); [by apply Hk|]. unfold short. by rewrite Hct.
        -- apply (IH (S n)); [done|]. unfold short. rewrite Hct. by rewrite blacken_id in Ht.
      * destruct pc.
        -- destruct Hk as (_ & Hne & Hp & Hk). apply (plug_valid _ (S n)); [done..|].
           intros [?|?]; [done|congruence].
        -- apply (plug_valid _ (S (S n))); [done..|by intros _].
Qed.

Lemma cut_valid k c y x n :
  ctxok k n -> rbok (Node c Leaf y x) n \/ rbok (Node c x y Leaf) n -> fits k (Node c Leaf y x) ->
  valid (cut k c x).
Proof.
  intros Hk Hx Hf. unfold cut. destruct c.
  - apply (plug_valid _ n); [done| |]; cbn [rbok] in Hx; [naive_solver|]. intros _. naive_solver.
  - destruct n as [|m]; [by destruct Hx|]. apply (del_fix_valid _ m); [done|]. apply rbok_short.
    cbn [rbok] in Hx. naive_solver.
Qed.

Lemma ctxok_rename k1 d c y z s k n :
  ctxok (k1 ++ (d, c, z, s) :: k) n -> ctxok (k1 ++ (d, c, y, s) :: k) n.
Proof.
  revert n. induction k1 as [|[[[d1 c1] a] s1] k1 IH]; intros n; cbn [app ctxok]; [done|].
  intros [Hs Hk]. split; [done|]. destruct c1; [|by apply IH].
  destruct Hk as (H1 & H2 & H3 & H4). split_and!; [done|by destruct k1| |by apply IH].
  by destruct k1 as [|[[[? ?] ?] ?] ?].
Qed.

Lemma fdel_valid t z : valid t -> valid (fdel t z).
Proof.
  intros Hv. unfold fdel. destruct (locate z t []) as [[k t']|] eqn:E; [|done].
  apply locate_ok in E as (Ht & c & l & r & ->). cbn [plug] in Ht. rewrite <- Ht in Hv.
  destruct l as [|cl ll al rl].
  { apply unplug_valid in Hv as (n & Hk & Hn & Hf). apply (cut_valid k c z r n); auto. }
  destruct r as [|cr lr ar rr].
  { apply unplug_valid in Hv as (n & Hk & Hn & Hf). apply (cut_valid k c z _ n); auto. }
  destruct (leftmost cr lr ar rr []) as [[[k1 cy] y] x] eqn:Em.
  apply leftmost_ok in Em. cbn [plug] in Em. rewrite <- Em in Hv.
  change (plug k (Node c (Node cl ll al rl) z (plug k1 (Node cy Leaf y x))))
    with (plug ((R, c, z, Node cl ll al rl) :: k) (plug k1 (Node cy Leaf y x))) in Hv.
  rewrite <- plug_app in Hv. apply unplug_valid in Hv as (n & Hk & Hn & Hf).
  apply (cut_valid _ cy y x n); [by eapply ctxok_rename|by left|].
  intros H. apply Hf. destruct H as [H|H]; [by destruct k1|right]. by destruct k1 as [|[[[? ?] ?] ?] ?].
Qed.

(** ** Heights *)

Lemma rbok_height t n : rbok t n -> (height t <= 2 * n + (if col t then 1 else 0))%nat.
Proof.
  revert n. induction t as [|[|] l IHl a r IHr]; intros n H; cbn [rbok height col] in *; [lia| |].
  - destruct H as (Hl & Hr & El & Er). apply IHl in Hl. apply IHr in Hr. rewrite El, Er in *. lia.
  - destruct n as [|m]; [done|]. destruct H as [Hl Hr]. apply IHl in Hl. apply IHr in Hr.
    destruct (col l), (col r); lia.
Qed.

Lemma rbok_size t n : rbok t n -> (2 ^ n <= S (length (elements t)))%nat.
Proof.
  revert n. induction t as [|[|] l IHl a r IHr]; intros n H; cbn [rbok elements] in *; [by subst| |];
    rewrite length_app; cbn [length].
  - destruct H as (Hl & Hr & _). apply IHl in Hl. lia.
  - destruct n as [|m]; [done|]. destruct H as [Hl Hr]. apply IHl in Hl. apply IHr in Hr. cbn [Nat.pow]. lia.
Qed.

Lemma valid_height t : valid t -> (height t <= 2 * Nat.log2 (S (length (elements t))))%nat.
Proof.
  intros [Hc [n Hn]]. pose proof (rbok_height t n Hn) as Hh. rewrite Hc in Hh.
  apply rbok_size, Nat.log2_le_mono in Hn. rewrite Nat.log2_pow2 in Hn; lia.
Qed.

(** ** Search *)

(** [f] agrees with the order of the sequence: first the nodes below the key,
    then those equal to it, then those above. *)
Definition ordered (f : Z -> Z) (l : list Z) : Prop :=
  forall l1 a l2, l = l1 ++ a :: l2 ->
    (f a < 0 -> Forall (fun x => f x < 0) l1) /\ (0 < f a -> Forall (fun x => 0 < f x) l2).

Lemma ordered_app f l1 l2 : ordered f (l1 ++ l2) -> ordered f l1 /\ ordered f l2.
Proof.
  intros H. split.
  - intros m1 a m2 ->. destruct (H m1 a (m2 ++ l2)) as [H1 H2]; [by rewrite <- app_assoc|].
    split; [done|]. intros Ha. by apply H2, Forall_app in Ha as [? _].
  - intros m1 a m2 ->. destruct (H (l1 ++ m1) a m2) as [H1 H2]; [by rewrite <- app_assoc|].
    split; [|done]. intros Ha. by apply H1, Forall_app in Ha as [_ ?].
Qed.

Lemma search_ok f t :
  ordered f (elements t) ->
  match search f t with
  | Some a => a ∈ elements t /\ f a = 0
  | None => Forall (fun x => f x <> 0) (elements t)
  end.
Proof.
  induction t as [|c l IHl a r IHr]; intros Ho; cbn [search elements] in *; [constructor|].
  pose proof (Ho _ _ _ eq_refl) as [Hneg Hpos].
  apply ordered_app in Ho as [Hol Hor]. apply (ordered_app f [a]) in Hor as [_ Hor].
  destruct (Z.eqb_spec (f a) 0) as [E|E]; [split; [set_solver|done]|].
  destruct (Z.ltb_spec 0 (f a)) as [Ha|Ha].
  - specialize (IHl Hol). destruct (search f l); [set_solver|].
    apply Forall_app; split; [done|]. constructor; [done|].
    eapply Forall_impl; [by apply Hpos|]. intros x; simpl; lia.
  - specialize (IHr Hor). destruct (search f r); [set_solver|].
    apply Forall_app; split; [|by constructor].
    eapply Forall_impl; [apply Hneg; lia|]. intros x; simpl; lia.
Qed.
