(* ===== verification/RbHeap.v ===== *)
(** * RbHeap: the pointer code of libs/rb_tree.c

    Nodes are in a finite map from addresses; [nil] and [root] are the two
    sentinel nodes of a tree, and the first node hangs on the left of [root].
    [rep_tree] relates a heap to a tree value of file [RbTree]; the theorems
    say that the functions of rb_tree.c, run on the heap, compute the functions
    on tree values.  The macros over [_left] and [_right] are functions of a
    direction.

    Loops take as fuel the number of nodes in the heap, which bounds the depth
    of any tree in it. *)
From stdpp Require Import sorting.
From S2P Require Import Prelude RbTree.

Record rb_node := mk_node { red : bool; parent : Z; left : Z; right : Z }.

Record rb_tree := mk_tree { compare : Z -> Z -> Z; nil : Z; root : Z }.

Notation heap := (gmap Z rb_node).

(** ** Access to fields *)

Definition child (d : dir) (n : rb_node) : Z := match d with L => left n | R => right n end.
Definition set_red (b : bool) (n : rb_node) : rb_node := mk_node b (parent n) (left n) (right n).
Definition set_parent (p : Z) (n : rb_node) : rb_node := mk_node (red n) p (left n) (right n).
Definition set_child (d : dir) (x : Z) (n : rb_node) : rb_node :=
  match d with
  | L => mk_node (red n) (parent n) x (right n)
  | R => mk_node (red n) (parent n) (left n) x
  end.

Definition rd {A} (f : rb_node -> A) (a : Z) (h : heap) : res A := let* n := fetch h a in Ok (f n).
Definition upd (f : rb_node -> rb_node) (a : Z) (h : heap) : res heap :=
  let* n := fetch h a in Ok (<[a := f n]> h).

(** Enough steps for any walk along a path. *)
Definition fuel_of (h : heap) : nat := S (size h).

(** ** Creation *)

(** [rb_tree_create]; [a_tree], [a_nil] and [a_root] are the results of the
    three allocations. *)
Definition rb_tree_create (cmp : Z -> Z -> Z) (a_tree a_nil a_root : option Z) (h : heap)
  : option rb_tree * heap :=
  match a_tree with
  | None => (None, h)
  | Some _ =>
      match a_nil with
      | None => (None, h)
      | Some nil =>
          let h := <[nil := mk_node false nil nil nil]> h in
          match a_root with
          | None => (None, delete nil h)
          | Some root => (Some (mk_tree cmp nil root), <[root := mk_node false nil nil nil]> h)
          end
      end
  end.

(** [rb_tree_destroy]: the sentinels are freed. *)
Definition rb_tree_destroy (T : rb_tree) (h : heap) : heap := delete (nil T) (delete (root T) h).

Definition rb_tree_empty (T : rb_tree) (h : heap) : res bool :=
  let* l := rd left (root T) h in Ok (l =? nil T).

(** ** Rotation *)

(** [if (x == p->_left) p->_left = y; else p->_right = y;] *)
Definition relink (d : dir) (p x y : Z) (h : heap) : res heap :=
  let* c := rd (child d) p h in
  if x =? c then upd (set_child d y) p h else upd (set_child (flip d) y) p h.

(** [FUNC_ROTATE(_, d, flip d)]. *)
Definition rotate (d : dir) (T : rb_tree) (x : Z) (h : heap) : res heap :=
  let* y := rd (child (flip d)) x h in
  assert! negb (x =? root T) && negb (x =? nil T) && negb (y =? nil T) ;;
  let* yl := rd (child d) y h in
  let* h := upd (set_child (flip d) yl) x h in
  let* h := if yl =? nil T then Ok h else upd (set_parent x) yl h in
  let* p := rd parent x h in
  let* h := upd (set_parent p) y h in
  let* h := relink d p x y h in
  let* h := upd (set_child d x) y h in
  let* h := upd (set_parent y) x h in
  let* nr := rd red (nil T) h in
  assert! negb nr ;;
  Ok h.

(** ** Insertion *)

Fixpoint ins_walk (fuel : nat) (T : rb_tree) (node y x : Z) (h : heap) : res Z :=
  match fuel with
  | O => Panic
  | S fuel =>
      if x =? nil T then Ok y
      else let* x' := if 0 <? compare T x node then rd left x h else rd right x h in
           ins_walk fuel T node x x' h
  end.

Definition rb_insert_binary (T : rb_tree) (node : Z) (h : heap) : res heap :=
  let z := node in
  let* h := upd (set_child R (nil T)) z h in
  let* h := upd (set_child L (nil T)) z h in
  let* x := rd left (root T) h in
  let* y := ins_walk (fuel_of h) T node (root T) x h in
  let* h := upd (set_parent y) z h in
  if (y =? root T) || (0 <? compare T y z) then upd (set_child L z) y h
  else upd (set_child R z) y h.

(** [RB_INSERT_SUB(d, flip d)]: the new [x]. *)
Definition rb_insert_sub (d : dir) (T : rb_tree) (x : Z) (h : heap) : res (Z * heap) :=
  let* p := rd parent x h in
  let* g := rd parent p h in
  let* y := rd (child (flip d)) g h in
  let* yr := rd red y h in
  if (yr : bool) then
    let* h := upd (set_red false) p h in
    let* h := upd (set_red false) y h in
    let* h := upd (set_red true) g h in
    Ok (g, h)
  else
    let* pr := rd (child (flip d)) p h in
    let* (x, h) := if x =? pr then let* h := rotate d T p h in Ok (p, h) else Ok (x, h) in
    let* p := rd parent x h in
    let* h := upd (set_red false) p h in
    let* g := rd parent p h in
    let* h := upd (set_red true) g h in
    let* h := rotate (flip d) T g h in
    Ok (x, h).

Fixpoint insert_loop (fuel : nat) (T : rb_tree) (x : Z) (h : heap) : res heap :=
  match fuel with
  | O => Panic
  | S fuel =>
      let* p := rd parent x h in
      let* pr := rd red p h in
      if (pr : bool) then
        let* g := rd parent p h in
        let* gl := rd left g h in
        let* (x, h) := rb_insert_sub (if p =? gl then L else R) T x h in
        insert_loop fuel T x h
      else Ok h
  end.

Definition rb_insert (T : rb_tree) (node : Z) (h : heap) : res heap :=
  let* h := rb_insert_binary T node h in
  let* h := upd (set_red true) node h in
  let* h := insert_loop (fuel_of h) T node h in
  let* l := rd left (root T) h in
  let* h := upd (set_red false) l h in
  let* nr := rd red (nil T) h in
  let* rr := rd red (root T) h in
  assert! negb nr && negb rr ;;
  Ok h.

(** ** Walks *)

(** [while (y->d != nil) y = y->d;] *)
Fixpoint walk_down (fuel : nat) (d : dir) (T : rb_tree) (y : Z) (h : heap) : res Z :=
  match fuel with
  | O => Panic
  | S fuel =>
      let* c := rd (child d) y h in
      if c =? nil T then Ok y else walk_down fuel d T c h
  end.

Fixpoint succ_up (fuel : nat) (T : rb_tree) (x y : Z) (h : heap) : res Z :=
  match fuel with
  | O => Panic
  | S fuel =>
      let* c := rd right y h in
      if x =? c then let* p := rd parent y h in succ_up fuel T y p h
      else Ok (if y =? root T then nil T else y)
  end.

Definition rb_tree_successor (T : rb_tree) (node : Z) (h : heap) : res Z :=
  let* y := rd right node h in
  if y =? nil T then let* y := rd parent node h in succ_up (fuel_of h) T node y h
  else walk_down (fuel_of h) L T y h.

Fixpoint pred_up (fuel : nat) (T : rb_tree) (x y : Z) (h : heap) : res Z :=
  match fuel with
  | O => Panic
  | S fuel =>
      let* c := rd left y h in
      if x =? c then
        if y =? root T then Ok (nil T) else let* p := rd parent y h in pred_up fuel T y p h
      else Ok y
  end.

Definition rb_tree_predecessor (T : rb_tree) (node : Z) (h : heap) : res Z :=
  let* y := rd left node h in
  if y =? nil T then let* y := rd parent node h in pred_up (fuel_of h) T node y h
  else walk_down (fuel_of h) R T y h.

(** A null pointer is [None]. *)
Definition or_null (T : rb_tree) (x : Z) : option Z := if x =? nil T then None else Some x.

Definition rb_node_prev (T : rb_tree) (node : Z) (h : heap) : res (option Z) :=
  let* p := rb_tree_predecessor T node h in Ok (or_null T p).
Definition rb_node_next (T : rb_tree) (node : Z) (h : heap) : res (option Z) :=
  let* p := rb_tree_successor T node h in Ok (or_null T p).
Definition rb_node_root (T : rb_tree) (h : heap) : res (option Z) :=
  let* x := rd left (root T) h in Ok (or_null T x).
Definition rb_node_left (T : rb_tree) (node : Z) (h : heap) : res (option Z) :=
  let* x := rd left node h in Ok (or_null T x).
Definition rb_node_right (T : rb_tree) (node : Z) (h : heap) : res (option Z) :=
  let* x := rd right node h in Ok (or_null T x).

(** [rb_search]; [f node] is [compare(node, key)]. *)
Fixpoint search_loop (fuel : nat) (f : Z -> Z) (T : rb_tree) (node : Z) (h : heap) : res (option Z) :=
  match fuel with
  | O => Panic
  | S fuel =>
      if node =? nil T then Ok None
      else if f node =? 0 then Ok (Some node)
      else let* x := if 0 <? f node then rd left node h else rd right node h in
           search_loop fuel f T x h
  end.

Definition rb_search (T : rb_tree) (f : Z -> Z) (h : heap) : res (option Z) :=
  let* x := rd left (root T) h in search_loop (fuel_of h) f T x h.

(** ** Deletion *)

(** [RB_DELETE_FIXUP_SUB(d, flip d)] from the test of the children of [w] on:
    the new [x]; [rt] is the variable [root] of [rb_delete_fixup]. *)
Definition rb_delete_fixup_rest (d : dir) (T : rb_tree) (rt x w : Z) (h : heap) : res (Z * heap) :=
  let o := flip d in
  let* wn := rd (child d) w h in
  let* wf := rd (child o) w h in
  let* rn := rd red wn h in
  let* rf := rd red wf h in
  if negb rn && negb rf then
    let* h := upd (set_red true) w h in
    let* p := rd parent x h in
    Ok (p, h)
  else
    let* (w, h) :=
      if negb rf then
        let* h := upd (set_red false) wn h in
        let* h := upd (set_red true) w h in
        let* h := rotate o T w h in
        let* p := rd parent x h in
        let* w := rd (child o) p h in
        Ok (w, h)
      else Ok (w, h) in
    let* p := rd parent x h in
    let* pc := rd red p h in
    let* h := upd (set_red pc) w h in
    let* h := upd (set_red false) p h in
    let* wf := rd (child o) w h in
    let* h := upd (set_red false) wf h in
    let* h := rotate d T p h in
    Ok (rt, h).

Definition rb_delete_fixup_sub (d : dir) (T : rb_tree) (rt x : Z) (h : heap) : res (Z * heap) :=
  let o := flip d in
  let* p := rd parent x h in
  let* w := rd (child o) p h in
  let* wr := rd red w h in
  let* (w, h) :=
    if (wr : bool) then
      let* h := upd (set_red false) w h in
      let* h := upd (set_red true) p h in
      let* h := rotate d T p h in
      let* p := rd parent x h in
      let* w := rd (child o) p h in
      Ok (w, h)
    else Ok (w, h) in
  rb_delete_fixup_rest d T rt x w h.

Fixpoint delete_loop (fuel : nat) (T : rb_tree) (rt x : Z) (h : heap) : res (Z * heap) :=
  match fuel with
  | O => Panic
  | S fuel =>
      if x =? rt then Ok (x, h)
      else
        let* xr := rd red x h in
        if (xr : bool) then Ok (x, h)
        else
          let* p := rd parent x h in
          let* pl := rd left p h in
          let* (x, h) := rb_delete_fixup_sub (if x =? pl then L else R) T rt x h in
          delete_loop fuel T rt x h
  end.

Definition rb_delete_fixup (T : rb_tree) (node : Z) (h : heap) : res heap :=
  let* rt := rd left (root T) h in
  let* (x, h) := delete_loop (fuel_of h) T rt node h in
  upd (set_red false) x h.

Definition rb_delete (T : rb_tree) (node : Z) (h : heap) : res heap :=
  let z := node in
  let* zl := rd left z h in
  let* zr := rd right z h in
  let* y := if (zl =? nil T) || (zr =? nil T) then Ok z else rb_tree_successor T z h in
  let* yl := rd left y h in
  let* x := if yl =? nil T then rd right y h else Ok yl in
  assert! negb (y =? root T) && negb (y =? nil T) ;;
  let* yp := rd parent y h in
  let* h := upd (set_parent yp) x h in
  let* yp := rd parent y h in
  let* h := relink L yp y x h in
  let* yred := rd red y h in
  let* h :=
    if y =? z then Ok h
    else
      let* zp := rd parent z h in
      let* h := relink L zp z y h in
      let* zr := rd right z h in
      let* h := upd (set_parent y) zr h in
      let* zl := rd left z h in
      let* h := upd (set_parent y) zl h in
      let* zn := fetch h z in
      upd (fun _ => zn) y h in
  if (yred : bool) then Ok h else rb_delete_fixup T x h.

(** ** The self test's checker *)

(** [check_tree]: asserts order, links and colours; the black height. *)
Fixpoint check_tree (fuel : nat) (T : rb_tree) (node : Z) (h : heap) : res Z :=
  match fuel with
  | O => Panic
  | S fuel =>
      if node =? nil T then
        let* r := rd red node h in
        assert! negb r ;; Ok 1
      else
        let* l := rd left node h in
        let* _ :=
          if l =? nil T then Ok tt
          else assert! 0 <=? compare T node l ;;
               let* p := rd parent l h in assert (p =? node) in
        let* r := rd right node h in
        let* _ :=
          if r =? nil T then Ok tt
          else assert! compare T node r <=? 0 ;;
               let* p := rd parent r h in assert (p =? node) in
        let* c := rd red node h in
        let* _ :=
          if (c : bool) then
            let* cl := rd red l h in
            let* cr := rd red r h in
            assert (negb cl && negb cr)
          else Ok tt in
        let* hb_left := check_tree fuel T l h in
        let* hb_right := check_tree fuel T r h in
        assert! hb_left =? hb_right ;;
        Ok (if c then hb_left else hb_left + 1)
  end.

(** ** Trees in the heap *)

Section Rep.
Context (T : rb_tree).

Definition ptr (t : tree) : Z := match t with Leaf => nil T | Node _ _ a _ => a end.

(** [h] holds [t] below the node [p]. *)
Fixpoint rep (h : heap) (p : Z) (t : tree) : Prop :=
  match t with
  | Leaf => True
  | Node c l a r => h !! a = Some (mk_node c p (ptr l) (ptr r)) /\ rep h a l /\ rep h a r
  end.

(** The node that a context hangs its hole on. *)
Definition top (k : list frame) : Z := match k with (_, _, a, _) :: _ => a | [] => root T end.

(** A node with its children on side [d] and on the other side. *)
Definition mkd (d : dir) (c : bool) (p near far : Z) : rb_node :=
  match d with L => mk_node c p near far | R => mk_node c p far near end.

(** [h] holds the context [k] with [q] in its hole. *)
Fixpoint repc (h : heap) (k : list frame) (q : Z) : Prop :=
  match k with
  | [] => h !! root T = Some (mk_node false (nil T) q (nil T))
  | (d, c, a, s) :: k => h !! a = Some (mkd d c (top k) q (ptr s)) /\ rep h a s /\ repc h k a
  end.

(** Occurrences of an address; an address occurs at most once. *)
Definition same (x y : Z) : nat := if x =? y then 1%nat else O.
Fixpoint occ (x : Z) (t : tree) : nat :=
  match t with
  | Leaf => O
  | Node _ l a r => same x a + occ x l + occ x r
  end.
Fixpoint occk (x : Z) (k : list frame) : nat :=
  match k with
  | [] => O
  | (_, _, a, s) :: k => same x a + occ x s + occk x k
  end.

(** The heap, seen from a position in the tree. *)
Record zst (h : heap) (k : list frame) (t : tree) : Prop := mk_zst {
  z_ctx : repc h k (ptr t);
  z_foc : rep h (top k) t;
  z_nil : exists n, h !! nil T = Some n /\ red n = false;
  z_uniq : forall x, (same x (nil T) + same x (root T) + occk x k + occ x t <= 1)%nat
}.

(** The tree [t] is in the heap [h]. *)
Definition rep_tree (h : heap) (t : tree) : Prop := zst h [] t.

(** *** Fields of a node *)

Lemma child_near d c p x y : child d (mkd d c p x y) = x.
Proof. by destruct d. Qed.
Lemma child_far d c p x y : child (flip d) (mkd d c p x y) = y.
Proof. by destruct d. Qed.
Lemma red_mkd d c p x y : red (mkd d c p x y) = c.
Proof. by destruct d. Qed.
Lemma parent_mkd d c p x y : parent (mkd d c p x y) = p.
Proof. by destruct d. Qed.
Lemma set_near d c p x y z : set_child d z (mkd d c p x y) = mkd d c p z y.
Proof. by destruct d. Qed.
Lemma set_far d c p x y z : set_child (flip d) z (mkd d c p x y) = mkd d c p x z.
Proof. by destruct d. Qed.
Lemma set_red_mkd d c p x y b : set_red b (mkd d c p x y) = mkd d b p x y.
Proof. by destruct d. Qed.
Lemma set_parent_mkd d c p x y q : set_parent q (mkd d c p x y) = mkd d c q x y.
Proof. by destruct d. Qed.
Lemma mkd_flip d c p x y : mkd (flip d) c p x y = mkd d c p y x.
Proof. by destruct d. Qed.

(** *** Addresses *)

Lemma same_refl x : same x x = 1%nat.
Proof. unfold same. by rewrite Z.eqb_refl. Qed.

Lemma same_sym x y : same x y = same y x.
Proof. unfold same. by rewrite Z.eqb_sym. Qed.

Lemma occ_tnode x d c A a B : occ x (tnode d c A a B) = (same x a + occ x A + occ x B)%nat.
Proof. destruct d; cbn [tnode occ]; lia. Qed.

Lemma occ_plug x k t : occ x (plug k t) = (occk x k + occ x t)%nat.
Proof.
  revert t. induction k as [|[[[d c] b] s] k IH]; intros t; cbn [plug occk]; [done|].
  rewrite IH, occ_tnode. lia.
Qed.

Lemma ptr_tnode d c A a B : ptr (tnode d c A a B) = a.
Proof. by destruct d. Qed.

Lemma rep_tnode h p d c A a B :
  rep h p (tnode d c A a B) <-> h !! a = Some (mkd d c p (ptr A) (ptr B)) /\ rep h a A /\ rep h a B.
Proof. destruct d; cbn [tnode rep mkd]; tauto. Qed.

Lemma occ_ptr t : t = Leaf \/ (1 <= occ (ptr t) t)%nat.
Proof. destruct t; [by left|right]. cbn [ptr occ]. rewrite same_refl. lia. Qed.

Lemma rep_frame h h' p t : (forall a, (1 <= occ a t)%nat -> h' !! a = h !! a) -> rep h p t -> rep h' p t.
Proof.
  revert p. induction t as [|c l IHl b r IHr]; intros p Ho H; [done|].
  cbn [rep occ] in *. destruct H as (H & Hl & Hr). split_and!.
  - rewrite Ho; [done|]. rewrite same_refl. lia.
  - apply IHl; [|done]. intros a Ha. apply Ho. lia.
  - apply IHr; [|done]. intros a Ha. apply Ho. lia.
Qed.

Lemma repc_frame h h' k q :
  (forall a, a = root T \/ (1 <= occk a k)%nat -> h' !! a = h !! a) -> repc h k q -> repc h' k q.
Proof.
  revert q. induction k as [|[[[d c] b] s] k IH]; intros q Ho H; cbn [repc occk] in *.
  - rewrite Ho; [done|by left].
  - destruct H as (H & Hs & Hk). split_and!.
    + rewrite Ho; [done|right]. rewrite same_refl. lia.
    + eapply rep_frame; [|done]. intros a Ha. apply Ho. right. lia.
    + apply IH; [|done]. intros a [Ha|Ha]; apply Ho; [by left|right; lia].
Qed.

(** Up and down. *)
Lemma zst_zip h d c a s k t : zst h ((d, c, a, s) :: k) t <-> zst h k (tnode d c t a s).
Proof.
  split; intros [C F N U]; (split; [| |done|]); cbn [repc occk top] in *.
  - rewrite ptr_tnode. tauto.
  - rewrite rep_tnode. tauto.
  - intros x. specialize (U x). rewrite occ_tnode. lia.
  - rewrite rep_tnode in F. rewrite ptr_tnode in C. tauto.
  - rewrite rep_tnode in F. tauto.
  - intros x. specialize (U x). rewrite occ_tnode in U. lia.
Qed.

Lemma zst_up h d c a s k t : zst h ((d, c, a, s) :: k) t -> zst h k (tnode d c t a s).
Proof. apply zst_zip. Qed.

Lemma zst_down h d c a s k t : zst h k (tnode d c t a s) -> zst h ((d, c, a, s) :: k) t.
Proof. apply zst_zip. Qed.

Lemma zst_plug h k1 k t : zst h (k1 ++ k) t <-> zst h k (plug k1 t).
Proof.
  revert t. induction k1 as [|[[[d c] a] s] k1 IH]; intros t; cbn [app plug]; [done|].
  by rewrite zst_zip, IH.
Qed.

Lemma zst_rep_tree h k t : zst h k t <-> rep_tree h (plug k t).
Proof. unfold rep_tree. rewrite <- zst_plug. by rewrite app_nil_r. Qed.

(** *** Reading *)

Lemma z_look h k d c A a B : zst h k (tnode d c A a B) -> h !! a = Some (mkd d c (top k) (ptr A) (ptr B)).
Proof. intros Z. pose proof (z_foc _ _ _ Z) as F. apply rep_tnode in F. apply F. Qed.

Lemma z_look_top h d c a s k t : zst h ((d, c, a, s) :: k) t -> h !! a = Some (mkd d c (top k) (ptr t) (ptr s)).
Proof. intros Z. by apply zst_zip, z_look in Z. Qed.

Lemma z_red h k t : zst h k t -> rd red (ptr t) h = Ok (col t).
Proof.
  intros Z. unfold rd. destruct t as [|c l a r]; cbn [ptr col].
  - destruct (z_nil _ _ _ Z) as (n & Hn & Hr). by rewrite (fetch_ok _ _ _ Hn), <- Hr.
  - by rewrite (fetch_ok _ _ _ (proj1 (z_foc _ _ _ Z))).
Qed.

Lemma z_red_sib h d c a s k t : zst h ((d, c, a, s) :: k) t -> rd red (ptr s) h = Ok (col s).
Proof.
  intros Z. apply zst_up in Z. rewrite <- (flip_flip d), tnode_flip, <- zst_zip in Z.
  by apply z_red in Z.
Qed.

Lemma rd_ok {A} (f : rb_node -> A) h a n : h !! a = Some n -> rd f a h = Ok (f n).
Proof. intros H. unfold rd. by rewrite (fetch_ok _ _ _ H). Qed.

Lemma upd_ok f h a n : h !! a = Some n -> upd f a h = Ok (<[a := f n]> h).
Proof. intros H. unfold upd. by rewrite (fetch_ok _ _ _ H). Qed.


(** *** Writing *)

Definition side (k : list frame) : dir := match k with (d, _, _, _) :: _ => d | [] => L end.

(** The link from the parent. *)
Lemma link_ok h k q q' :
  repc h k q -> (forall x, (same x (nil T) + same x (root T) + occk x k <= 1)%nat) ->
  returns (upd (set_child (side k) q') (top k) h)
    (fun h' => repc h' k q' /\ forall a, a <> top k -> h' !! a = h !! a).
Proof.
  intros C U. destruct k as [|[[[d c] a] s] k]; cbn [repc top side] in *.
  - rewrite (upd_ok _ _ _ _ C). apply returns_ok. split; [by simpl_map|]. intros; by simpl_map.
  - destruct C as (C & Hs & Hk). rewrite (upd_ok _ _ _ _ C), set_near. apply returns_ok.
    pose proof (U a) as Ua. cbn [occk] in Ua. rewrite same_refl in Ua. split_and!.
    + by simpl_map.
    + eapply rep_frame; [|done]. intros b Hb. rewrite lookup_insert_ne; [done|]. intros <-. lia.
    + eapply repc_frame; [|done]. intros b Hb. rewrite lookup_insert_ne; [done|].
      intros <-. destruct Hb as [->|Hb]; [rewrite same_refl in Ua|]; lia.
    + intros; by simpl_map.
Qed.

Lemma relink_ok h d k q q' :
  repc h k q -> (forall x, (same x (nil T) + same x (root T) + same x q + occk x k <= 1)%nat) ->
  returns (relink d (top k) q q' h) (fun h' => repc h' k q' /\ forall a, a <> top k -> h' !! a = h !! a).
Proof.
  intros C U. assert (Hl := link_ok h k q q' C (fun x => ltac:(specialize (U x); lia))).
  assert (Hq : q <> nil T) by (intros ->; specialize (U (nil T)); rewrite same_refl in U; lia).
  unfold relink. destruct k as [|[[[d1 c] a] s] k]; cbn [repc top side] in *.
  - rewrite (rd_ok _ _ _ _ C). cbn [res_bind]. destruct d; cbn [child left right flip].
    + by rewrite Z.eqb_refl.
    + by rewrite (proj2 (Z.eqb_neq _ _) Hq).
  - destruct C as (C & Hs & Hk). rewrite (rd_ok _ _ _ _ C). cbn [res_bind].
    assert (Hs' : q <> ptr s).
    { intros ->. destruct (occ_ptr s) as [->|Hp]; [done|]. specialize (U (ptr s)). cbn [occk] in U.
      rewrite same_refl in U. lia. }
    destruct (decide (d = d1)) as [->|E]; [by rewrite child_near, Z.eqb_refl|].
    apply flip_ne in E as ->. by rewrite child_far, (proj2 (Z.eqb_neq _ _) Hs'), flip_flip.
Qed.

(** The parent field of a subtree's first node. *)
Lemma reparent_ok h p q t :
  rep h p t -> (forall x, (same x (nil T) + occ x t <= 1)%nat) ->
  returns (if ptr t =? nil T then Ok h else upd (set_parent q) (ptr t) h)
    (fun h' => rep h' q t /\ forall a, occ a t = O -> h' !! a = h !! a).
Proof.
  intros H U. destruct t as [|c l a r]; cbn [ptr rep] in *.
  - rewrite Z.eqb_refl. apply returns_ok. done.
  - destruct H as (H & Hl & Hr). pose proof (U a) as Ua. cbn [occ] in Ua. rewrite same_refl in Ua.
    destruct (Z.eqb_spec a (nil T)) as [E|E]; [rewrite <- E, same_refl in Ua; lia|].
    rewrite (upd_ok _ _ _ _ H). apply returns_ok. split_and!.
    + by simpl_map.
    + eapply rep_frame; [|done]. intros b Hb. rewrite lookup_insert_ne; [done|]. intros <-. lia.
    + eapply rep_frame; [|done]. intros b Hb. rewrite lookup_insert_ne; [done|]. intros <-. lia.
    + intros b Hb. cbn [occ] in Hb. rewrite lookup_insert_ne; [done|]. intros <-. rewrite same_refl in Hb. lia.
Qed.

Lemma top_occ k : (1 <= same (top k) (root T) + occk (top k) k)%nat.
Proof. destruct k as [|[[[d c] a] s] k]; cbn [top occk]; rewrite same_refl; lia. Qed.

(** [sep U]: two addresses differ, or an address does not occur, because all
    addresses of the position [U] are distinct. *)
Ltac sep U :=
  let H := fresh "H" in
  lazymatch goal with
  | |- ?a <> ?b => intros ->; pose proof (U b) as H; try (pose proof (top_occ b)); sep_lia H
  | |- occ ?a _ = O => pose proof (U a) as H; sep_lia H
  | |- occk ?a _ = O => pose proof (U a) as H; sep_lia H
  end
with sep_lia H := cbn [occk occ] in H; rewrite ?occ_tnode, ?same_refl in *; lia.

Lemma set_red_ok h k d c A x B b :
  zst h k (tnode d c A x B) ->
  returns (upd (set_red b) x h) (fun h' => zst h' k (tnode d b A x B) /\ h' !! nil T = h !! nil T).
Proof.
  intros Z. pose proof (z_uniq _ _ _ Z) as U. pose proof (z_look _ _ _ _ _ _ _ Z) as Hx.
  assert (x <> nil T) by sep U.
  pose proof (U x) as Ux. rewrite occ_tnode, same_refl in Ux.
  rewrite (upd_ok _ _ _ _ Hx), set_red_mkd. apply returns_ok. split; [|by simpl_map].
  destruct Z as [C F N _]. rewrite rep_tnode in F. destruct F as (_ & FA & FB). split.
  - rewrite ptr_tnode in *. eapply repc_frame; [|done]. intros a Ha. rewrite lookup_insert_ne; [done|].
    intros <-. destruct Ha as [->|Ha]; [rewrite same_refl in Ux|]; lia.
  - rewrite rep_tnode. split_and!; [by simpl_map| |];
      (eapply rep_frame; [|done]; intros a Ha; rewrite lookup_insert_ne; [done|]; intros <-; lia).
  - by simpl_map.
  - intros a. specialize (U a). rewrite occ_tnode in *. lia.
Qed.

Lemma rotate_ok h k d c A x cy B y C :
  zst h k (tnode d c A x (tnode d cy B y C)) ->
  returns (rotate d T x h) (fun h' => zst h' k (tnode d cy (tnode d c A x B) y C) /\ h' !! nil T = h !! nil T).
Proof.
  intros Z. pose proof (z_uniq _ _ _ Z) as U. pose proof (z_look _ _ _ _ _ _ _ Z) as Hx.
  destruct Z as [HC F (n & Hn & Hnr) _]. rewrite !rep_tnode, ?ptr_tnode in F. rewrite ptr_tnode in *.
  destruct F as (_ & FA & Hy & FB & FC).
  assert (x <> root T /\ x <> nil T /\ y <> nil T /\ y <> root T) as (Nx1 & Nx2 & Ny & Ny2) by (split_and!; sep U).
  assert (x <> y /\ x <> top k /\ y <> top k) as (Nxy & Nxt & Nyt).
  { pose proof (top_occ k). split_and!; [sep U| |]; (intros E; pose proof (U (top k)) as H1; rewrite <- E in *; sep_lia H1). }
  unfold rotate. rewrite (rd_ok _ _ _ _ Hx), child_far. cbn [res_bind].
  rewrite (proj2 (Z.eqb_neq _ _) Nx1), (proj2 (Z.eqb_neq _ _) Nx2), (proj2 (Z.eqb_neq _ _) Ny).
  cbn [negb andb assert res_bind]. rewrite (rd_ok _ _ _ _ Hy), child_near. cbn [res_bind].
  rewrite (upd_ok _ _ _ _ Hx), set_far. cbn [res_bind]. set (h1 := <[x := _]> h).
  assert (FB1 : rep h1 y B).
  { eapply rep_frame; [|done]. intros a Ha. unfold h1. rewrite lookup_insert_ne; [done|].
    intros <-. pose proof (U x) as Ux. sep_lia Ux. }
  eapply returns_bind; [apply (reparent_ok h1 y x B FB1)|].
  { intros a. pose proof (U a) as Ua. rewrite !occ_tnode in Ua. lia. }
  intros h2 [FB2 K2].
  assert (Hx2 : h2 !! x = Some (mkd d c (top k) (ptr A) (ptr B))) by (rewrite K2 by sep U; unfold h1; by simpl_map).
  assert (Hy2 : h2 !! y = Some (mkd d cy x (ptr B) (ptr C))) by (rewrite K2 by sep U; unfold h1; by simpl_map).
  rewrite (rd_ok _ _ _ _ Hx2), parent_mkd. cbn [res_bind].
  rewrite (upd_ok _ _ _ _ Hy2), set_parent_mkd. cbn [res_bind]. set (h3 := <[y := _]> h2).
  assert (K3 : forall a, a <> x -> a <> y -> occ a B = O -> h3 !! a = h !! a).
  { intros a Ha1 Ha2 HaB. unfold h3, h1 in *. by rewrite lookup_insert_ne, K2, lookup_insert_ne. }
  assert (C3 : repc h3 k x).
  { eapply repc_frame; [|done]. intros a Ha. pose proof (U a) as Ua. rewrite !occ_tnode in Ua.
    apply K3; [intros -> | intros -> | destruct Ha as [->|]]; try (destruct Ha as [->|]); rewrite ?same_refl in Ua; lia. }
  eapply returns_bind; [apply (relink_ok h3 d k x y C3)|].
  { intros a. pose proof (U a) as Ua. rewrite !occ_tnode in Ua. lia. }
  intros h4 [C4 K4].
  assert (Hx4 : h4 !! x = Some (mkd d c (top k) (ptr A) (ptr B))) by (rewrite K4 by done; unfold h3; by simpl_map).
  assert (Hy4 : h4 !! y = Some (mkd d cy (top k) (ptr B) (ptr C))) by (rewrite K4 by done; unfold h3; by simpl_map).
  rewrite (upd_ok _ _ _ _ Hy4), set_near. cbn [res_bind].
  rewrite (upd_ok _ _ x (mkd d c (top k) (ptr A) (ptr B))), set_parent_mkd by (by simpl_map). cbn [res_bind].
  set (h6 := <[x := _]> _).
  assert (K6 : forall a, a <> x -> a <> y -> h6 !! a = h4 !! a) by (intros; unfold h6; by simpl_map).
  assert (K : forall a, a <> x -> a <> y -> a <> top k -> occ a B = O -> h6 !! a = h !! a).
  { intros a H1 H2 H3 H4. by rewrite K6, K4, K3. }
  assert (Hn6 : h6 !! nil T = h !! nil T).
  { apply K; [done|done| |sep U]. intros E. pose proof (top_occ k) as H1. pose proof (U (nil T)) as H2.
    rewrite <- E in H1. sep_lia H2. }
  rewrite (rd_ok red h6 (nil T) n) by (by rewrite Hn6). cbn [res_bind]. rewrite Hnr. cbn [negb assert res_bind].
  apply returns_ok. split; [|done]. split.
  - rewrite ptr_tnode. eapply repc_frame; [|done]. intros a Ha. pose proof (U a) as Ua. rewrite !occ_tnode in Ua.
    apply K6; intros ->; destruct Ha as [->|]; rewrite ?same_refl in Ua; lia.
  - rewrite !rep_tnode, ptr_tnode. split_and!.
    + unfold h6. by simpl_map.
    + unfold h6. by simpl_map.
    + eapply rep_frame; [|exact FA]. intros a Ha. pose proof (U a) as Ua. rewrite !occ_tnode in Ua. pose proof (top_occ k).
      apply K; try (intros ->; rewrite ?same_refl in Ua); lia.
    + eapply rep_frame; [|exact FB2]. intros a Ha. pose proof (U a) as Ua. rewrite !occ_tnode in Ua. pose proof (top_occ k).
      assert (a <> x /\ a <> y /\ a <> top k) as (? & ? & ?) by (split_and!; intros ->; rewrite ?same_refl in Ua; lia).
      rewrite K6, K4 by done. unfold h3. by simpl_map.
    + eapply rep_frame; [|exact FC]. intros a Ha. pose proof (U a) as Ua. rewrite !occ_tnode in Ua. pose proof (top_occ k).
      apply K; try (intros ->; rewrite ?same_refl in Ua); lia.
  - rewrite Hn6. eauto.
  - intros a. specialize (U a). rewrite !occ_tnode in *. lia.
Qed.

(** *** Positions *)

Lemma zst_swap h d c a s k t : zst h ((d, c, a, s) :: k) t <-> zst h ((flip d, c, a, t) :: k) s.
Proof. by rewrite !zst_zip, tnode_flip. Qed.

Lemma ptr_apart h d c a s k t : zst h ((d, c, a, s) :: k) t -> t <> Leaf -> ptr t <> ptr s.
Proof.
  intros Z Ht E. pose proof (z_uniq _ _ _ Z (ptr t)) as U. cbn [occk] in U.
  destruct (occ_ptr t) as [|Hp]; [done|]. destruct (occ_ptr s) as [->|Hs].
  - cbn [ptr] in E. rewrite E, same_refl in *. lia.
  - rewrite <- E in Hs. lia.
Qed.

Lemma z_parent h k t : zst h k t -> t <> Leaf -> rd parent (ptr t) h = Ok (top k).
Proof.
  intros Z Ht. destruct t as [|c l a r]; [done|]. pose proof (z_look _ _ L _ _ _ _ Z) as H.
  by rewrite (rd_ok _ _ _ _ H).
Qed.

Lemma z_red_top h k t : zst h k t -> rd red (top k) h = Ok (pcol k).
Proof.
  intros Z. destruct k as [|[[[d c] a] s] k]; cbn [top pcol].
  - by rewrite (rd_ok _ _ _ _ (z_ctx _ _ _ Z)).
  - by rewrite (rd_ok _ _ _ _ (z_look_top _ _ _ _ _ _ _ Z)), red_mkd.
Qed.

(** [p == g->left] tells the side of [p]. *)
Lemma side_ok d c q p u : p <> u -> (if p =? left (mkd d c q p u) then L else R) = d.
Proof. intros H. destruct d; cbn [mkd left]; [by rewrite Z.eqb_refl|by rewrite (proj2 (Z.eqb_neq _ _) H)]. Qed.

(** *** The loop of [rb_insert] *)

(** The last two rotations, [x] on the outer side. *)
Lemma insert_rot_ok h d2 p s g u k2 t :
  zst h ((d2, true, p, s) :: (d2, false, g, u) :: k2) t -> t <> Leaf ->
  returns (let* p := rd parent (ptr t) h in
           let* h := upd (set_red false) p h in
           let* g := rd parent p h in
           let* h := upd (set_red true) g h in
           let* h := rotate (flip d2) T g h in
           Ok (ptr t, h))
    (fun '(x, h') => x = ptr t /\ zst h' ((d2, false, p, tnode d2 true s g u) :: k2) t).
Proof.
  intros Z Ht. rewrite (z_parent _ _ _ Z Ht). cbn [res_bind top]. apply zst_up in Z.
  eapply returns_bind; [by eapply set_red_ok|]. intros h1 [Z1 _].
  pose proof (z_look _ _ _ _ _ _ _ Z1) as Hp. rewrite (rd_ok _ _ _ _ Hp), parent_mkd. cbn [res_bind top].
  apply zst_up in Z1. eapply returns_bind; [by eapply set_red_ok|]. intros h2 [Z2 _].
  rewrite <- tnode_flip, <- (tnode_flip d2 false) in Z2.
  eapply returns_bind; [by eapply rotate_ok|]. intros h3 [Z3 _]. apply returns_ok. split; [done|].
  rewrite !tnode_flip in Z3. by apply zst_down.
Qed.

Lemma insert_sub_red h d p s d2 g u k2 t :
  zst h ((d, true, p, s) :: (d2, false, g, u) :: k2) t -> t <> Leaf -> col u = true ->
  returns (rb_insert_sub d2 T (ptr t) h)
    (fun '(x, h') => x = g /\ zst h' k2 (tnode d2 true (tnode d false t p s) g (blacken u))).
Proof.
  intros Z Ht Hu. unfold rb_insert_sub. rewrite (z_parent _ _ _ Z Ht). cbn [res_bind top].
  apply zst_up in Z. rewrite (rd_ok _ _ _ _ (z_look _ _ _ _ _ _ _ Z)), parent_mkd. cbn [res_bind top].
  rewrite (rd_ok _ _ _ _ (z_look_top _ _ _ _ _ _ _ Z)), child_far. cbn [res_bind].
  rewrite (z_red_sib _ _ _ _ _ _ _ Z), Hu. cbn [res_bind].
  eapply returns_bind; [by eapply set_red_ok|]. intros h1 [Z1 _].
  destruct u as [|cu ul y ur]; [done|]. apply zst_swap in Z1. cbn [ptr].
  eapply returns_bind; [eapply (set_red_ok _ _ L); exact Z1|]. intros h2 [Z2 _].
  apply zst_up in Z2. rewrite tnode_flip in Z2.
  eapply returns_bind; [by eapply set_red_ok|]. intros h3 [Z3 _]. by apply returns_ok.
Qed.

Lemma insert_sub_black h d p s d2 g u k2 t :
  zst h ((d, true, p, s) :: (d2, false, g, u) :: k2) t -> col t = true -> col u = false ->
  returns (rb_insert_sub d2 T (ptr t) h)
    (fun '(x, h') => exists k' t', x = ptr t' /\ t' <> Leaf /\ zst h' k' t' /\ pcol k' = false /\
       plug k' t' = plug k2 (ins_rot d d2 t p s g u)).
Proof.
  intros Z Hc Hu. assert (Ht : t <> Leaf) by (by intros ->).
  unfold rb_insert_sub. rewrite (z_parent _ _ _ Z Ht). cbn [res_bind top].
  pose proof (ptr_apart _ _ _ _ _ _ _ Z Ht) as Hts.
  apply zst_up in Z. rewrite (rd_ok _ _ _ _ (z_look _ _ _ _ _ _ _ Z)), parent_mkd. cbn [res_bind top].
  rewrite (rd_ok _ _ _ _ (z_look_top _ _ _ _ _ _ _ Z)), child_far. cbn [res_bind].
  rewrite (z_red_sib _ _ _ _ _ _ _ Z), Hu. cbn [res_bind].
  rewrite (rd_ok _ _ _ _ (z_look _ _ _ _ _ _ _ Z)). cbn [res_bind]. unfold ins_rot. case_decide as E.
  - subst d2. rewrite child_far, (proj2 (Z.eqb_neq _ _) Hts). cbn [res_bind]. apply zst_down in Z.
    eapply returns_mono; [by eapply insert_rot_ok|]. intros [x h'] [-> Z']. by eexists _, _.
  - apply flip_ne in E as ->. rewrite child_near, Z.eqb_refl. rewrite tnode_flip in Z.
    destruct t as [|c l x r]; [done|]. cbn [col] in Hc. subst c.
    rewrite (tnode_sub d2) in Z.
    rewrite bind_assoc. eapply returns_bind; [by eapply rotate_ok|]. intros h1 [Z1 _]. cbn [res_bind].
    apply zst_down in Z1. rewrite <- (ptr_tnode d2 true s p (sub d2 (Node true l x r))).
    eapply returns_mono; [apply insert_rot_ok; [exact Z1|by destruct d2]|].
    intros [y h'] [-> Z'].
    eexists _, (tnode d2 true s p (sub d2 (Node true l x r))). split_and!; [done|by destruct d2|exact Z'|done|by rewrite ptr_tnode].
Qed.

Lemma insert_loop_stop fuel h k t :
  zst h k t -> t <> Leaf -> pcol k = false -> insert_loop (S fuel) T (ptr t) h = Ok h.
Proof.
  intros Z Ht Hp. cbn [insert_loop]. rewrite (z_parent _ _ _ Z Ht). cbn [res_bind].
  by rewrite (z_red_top _ _ _ Z), Hp.
Qed.

Lemma insert_loop_ok fuel : forall h k t n,
  zst h k t -> col t = true -> ctxok k n -> (length k < fuel)%nat ->
  returns (insert_loop fuel T (ptr t) h) (fun h' => rep_tree h' (ins_fix k t)).
Proof.
  induction fuel as [|fuel IH]; intros h k t n Z Hc Hk Hf; [lia|].
  assert (Ht : t <> Leaf) by (by intros ->).
  destruct (pcol k) eqn:Ep.
  2:{ erewrite insert_loop_stop by done. apply returns_ok.
      destruct k as [|[[[d c] p] s] k1]; [done|]. cbn [pcol] in Ep. subst c. cbn [ins_fix].
      by apply zst_rep_tree in Z. }
  destruct k as [|[[[d c] p] s] k1]; [done|]. cbn [pcol] in Ep. subst c.
  cbn [ctxok] in Hk. destruct Hk as (Hs & Hcs & Hne & Hp & Hk).
  destruct k1 as [|[[[d2 c2] g] u] k2]; [done|]. cbn [pcol] in Hp. subst c2. cbn [ctxok] in Hk. destruct Hk as [Hu Hk].
  cbn [length] in Hf. cbn [insert_loop ins_fix]. rewrite (z_parent _ _ _ Z Ht). cbn [res_bind top].
  pose proof Z as Z0. apply zst_up in Z0.
  rewrite (rd_ok _ _ _ _ (z_look _ _ _ _ _ _ _ Z0)), red_mkd. cbn [res_bind].
  rewrite (rd_ok _ _ _ _ (z_look _ _ _ _ _ _ _ Z0)), parent_mkd. cbn [res_bind top].
  rewrite (rd_ok _ _ _ _ (z_look_top _ _ _ _ _ _ _ Z0)), ptr_tnode. cbn [res_bind].
  assert (Hpu : p <> ptr u) by (rewrite <- (ptr_tnode d true t p s); eapply ptr_apart; [exact Z0|by destruct d]).
  rewrite side_ok by done.
  destruct (col u) eqn:Eu.
  - eapply returns_bind; [by eapply insert_sub_red|]. intros [x h'] [-> Z'].
    rewrite <- (ptr_tnode d2 true (tnode d false t p s) g (blacken u)) at 1.
    apply (IH _ _ _ (S n)); [done|apply col_tnode|done|lia].
  - eapply returns_bind; [by eapply insert_sub_black|]. intros [x h'] (k' & t' & -> & Ht' & Z' & Hp' & <-).
    destruct fuel; [lia|]. erewrite insert_loop_stop by done. apply returns_ok. by apply zst_rep_tree in Z'.
Qed.

(** *** The size of the heap bounds the walks *)

Lemma occ_elements x t : x ∈ elements t <-> (1 <= occ x t)%nat.
Proof.
  induction t as [|c l IHl a r IHr]; cbn [elements occ]; [set_solver by lia|].
  rewrite elem_of_app, elem_of_cons, IHl, IHr. unfold same. destruct (Z.eqb_spec x a); naive_solver lia.
Qed.

Lemma occ_nodup t : NoDup (elements t) <-> forall x, (occ x t <= 1)%nat.
Proof.
  induction t as [|c l IHl a r IHr]; cbn [elements occ].
  - split; [intros; lia|constructor].
  - rewrite NoDup_app, NoDup_cons, IHl, IHr. split.
    + intros (Hl & Hd & Ha & Hr) x. specialize (Hl x). specialize (Hr x). unfold same.
      pose proof (Hd x) as Hx. rewrite elem_of_cons, !occ_elements in Hx. rewrite occ_elements in Ha.
      destruct (Z.eqb_spec x a); subst; lia.
    + intros H. split_and!.
      * intros x. specialize (H x). lia.
      * intros x Hx. rewrite elem_of_cons, !occ_elements in *. specialize (H x). unfold same in H.
        destruct (Z.eqb_spec x a); intros [?|?]; try done; lia.
      * rewrite occ_elements. specialize (H a). rewrite same_refl in H. lia.
      * intros x. specialize (H x). lia.
Qed.

Lemma rep_lookup h p t x : rep h p t -> x ∈ elements t -> is_Some (h !! x).
Proof.
  revert p. induction t as [|c l IHl a r IHr]; intros p H Hx; cbn [rep elements] in *; [by apply not_elem_of_nil in Hx|].
  destruct H as (H & Hl & Hr). rewrite elem_of_app, elem_of_cons in Hx. naive_solver.
Qed.

Lemma rep_tree_size h t : rep_tree h t -> (length (elements t) <= size h)%nat.
Proof.
  intros Ht. assert (Hn : NoDup (elements t)).
  { apply occ_nodup. intros x. pose proof (z_uniq _ _ _ Ht x). lia. }
  rewrite <- (size_list_to_set (C := gset Z)) by done. rewrite <- size_dom. apply subseteq_size.
  intros x Hx. rewrite elem_of_list_to_set in Hx. apply elem_of_dom.
  eapply rep_lookup; [apply Ht|done].
Qed.

Lemma height_elements t : (height t <= length (elements t))%nat.
Proof. induction t; cbn [height elements]; [lia|]. rewrite length_app. cbn [length]. lia. Qed.

Lemma zst_depth h k t : zst h k t -> (length k + height t <= size h)%nat.
Proof.
  intros Z. apply zst_rep_tree, rep_tree_size in Z. rewrite elements_plug, !length_app in Z.
  pose proof (height_elements t).
  assert (length k <= length (before k) + length (after k))%nat; [|lia].
  clear. induction k as [|[[[[|] c] a] s] k IH]; cbn [before after length]; rewrite ?length_app; cbn [length]; lia.
Qed.

(** *** [rb_insert] *)

Lemma zst_frame h h' k t :
  (forall a, a = nil T \/ a = root T \/ (1 <= occk a k + occ a t)%nat -> h' !! a = h !! a) -> zst h k t -> zst h' k t.
Proof.
  intros K [C F (n & Hn & Hr) U]. split; [| |exists n; rewrite K; auto|done].
  - eapply repc_frame; [|done]. intros a [Ha|Ha]; apply K; [by auto|right; right; lia].
  - eapply rep_frame; [|done]. intros a Ha. apply K. right; right; lia.
Qed.

Lemma ins_walk_ok fuel : forall h k t a, zst h k t -> (height t < fuel)%nat ->
  ins_walk fuel T a (top k) (ptr t) h = Ok (top (descend (compare T) a t k)).
Proof.
  induction fuel as [|fuel IH]; intros h k t a Z Hf; [lia|]. cbn [ins_walk].
  destruct t as [|c l b r]; cbn [ptr descend height] in *; [by rewrite Z.eqb_refl|].
  assert (b <> nil T) by (pose proof (z_uniq _ _ _ Z) as U; sep U).
  rewrite (proj2 (Z.eqb_neq _ _)) by done. pose proof (z_look _ _ L _ _ _ _ Z) as Hb.
  destruct (0 <? compare T b a).
  - rewrite (rd_ok _ _ _ _ Hb). cbn [res_bind]. apply (zst_down h L) in Z.
    apply (IH _ ((L, c, b, r) :: k)); [done|lia].
  - rewrite (rd_ok _ _ _ _ Hb). cbn [res_bind]. apply (zst_down h R) in Z.
    apply (IH _ ((R, c, b, l) :: k)); [done|lia].
Qed.

Lemma descend_side cmp a t : forall k,
  match k with (d, _, b, _) :: _ => (0 <? cmp b a) = bool_decide (d = L) | [] => True end ->
  match descend cmp a t k with (d, _, b, _) :: _ => (0 <? cmp b a) = bool_decide (d = L) | [] => True end.
Proof.
  induction t as [|c l IHl b r IHr]; intros k Hk; cbn [descend]; [done|].
  destruct (0 <? cmp b a) eqn:E; [apply IHl|apply IHr]; by rewrite E.
Qed.

(** A structure that is not part of the tree. *)
Definition fresh_in (a : Z) (h : heap) (t : tree) : Prop :=
  is_Some (h !! a) /\ a <> nil T /\ a <> root T /\ a ∉ elements t.

Lemma rb_insert_binary_ok h t a :
  rep_tree h t -> fresh_in a h t ->
  returns (rb_insert_binary T a h)
    (fun h' => exists c, zst h' (descend (compare T) a t []) (Node c Leaf a Leaf)).
Proof.
  intros H ([n Hn] & Na & Ra & Ha). unfold rb_insert_binary.
  assert (Ho : occ a t = O) by (rewrite occ_elements in Ha; lia).
  rewrite (upd_ok _ _ _ _ Hn). cbn [res_bind]. erewrite upd_ok by (by simpl_map). cbn [res_bind].
  rewrite insert_insert_eq. set (h1 := <[a := _]> h).
  assert (H1 : rep_tree h1 t).
  { eapply zst_frame; [|exact H]. intros b Hb. unfold h1. rewrite lookup_insert_ne; [done|].
    intros <-. cbn [occk] in Hb. destruct Hb as [|[|]]; [done|done|lia]. }
  rewrite (rd_ok _ _ _ _ (z_ctx _ _ _ H1)). cbn [res_bind left].
  rewrite (ins_walk_ok _ h1 [] t a H1) by (pose proof (zst_depth _ _ _ H1); unfold fuel_of; lia).
  cbn [res_bind]. pose proof (descend_side (compare T) a t [] I) as Hside.
  pose proof (descend_plug (compare T) a t []) as Hk. cbn [plug] in Hk.
  set (k := descend (compare T) a t []) in *. change (descend (compare T) a t []) with k in Hside.
  rewrite <- Hk in H1. apply zst_rep_tree in H1.
  clearbody k. assert (Hok : occk a k = O) by (rewrite <- Hk, occ_plug in Ho; lia).
  rewrite (upd_ok _ h1 a (mk_node (red n) (parent n) (nil T) (nil T))) by (unfold h1; by simpl_map).
  cbn [res_bind]. set (h2 := <[a := _]> h1).
  assert (H2 : zst h2 k Leaf).
  { eapply zst_frame; [|exact H1]. intros b Hb. unfold h2. rewrite lookup_insert_ne; [done|].
    intros <-. cbn [occ] in Hb. destruct Hb as [|[|]]; [done|done|lia]. }
  assert (Hcode : (if (top k =? root T) || (0 <? compare T (top k) a) then upd (set_child L a) (top k) h2
                   else upd (set_child R a) (top k) h2) = upd (set_child (side k) a) (top k) h2).
  { destruct k as [|[[[d c] b] s] k1] eqn:Ek; cbn [top side] in *; [by rewrite Z.eqb_refl|].
    assert (b <> root T) by (pose proof (z_uniq _ _ _ H2) as U; sep U).
    rewrite (proj2 (Z.eqb_neq _ _)), Hside by done. by destruct d. }
  rewrite Hcode. eapply returns_mono.
  { apply (link_ok h2 k (nil T)); [apply H2|]. intros x. pose proof (z_uniq _ _ _ H2 x). lia. }
  intros h3 [C3 K3]. exists (red n).
  assert (Hta : a <> top k).
  { intros E. pose proof (top_occ k) as Ht. rewrite <- E in Ht. unfold same in Ht.
    rewrite (proj2 (Z.eqb_neq _ _) Ra) in Ht. lia. }
  assert (Htn : nil T <> top k).
  { intros E. pose proof (top_occ k) as Ht. pose proof (z_uniq _ _ _ H2 (nil T)) as U. rewrite <- E in Ht.
    rewrite same_refl in U. lia. }
  split.
  - done.
  - cbn [rep ptr]. split; [|done]. rewrite K3 by done. unfold h2. by simpl_map.
  - rewrite K3 by done. apply H2.
  - intros x. pose proof (z_uniq _ _ _ H2 x) as U. cbn [occ] in *. unfold same in *.
    destruct (Z.eqb_spec x a) as [->|]; [|lia].
    rewrite (proj2 (Z.eqb_neq _ _) Na), (proj2 (Z.eqb_neq _ _) Ra) in *. lia.
Qed.

Lemma rb_insert_correct h t a :
  rep_tree h t -> valid t -> fresh_in a h t ->
  returns (rb_insert T a h) (fun h' => rep_tree h' (fins (compare T) t a)).
Proof.
  intros H Hv Ha. unfold rb_insert, fins.
  eapply returns_bind; [by apply rb_insert_binary_ok|]. intros h1 [c Z1].
  set (k := descend (compare T) a t []) in *.
  eapply returns_bind; [eapply (set_red_ok _ _ L); exact Z1|]. intros h2 [Z2 _]. cbn [tnode] in Z2.
  assert (Hk : ctxok k 0).
  { change t with (plug [] t) in Hv. rewrite <- (descend_plug (compare T) a) in Hv.
    apply unplug_valid in Hv as (n & Hk & Hn & _). cbn [rbok] in Hn. by subst n. }
  eapply returns_bind.
  { apply (insert_loop_ok _ h2 k (Node true Leaf a Leaf) 0); [done..|].
    pose proof (zst_depth _ _ _ Z2). unfold fuel_of. lia. }
  intros h3 Z3. set (t' := ins_fix k _) in *.
  assert (Ht' : t' <> Leaf).
  { intros E. apply (f_equal elements) in E. unfold t' in E. rewrite ins_fix_elements, elements_plug in E.
    apply app_nil in E as [_ E]. done. }
  rewrite (rd_ok _ _ _ _ (z_ctx _ _ _ Z3)). cbn [res_bind left]. destruct t' as [|ct l x r]; [done|].
  cbn [ptr]. eapply returns_bind; [eapply (set_red_ok _ _ L); exact Z3|]. intros h4 [Z4 _].
  destruct (z_nil _ _ _ Z4) as (n & Hn & Hnr).
  rewrite (rd_ok _ _ _ _ Hn), Hnr. cbn [res_bind].
  rewrite (rd_ok _ _ _ _ (z_ctx _ _ _ Z4)). cbn [res_bind red negb andb assert]. by apply returns_ok.
Qed.

(** *** Walks *)

Definition extreme (d : dir) (l : list Z) : option Z := match d with L => head l | R => last l end.

Lemma extreme_tnode d c A a B :
  extreme d (elements (tnode d c A a B)) = match A with Leaf => Some a | _ => extreme d (elements A) end.
Proof.
  destruct d; cbn [tnode elements extreme].
  - destruct A as [|? l x r]; cbn [elements]; [done|]. by destruct (elements l).
  - destruct A as [|? l x r]; cbn [elements].
    + by rewrite last_snoc.
    + rewrite last_app, last_cons. destruct (last (elements l ++ x :: elements r)) as [y|] eqn:E; [done|].
      by apply last_None, app_nil in E as [_ ?].
Qed.

Lemma nonnil h k c l a r : zst h k (Node c l a r) -> (a =? nil T) = false.
Proof. intros Z. apply Z.eqb_neq. pose proof (z_uniq _ _ _ Z) as U. sep U. Qed.

Lemma walk_down_ok d fuel : forall h k t, zst h k t -> t <> Leaf -> (height t <= fuel)%nat ->
  exists y, walk_down fuel d T (ptr t) h = Ok y /\ extreme d (elements t) = Some y.
Proof.
  induction fuel as [|fuel IH]; intros h k t Z Ht Hf.
  { destruct t; [done|cbn [height] in Hf; lia]. }
  destruct t as [|c l a r]; [done|]. cbn [walk_down ptr height] in *.
  rewrite (tnode_sub d) in Z |- *. set (A := sub d _) in *. set (B := sub (flip d) _) in *.
  assert (Hh : (height A <= fuel)%nat) by (unfold A; destruct d; cbn [sub]; lia). clearbody A B.
  rewrite (rd_ok _ _ _ _ (z_look _ _ _ _ _ _ _ Z)), child_near, extreme_tnode. cbn [res_bind].
  apply zst_down in Z. destruct A as [|ca la x ra]; cbn [ptr]; [rewrite Z.eqb_refl; eauto|].
  rewrite (nonnil _ _ _ _ _ _ Z). by apply (IH _ _ _ Z).
Qed.

Lemma root_apart h d c a s k t : zst h ((d, c, a, s) :: k) t -> (a =? root T) = false.
Proof. intros Z. apply Z.eqb_neq. pose proof (z_uniq _ _ _ Z) as U. sep U. Qed.

Lemma ptr_neqb h d c a s k t : zst h ((d, c, a, s) :: k) t -> t <> Leaf -> (ptr t =? ptr s) = false.
Proof. intros Z Ht. apply Z.eqb_neq. by eapply ptr_apart. Qed.

Lemma ptr_nonnil h k t : zst h k t -> t <> Leaf -> (ptr t =? nil T) = false.
Proof. intros Z Ht. destruct t; [done|]. by eapply nonnil. Qed.

Lemma succ_up_ok fuel : forall h k t, zst h k t -> t <> Leaf -> (length k < fuel)%nat ->
  succ_up fuel T (ptr t) (top k) h = Ok (from_option id (nil T) (head (after k))).
Proof.
  induction fuel as [|fuel IH]; intros h k t Z Ht Hf; [lia|].
  destruct k as [|[[[[|] c] a] s] k]; cbn [succ_up top after length] in *.
  - rewrite (rd_ok _ _ _ _ (z_ctx _ _ _ Z)). cbn [res_bind right].
    by rewrite (ptr_nonnil _ _ _ Z Ht), Z.eqb_refl.
  - rewrite (rd_ok _ _ _ _ (z_look_top _ _ _ _ _ _ _ Z)). cbn [res_bind right mkd].
    by rewrite (ptr_neqb _ _ _ _ _ _ _ Z Ht), (root_apart _ _ _ _ _ _ _ Z).
  - rewrite (rd_ok _ _ _ _ (z_look_top _ _ _ _ _ _ _ Z)). cbn [res_bind right mkd]. rewrite Z.eqb_refl.
    rewrite (rd_ok _ _ _ _ (z_look_top _ _ _ _ _ _ _ Z)). cbn [res_bind parent mkd].
    apply zst_up in Z. by apply (IH _ _ _ Z); [|lia].
Qed.

Lemma pred_up_ok fuel : forall h k t, zst h k t -> t <> Leaf -> (length k < fuel)%nat ->
  pred_up fuel T (ptr t) (top k) h = Ok (from_option id (nil T) (last (before k))).
Proof.
  induction fuel as [|fuel IH]; intros h k t Z Ht Hf; [lia|].
  destruct k as [|[[[[|] c] a] s] k]; cbn [pred_up top before length] in *.
  - rewrite (rd_ok _ _ _ _ (z_ctx _ _ _ Z)). cbn [res_bind left]. by rewrite !Z.eqb_refl.
  - rewrite (rd_ok _ _ _ _ (z_look_top _ _ _ _ _ _ _ Z)). cbn [res_bind left mkd].
    rewrite Z.eqb_refl, (root_apart _ _ _ _ _ _ _ Z).
    rewrite (rd_ok _ _ _ _ (z_look_top _ _ _ _ _ _ _ Z)). cbn [res_bind parent mkd].
    apply zst_up in Z. by apply (IH _ _ _ Z); [|lia].
  - rewrite (rd_ok _ _ _ _ (z_look_top _ _ _ _ _ _ _ Z)). cbn [res_bind left mkd].
    rewrite (ptr_neqb _ _ _ _ _ _ _ Z Ht). by rewrite app_assoc, last_snoc.
Qed.

Lemma rb_tree_successor_ok h k c l a r : zst h k (Node c l a r) ->
  rb_tree_successor T a h = Ok (from_option id (nil T) (head (elements r ++ after k))).
Proof.
  intros Z. unfold rb_tree_successor. pose proof (zst_depth _ _ _ Z) as Hd. cbn [height] in Hd.
  rewrite (rd_ok _ _ _ _ (z_look _ _ R _ _ _ _ Z)). cbn [res_bind right mkd].
  destruct r as [|cr lr ar rr].
  - cbn [ptr]. rewrite Z.eqb_refl, (rd_ok _ _ _ _ (z_look _ _ R _ _ _ _ Z)). cbn [res_bind parent mkd].
    by apply (succ_up_ok _ _ _ _ Z); [|unfold fuel_of; lia].
  - apply (zst_down _ R) in Z. rewrite (ptr_nonnil _ _ _ Z) by done.
    edestruct (walk_down_ok L (fuel_of h) _ _ _ Z) as (y & -> & Hy); [done|unfold fuel_of; lia|].
    cbn [extreme] in Hy. destruct (elements (Node cr lr ar rr)); [done|]. by injection Hy as ->.
Qed.

Lemma rb_tree_predecessor_ok h k c l a r : zst h k (Node c l a r) ->
  rb_tree_predecessor T a h = Ok (from_option id (nil T) (last (before k ++ elements l))).
Proof.
  intros Z. unfold rb_tree_predecessor. pose proof (zst_depth _ _ _ Z) as Hd. cbn [height] in Hd.
  rewrite (rd_ok _ _ _ _ (z_look _ _ L _ _ _ _ Z)). cbn [res_bind left mkd].
  destruct l as [|cl ll al rl].
  - cbn [ptr elements]. rewrite app_nil_r, Z.eqb_refl, (rd_ok _ _ _ _ (z_look _ _ L _ _ _ _ Z)). cbn [res_bind parent mkd].
    by apply (pred_up_ok _ _ _ _ Z); [|unfold fuel_of; lia].
  - apply (zst_down _ L) in Z. rewrite (ptr_nonnil _ _ _ Z) by done.
    edestruct (walk_down_ok R (fuel_of h) _ _ _ Z) as (y & -> & Hy); [done|unfold fuel_of; lia|].
    cbn [extreme] in Hy. by rewrite last_app, Hy.
Qed.

Lemma search_loop_ok f fuel : forall h k t, zst h k t -> (height t < fuel)%nat ->
  search_loop fuel f T (ptr t) h = Ok (search f t).
Proof.
  induction fuel as [|fuel IH]; intros h k t Z Hf; [lia|]. cbn [search_loop].
  destruct t as [|c l a r]; cbn [search height] in *; [cbn [ptr]; by rewrite Z.eqb_refl|].
  rewrite (ptr_nonnil _ _ _ Z) by done. cbn [ptr]. destruct (f a =? 0); [done|].
  pose proof (z_look _ _ L _ _ _ _ Z) as Ha.
  destruct (0 <? f a); rewrite (rd_ok _ _ _ _ Ha); cbn [res_bind left right mkd].
  - apply (zst_down _ L) in Z. apply (IH _ _ _ Z). lia.
  - apply (zst_down _ R) in Z. apply (IH _ _ _ Z). lia.
Qed.

(** *** Taking a node out *)

(** The sentinel [nil] is black. *)
Definition nil_black (h : heap) : Prop := exists n, h !! nil T = Some n /\ red n = false.

(** [x] knows its parent, also when it is the sentinel. *)
Definition npar (h : heap) (k : list frame) (x : tree) : Prop :=
  x = Leaf -> exists n, h !! nil T = Some n /\ parent n = top k.

Lemma set_parent_ok h p q t :
  rep h p t -> nil_black h -> (forall x, (same x (nil T) + occ x t <= 1)%nat) ->
  returns (upd (set_parent q) (ptr t) h)
    (fun h' => rep h' q t /\ nil_black h' /\ (exists n, h' !! ptr t = Some n /\ parent n = q) /\
               forall a, a <> ptr t -> h' !! a = h !! a).
Proof.
  intros H (n & Hn & Hr) U. destruct t as [|c l a r]; cbn [ptr rep] in *.
  - rewrite (upd_ok _ _ _ _ Hn). apply returns_ok. split_and!; [done| | |].
    + eexists. by split; [by simpl_map|].
    + eexists. by split; [by simpl_map|].
    + intros; by simpl_map.
  - destruct H as (H & Hl & Hr'). pose proof (U a) as Ua. cbn [occ] in Ua. rewrite same_refl in Ua.
    assert (a <> nil T) by (intros ->; rewrite same_refl in Ua; lia).
    rewrite (upd_ok _ _ _ _ H). apply returns_ok. split_and!.
    + by simpl_map.
    + eapply rep_frame; [|done]. intros b Hb. rewrite lookup_insert_ne; [done|]. intros <-. lia.
    + eapply rep_frame; [|done]. intros b Hb. rewrite lookup_insert_ne; [done|]. intros <-. lia.
    + exists n. by simpl_map.
    + eexists. by split; [by simpl_map|].
    + intros; by simpl_map.
Qed.

(** The node that a context ends in is none of the subtree's. *)
Lemma top_apart h k t : zst h k t -> top k <> ptr t /\ top k <> nil T /\ occ (top k) t = O.
Proof.
  intros Z. pose proof (z_uniq _ _ _ Z (top k)) as U. pose proof (top_occ k).
  assert (top k <> nil T) by (intros E; rewrite <- E, same_refl in U; lia).
  split_and!; [|done|lia]. intros E. destruct (occ_ptr t) as [->|Ht]; [done|]. rewrite <- E in Ht. lia.
Qed.

Lemma unlink_node_ok h k d c y x :
  zst h k (tnode d c Leaf y x) ->
  returns (let* yp := rd parent y h in
           let* h := upd (set_parent yp) (ptr x) h in
           let* yp := rd parent y h in
           relink L yp y (ptr x) h)
    (fun h' => zst h' k x /\ npar h' k x /\ h' !! y = h !! y).
Proof.
  intros Z. pose proof (z_uniq _ _ _ Z) as U. pose proof (z_look _ _ _ _ _ _ _ Z) as Hy.
  pose proof (top_apart _ _ _ Z) as (Ht1 & Ht2 & Ht3). rewrite ptr_tnode in Ht1. rewrite occ_tnode in Ht3.
  destruct Z as [C F N _]. rewrite rep_tnode in F. rewrite ptr_tnode in C. destruct F as (_ & _ & FX).
  assert (Hyx : y <> ptr x).
  { intros E. pose proof (U y) as Uy. rewrite occ_tnode, same_refl in Uy. destruct (occ_ptr x) as [->|Hx].
    - cbn [ptr] in E. rewrite <- E, same_refl in Uy. lia.
    - rewrite <- E in Hx. lia. }
  assert (Htx : top k <> ptr x).
  { intros E. destruct (occ_ptr x) as [->|Hx]; [done|]. rewrite <- E in Hx. lia. }
  rewrite (rd_ok _ _ _ _ Hy), parent_mkd. cbn [res_bind].
  eapply returns_bind; [apply (set_parent_ok h y (top k) x); [done|done|]|].
  { intros a. specialize (U a). rewrite occ_tnode in U. lia. }
  intros h1 (FX1 & N1 & (n & Hn & Hp) & K1).
  rewrite (rd_ok _ h1 y _ (eq_trans (K1 y Hyx) Hy)), parent_mkd. cbn [res_bind].
  eapply returns_mono; [apply (relink_ok h1 L k y (ptr x))|].
  { eapply repc_frame; [|exact C]. intros a Ha. apply K1. intros ->. pose proof (U (ptr x)) as Ux.
    rewrite occ_tnode in Ux. destruct (occ_ptr x) as [->|Hx].
    - cbn [ptr] in *. rewrite same_refl in Ux. destruct Ha as [Ha|Ha]; [rewrite Ha, same_refl in Ux|]; lia.
    - destruct Ha as [Ha|Ha]; [rewrite Ha, same_refl, <- Ha in Ux|]; lia. }
  { intros a. specialize (U a). rewrite occ_tnode in U. lia. }
  intros h2 [C2 K2]. split_and!.
  - split; [done| | |].
    + eapply rep_frame; [|exact FX1]. intros a Ha. apply K2. intros ->. lia.
    + rewrite K2 by done. done.
    + intros a. specialize (U a). rewrite occ_tnode in U. lia.
  - intros ->. exists n. by rewrite K2.
  - by rewrite K2, K1.
Qed.

(** Disequalities of addresses are not arithmetic. *)
Ltac olia := repeat match goal with H : _ <> _ |- _ => clear H end; lia.

(** An address that occurs in the heap's tree, the sentinels included, is not
    the first node of a subtree it is not in. *)
Lemma ptr_other a t : a <> nil T -> occ a t = O -> a <> ptr t.
Proof. intros Hn Ho ->. destruct (occ_ptr t) as [->|Ht]; [done|olia]. Qed.

(** Both children of [z] get the parent [y]. *)
Lemma adopt_ok h c p l z r y :
  h !! z = Some (mk_node c p (ptr l) (ptr r)) -> rep h z l -> rep h z r -> nil_black h -> l <> Leaf ->
  (forall x, (same x (nil T) + same x z + occ x l + occ x r <= 1)%nat) ->
  returns (let* zr := rd right z h in
           let* h := upd (set_parent y) zr h in
           let* zl := rd left z h in
           upd (set_parent y) zl h)
    (fun h' => rep h' y l /\ rep h' y r /\ nil_black h' /\
       (r = Leaf -> exists n, h' !! nil T = Some n /\ parent n = y) /\
       (forall a, a <> nil T -> occ a l = O -> occ a r = O -> h' !! a = h !! a) /\
       (r <> Leaf -> h' !! nil T = h !! nil T)).
Proof.
  intros Hz FL FR N Hl U. rewrite (rd_ok _ _ _ _ Hz). cbn [res_bind right].
  assert (Uz := U z). rewrite same_refl in Uz.
  assert (Hzn : z <> nil T) by (intros ->; rewrite same_refl in Uz; lia).
  assert (Hln : ptr l <> nil T).
  { intros E. destruct (occ_ptr l) as [|Hp]; [done|]. specialize (U (nil T)). rewrite E, same_refl in *. olia. }
  assert (Hlr : forall a, (1 <= occ a l)%nat -> a <> ptr r).
  { intros a Ha ->. pose proof (U (ptr r)) as Ur. destruct (occ_ptr r) as [->|Hr]; [|olia].
    cbn [ptr] in *. rewrite same_refl in Ur. olia. }
  eapply returns_bind; [apply (set_parent_ok h z y r); [done|done|]|].
  { intros a. specialize (U a). olia. }
  intros h2 (FR2 & N2 & (nr & Hnr & Hpr) & K2). assert (Hz2 := Hz).
  rewrite <- (K2 z) in Hz2 by (apply ptr_other; [done|olia]).
  rewrite (rd_ok _ _ _ _ Hz2). cbn [res_bind left].
  eapply returns_mono; [apply (set_parent_ok h2 z y l)|].
  { eapply rep_frame; [|exact FL]. intros a Ha. by apply K2, Hlr. }
  { done. }
  { intros a. specialize (U a). olia. }
  intros h3 (FL3 & N3 & _ & K3). split_and!; [done| |done| | |].
  - eapply rep_frame; [|exact FR2]. intros a Ha. apply K3. intros ->. destruct (occ_ptr l) as [|Hp]; [done|].
    specialize (U (ptr l)). olia.
  - intros ->. exists nr. by rewrite K3 by congruence.
  - intros a Ha Hal Har. rewrite K3, K2; [done| |]; by apply ptr_other.
  - intros Hr. rewrite K3, K2; [done| |congruence]. intros E. destruct (occ_ptr r) as [|Ho]; [done|].
    specialize (U (nil T)). rewrite <- E, same_refl in *. olia.
Qed.

(** [*y = *z]: [y] takes the place of [z]. *)
Lemma replace_ok h k c l z r y :
  zst h k (Node c l z r) -> l <> Leaf -> is_Some (h !! y) ->
  (forall x, (same x (nil T) + same x (root T) + same x y + occk x k + occ x (Node c l z r) <= 1)%nat) ->
  returns (let* zp := rd parent z h in
           let* h := relink L zp z y h in
           let* zr := rd right z h in
           let* h := upd (set_parent y) zr h in
           let* zl := rd left z h in
           let* h := upd (set_parent y) zl h in
           let* zn := fetch h z in
           upd (fun _ => zn) y h)
    (fun h' => zst h' k (Node c l y r) /\
               (r = Leaf -> exists n, h' !! nil T = Some n /\ parent n = y) /\
               (r <> Leaf -> h' !! nil T = h !! nil T)).
Proof.
  intros Z Hl [ny Hy] U. pose proof (z_look _ _ L _ _ _ _ Z) as Hz. cbn [mkd] in Hz.
  pose proof (top_apart _ _ _ Z) as (Ht1 & Ht2 & Ht3). cbn [ptr occ] in Ht1, Ht3.
  destruct Z as [C F N _]. cbn [rep ptr] in F, C. destruct F as (_ & FL & FR). cbn [occ] in U.
  assert (Uy := U y). assert (Uz := U z). rewrite same_refl in Uy, Uz.
  assert (Hzy : z <> y) by (intros ->; rewrite same_refl in Uy; olia).
  assert (Hty : top k <> y) by (intros E; pose proof (top_occ k); rewrite E in *; olia).
  assert (Hny : nil T <> y) by (intros E; rewrite <- E, same_refl in Uy; olia).
  assert (Hnz : nil T <> z) by (intros E; rewrite <- E, same_refl in Uz; olia).
  rewrite (rd_ok _ _ _ _ Hz). cbn [res_bind parent].
  eapply returns_bind; [apply (relink_ok h L k z y C); intros a; specialize (U a); olia|].
  intros h1 [C1 K1]. assert (Hz1 := Hz). rewrite <- (K1 z) in Hz1 by congruence.
  assert (Hy1 : h1 !! y = Some ny) by (rewrite K1 by congruence; done).
  assert (Hn1 : h1 !! nil T = h !! nil T) by (apply K1; congruence). rewrite <- Hn1 in N |- *.
  assert (FL1 : rep h1 z l) by (eapply rep_frame; [|exact FL]; intros a Ha; apply K1; intros ->; olia).
  assert (FR1 : rep h1 z r) by (eapply rep_frame; [|exact FR]; intros a Ha; apply K1; intros ->; olia).
  clear K1 Hn1 Hy Hz C Ht1 Ht2 Ht3 Hty FL FR.
  assert (A := adopt_ok h1 c (top k) l z r y Hz1 FL1 FR1 N Hl (fun x => ltac:(specialize (U x); olia))).
  destruct A as (h3 & A & FL3 & FR3 & N3 & P3 & K3 & Q3).
  apply bind_ok in A as (zr & -> & A). cbn [res_bind]. apply bind_ok in A as (h2 & -> & A). cbn [res_bind].
  apply bind_ok in A as (zl & -> & A). cbn [res_bind]. rewrite A. cbn [res_bind].
  rewrite <- (K3 z) in Hz1 by (congruence || olia). rewrite <- (K3 y) in Hy1 by (congruence || olia).
  rewrite (fetch_ok _ _ _ Hz1). cbn [res_bind]. rewrite (upd_ok _ _ _ _ Hy1). apply returns_ok.
  assert (Kn : <[y := mk_node c (top k) (ptr l) (ptr r)]> h3 !! nil T = h3 !! nil T) by (by apply lookup_insert_ne).
  rewrite Kn. split_and!; [|done|done]. split.
  - cbn [ptr]. eapply repc_frame; [|exact C1]. intros a Ha. specialize (U a).
    assert (a <> y) by (intros ->; destruct Ha as [->|]; rewrite ?same_refl in U; olia).
    rewrite lookup_insert_ne by done. apply K3; [|destruct Ha as [->|]; rewrite ?same_refl in U; olia..].
    intros ->. destruct Ha as [E|]; [rewrite <- E in U|]; rewrite ?same_refl in U; olia.
  - cbn [rep]. split_and!; [by simpl_map| |].
    + eapply rep_frame; [|exact FL3]. intros a Ha. rewrite lookup_insert_ne; [done|]. intros <-. olia.
    + eapply rep_frame; [|exact FR3]. intros a Ha. rewrite lookup_insert_ne; [done|]. intros <-. olia.
  - rewrite Kn. done.
  - intros a. specialize (U a). cbn [occ]. olia.
Qed.

(** *** The loop of [rb_delete_fixup] *)

Lemma d_parent h k x : zst h k x -> npar h k x -> rd parent (ptr x) h = Ok (top k).
Proof.
  intros Z N. destruct x as [|c l a r]; [|by apply z_parent].
  destruct (N eq_refl) as (n & Hn & Hp). by rewrite (rd_ok _ _ _ _ Hn), Hp.
Qed.

Lemma npar_keep h h' k k' x : npar h k x -> h' !! nil T = h !! nil T -> top k' = top k -> npar h' k' x.
Proof. intros N E Et Hx. rewrite E, Et. by apply N. Qed.

(** The colour exchange and the rotation that end the loop. *)
Lemma fixup_last h d pc p wn wa wf k x (rt : Z) :
  zst h ((d, pc, p, tnode d false wn wa wf) :: k) x -> npar h ((d, pc, p, tnode d false wn wa wf) :: k) x ->
  wf <> Leaf ->
  returns (let* p := rd parent (ptr x) h in
           let* pc := rd red p h in
           let* h := upd (set_red pc) wa h in
           let* h := upd (set_red false) p h in
           let* wf := rd (child (flip d)) wa h in
           let* h := upd (set_red false) wf h in
           let* h := rotate d T p h in
           Ok (rt, h))
    (fun '(y, h') => y = rt /\ zst h' k (tnode d pc (tnode d false x p wn) wa (blacken wf)) /\
                     exists n, h' !! p = Some n /\ red n = false).
Proof.
  intros Z N Hwf. rewrite (d_parent _ _ _ Z N). cbn [res_bind top].
  rewrite (rd_ok _ _ _ _ (z_look_top _ _ _ _ _ _ _ Z)), red_mkd. cbn [res_bind].
  apply zst_swap in Z. eapply returns_bind; [by eapply set_red_ok|]. intros h1 [Z1 _].
  apply zst_up in Z1. eapply returns_bind; [by eapply set_red_ok|]. intros h2 [Z2 _].
  apply zst_down in Z2. rewrite (rd_ok _ _ _ _ (z_look _ _ _ _ _ _ _ Z2)), child_far. cbn [res_bind].
  apply zst_down, zst_swap in Z2. destruct wf as [|cf fl fa fr]; [done|].
  eapply returns_bind; [eapply (set_red_ok _ _ L); exact Z2|]. intros h3 [Z3 _].
  apply zst_swap in Z3. rewrite ?flip_flip in Z3. apply zst_up, zst_up in Z3. rewrite tnode_flip in Z3.
  eapply returns_bind; [by eapply rotate_ok|]. intros h4 [Z4 _]. apply returns_ok. split_and!; [done|exact Z4|].
  apply zst_down, z_look in Z4. eexists. split; [exact Z4|apply red_mkd].
Qed.

Lemma del_234_tnode d pc x p cw wn wa wf :
  del_234 d pc x p (tnode d cw wn wa wf) =
  if negb (col wn) && negb (col wf) then (tnode d pc x p (tnode d true wn wa wf), true)
  else if negb (col wf) then
    match wn with
    | Leaf => (tnode d pc x p (tnode d cw wn wa wf), false)
    | Node _ _ n _ => (tnode d pc (tnode d false x p (sub d wn)) n (tnode d false (sub (flip d) wn) wa wf), false)
    end
  else (tnode d pc (tnode d false x p wn) wa (blacken wf), false).
Proof. by destruct d. Qed.

Lemma fixup_rest_ok h d pc p wn wa wf k x (rt : Z) :
  zst h ((d, pc, p, tnode d false wn wa wf) :: k) x -> npar h ((d, pc, p, tnode d false wn wa wf) :: k) x ->
  returns (rb_delete_fixup_rest d T rt (ptr x) wa h)
    (fun '(y, h') => let '(t, more) := del_234 d pc x p (tnode d false wn wa wf) in
       zst h' k t /\
       if more then y = p else y = rt /\ exists n, h' !! p = Some n /\ red n = false).
Proof.
  intros Z N. pose proof (proj1 (zst_swap _ _ _ _ _ _ _) Z) as Zw.
  unfold rb_delete_fixup_rest. rewrite del_234_tnode.
  rewrite (rd_ok _ _ _ _ (z_look _ _ _ _ _ _ _ Zw)), child_near. cbn [res_bind].
  rewrite (rd_ok _ _ _ _ (z_look _ _ _ _ _ _ _ Zw)), child_far. cbn [res_bind].
  pose proof (zst_down _ _ _ _ _ _ _ Zw) as Zn.
  rewrite (z_red _ _ _ Zn), (z_red_sib _ _ _ _ _ _ _ Zn). cbn [res_bind].
  destruct (negb (col wn) && negb (col wf)) eqn:Eb.
  - eapply returns_bind; [by eapply set_red_ok|]. intros h1 [Z1 E1].
    apply zst_swap in Z1. rewrite ?flip_flip in Z1.
    rewrite (d_parent _ _ _ Z1) by (by eapply npar_keep). apply returns_ok. split; [by apply zst_up|done].
  - destruct (col wf) eqn:Ef; cbn [negb].
    { cbn [res_bind]. eapply returns_mono; [eapply fixup_last; [exact Z|exact N|by intros ->]|].
      intros [y h'] (-> & Z' & Hp). by split_and!. }
    destruct wn as [|cn nl n nr]; [done|]. cbn [col negb andb] in Eb. destruct cn; [|done].
    rewrite !bind_assoc. eapply returns_bind; [eapply (set_red_ok _ _ L); exact Zn|]. intros h1 [Z1 E1].
    cbn [tnode] in Z1. rewrite (tnode_sub d) in Z1.
    apply zst_up in Z1. rewrite bind_assoc. eapply returns_bind; [by eapply set_red_ok|]. intros h2 [Z2 E2].
    rewrite <- tnode_flip, <- (tnode_flip d false) in Z2.
    rewrite bind_assoc. eapply returns_bind; [by eapply rotate_ok|]. intros h3 [Z3 E3].
    rewrite !tnode_flip in Z3. apply zst_swap in Z3. rewrite ?flip_flip in Z3.
    assert (N3 := npar_keep _ h3 _ ((d, pc, p, tnode d false (sub d (Node true nl n nr)) n
                    (tnode d true (sub (flip d) (Node true nl n nr)) wa wf)) :: k) x N
                    ltac:(by rewrite E3, E2, E1) eq_refl).
    rewrite bind_assoc, (d_parent _ _ _ Z3 N3). cbn [res_bind top].
    rewrite bind_assoc, (rd_ok _ _ _ _ (z_look_top _ _ _ _ _ _ _ Z3)), child_far, ptr_tnode. cbn [res_bind].
    eapply returns_mono; [eapply fixup_last; [exact Z3|exact N3|by destruct d]|].
    intros [y h'] (-> & Z' & Hp). rewrite blacken_tnode in Z'. by split_and!.
Qed.

Lemma fixup_sub_black h d pc p wn wa wf k x (rt : Z) :
  zst h ((d, pc, p, tnode d false wn wa wf) :: k) x -> npar h ((d, pc, p, tnode d false wn wa wf) :: k) x ->
  rb_delete_fixup_sub d T rt (ptr x) h = rb_delete_fixup_rest d T rt (ptr x) wa h.
Proof.
  intros Z N. unfold rb_delete_fixup_sub. rewrite (d_parent _ _ _ Z N). cbn [res_bind top].
  rewrite (rd_ok _ _ _ _ (z_look_top _ _ _ _ _ _ _ Z)), child_far. cbn [res_bind].
  rewrite (z_red_sib _ _ _ _ _ _ _ Z), col_tnode, ptr_tnode. done.
Qed.

(** A red sibling is rotated up first. *)
Lemma fixup_sub_red h d pc p nn na nf wa wf k x (rt : Z) :
  zst h ((d, pc, p, tnode d true (tnode d false nn na nf) wa wf) :: k) x ->
  npar h ((d, pc, p, tnode d true (tnode d false nn na nf) wa wf) :: k) x ->
  returns (rb_delete_fixup_sub d T rt (ptr x) h)
    (fun '(y, h') => let '(t, more) := del_234 d true x p (tnode d false nn na nf) in
       zst h' ((d, false, wa, wf) :: k) t /\
       if more then y = p else y = rt /\ exists n, h' !! p = Some n /\ red n = false).
Proof.
  intros Z N. unfold rb_delete_fixup_sub. rewrite (d_parent _ _ _ Z N). cbn [res_bind top].
  rewrite (rd_ok _ _ _ _ (z_look_top _ _ _ _ _ _ _ Z)), child_far. cbn [res_bind].
  rewrite (z_red_sib _ _ _ _ _ _ _ Z), col_tnode, ptr_tnode. cbn [res_bind].
  apply zst_swap in Z. rewrite bind_assoc. eapply returns_bind; [by eapply set_red_ok|]. intros h1 [Z1 E1].
  apply zst_up in Z1. rewrite bind_assoc. eapply returns_bind; [by eapply set_red_ok|]. intros h2 [Z2 E2].
  rewrite tnode_flip in Z2. rewrite bind_assoc. eapply returns_bind; [by eapply rotate_ok|]. intros h3 [Z3 E3].
  apply zst_down, zst_down in Z3.
  assert (N3 := npar_keep _ h3 _ ((d, true, p, tnode d false nn na nf) :: (d, false, wa, wf) :: k) x N
                  ltac:(by rewrite E3, E2, E1) eq_refl).
  rewrite bind_assoc, (d_parent _ _ _ Z3 N3). cbn [res_bind top].
  rewrite bind_assoc, (rd_ok _ _ _ _ (z_look_top _ _ _ _ _ _ _ Z3)), child_far, ptr_tnode. cbn [res_bind].
  by apply fixup_rest_ok.
Qed.

Lemma ptr_plug k t t' : ptr t = ptr t' -> ptr (plug k t) = ptr (plug k t').
Proof.
  revert t t'. induction k as [|[[[d c] a] s] k IH]; intros t t' E; cbn [plug]; [done|].
  apply IH. by rewrite !ptr_tnode.
Qed.

Lemma ptr_plug_cons f k t t' : ptr (plug (f :: k) t) = ptr (plug (f :: k) t').
Proof. destruct f as [[[d c] a] s]. cbn [plug]. apply ptr_plug. by rewrite !ptr_tnode. Qed.

Lemma plug_occ f k t : (1 <= occk (ptr (plug (f :: k) t)) (f :: k))%nat.
Proof.
  revert f t. induction k as [|f' k IH]; intros [[[d c] a] s] t.
  - cbn [plug occk]. rewrite ptr_tnode, same_refl. lia.
  - specialize (IH f' (tnode d c t a s)). cbn [plug occk] in *. lia.
Qed.

Lemma root_ptr h f k x : zst h (f :: k) x -> (ptr x =? ptr (plug (f :: k) x)) = false.
Proof.
  intros Z. apply Z.eqb_neq. intros E. pose proof (plug_occ f k x) as Ho. rewrite <- E in Ho.
  pose proof (z_uniq _ _ _ Z (ptr x)) as U. destruct (occ_ptr x) as [->|Hx]; [cbn [ptr] in *; rewrite same_refl in U|]; lia.
Qed.

Lemma set_black_id h a n : h !! a = Some n -> red n = false -> upd (set_red false) a h = Ok h.
Proof.
  intros H Hr. rewrite (upd_ok _ _ _ _ H). destruct n; cbn in *. subst. by rewrite insert_id.
Qed.

Lemma set_black_ok h k t : zst h k t ->
  returns (upd (set_red false) (ptr t) h) (fun h' => zst h' k (blacken t)).
Proof.
  intros Z. destruct t as [|c l a r].
  - destruct (z_nil _ _ _ Z) as (n & Hn & Hr). cbn [ptr]. erewrite set_black_id by done. by apply returns_ok.
  - eapply returns_mono; [eapply (set_red_ok _ _ L); exact Z|]. intros h' [Z' _]. done.
Qed.

(** The loop ends at [rt], whose node is black. *)
Lemma fixup_done h k t p rt fuel :
  zst h k t -> col (plug k t) = false -> (exists n, h !! p = Some n /\ red n = false) ->
  (k = [] -> rt = p) -> (k <> [] -> rt = ptr (plug k t)) ->
  returns (let* (x, h) := delete_loop (S fuel) T rt rt h in upd (set_red false) x h)
    (fun h' => rep_tree h' (plug k t)).
Proof.
  intros Z Hc (n & Hn & Hr) H1 H2. cbn [delete_loop]. rewrite Z.eqb_refl. cbn [res_bind].
  apply zst_rep_tree in Z. destruct k as [|f k].
  - rewrite H1 by done. erewrite set_black_id by done. by apply returns_ok.
  - rewrite H2 by done. eapply returns_mono; [apply (set_black_ok _ _ _ Z)|]. intros h' Z'.
    by rewrite blacken_id in Z'.
Qed.

Lemma del_234_ptr d pc x p cw wn wa wf t :
  del_234 d pc x p (tnode d cw wn wa wf) = (t, true) -> ptr t = p /\ t <> Leaf.
Proof.
  rewrite del_234_tnode. intros E. repeat case_match; simplify_eq. rewrite ptr_tnode. by destruct d.
Qed.

Lemma root_same k d c c' A A' p p' B B' :
  k <> [] -> ptr (plug k (tnode d c A p B)) = ptr (plug k (tnode d c' A' p' B')).
Proof. destruct k as [|f k]; [done|]. intros _. apply ptr_plug_cons. Qed.

(** With a red sibling the loop ends after this step. *)
Lemma loop_red h d p wl wa wr k x n rt fuel :
  let K := (d, false, p, Node true wl wa wr) :: k in
  zst h K x -> npar h K x -> rbok x n -> col x = false -> rbok (Node true wl wa wr) (S n) ->
  col (del_fix K x) = false -> rt = ptr (plug K x) ->
  returns (let* (y, h) := let* (y, h) := rb_delete_fixup_sub d T rt (ptr x) h in
                          delete_loop (S fuel) T rt y h in upd (set_red false) y h)
    (fun h' => rep_tree h' (del_fix K x)).
Proof.
  intros K Z N Hx Ecx Hw Hblack Hrt. unfold K in *. rewrite bind_assoc. cbn [del_fix] in Hblack |- *. rewrite Ecx in Hblack |- *.
  cbn [rbok] in Hw. destruct Hw as (Hl & Hr & Hcl & Hcr).
  rewrite (tnode_sub d true) in Z, N. set (wn := sub d (Node true wl wa wr)) in *.
  set (wf := sub (flip d) (Node true wl wa wr)) in *.
  assert (Hwn : rbok wn (S n) /\ col wn = false) by (unfold wn; by destruct d). destruct Hwn as [Hwn Hcn].
  clearbody wn wf. destruct wn as [|[|] nl na nr]; [done|done|]. rewrite (tnode_sub d false) in *.
  eapply returns_bind; [eapply (fixup_sub_red _ _ _ _ _ _ _ _ _ _ _ rt Z N)|].
  intros [y h'] Hpost. destruct (del_234 d true x p _) as [t more] eqn:E.
  pose proof (del_234_ok _ _ _ _ _ n _ _ Hx Ecx Hwn ltac:(by rewrite col_tnode) E) as [Hct _].
  destruct Hpost as [Z' Hy]. destruct more.
  - subst y. apply del_234_ptr in E as [Hpt _].
    assert (Hstop : delete_loop (S fuel) T rt p h' = Ok (p, h')).
    { cbn [delete_loop]. destruct (p =? rt); [done|]. rewrite <- Hpt at 1. by rewrite (z_red _ _ _ Z'), Hct. }
    rewrite Hstop. cbn [res_bind]. rewrite <- Hpt at 1. eapply returns_mono; [by apply set_black_ok|].
    intros h'' Z''. by apply zst_up, zst_rep_tree in Z''.
  - destruct Hy as [-> Hp]. apply zst_up in Z'. apply (fixup_done _ _ _ p); [done|done|done| |].
    + intros ->. rewrite Hrt. cbn [plug]. by rewrite ptr_tnode.
    + intros Hk'. rewrite Hrt. by apply root_same.
Qed.

Lemma delete_loop_ok fuel : forall h k x n rt,
  zst h k x -> npar h k x -> ctxok k (S n) -> short x n -> rt = ptr (plug k x) -> (length k < fuel)%nat ->
  returns (let* (x, h) := delete_loop fuel T rt (ptr x) h in upd (set_red false) x h)
    (fun h' => rep_tree h' (del_fix k x)).
Proof.
  induction fuel as [|fuel IH]; intros h k x n rt Z N Hk Hx Hrt Hf; [lia|].
  pose proof (del_fix_valid k n x Hk Hx) as [Hblack _].
  destruct k as [|[[[d pc] p] w] k].
  { subst rt. cbn [delete_loop plug del_fix]. rewrite Z.eqb_refl. cbn [res_bind]. by apply set_black_ok. }
  destruct (col x) eqn:Ecx.
  { cbn [delete_loop del_fix]. rewrite Hrt, (root_ptr _ _ _ _ Z), (z_red _ _ _ Z), Ecx. cbn [res_bind].
    eapply returns_mono; [by apply set_black_ok|]. intros h' Z'. by apply zst_rep_tree in Z'. }
  unfold short in Hx. rewrite Ecx in Hx. cbn [ctxok length] in Hk, Hf. destruct Hk as [Hw Hk].
  assert (Hside : (if ptr x =? left (mkd d pc (top k) (ptr x) (ptr w)) then L else R) = d).
  { apply side_ok. destruct x as [|]; [|by eapply ptr_apart; [exact Z|]]. intros E.
    destruct w as [|cw wl wa wr]; [done|]. apply zst_swap in Z. pose proof (nonnil _ _ _ _ _ _ Z) as Hn.
    apply Z.eqb_neq in Hn. by cbn [ptr] in E. }
  destruct fuel as [|fuel]; [lia|]. set (fuel1 := S fuel) in *.
  cbn [delete_loop]. rewrite Hrt at 1. rewrite (root_ptr _ _ _ _ Z), (z_red _ _ _ Z), Ecx. cbn [res_bind].
  rewrite (d_parent _ _ _ Z N). cbn [res_bind top].
  rewrite (rd_ok _ _ _ _ (z_look_top _ _ _ _ _ _ _ Z)). cbn [res_bind]. rewrite Hside. clear Hside.
  destruct w as [|[|] wl wa wr]; [done| |].
  { destruct pc; [by destruct Hk|]. by apply (loop_red _ _ _ _ _ _ _ _ n). }
  cbn [del_fix] in Hblack |- *. rewrite Ecx in Hblack |- *. rewrite bind_assoc.
  rewrite (tnode_sub d false) in *. set (wn := sub d (Node false wl wa wr)) in *.
  set (wf := sub (flip d) (Node false wl wa wr)) in *. clearbody wn wf.
  rewrite (fixup_sub_black _ _ _ _ _ _ _ _ _ rt Z N).
  eapply returns_bind; [eapply (fixup_rest_ok _ _ _ _ _ _ _ _ _ rt Z N)|].
  intros [y h'] Hpost. destruct (del_234 d pc x p _) as [t more] eqn:E.
  pose proof (del_234_ok _ _ _ _ _ n _ _ Hx Ecx Hw ltac:(by rewrite col_tnode) E) as [Hct Ht].
  destruct Hpost as [Z' Hy]. destruct more.
  - apply del_234_ptr in E as [Hpt Hne]. subst y. rewrite <- Hpt at 1.
    apply (IH _ _ _ (if pc then n else S n)); [done|by intros ?| | | |lia].
    + by destruct pc; [apply Hk|].
    + unfold short. rewrite Hct. destruct pc; [done|]. by rewrite blacken_id in Ht.
    + rewrite Hrt. cbn [plug]. apply ptr_plug. by rewrite ptr_tnode.
  - destruct Hy as [-> Hp]. apply (fixup_done _ _ _ p); [done|done|done| |].
    + intros ->. rewrite Hrt. cbn [plug]. by rewrite ptr_tnode.
    + intros Hk'. rewrite Hrt. destruct k as [|f k]; [done|]. apply (ptr_plug_cons f k).
Qed.

(** *** [rb_delete] *)

Lemma cut_code_ok h k c y x n :
  zst h k x -> npar h k x -> ctxok k n -> rbok (Node c Leaf y x) n \/ rbok (Node c x y Leaf) n ->
  returns (if c then Ok h else rb_delete_fixup T (ptr x) h) (fun h' => rep_tree h' (cut k c x)).
Proof.
  intros Z N Hk Hx. unfold cut. destruct c; [apply returns_ok; by apply zst_rep_tree in Z|].
  destruct n as [|m]; [by destruct Hx|]. unfold rb_delete_fixup.
  pose proof (proj1 (zst_rep_tree _ _ _) Z) as Zt. rewrite (rd_ok _ _ _ _ (z_ctx _ _ _ Zt)). cbn [res_bind left].
  apply (delete_loop_ok _ _ _ _ m); [done|done|done| |done|].
  - apply rbok_short. cbn [rbok] in Hx. naive_solver.
  - pose proof (zst_depth _ _ _ Z). unfold fuel_of. lia.
Qed.

(** A node with at most one child, on side [flip d]. *)
Lemma delete_one h k d c z x n :
  zst h k (tnode d c Leaf z x) -> ctxok k n -> rbok (tnode d c Leaf z x) n ->
  returns (rb_delete T z h) (fun h' => rep_tree h' (cut k c x)).
Proof.
  intros Z Hk Hx. pose proof (z_look _ _ _ _ _ _ _ Z) as Hz. unfold rb_delete.
  assert (Hz1 : rd left z h = Ok (match d with L => nil T | R => ptr x end)) by (rewrite (rd_ok _ _ _ _ Hz); by destruct d).
  assert (Hz2 : rd right z h = Ok (match d with L => ptr x | R => nil T end)) by (rewrite (rd_ok _ _ _ _ Hz); by destruct d).
  rewrite Hz1, Hz2. cbn [res_bind].
  assert (Hone : ((match d with L => nil T | R => ptr x end =? nil T) || (match d with L => ptr x | R => nil T end =? nil T)) = true).
  { destruct d; rewrite Z.eqb_refl; [done|by rewrite orb_true_r]. }
  rewrite Hone. cbn [res_bind]. rewrite Hz1. cbn [res_bind].
  assert (Hx1 : (if match d with L => nil T | R => ptr x end =? nil T then rd right z h
                 else Ok (match d with L => nil T | R => ptr x end)) = Ok (ptr x)).
  { destruct d; [by rewrite Z.eqb_refl|]. rewrite Hz2. by destruct (Z.eqb_spec (ptr x) (nil T)) as [->|]. }
  rewrite Hx1. cbn [res_bind].
  assert (z <> root T /\ z <> nil T) as [Hr Hn] by (pose proof (z_uniq _ _ _ Z) as U; split; sep U).
  rewrite (proj2 (Z.eqb_neq _ _) Hr), (proj2 (Z.eqb_neq _ _) Hn). cbn [negb andb assert res_bind].
  destruct (unlink_node_ok _ _ _ _ _ _ Z) as (h1 & E & Z1 & N1 & K1).
  apply bind_ok in E as (yp & -> & E). cbn [res_bind]. apply bind_ok in E as (h0 & -> & E). cbn [res_bind].
  apply bind_ok in E as (yp' & -> & E). cbn [res_bind]. rewrite E. cbn [res_bind].
  rewrite (rd_ok red h1 z _ (eq_trans K1 Hz)), red_mkd. cbn [res_bind]. rewrite Z.eqb_refl. cbn [res_bind].
  apply (cut_code_ok _ _ _ z _ n); [done..|]. destruct d; [by left|by right].
Qed.

Lemma occk_app x k1 k2 : occk x (k1 ++ k2) = (occk x k1 + occk x k2)%nat.
Proof. induction k1 as [|[[[d c] b] s] k IH]; cbn [app occk]; [done|]. rewrite IH. lia. Qed.

Lemma plug_Leaf k t : plug k t = Leaf -> k = [] /\ t = Leaf.
Proof.
  intros E. destruct k as [|f k]; [done|]. pose proof (plug_occ f k t) as Ho. exfalso.
  assert (Hz : occk (ptr (plug (f :: k) t)) (f :: k) = O); [|lia].
  pose proof (occ_plug (ptr (plug (f :: k) t)) (f :: k) t) as Hp. rewrite E in Hp at 2. cbn [occ] in Hp. lia.
Qed.

(** A node with two children: its successor is unlinked and takes its place. *)
Lemma delete_two h k c l z r k1 cy y x n :
  zst h (k1 ++ (R, c, z, l) :: k) (Node cy Leaf y x) -> l <> Leaf -> before k1 = [] -> r = plug k1 (Node cy Leaf y x) ->
  ctxok (k1 ++ (R, c, z, l) :: k) n -> rbok (Node cy Leaf y x) n ->
  returns (rb_delete T z h) (fun h' => rep_tree h' (cut (k1 ++ (R, c, y, l) :: k) cy x)).
Proof.
  intros Z Hl Hb Hr Hk Hx. pose proof (z_look _ _ L _ _ _ _ Z) as Hy. pose proof (z_uniq _ _ _ Z) as U.
  pose proof (zst_up _ _ _ _ _ _ _ (proj1 (zst_plug _ _ _ _) Z)) as Zz. cbn [tnode] in Zz. rewrite <- Hr in Zz.
  pose proof (z_look _ _ L _ _ _ _ Zz) as Hz. unfold rb_delete.
  rewrite (rd_ok _ _ _ _ Hz). cbn [res_bind left mkd]. rewrite (rd_ok _ _ _ _ Hz). cbn [res_bind right mkd].
  assert (Hrl : r <> Leaf) by (intros ->; symmetry in Hr; by apply plug_Leaf in Hr as [_ ?]).
  rewrite (ptr_nonnil _ _ _ (zst_down _ L _ _ _ _ _ Zz) Hl), (ptr_nonnil _ _ _ (zst_down _ R _ _ _ _ _ Zz) Hrl).
  cbn [orb]. rewrite (rb_tree_successor_ok _ _ _ _ _ _ Zz), Hr, elements_plug, Hb. cbn [app elements head from_option id res_bind].
  rewrite (rd_ok _ _ _ _ Hy). cbn [res_bind left mkd ptr]. rewrite Z.eqb_refl.
  rewrite (rd_ok _ _ _ _ Hy). cbn [res_bind right mkd].
  assert (y <> root T /\ y <> nil T) as [Hyr Hyn] by (split; sep U).
  rewrite (proj2 (Z.eqb_neq _ _) Hyr), (proj2 (Z.eqb_neq _ _) Hyn). cbn [negb andb assert res_bind].
  destruct (unlink_node_ok _ _ L _ _ _ Z) as (h1 & E & Z1 & N1 & K1).
  apply bind_ok in E as (yp & -> & E). cbn [res_bind]. apply bind_ok in E as (h0 & -> & E). cbn [res_bind].
  apply bind_ok in E as (yp' & -> & E). cbn [res_bind]. rewrite E. cbn [res_bind].
  rewrite (rd_ok red h1 y _ (eq_trans K1 Hy)), red_mkd. cbn [res_bind].
  assert (Hyz : y <> z).
  { intros ->. pose proof (U z) as Uz. rewrite occk_app in Uz. cbn [occk occ] in Uz. rewrite same_refl in Uz. lia. }
  rewrite (proj2 (Z.eqb_neq _ _) Hyz).
  apply zst_plug, zst_up in Z1. cbn [tnode] in Z1.
  eapply returns_bind; [apply (replace_ok _ _ _ _ _ _ y Z1 Hl)|].
  { rewrite K1, Hy. eauto. }
  { intros a. pose proof (U a) as Ua. rewrite occk_app in Ua. cbn [occk occ] in *. rewrite occ_plug. lia. }
  intros h2 (Z2 & P2 & Q2). apply (zst_down _ R), zst_plug in Z2.
  apply (cut_code_ok _ _ _ y _ n); [done| |by eapply ctxok_rename|by left].
  intros ->. destruct k1 as [|f k1].
  - by apply P2.
  - rewrite Q2; [|intros Hp; by apply plug_Leaf in Hp as [? _]]. by apply N1.
Qed.

Lemma rb_delete_correct h t z :
  rep_tree h t -> valid t -> z ∈ elements t ->
  returns (rb_delete T z h) (fun h' => rep_tree h' (fdel t z)).
Proof.
  intros H Hv Hz. unfold fdel. destruct (locate_is_Some z t [] Hz) as [[k t'] E]. rewrite E.
  apply locate_ok in E as (Ht & c & l & r & ->). cbn [plug] in Ht. subst t. apply zst_rep_tree in H.
  destruct l as [|cl ll al rl].
  { apply unplug_valid in Hv as (n & Hk & Hn & _). by apply (delete_one _ _ L _ _ _ n). }
  destruct r as [|cr lr ar rr].
  { apply unplug_valid in Hv as (n & Hk & Hn & _). by apply (delete_one _ _ R _ _ _ n). }
  destruct (leftmost cr lr ar rr []) as [[[k1 cy] y] x] eqn:Em.
  pose proof (leftmost_before _ _ _ _ _ _ _ _ _ Em) as Hb. apply leftmost_ok in Em. cbn [plug before] in Em, Hb.
  rewrite <- Em in H, Hv. apply (zst_down _ R), zst_plug in H.
  change (plug k (Node c (Node cl ll al rl) z (plug k1 (Node cy Leaf y x))))
    with (plug ((R, c, z, Node cl ll al rl) :: k) (plug k1 (Node cy Leaf y x))) in Hv.
  rewrite <- plug_app in Hv. apply unplug_valid in Hv as (n & Hk & Hn & _).
  by eapply delete_two.
Qed.

(** *** [check_tree] *)

Definition no_greater (x y : Z) : Prop := compare T x y <= 0 /\ 0 <= compare T y x.

Lemma check_child h d c a s k t (b : bool) :
  zst h ((d, c, a, s) :: k) t -> (t <> Leaf -> b = true) ->
  (if ptr t =? nil T then Ok tt
   else assert! b ;; let* p := rd parent (ptr t) h in assert (p =? a)) = Ok tt.
Proof.
  intros Z Hb. destruct t as [|c' l x r]; [cbn [ptr]; by rewrite Z.eqb_refl|].
  rewrite (ptr_nonnil _ _ _ Z) by done. rewrite Hb by done. cbn [assert res_bind].
  rewrite (z_parent _ _ _ Z) by done. cbn [res_bind top]. by rewrite Z.eqb_refl.
Qed.

Lemma ptr_elem t : t <> Leaf -> ptr t ∈ elements t.
Proof. intros Ht. apply occ_elements. by destruct (occ_ptr t). Qed.

Lemma check_tree_ok fuel : forall h k t n,
  zst h k t -> rbok t n -> StronglySorted no_greater (elements t) -> (height t < fuel)%nat ->
  check_tree fuel T (ptr t) h = Ok (Z.of_nat (S n)).
Proof.
  induction fuel as [|fuel IH]; intros h k t n Z Hn Hs Hf; [lia|]. cbn [check_tree].
  destruct t as [|c l a r].
  { cbn [rbok] in Hn. subst n. rewrite (z_red _ _ _ Z). cbn [ptr]. by rewrite Z.eqb_refl. }
  rewrite (ptr_nonnil _ _ _ Z) by done. cbn [ptr elements height] in *.
  apply StronglySorted_app in Hs as (Hla & Hsl & Hsr). inversion Hsr as [|? ? Hsr' Har]; subst.
  pose proof (z_look _ _ L _ _ _ _ Z) as Ha. pose proof (zst_down _ L _ _ _ _ _ Z) as Zl.
  pose proof (zst_down _ R _ _ _ _ _ Z) as Zr.
  rewrite (rd_ok _ _ _ _ Ha). cbn [res_bind left mkd].
  rewrite (check_child _ _ _ _ _ _ _ _ Zl).
  2:{ intros Hl. apply Z.leb_le. apply (Hla (ptr l) a); [by apply ptr_elem|left]. }
  cbn [res_bind]. rewrite (rd_ok _ _ _ _ Ha). cbn [res_bind right mkd].
  rewrite (check_child _ _ _ _ _ _ _ _ Zr).
  2:{ intros Hr. apply Z.leb_le. rewrite Forall_forall in Har. apply (Har (ptr r)). by apply ptr_elem. }
  cbn [res_bind]. rewrite (rd_ok _ _ _ _ Ha). cbn [res_bind red mkd]. destruct c; cbn [rbok] in Hn.
  - destruct Hn as (Hl & Hr & Cl & Cr). rewrite (z_red _ _ _ Zl), (z_red _ _ _ Zr), Cl, Cr. cbn [res_bind negb andb assert].
    rewrite (IH _ _ _ _ Zl Hl Hsl) by lia. cbn [res_bind]. rewrite (IH _ _ _ _ Zr Hr Hsr') by lia. cbn [res_bind].
    by rewrite Z.eqb_refl.
  - destruct n as [|m]; [done|]. destruct Hn as [Hl Hr]. cbn [res_bind].
    rewrite (IH _ _ _ _ Zl Hl Hsl) by lia. cbn [res_bind]. rewrite (IH _ _ _ _ Zr Hr Hsr') by lia. cbn [res_bind].
    rewrite Z.eqb_refl. cbn [assert res_bind]. f_equal. lia.
Qed.

(** *** Neighbours *)

Lemma nodup_split (a : Z) l1 l2 m1 m2 : NoDup (l1 ++ a :: l2) -> l1 ++ a :: l2 = m1 ++ a :: m2 -> l1 = m1 /\ l2 = m2.
Proof.
  revert m1. induction l1 as [|x l1 IH]; intros [|y m1] Hn E; cbn [app] in *; simplify_eq; [done| | |].
  - apply NoDup_cons in Hn as [Hn _]. exfalso. apply Hn. set_solver.
  - apply NoDup_cons in Hn as [Hn _]. exfalso. apply Hn. set_solver.
  - apply NoDup_cons in Hn as [_ Hn]. by destruct (IH m1 Hn) as [-> ->].
Qed.

Lemma or_null_ok h t x : rep_tree h t -> (forall y, x = Some y -> y ∈ elements t) ->
  or_null T (from_option id (nil T) x) = x.
Proof.
  intros Z Hx. unfold or_null. destruct x as [y|]; cbn [from_option id]; [|by rewrite Z.eqb_refl].
  specialize (Hx y eq_refl). rewrite occ_elements in Hx.
  destruct (Z.eqb_spec y (nil T)) as [->|]; [|done]. pose proof (z_uniq _ _ _ Z (nil T)) as U.
  rewrite same_refl in U. lia.
Qed.

Lemma neighbours_ok h t l1 a l2 :
  rep_tree h t -> elements t = l1 ++ a :: l2 ->
  rb_node_next T a h = Ok (head l2) /\ rb_node_prev T a h = Ok (last l1).
Proof.
  intros Z E. assert (Hn : NoDup (elements t)).
  { apply occ_nodup. intros x. pose proof (z_uniq _ _ _ Z x). lia. }
  destruct (locate_is_Some a t []) as [[k t'] El]; [rewrite E; set_solver|].
  apply locate_ok in El as (Ht & c & l & r & ->). cbn [plug] in Ht.
  pose proof (elements_plug k (Node c l a r)) as Es. rewrite Ht in Es. cbn [elements] in Es.
  rewrite <- app_assoc in Es. cbn [app] in Es. rewrite app_assoc in Es.
  assert (Hsplit := Es). rewrite E in Hsplit, Hn. apply nodup_split in Hsplit as [E1 E2]; [|done].
  pose proof Z as Zk. rewrite <- Ht in Zk. apply zst_rep_tree in Zk.
  unfold rb_node_next, rb_node_prev.
  rewrite (rb_tree_successor_ok _ _ _ _ _ _ Zk), (rb_tree_predecessor_ok _ _ _ _ _ _ Zk), <- E1, <- E2.
  cbn [res_bind]. split; f_equal; apply (or_null_ok h t); try done; intros y Hy; rewrite E.
  - destruct l2; [done|]. injection Hy as ->. set_solver.
  - apply last_Some_elem_of in Hy. set_solver.
Qed.

End Rep.

(** ** Properties *)

(** The comparison of a tree follows a key. *)
Definition keyed (T : rb_tree) (key : Z -> Z) : Prop :=
  forall x y, 0 < compare T x y <-> key y < key x.

(** C8: [rb_insert] terminates without a failed assertion on a red-black tree
    in memory and leaves a red-black tree that has the new node after the
    nodes whose keys are not greater. *)
Theorem rb_insert_spec T key h t a l1 l2 :
  rep_tree T h t -> valid t -> fresh_in T a h t -> keyed T key ->
  elements t = l1 ++ l2 -> Forall (fun x => key x <= key a) l1 -> Forall (fun x => key a < key x) l2 ->
  returns (rb_insert T a h) (fun h' => exists t',
    rep_tree T h' t' /\ valid t' /\ elements t' = l1 ++ a :: l2).
Proof.
  intros H Hv Hf Hk E H1 H2. eapply returns_mono; [by apply rb_insert_correct|]. intros h' Z'.
  exists (fins (compare T) t a). split_and!; [done|by apply fins_valid|by eapply fins_elements].
Qed.

(** C7: [rb_delete] terminates without a failed assertion on a red-black tree
    in memory and leaves a red-black tree that has all nodes but the one
    deleted, in the same order. *)
Theorem rb_delete_spec T h t z :
  rep_tree T h t -> valid t -> z ∈ elements t ->
  returns (rb_delete T z h) (fun h' => exists t',
    rep_tree T h' t' /\ valid t' /\ elements t' = filter (fun x => x <> z) (elements t)).
Proof.
  intros H Hv Hz. eapply returns_mono; [by apply rb_delete_correct|]. intros h' Z'.
  exists (fdel t z). split_and!; [done|by apply fdel_valid|]. apply fdel_elements; [|done].
  apply occ_nodup. intros x. pose proof (z_uniq _ _ _ _ H x). lia.
Qed.

(** [rb_node_next] and [rb_node_prev] return the neighbours of a node in
    the order of the tree, and a null pointer at its ends. *)
Theorem rb_neighbours_spec T h t l1 a l2 :
  rep_tree T h t -> elements t = l1 ++ a :: l2 ->
  rb_node_next T a h = Ok (head l2) /\ rb_node_prev T a h = Ok (last l1).
Proof. apply neighbours_ok. Qed.

(** [rb_search] finds a node that compares equal to the key exactly when
    the tree has one, after at most [2 * log2 (n + 1)] steps down a tree of
    [n] nodes. *)
Theorem rb_search_spec T h t f :
  rep_tree T h t -> valid t -> ordered f (elements t) ->
  rb_search T f h = search_loop (S (2 * Nat.log2 (S (length (elements t))))) f T (ptr T t) h /\
  returns (rb_search T f h) (fun r =>
    match r with
    | Some a => a ∈ elements t /\ f a = 0
    | None => Forall (fun x => f x <> 0) (elements t)
    end).
Proof.
  intros H Hv Ho. assert (E : rb_search T f h = Ok (search f t)).
  { unfold rb_search. rewrite (rd_ok _ _ _ _ (z_ctx _ _ _ _ H)). cbn [res_bind left].
    apply (search_loop_ok _ _ _ _ _ _ H). pose proof (zst_depth _ _ _ _ H). unfold fuel_of. lia. }
  rewrite E. split; [|apply returns_ok; by apply search_ok].
  symmetry. apply (search_loop_ok _ _ _ _ _ _ H). apply valid_height in Hv. lia.
Qed.

(** [check_tree] accepts every red-black tree that is in order and returns
    its black height; a tree of [n] nodes has black height at most
    [log2 (n + 1)]. *)
Theorem check_tree_spec T h t :
  rep_tree T h t -> valid t -> StronglySorted (no_greater T) (elements t) ->
  returns (check_tree (fuel_of h) T (ptr T t) h) (fun hb =>
    1 <= hb <= 1 + Z.of_nat (Nat.log2 (S (length (elements t))))).
Proof.
  intros H [_ [n Hn]] Hs. rewrite (check_tree_ok _ _ _ _ _ n H Hn Hs).
  - apply returns_ok. apply rbok_size, Nat.log2_le_mono in Hn. rewrite Nat.log2_pow2 in Hn; lia.
  - pose proof (zst_depth _ _ _ _ H). unfold fuel_of. lia.
Qed.

(** [rb_tree_create] makes an empty red-black tree from its allocations; when
    one of them fails it returns a null pointer and gives back what it got. *)
Theorem rb_tree_create_spec cmp a_tree a_nil a_root h :
  (forall a, a_nil = Some a -> h !! a = None) -> a_nil <> a_root ->
  match rb_tree_create cmp a_tree a_nil a_root h with
  | (None, h') => h' = h /\ (a_tree = None \/ a_nil = None \/ a_root = None)
  | (Some T, h') => compare T = cmp /\ rep_tree T h' Leaf /\ valid Leaf
  end.
Proof.
  intros Hn Hne. unfold rb_tree_create. destruct a_tree as [x|]; [|by auto].
  destruct a_nil as [nl|]; [|by auto]. destruct a_root as [rt|].
  - split; [done|]. split; [|split; [done|by exists O]]. split; cbn [nil root repc rep ptr].
    + by simpl_map.
    + done.
    + eexists. rewrite lookup_insert_ne by congruence. by simpl_map.
    + intros y. cbn [occk occ]. unfold same. destruct (Z.eqb_spec y nl), (Z.eqb_spec y rt); subst; [congruence|lia..].
  - split; [|by auto]. rewrite delete_insert_id by (by apply Hn). done.
Qed.

(** ** A tree in memory, for the witnesses

    The key of a node is its address; the node at 25 is not in the tree. *)
Definition demo_T : rb_tree := mk_tree Z.sub 1 2.
Definition demo_tree : tree := Node false (Node true Leaf 10 Leaf) 20 (Node true Leaf 30 Leaf).
Definition demo_heap : heap :=
  list_to_map [(1, mk_node false 1 1 1); (2, mk_node false 1 20 1); (20, mk_node false 2 10 30);
               (10, mk_node true 20 1 1); (30, mk_node true 20 1 1); (25, mk_node false 0 0 0)].

Lemma demo_rep : rep_tree demo_T demo_heap demo_tree.
Proof.
  split.
  - reflexivity.
  - repeat split.
  - by eexists.
  - intros x. cbn [demo_T demo_tree nil root occk occ]. unfold same.
    repeat case Z.eqb_spec; intros; lia.
Qed.

Lemma demo_valid : valid demo_tree.
Proof. split; [done|]. exists 1%nat. repeat split. Qed.

Lemma rb_insert_spec_witness :
  returns (rb_insert demo_T 25 demo_heap) (fun h' => exists t',
    rep_tree demo_T h' t' /\ valid t' /\ elements t' = [10; 20; 25; 30]).
Proof.
  apply (rb_insert_spec demo_T id demo_heap demo_tree 25 [10; 20] [30]).
  - apply demo_rep.
  - apply demo_valid.
  - split; [by eexists|]. cbn. set_solver by lia.
  - intros x y. cbn. lia.
  - reflexivity.
  - repeat constructor; cbn; lia.
  - repeat constructor; cbn; lia.
Defined.

Lemma rb_delete_spec_witness :
  returns (rb_delete demo_T 20 demo_heap) (fun h' => exists t',
    rep_tree demo_T h' t' /\ valid t' /\ elements t' = filter (fun x => x <> 20) [10; 20; 30]).
Proof.
  apply (rb_delete_spec demo_T demo_heap demo_tree 20).
  - apply demo_rep.
  - apply demo_valid.
  - cbn. set_solver.
Defined.

Lemma rb_neighbours_spec_witness :
  rb_node_next demo_T 20 demo_heap = Ok (Some 30) /\ rb_node_prev demo_T 20 demo_heap = Ok (Some 10).
Proof. apply (rb_neighbours_spec demo_T demo_heap demo_tree [10] 20 [30]); [apply demo_rep|reflexivity]. Defined.

Lemma rb_search_spec_witness :
  rb_search demo_T (fun x => x - 30) demo_heap =
    search_loop (S (2 * Nat.log2 4)) (fun x => x - 30) demo_T 20 demo_heap /\
  returns (rb_search demo_T (fun x => x - 30) demo_heap) (fun r =>
    match r with
    | Some a => a ∈ [10; 20; 30] /\ a - 30 = 0
    | None => Forall (fun x => x - 30 <> 0) [10; 20; 30]
    end).
Proof.
  apply (rb_search_spec demo_T demo_heap demo_tree (fun x => x - 30)); [apply demo_rep|apply demo_valid|].
  intros l1 a l2 E. cbn in E.
  destruct l1 as [|? [|? [|? [|]]]]; cbn in E; simplify_eq; rewrite ?Forall_cons, ?Forall_nil; lia.
Defined.

Lemma check_tree_spec_witness :
  returns (check_tree (fuel_of demo_heap) demo_T 20 demo_heap) (fun hb => 1 <= hb <= 1 + Z.of_nat (Nat.log2 4)).
Proof.
  apply (check_tree_spec demo_T demo_heap demo_tree); [apply demo_rep|apply demo_valid|].
  cbn. repeat constructor; unfold no_greater; cbn; lia.
Defined.

Lemma rb_tree_create_spec_witness :
  match rb_tree_create Z.sub (Some 5) (Some 1) (Some 2) ∅ with
  | (None, h') => h' = ∅ /\ (Some 5 = None \/ Some 1 = None \/ Some 2 = None)
  | (Some T, h') => compare T = Z.sub /\ rep_tree T h' Leaf /\ valid Leaf
  end.
Proof. apply (rb_tree_create_spec Z.sub (Some 5) (Some 1) (Some 2) ∅); [reflexivity|discriminate]. Defined.

(** The code runs: twelve insertions and three deletions. *)
Example rb_tree_runs :
  let h0 := (rb_tree_create Z.sub (Some 5) (Some 1) (Some 2) ∅).2 in
  let add h a := let* h := h in rb_insert demo_T a (<[a := mk_node false 0 0 0]> h) in
  let del h a := let* h := h in rb_delete demo_T a h in
  let h := foldl add (Ok h0) [50; 40; 30; 20; 10; 15; 25; 35; 45; 12; 14; 16] in
  let h := foldl del h [30; 50; 12] in
  (let* h := h in let* r := rd left (root demo_T) h in check_tree 20 demo_T r h) = Ok 3.
Proof. vm_compute. reflexivity. Qed.
