(* ===== verification/Vma.v ===== *)
(** * Vma: virtual memory areas (mm/vmm.c, mm/vmm.h)

    An address space is the sorted list of its areas; each area is in one list
    only, so the list holds the structures together with their addresses.  The
    red-black tree over the same areas and the one-entry cache are derived
    structures.  [amap] is the abstract view of an address space: the flags of
    every mapped address. *)
From Stdlib Require Import Sorted.
From S2P Require Import Prelude KState RbTree.

(** ** Constants *)

(** arch/arm/mach-goldfish/memlayout.h *)
Definition USERTOP : Z := 0x70000000.
Definition USERBASE : Z := 0x30000000.
Definition USER_ACCESS (start e : Z) : bool := (USERBASE <=? start) && (start <? e) && (e <=? USERTOP).

Definition VM_READ : Z := 0x1.
Definition VM_WRITE : Z := 0x2.
Definition VM_EXEC : Z := 0x4.
Definition VM_STACK : Z := 0x8.
Definition VM_SHARE : Z := 0x10.
Definition VM_IO : Z := 0x4000.
Definition RB_MIN_MAP_COUNT : Z := 32.

Definition has (flags bit : Z) : bool := negb (Z.land flags bit =? 0).

(** ** Data *)

Record vma_struct := mk_vma {
  vm_start : Z;
  vm_end : Z;
  vm_flags : Z;
  shmem : option Z;
  shmem_off : Z
}.

Record mm_struct := mk_mm {
  mmap_list : list (Z * vma_struct);
  mmap_tree : option tree;
  mmap_cache : option Z;
  map_count : Z;
  mm_count : Z
}.

Definition set_cache (c : option Z) (m : mm_struct) : mm_struct :=
  mk_mm (mmap_list m) (mmap_tree m) c (map_count m) (mm_count m).
Definition set_list (l : list (Z * vma_struct)) (m : mm_struct) : mm_struct :=
  mk_mm l (mmap_tree m) (mmap_cache m) (map_count m) (mm_count m).

(** [mm_create] (the fields of this model). *)
Definition mm_create : mm_struct := mk_mm [] None None 0 0.

(** [vma_create]; [a] is the result of [kmalloc]. *)
Definition vma_create (a : option Z) (start e flags : Z) : option (Z * vma_struct) :=
  match a with
  | Some a => Some (a, mk_vma start e flags None 0)
  | None => None
  end.

(** Access to an area through its address. *)
Fixpoint vget (a : Z) (l : list (Z * vma_struct)) : option vma_struct :=
  match l with
  | [] => None
  | (b, v) :: l => if decide (b = a) then Some v else vget a l
  end.

Fixpoint vput (a : Z) (v : vma_struct) (l : list (Z * vma_struct)) : list (Z * vma_struct) :=
  match l with
  | [] => []
  | (b, w) :: l => if decide (b = a) then (b, v) :: l else (b, w) :: vput a v l
  end.

Definition vma_at (a : Z) (m : mm_struct) : res vma_struct :=
  match vget a (mmap_list m) with Some v => Ok v | None => Panic end.

(** The key of the tree: [vma_compare] orders by [vm_start]. *)
Definition key_of (l : list (Z * vma_struct)) (a : Z) : Z := from_option vm_start 0 (vget a l).

Definition vma_compare (l : list (Z * vma_struct)) (node1 node2 : Z) : Z :=
  let start1 := key_of l node1 in
  let start2 := key_of l node2 in
  if start1 <? start2 then -1 else if start2 <? start1 then 1 else 0.

Lemma vma_compare_key l x y : 0 < vma_compare l x y <-> key_of l y < key_of l x.
Proof.
  unfold vma_compare. destruct (Z.ltb_spec (key_of l x) (key_of l y)); [lia|].
  destruct (Z.ltb_spec (key_of l y) (key_of l x)); lia.
Qed.

(** ** Search *)

(** [find_vma_rb]: [best] is the variable [vma]. *)
Fixpoint find_vma_rb (l : list (Z * vma_struct)) (t : tree) (addr : Z) (best : option Z) : res (option Z) :=
  match t with
  | Leaf => Ok best
  | Node _ tl a tr =>
      match vget a l with
      | None => Panic
      | Some tmp =>
          if addr <? vm_end tmp then
            if vm_start tmp <=? addr then Ok (Some a) else find_vma_rb l tl addr (Some a)
          else find_vma_rb l tr addr best
      end
  end.

(** The list walk of [find_vma]. *)
Fixpoint find_vma_list (l : list (Z * vma_struct)) (addr : Z) : option Z :=
  match l with
  | [] => None
  | (a, v) :: l => if addr <? vm_end v then Some a else find_vma_list l addr
  end.

Definition find_vma (m : mm_struct) (addr : Z) : res (option Z * mm_struct) :=
  let* hit :=
    match mmap_cache m with
    | Some a => let* v := vma_at a m in Ok ((vm_start v <=? addr) && (addr <? vm_end v))
    | None => Ok false
    end in
  let* vma :=
    if (hit : bool) then Ok (mmap_cache m) else
    match mmap_tree m with
    | Some t => find_vma_rb (mmap_list m) t addr None
    | None => Ok (find_vma_list (mmap_list m) addr)
    end in
  match vma with
  | Some a => Ok (vma, set_cache (Some a) m)
  | None => Ok (None, m)
  end.

Definition find_vma_intersection (m : mm_struct) (start e : Z) : res (option Z * mm_struct) :=
  let* (vma, m) := find_vma m start in
  match vma with
  | Some a => let* v := vma_at a m in Ok (if e <=? vm_start v then None else Some a, m)
  | None => Ok (None, m)
  end.

(** ** Insertion and removal *)

Definition check_vma_overlap (prev next : vma_struct) : res unit :=
  assert! vm_start prev <? vm_end prev ;;
  assert! vm_end prev <=? vm_start next ;;
  assert (vm_start next <? vm_end next).

(** The list walk of [insert_vma_struct]: the last area that does not start
    after [start] ([None] is the list head). *)
Fixpoint le_prev_list (start : Z) (l : list (Z * vma_struct)) (le_prev : option Z) : option Z :=
  match l with
  | [] => le_prev
  | (a, v) :: l => if start <? vm_start v then le_prev else le_prev_list start l (Some a)
  end.

(** [rb_node_prev] in terms of the inorder sequence. *)
Fixpoint prev_in (a : Z) (l : list Z) (p : option Z) : option Z :=
  match l with
  | [] => None
  | x :: l => if decide (x = a) then p else prev_in a l (Some x)
  end.

(** [list_next(le_prev)] and [list_add_after(le_prev, ..)]. *)
Fixpoint next_of (p : Z) (l : list (Z * vma_struct)) : option vma_struct :=
  match l with
  | [] => None
  | (a, _) :: l => if decide (a = p) then snd <$> hd_error l else next_of p l
  end.
Fixpoint add_after (p : Z) (x : Z * vma_struct) (l : list (Z * vma_struct)) : list (Z * vma_struct) :=
  match l with
  | [] => []
  | y :: l => if decide (y.1 = p) then y :: x :: l else y :: add_after p x l
  end.

(** ** What the page tables promise

    An address space is used with the page tables of its process.  [pt_entry]
    is what page [v] of the address space shows: the page frame and whether
    user programs may read and write it.  The second class is about the tables
    of a new process together with those of its parent, [pt_from]. *)

Definition entry : Type := Z * bool * bool.

Class PageTables := {
  PG : Type;
  pt_unmap_range : Z -> Z -> PG -> res PG;
  pt_exit_range : Z -> Z -> PG -> res PG;
  pt_inv : PG -> Prop;
  pt_entry : PG -> Z -> option entry;
  pt_unmap_ok : forall start e p, pt_inv p -> start mod PGSIZE = 0 -> e mod PGSIZE = 0 -> USER_ACCESS start e = true ->
    returns (pt_unmap_range start e p) (fun p' => pt_inv p' /\
      forall v, pt_entry p' v = if decide (start <= v * PGSIZE < e) then None else pt_entry p v);
  pt_exit_ok : forall start e p, pt_inv p -> start mod PGSIZE = 0 -> e mod PGSIZE = 0 -> USER_ACCESS start e = true ->
    (forall v, pt_entry p v = None) ->
    returns (pt_exit_range start e p) (fun p' => pt_inv p' /\ forall v, pt_entry p' v = None)
}.

(** What a copied entry shows, in both address spaces: a private page may not
    be written any more. *)
Definition cow (share : bool) (x : entry) : entry := (x.1.1, x.1.2, share && x.2).

Class CopyTables (PT : PageTables) := {
  pt_copy_range : Z -> Z -> bool -> PG -> res (Z * PG);
  pt_from : PG -> Z -> option entry;
  pt_linked : PG -> Prop;
  pt_linked_inv : forall p, pt_linked p -> pt_inv p;
  pt_copy_ok : forall start e share p, pt_linked p -> start mod PGSIZE = 0 -> e mod PGSIZE = 0 -> USER_ACCESS start e = true ->
    (forall v, start <= v * PGSIZE < e -> pt_entry p v = None) ->
    returns (pt_copy_range start e share p) (fun '(r, p') => pt_linked p' /\ exists c,
      ((r = 0 /\ c = e) \/ (r = - E_NO_MEM /\ start <= c < e)) /\ forall v,
        pt_entry p' v = (if decide (start <= v * PGSIZE < c) then cow share <$> pt_from p v else pt_entry p v) /\
        pt_from p' v = (if decide (start <= v * PGSIZE < c) then cow share <$> pt_from p v else pt_from p v))
}.

Section Vmm.
Context `{RB : RbTree}.
(** Whether the allocations of [rb_tree_create] succeed. *)
Context (rb_alloc : mm_struct -> bool).

(** [insert_vma_rb] over the list, as done when the tree is first built. *)
Fixpoint build_tree (cmp : Z -> Z -> Z) (l : list Z) (t : tree) : tree :=
  match l with
  | [] => t
  | a :: l => build_tree cmp l (tree_insert cmp t a)
  end.

Definition insert_vma_struct (m : mm_struct) (x : Z * vma_struct) : res mm_struct :=
  let '(a, vma) := x in
  assert! vm_start vma <? vm_end vma ;;
  let l := mmap_list m in
  let cmp := vma_compare (x :: l) in
  let '(tree', le_prev) :=
    match mmap_tree m with
    | Some t =>
        let t := tree_insert cmp t a in (Some t, prev_in a (elements t) None)
    | None => (None, le_prev_list (vm_start vma) l None)
    end in
  let le_next := match le_prev with Some p => next_of p l | None => snd <$> hd_error l end in
  let* _ :=
    match le_prev with
    | Some p => let* prev := vma_at p m in check_vma_overlap prev vma
    | None => Ok tt
    end in
  let* _ := match le_next with Some next => check_vma_overlap vma next | None => Ok tt end in
  let l := match le_prev with Some p => add_after p x l | None => x :: l end in
  let m := mk_mm l tree' (mmap_cache m) (map_count m + 1) (mm_count m) in
  if bool_decide (mmap_tree m = None) && (RB_MIN_MAP_COUNT <=? map_count m) && rb_alloc m then
    Ok (mk_mm l (Some (build_tree (vma_compare l) l.*1 Leaf)) (mmap_cache m) (map_count m) (mm_count m))
  else Ok m.

Definition remove_vma_struct (m : mm_struct) (a : Z) : res mm_struct :=
  let* _ := vma_at a m in                                  (* vma->vm_mm == mm *)
  Ok (mk_mm (filter (fun x => x.1 <> a) (mmap_list m))
            ((fun t => tree_delete t a) <$> mmap_tree m)
            (if decide (mmap_cache m = Some a) then None else mmap_cache m)
            (map_count m - 1) (mm_count m)).

(** ** Shared memory references and page tables *)

(** [vm] is an address space, the reference counts of the shared memory
    objects and the page tables. *)
Context `{PT : PageTables}.

Record vm := mk_vm { mm : mm_struct; shrefs : gmap Z Z; pg : PG }.
Definition set_mm (m : mm_struct) (s : vm) : vm := mk_vm m (shrefs s) (pg s).

(** [shmem_ref_inc] and [shmem_ref_dec]; a null pointer is a fault. *)
Definition shmem_ref_add (sh : option Z) (d : Z) (s : vm) : res (Z * vm) :=
  match sh with
  | None => Panic
  | Some a => let* n := fetch (shrefs s) a in
              Ok (s32 (n + d), mk_vm (mm s) (<[a := s32 (n + d)]> (shrefs s)) (pg s))
  end.

Definition vma_destroy (v : vma_struct) (s : vm) : res vm :=
  if has (vm_flags v) VM_SHARE then
    let* (n, s) := shmem_ref_add (shmem v) (-1) s in
    match shmem v with
    | Some a => Ok (if n =? 0 then mk_vm (mm s) (delete a (shrefs s)) (pg s) else s)
    | None => Panic
    end
  else Ok s.

Fixpoint mm_destroy_loop (l : list (Z * vma_struct)) (s : vm) : res vm :=
  match l with
  | [] => Ok s
  | (_, v) :: l => let* s := vma_destroy v (set_mm (set_list l (mm s)) s) in mm_destroy_loop l s
  end.

Definition mm_destroy (s : vm) : res vm :=
  assert! mm_count (mm s) =? 0 ;;
  mm_destroy_loop (mmap_list (mm s))
    (set_mm (mk_mm (mmap_list (mm s)) None (mmap_cache (mm s)) (map_count (mm s)) (mm_count (mm s))) s).

(** ** Mapping *)

(** [a] is the address [kmalloc] returns for a new area.  The result is the
    return value, [*vma_store] and the new state. *)
Definition mm_map (a : option Z) (addr len flags : Z) (s : vm) : res (Z * option Z * vm) :=
  let start := ROUNDDOWN addr PGSIZE in
  let e := ROUNDUP (u32 (addr + len)) PGSIZE in
  if negb (USER_ACCESS start e) then Ok (- E_INVAL, None, s) else
  let* (vma, m) := find_vma (mm s) start in
  let* overlap := match vma with
                  | Some b => let* v := vma_at b m in Ok (vm_start v <? e)
                  | None => Ok false
                  end in
  if (overlap : bool) then Ok (- E_INVAL, None, set_mm m s) else
  match vma_create a start e (Z.ldiff flags VM_SHARE) with
  | None => Ok (- E_NO_MEM, None, set_mm m s)
  | Some x => let* m := insert_vma_struct m x in Ok (0, Some x.1, set_mm m s)
  end.

Definition mm_map_shmem (a : option Z) (addr flags : Z) (sh : option Z) (len : Z) (s : vm) :
    res (Z * option Z * vm) :=
  match sh with
  | None => Ok (- E_INVAL, None, s)
  | Some _ =>
      if negb (addr mod PGSIZE =? 0) then Ok (- E_INVAL, None, s) else
      let* (_, s) := shmem_ref_add sh 1 s in
      let* (r, s) := mm_map a addr len flags s in
      let '(ret, vma) := r in
      if negb (ret =? 0) then let* (_, s) := shmem_ref_add sh (-1) s in Ok (ret, None, s) else
      match vma with
      | None => Panic
      | Some b =>
          let* v := vma_at b (mm s) in
          let v := mk_vma (vm_start v) (vm_end v) (Z.lor (vm_flags v) VM_SHARE) sh 0 in
          Ok (0, Some b, set_mm (set_list (vput b v (mmap_list (mm s))) (mm s)) s)
      end
  end.

Definition vma_resize (v : vma_struct) (start e : Z) : res vma_struct :=
  assert! (start mod PGSIZE =? 0) && (e mod PGSIZE =? 0) ;;
  assert! (vm_start v <=? start) && (start <? e) && (e <=? vm_end v) ;;
  Ok (mk_vma start e (vm_flags v) (shmem v)
        (if has (vm_flags v) VM_SHARE then u32 (shmem_off v + (start - vm_start v)) else shmem_off v)).

(** The first loop of [mm_unmap], over the list from the first area on. *)
Fixpoint unmap_collect (e : Z) (l : list (Z * vma_struct)) (m : mm_struct) (free : list (Z * vma_struct)) :
    res (mm_struct * list (Z * vma_struct)) :=
  match l with
  | [] => Ok (m, free)
  | (a, v) :: l =>
      if vm_start v <? e then
        let* m := remove_vma_struct m a in unmap_collect e l m ((a, v) :: free)
      else Ok (m, free)
  end.

(** The second loop, over [free_list]. *)
Fixpoint unmap_release (start e : Z) (free : list (Z * vma_struct)) (s : vm) : res vm :=
  match free with
  | [] => Ok s
  | (a, v) :: free =>
      let* (r, s) :=
        if vm_start v <? start then
          let* v' := vma_resize v (vm_start v) start in
          let* m := insert_vma_struct (mm s) (a, v') in
          Ok (start, vm_end v, set_mm m s)
        else if e <? vm_end v then
          let* v' := vma_resize v e (vm_end v) in
          let* m := insert_vma_struct (mm s) (a, v') in
          Ok (vm_start v, e, set_mm m s)
        else
          let* s := vma_destroy v s in Ok (vm_start v, vm_end v, s) in
      let '(un_start, un_end) := r in
      let* p := pt_unmap_range un_start un_end (pg s) in
      unmap_release start e free (mk_vm (mm s) (shrefs s) p)
  end.

(** The part of a list from an address on. *)
Fixpoint from (a : Z) (l : list (Z * vma_struct)) : list (Z * vma_struct) :=
  match l with
  | [] => []
  | x :: l' => if decide (x.1 = a) then l else from a l'
  end.

Definition mm_unmap (a : option Z) (addr len : Z) (s : vm) : res (Z * vm) :=
  let start := ROUNDDOWN addr PGSIZE in
  let e := ROUNDUP (u32 (addr + len)) PGSIZE in
  if negb (USER_ACCESS start e) then Ok (- E_INVAL, s) else
  let* (vma, m) := find_vma (mm s) start in
  let s := set_mm m s in
  match vma with
  | None => Ok (0, s)
  | Some b =>
      let* v := vma_at b m in
      if e <=? vm_start v then Ok (0, s) else
      if (vm_start v <? start) && (e <? vm_end v) then
        match vma_create a (vm_start v) start (vm_flags v) with
        | None => Ok (- E_NO_MEM, s)
        | Some nvma =>
            let* v' := vma_resize v e (vm_end v) in
            let m := set_list (vput b v' (mmap_list m)) m in
            let* m := insert_vma_struct m nvma in
            let* p := pt_unmap_range start e (pg s) in
            Ok (0, mk_vm m (shrefs s) p)
        end
      else
        let* (m, free) := unmap_collect e (from b (mmap_list m)) m [] in
        let* s := unmap_release start e free (set_mm m s) in
        Ok (0, s)
  end.

(** [exit_mmap]: both loops visit the whole list. *)
Fixpoint each_area (f : Z -> Z -> PG -> res PG) (l : list (Z * vma_struct)) (p : PG) : res PG :=
  match l with
  | [] => Ok p
  | (_, v) :: l => let* p := f (vm_start v) (vm_end v) p in each_area f l p
  end.

Definition exit_mmap (s : vm) : res vm :=
  assert! mm_count (mm s) =? 0 ;;
  let* p := each_area pt_unmap_range (mmap_list (mm s)) (pg s) in
  let* p := each_area pt_exit_range (mmap_list (mm s)) p in
  Ok (mk_vm (mm s) (shrefs s) p).

Definition mm_brk (a1 a2 : option Z) (addr len : Z) (s : vm) : res (Z * vm) :=
  let start := ROUNDDOWN addr PGSIZE in
  let e := ROUNDUP (u32 (addr + len)) PGSIZE in
  if negb (USER_ACCESS start e) then Ok (- E_INVAL, s) else
  let* (ret, s) := mm_unmap a1 start (e - start) s in
  if negb (ret =? 0) then Ok (ret, s) else
  let flags := Z.lor VM_READ VM_WRITE in
  let* (vma, m) := find_vma (mm s) (start - 1) in
  let* ext :=
    match vma with
    | Some b => let* v := vma_at b m in
                Ok (if (vm_end v =? start) && (vm_flags v =? flags) then Some (b, v) else None)
    | None => Ok None
    end in
  match ext with
  | Some (b, v) =>
      let v' := mk_vma (vm_start v) e (vm_flags v) (shmem v) (shmem_off v) in
      Ok (0, set_mm (set_list (vput b v' (mmap_list m)) m) s)
  | None =>
      match vma_create a2 start e flags with
      | None => Ok (- E_NO_MEM, set_mm m s)
      | Some x => let* m := insert_vma_struct m x in Ok (0, set_mm m s)
      end
  end.

(** [dup_mmap]: [allocs] are the results of [kmalloc] for the new areas; the
    areas of [from] are visited from the last to the first. *)
Context {CT : CopyTables PT}.

Fixpoint dup_loop (allocs : list (option Z)) (l : list (Z * vma_struct)) (s : vm) : res (Z * vm) :=
  match l with
  | [] => Ok (0, s)
  | (_, v) :: l =>
      match vma_create (default None (hd_error allocs)) (vm_start v) (vm_end v) (vm_flags v) with
      | None => Ok (- E_NO_MEM, s)
      | Some (a, nv) =>
          let* (nv, s) :=
            if has (vm_flags v) VM_SHARE then
              let* (_, s) := shmem_ref_add (shmem v) 1 s in
              Ok (mk_vma (vm_start nv) (vm_end nv) (vm_flags nv) (shmem v) (shmem_off v), s)
            else Ok (nv, s) in
          let* m := insert_vma_struct (mm s) (a, nv) in
          let* (ret, p) := pt_copy_range (vm_start v) (vm_end v) (has (vm_flags v) VM_SHARE) (pg s) in
          let s := mk_vm m (shrefs s) p in
          if negb (ret =? 0) then Ok (- E_NO_MEM, s) else dup_loop (tail allocs) l s
      end
  end.

Definition dup_mmap (allocs : list (option Z)) (from : mm_struct) (s : vm) : res (Z * vm) :=
  dup_loop allocs (rev (mmap_list from)) s.

End Vmm.

(** ** Queries *)

(** The loop of [get_unmapped_area], over the areas from the last to the first. *)
Fixpoint gua_loop (len : Z) (l : list (Z * vma_struct)) (start : Z) : Z :=
  match l with
  | [] => if USERBASE <=? start then start else 0
  | (_, v) :: l =>
      if vm_end v <=? start then start else
      if vm_start v <? u32 (start + len) then
        if vm_start v <=? len then 0 else gua_loop len l (vm_start v - len)
      else gua_loop len l start
  end.

Definition get_unmapped_area (m : mm_struct) (len : Z) : Z :=
  if (len =? 0) || (USERTOP <? len) then 0 else gua_loop len (rev (mmap_list m)) (USERTOP - len).

(** The loop of [user_mem_check]. *)
Fixpoint umc_loop (fuel : nat) (m : mm_struct) (start e : Z) (write : bool) : res (bool * mm_struct) :=
  match fuel with
  | O => Panic
  | S fuel =>
      if start <? e then
        let* (vma, m) := find_vma m start in
        match vma with
        | None => Ok (false, m)
        | Some a =>
            let* v := vma_at a m in
            if start <? vm_start v then Ok (false, m) else
            if negb (has (vm_flags v) (if write then VM_WRITE else VM_READ)) then Ok (false, m) else
            if write && has (vm_flags v) VM_STACK && (start <? vm_start v + PGSIZE) then Ok (false, m) else
            umc_loop fuel m (vm_end v) e write
        end
      else Ok (true, m)
  end.

Section UserCheck.
(** The board's kernel window. *)
Context (KERNBASE KERNTOP : Z).

Definition KERN_ACCESS (start e : Z) : bool := (KERNBASE <=? start) && (start <? e) && (e <=? KERNTOP).

Definition user_mem_check (mm : option mm_struct) (addr len : Z) (write : bool) :
    res (bool * option mm_struct) :=
  match mm with
  | None => Ok (KERN_ACCESS addr (u32 (addr + len)), None)
  | Some m =>
      if negb (USER_ACCESS addr (u32 (addr + len))) then Ok (false, mm) else
      let* (b, m) := umc_loop (S (S (length (mmap_list m)))) m addr (u32 (addr + len)) write in
      Ok (b, Some m)
  end.

End UserCheck.

(** ** Well-formed address spaces *)

(** Areas are not empty, do not overlap and are sorted. *)
Fixpoint sorted_from (lo : Z) (l : list (Z * vma_struct)) : Prop :=
  match l with
  | [] => True
  | (_, v) :: l => lo <= vm_start v /\ vm_start v < vm_end v /\ sorted_from (vm_end v) l
  end.

Record mm_inv (m : mm_struct) : Prop := {
  mi_sorted : sorted_from 0 (mmap_list m);
  mi_nodup : NoDup (mmap_list m).*1;
  mi_count : map_count m = Z.of_nat (length (mmap_list m));
  mi_cache : forall a, mmap_cache m = Some a -> a ∈ (mmap_list m).*1;
  mi_tree : forall t, mmap_tree m = Some t -> elements t = (mmap_list m).*1
}.

(** Areas of a user address space: page aligned, inside the user window. *)
Definition user_vma (v : vma_struct) : Prop :=
  USERBASE <= vm_start v /\ vm_end v <= USERTOP /\ vm_start v mod PGSIZE = 0 /\ vm_end v mod PGSIZE = 0.

Definition user_mm (m : mm_struct) : Prop := Forall (fun x => user_vma x.2) (mmap_list m).

(** The abstract view: the flags of each mapped address. *)
Definition amap := Z -> option Z.

Fixpoint view (l : list (Z * vma_struct)) : amap := fun x =>
  match l with
  | [] => None
  | (_, v) :: l => if (vm_start v <=? x) && (x <? vm_end v) then Some (vm_flags v) else view l x
  end.

Definition aspace (m : mm_struct) : amap := view (mmap_list m).

(** *** Lists of areas *)

Lemma sorted_from_weaken lo lo' l : lo' <= lo -> sorted_from lo l -> sorted_from lo' l.
Proof. destruct l as [|[a v] l]; cbn; [done|]. intros ? (? & ? & ?). split_and!; auto; lia. Qed.

Lemma sorted_from_elem lo l x : sorted_from lo l -> x ∈ l -> lo <= vm_start x.2 /\ vm_start x.2 < vm_end x.2.
Proof.
  revert lo. induction l as [|[a v] l IH]; intros lo H Hx; [by apply not_elem_of_nil in Hx|].
  destruct H as (? & ? & H). apply elem_of_cons in Hx as [->|Hx]; [done|].
  destruct (IH _ H Hx). split; [lia|done].
Qed.

Lemma sorted_from_app lo l1 l2 :
  sorted_from lo (l1 ++ l2) <-> sorted_from lo l1 /\
    (forall x, x ∈ l1 -> forall y, y ∈ l2 -> vm_end x.2 <= vm_start y.2) /\ sorted_from lo l2.
Proof.
  revert lo. induction l1 as [|[a v] l1 IH]; intros lo; cbn [app sorted_from].
  - split; [|tauto]. intros H; split_and!; auto. intros x Hx. by apply not_elem_of_nil in Hx.
  - rewrite IH. split.
    + intros (H1 & H2 & H3 & H4 & H5). split_and!; auto; [|eapply sorted_from_weaken; [|exact H5]; lia].
      intros x [->|Hx]%elem_of_cons y Hy; [|auto]. cbn.
      by destruct (sorted_from_elem _ _ _ H5 Hy).
    + intros ((H1 & H2 & H3) & H4 & H5). split_and!; auto.
      * intros x Hx. apply H4. by right.
      * destruct l2 as [|[b w] l2]; [done|]. destruct H5 as (? & ? & ?). cbn. split_and!; auto.
        specialize (H4 (a, v)). cbn in H4. apply (H4 ltac:(left) (b, w)). left.
Qed.

Lemma vget_some a l v : NoDup l.*1 -> (a, v) ∈ l -> vget a l = Some v.
Proof.
  induction l as [|[b w] l IH]; cbn; [by intros _ H%not_elem_of_nil|].
  intros [Hn Hnd]%NoDup_cons [[= -> ->]|Hin]%elem_of_cons; [by rewrite decide_True|].
  rewrite decide_False; [auto|]. intros ->. apply Hn. by apply (list_elem_of_fmap_2 fst _ (a, v)).
Qed.

Lemma vget_elem a l v : vget a l = Some v -> (a, v) ∈ l.
Proof.
  induction l as [|[b w] l IH]; cbn; [done|]. case_decide as Hd; [|by right; auto].
  intros [= ->]. subst. left.
Qed.

Lemma vma_at_ok a m v : NoDup (mmap_list m).*1 -> (a, v) ∈ mmap_list m -> vma_at a m = Ok v.
Proof. intros Hn Hin. unfold vma_at. by rewrite (vget_some _ _ v). Qed.

(** *** Search *)

Lemma find_vma_list_app l1 l2 addr :
  find_vma_list (l1 ++ l2) addr =
    match find_vma_list l1 addr with Some a => Some a | None => find_vma_list l2 addr end.
Proof. induction l1 as [|[a v] l1 IH]; cbn; [done|]. by destruct (addr <? vm_end v). Qed.

Lemma find_vma_list_none l addr :
  (forall x, x ∈ l -> vm_end x.2 <= addr) -> find_vma_list l addr = None.
Proof.
  induction l as [|[a v] l IH]; cbn; [done|]. intros H.
  rewrite (proj2 (Z.ltb_ge _ _)) by exact (H (a, v) ltac:(left)). apply IH. intros x Hx. apply H. by right.
Qed.

(** The outcome of a search: the first area that ends after the address. *)
Lemma find_vma_list_spec lo l addr : sorted_from lo l ->
  match find_vma_list l addr with
  | Some a => exists l1 v l2, l = l1 ++ (a, v) :: l2 /\ addr < vm_end v /\
                (forall x, x ∈ l1 -> vm_end x.2 <= addr)
  | None => forall x, x ∈ l -> vm_end x.2 <= addr
  end.
Proof.
  revert lo. induction l as [|[a v] l IH]; intros lo H; cbn.
  - intros x Hx. by apply not_elem_of_nil in Hx.
  - destruct H as (H1 & H2 & H3). destruct (Z.ltb_spec addr (vm_end v)) as [Hlt|Hge].
    + exists [], v, l. split_and!; [done|done|]. intros x Hx. by apply not_elem_of_nil in Hx.
    + specialize (IH _ H3). destruct (find_vma_list l addr) as [b|].
      * destruct IH as (l1 & w & l2 & -> & Hw & Hl1). exists ((a, v) :: l1), w, l2. split_and!; [done|done|].
        intros x [->|Hx]%elem_of_cons; [done|auto].
      * intros x [->|Hx]%elem_of_cons; [done|auto].
Qed.

(** An area that contains the address is the result of the search. *)
Lemma find_vma_list_hit lo l a v addr :
  sorted_from lo l -> (a, v) ∈ l -> vm_start v <= addr < vm_end v -> find_vma_list l addr = Some a.
Proof.
  intros Hs (l1 & l2 & ->)%list_elem_of_split Hv. rewrite find_vma_list_app.
  apply sorted_from_app in Hs as (_ & Hx & _). rewrite find_vma_list_none.
  - cbn. rewrite (proj2 (Z.ltb_lt _ _)) by lia. done.
  - intros x Hin. specialize (Hx x Hin (a, v) ltac:(left)). cbn in Hx. lia.
Qed.

(** The search in the tree agrees with the search in the list. *)
Lemma find_vma_rb_ok l addr t : forall ls lo best,
  elements t = ls.*1 -> sorted_from lo ls -> (forall x, x ∈ ls -> vget x.1 l = Some x.2) ->
  find_vma_rb l t addr best =
    Ok (match find_vma_list ls addr with Some a => Some a | None => best end).
Proof.
  induction t as [|c tl IHl a tr IHr]; intros ls lo best He Hs Hg; cbn [elements] in He.
  - destruct ls; [done|discriminate He].
  - symmetry in He. apply fmap_app_inv in He as (l1 & l2' & El & E1 & ->).
    destruct l2' as [|[b v] l2]; [discriminate E1|]. injection E1 as Eab E2. subst b.
    pose proof Hs as Hs0. apply sorted_from_app in Hs as (Hs1 & Hx & Hv1 & Hv2 & Hs2).
    assert (Hl1 : forall x, x ∈ l1 -> vm_end x.2 <= vm_start v) by (intros x Hin; exact (Hx x Hin (a, v) ltac:(left))).
    assert (Hga : vget a l = Some v) by (apply (Hg (a, v)), elem_of_app; right; left).
    cbn [find_vma_rb]. rewrite Hga.
    rewrite find_vma_list_app. cbn [find_vma_list]. destruct (Z.ltb_spec addr (vm_end v)) as [Hlt|Hge].
    + destruct (Z.leb_spec (vm_start v) addr) as [Hle|Hgt].
      * rewrite find_vma_list_none; [done|]. intros x Hin. specialize (Hl1 x Hin). lia.
      * rewrite (IHl l1 lo); [by destruct (find_vma_list l1 addr)|done|done|].
        intros x Hin. apply Hg. apply elem_of_app. by left.
    + rewrite (find_vma_list_none l1) by (intros x Hin; specialize (Hl1 x Hin); lia).
      apply (IHr l2 (vm_end v)); [done|done|]. intros x Hin. apply Hg. apply elem_of_app. right. by right.
Qed.

Lemma find_vma_ok m addr :
  mm_inv m ->
  find_vma m addr =
    Ok (find_vma_list (mmap_list m) addr,
        match find_vma_list (mmap_list m) addr with Some a => set_cache (Some a) m | None => m end).
Proof.
  intros I. unfold find_vma.
  assert (Hslow : match mmap_tree m with
                  | Some t => find_vma_rb (mmap_list m) t addr None
                  | None => Ok (find_vma_list (mmap_list m) addr)
                  end = Ok (find_vma_list (mmap_list m) addr)).
  { destruct (mmap_tree m) as [t|] eqn:Et; [|done].
    rewrite (find_vma_rb_ok _ _ _ (mmap_list m) 0).
    - by destruct (find_vma_list (mmap_list m) addr).
    - by apply (mi_tree _ I).
    - apply I.
    - intros [a v] Hx. apply vget_some; [apply I|done]. }
  destruct (mmap_cache m) as [a|] eqn:Ec; cbn [res_bind].
  - pose proof (mi_cache _ I a Ec) as ([a' v] & -> & Hin)%list_elem_of_fmap. cbn [fst] in *.
    rewrite (vma_at_ok _ _ v); [|apply I|done]. cbn [res_bind].
    destruct ((vm_start v <=? addr) && (addr <? vm_end v)) eqn:Eh; cbn [res_bind].
    + apply andb_true_iff in Eh as [H1 H2]. rewrite (find_vma_list_hit 0 _ a' v); [done|apply I|done|lia].
    + rewrite Hslow. cbn [res_bind]. by destruct (find_vma_list (mmap_list m) addr).
  - rewrite Hslow. cbn [res_bind]. by destruct (find_vma_list (mmap_list m) addr).
Qed.

Lemma mm_inv_cache m a : mm_inv m -> a ∈ (mmap_list m).*1 -> mm_inv (set_cache (Some a) m).
Proof. intros [? ? ? ? ?] Ha. split; cbn; auto. by intros b [= <-]. Qed.

(** The state [find_vma] leaves behind. *)
Definition found (m : mm_struct) (addr : Z) : mm_struct :=
  match find_vma_list (mmap_list m) addr with Some a => set_cache (Some a) m | None => m end.

Lemma found_list m addr : mmap_list (found m addr) = mmap_list m.
Proof. unfold found. by destruct (find_vma_list _ _). Qed.

Lemma found_inv m addr : mm_inv m -> mm_inv (found m addr).
Proof.
  intros I. unfold found. pose proof (find_vma_list_spec 0 (mmap_list m) addr (mi_sorted _ I)) as H.
  destruct (find_vma_list _ _) as [a|]; [|done]. destruct H as (l1 & v & l2 & E & _).
  apply mm_inv_cache; [done|]. rewrite E, fmap_app, elem_of_app. right. left.
Qed.

(** *** Insertion *)

Lemma prev_in_mid a l1 l2 p :
  a ∉ l1 -> prev_in a (l1 ++ a :: l2) p = match last l1 with Some x => Some x | None => p end.
Proof.
  revert p. induction l1 as [|x l1 IH]; intros p Hn; cbn [app prev_in].
  - by rewrite decide_True.
  - apply not_elem_of_cons in Hn as [Hx Hn]. rewrite decide_False by done. rewrite IH by done.
    destruct l1 as [|y l1]; [done|]. cbn. by destruct (last (y :: l1)) eqn:E; [|apply last_None in E].
Qed.

Lemma le_prev_list_mid s l1 l2 p :
  (forall x, x ∈ l1 -> vm_start x.2 <= s) -> (forall y, y ∈ l2 -> s < vm_start y.2) ->
  le_prev_list s (l1 ++ l2) p = match last l1.*1 with Some x => Some x | None => p end.
Proof.
  revert p. induction l1 as [|[x v] l1 IH]; intros p H1 H2; cbn [app le_prev_list].
  - destruct l2 as [|[y w] l2]; [done|]. cbn.
    rewrite (proj2 (Z.ltb_lt _ _)) by exact (H2 (y, w) ltac:(left)). done.
  - rewrite (proj2 (Z.ltb_ge _ _)) by exact (H1 (x, v) ltac:(left)). rewrite IH; [|intros; apply H1; by right|done].
    rewrite fmap_cons, last_cons. cbn [fst]. by destruct (last l1.*1).
Qed.

Lemma next_of_mid p v l1 l2 : p ∉ l1.*1 -> next_of p (l1 ++ (p, v) :: l2) = snd <$> hd_error l2.
Proof.
  induction l1 as [|[x w] l1 IH]; cbn; [by rewrite decide_True|].
  intros [? ?]%not_elem_of_cons. rewrite decide_False by congruence. auto.
Qed.

Lemma add_after_mid p v y l1 l2 : p ∉ l1.*1 -> add_after p y (l1 ++ (p, v) :: l2) = l1 ++ (p, v) :: y :: l2.
Proof.
  induction l1 as [|[x w] l1 IH]; cbn; [by rewrite decide_True|].
  intros [? ?]%not_elem_of_cons. rewrite decide_False by congruence. by rewrite IH.
Qed.

Lemma keys_sorted key lo l :
  sorted_from lo l -> (forall x, x ∈ l -> key x.1 = vm_start x.2) ->
  StronglySorted (fun x y : Z => key x <= key y) l.*1.
Proof.
  revert lo. induction l as [|[a v] l IH]; intros lo Hs Hk; cbn; constructor.
  - destruct Hs as (_ & _ & Hs). apply (IH (vm_end v)); [done|]. intros x Hx. apply Hk. by right.
  - destruct Hs as (_ & Hv & Hs). apply Forall_fmap, Forall_forall. intros x Hx. cbn.
    destruct (sorted_from_elem _ _ _ Hs Hx). rewrite (Hk x) by (by right).
    pose proof (Hk (a, v) ltac:(left)) as Ha. cbn in Ha. rewrite Ha. lia.
Qed.

Section VmmProofs.
Context `{RB : RbTree}.
Context (rb_alloc : mm_struct -> bool).

Lemma build_tree_ok cmp key l2 : (forall x y, 0 < cmp x y <-> key y < key x) -> forall l1 t,
  elements t = l1 -> StronglySorted (fun x y => key x <= key y) (l1 ++ l2) ->
  elements (build_tree cmp l2 t) = l1 ++ l2.
Proof.
  intros Hc. induction l2 as [|a l2 IH]; intros l1 t Ht Hs; cbn [build_tree]; [by rewrite app_nil_r|].
  replace (l1 ++ a :: l2) with ((l1 ++ [a]) ++ l2) in * by (by rewrite <- app_assoc).
  apply IH; [|done]. rewrite (tree_insert_ok cmp key t a l1 []); [done|done|by rewrite app_nil_r| |constructor].
  - rewrite <- app_assoc in Hs. clear -Hs. induction l1 as [|x l1 IH]; [constructor|].
    inversion Hs as [|? ? H1 H2]; subst. constructor; [|by apply IH].
    apply Forall_app in H2 as [_ H2]. by apply Forall_cons in H2 as [? _].
Qed.

(** Where a new area goes. *)
Definition fits (v : vma_struct) (l1 l2 : list (Z * vma_struct)) : Prop :=
  (forall x, x ∈ l1 -> vm_end x.2 <= vm_start v) /\ (forall y, y ∈ l2 -> vm_end v <= vm_start y.2).

Lemma sorted_insert lo l1 l2 a v :
  sorted_from lo (l1 ++ l2) -> lo <= vm_start v -> vm_start v < vm_end v -> fits v l1 l2 ->
  sorted_from lo (l1 ++ (a, v) :: l2).
Proof.
  intros Hs H0 Hv [H1 H2]. apply sorted_from_app in Hs as (S1 & S2 & S3). apply sorted_from_app. split_and!.
  - done.
  - intros x Hx y [->|Hy]%elem_of_cons; [by apply H1|auto].
  - cbn. split_and!; [done|done|]. destruct l2 as [|[b w] l2]; [done|]. cbn in *.
    destruct S3 as (? & ? & ?). split_and!; auto. exact (H2 (b, w) ltac:(left)).
Qed.

(** Both ways of finding the predecessor give the last area before. *)
Lemma insert_prev m a v l1 l2 :
  mm_inv m -> mmap_list m = l1 ++ l2 -> a ∉ (mmap_list m).*1 -> vm_start v < vm_end v -> fits v l1 l2 ->
  (match mmap_tree m with
   | Some t => let t := tree_insert (vma_compare ((a, v) :: mmap_list m)) t a in
               (Some t, prev_in a (elements t) None)
   | None => (None, le_prev_list (vm_start v) (mmap_list m) None)
   end) =
  ((fun t => tree_insert (vma_compare ((a, v) :: mmap_list m)) t a) <$> mmap_tree m, last l1.*1) /\
  (forall t, mmap_tree m = Some t ->
     elements (tree_insert (vma_compare ((a, v) :: mmap_list m)) t a) = l1.*1 ++ a :: l2.*1).
Proof.
  intros I El Hn Hv [F1 F2]. pose proof (mi_sorted _ I) as Hs.
  assert (K1 : forall x, x ∈ l1 -> vm_start x.2 <= vm_start v).
  { intros x Hx. specialize (F1 x Hx). assert (x ∈ mmap_list m) as Hin by (rewrite El; apply elem_of_app; by left).
    destruct (sorted_from_elem _ _ _ Hs Hin). lia. }
  assert (K2 : forall y, y ∈ l2 -> vm_start v < vm_start y.2) by (intros y Hy; specialize (F2 y Hy); lia).
  assert (Hkey : forall x, x ∈ mmap_list m -> key_of ((a, v) :: mmap_list m) x.1 = vm_start x.2).
  { intros [b w] Hx. unfold key_of. cbn. rewrite decide_False.
    - by rewrite (vget_some b _ w); [|apply I|].
    - intros ->. apply Hn. by apply (list_elem_of_fmap_2 fst _ (b, w)). }
  assert (Ha : key_of ((a, v) :: mmap_list m) a = vm_start v) by (unfold key_of; cbn; by rewrite decide_True).
  assert (Htree : forall t, mmap_tree m = Some t ->
            elements (tree_insert (vma_compare ((a, v) :: mmap_list m)) t a) = l1.*1 ++ a :: l2.*1).
  { intros t Ht. pose proof (mi_tree _ I t Ht) as He.
    apply (tree_insert_ok _ (key_of ((a, v) :: mmap_list m))); [apply vma_compare_key| | |].
    - by rewrite He, El, fmap_app.
    - apply Forall_fmap, Forall_forall. intros x Hx. unfold compose. rewrite Ha, Hkey; [auto|]. rewrite El. apply elem_of_app. by left.
    - apply Forall_fmap, Forall_forall. intros x Hx. unfold compose. rewrite Ha, Hkey; [auto|]. rewrite El. apply elem_of_app. by right. }
  split; [|done]. destruct (mmap_tree m) as [t|] eqn:Et; cbn [fmap option_fmap option_map].
  - rewrite (Htree t eq_refl). rewrite prev_in_mid; [by destruct (last l1.*1)|].
    rewrite El, fmap_app in Hn. intros H. apply Hn. apply elem_of_app. by left.
  - rewrite El, (le_prev_list_mid _ l1 l2) by done. by destruct (last l1.*1).
Qed.

Lemma check_overlap_ok p n :
  vm_start p < vm_end p -> vm_end p <= vm_start n -> vm_start n < vm_end n -> check_vma_overlap p n = Ok tt.
Proof.
  intros H1 H2 H3. unfold check_vma_overlap.
  rewrite (proj2 (Z.ltb_lt _ _) H1), (proj2 (Z.leb_le _ _) H2), (proj2 (Z.ltb_lt _ _) H3). done.
Qed.

Lemma insert_vma_ok m a v l1 l2 :
  mm_inv m -> mmap_list m = l1 ++ l2 -> a ∉ (mmap_list m).*1 -> 0 <= vm_start v -> vm_start v < vm_end v ->
  fits v l1 l2 ->
  returns (insert_vma_struct rb_alloc m (a, v)) (fun m' =>
    mm_inv m' /\ mmap_list m' = l1 ++ (a, v) :: l2 /\ mmap_cache m' = mmap_cache m /\ mm_count m' = mm_count m).
Proof.
  intros I El Hn H0 Hv F. destruct (insert_prev m a v l1 l2) as [Hp Ht]; try done.
  unfold insert_vma_struct. apply returns_assert; [by apply Z.ltb_lt|]. cbv zeta in Hp |- *. rewrite Hp. clear Hp.
  pose proof (mi_sorted _ I) as Hs. pose proof (mi_nodup _ I) as Hnd. destruct F as [F1 F2].
  assert (Hnext : match last l1.*1 with Some p => next_of p (mmap_list m) | None => snd <$> hd_error (mmap_list m) end
                  = snd <$> hd_error l2 /\
          match last l1.*1 with Some p => add_after p (a, v) (mmap_list m) | None => (a, v) :: mmap_list m end
                  = l1 ++ (a, v) :: l2 /\
          match last l1.*1 with
          | Some p => let* prev := vma_at p m in check_vma_overlap prev v
          | None => Ok tt
          end = Ok tt).
  { destruct l1 as [|[p w] l1' _] using rev_ind; [by rewrite El|]. rewrite fmap_app. change ([(p, w)].*1) with [p].
    rewrite last_snoc.
    rewrite El, <- app_assoc in *. cbn [app] in *.
    assert (Hpn : p ∉ l1'.*1).
    { rewrite fmap_app in Hnd. apply NoDup_app in Hnd as (_ & Hd & _). intros Hin. apply (Hd p Hin). left. }
    rewrite next_of_mid, add_after_mid by done. split_and!; [done|by rewrite <- app_assoc|].
    assert (Hin : (p, w) ∈ mmap_list m) by (rewrite El; apply elem_of_app; right; left).
    rewrite (vma_at_ok p m w); [|apply I|done]. cbn [res_bind].
    destruct (sorted_from_elem 0 (l1' ++ (p, w) :: l2) (p, w)) as [_ Hw]; [done|apply elem_of_app; right; left|].
    apply check_overlap_ok; [done| |done]. apply (F1 (p, w)). apply elem_of_app. right. left. }
  destruct Hnext as (-> & -> & ->). cbn [res_bind].
  assert (Hchk : match snd <$> hd_error l2 with Some next => check_vma_overlap v next | None => Ok tt end = Ok tt).
  { destruct l2 as [|[b w] l2]; [done|]. cbn.
    destruct (sorted_from_elem 0 (mmap_list m) (b, w)) as [_ Hw]; [done|rewrite El; apply elem_of_app; right; left|].
    apply check_overlap_ok; [done| |done]. exact (F2 (b, w) ltac:(left)). }
  rewrite Hchk. cbn [res_bind].
  assert (Hs' : sorted_from 0 (l1 ++ (a, v) :: l2)) by (rewrite El in Hs; by apply sorted_insert).
  assert (Hnd' : NoDup (l1 ++ (a, v) :: l2).*1).
  { rewrite El, fmap_app in Hnd, Hn. rewrite fmap_app. cbn. rewrite <- Permutation_middle. by apply NoDup_cons. }
  assert (Hcnt : map_count m + 1 = Z.of_nat (length (l1 ++ (a, v) :: l2))).
  { rewrite (mi_count _ I), El, !length_app. cbn. lia. }
  assert (Hc : forall b, mmap_cache m = Some b -> b ∈ (l1 ++ (a, v) :: l2).*1).
  { intros b Hb. pose proof (mi_cache _ I b Hb) as H. rewrite El, fmap_app, elem_of_app in H.
    rewrite fmap_app, elem_of_app. cbn. rewrite elem_of_cons. tauto. }
  cbn [mmap_tree map_count mmap_cache mm_count].
  destruct (bool_decide _ && _ && _) eqn:Eb; apply returns_ok.
  - split_and!; [|done|done|done]. split; cbn [mmap_list mmap_tree mmap_cache map_count]; auto.
    intros t [= <-]. erewrite (build_tree_ok _ _ _ (vma_compare_key _) []); [done|done|]. apply (keys_sorted _ 0); [done|].
    intros [b w] Hx. unfold key_of. by rewrite (vget_some b _ w).
  - split_and!; [|done|done|done]. split; cbn [mmap_list mmap_tree mmap_cache map_count]; auto.
    intros t Ht'. destruct (mmap_tree m) as [t0|]; [|done]. injection Ht' as <-.
    rewrite (Ht t0 eq_refl), fmap_app. done.
Qed.

End VmmProofs.

(** *** Views *)

Definition inside (v : vma_struct) (x : Z) : Prop := vm_start v <= x < vm_end v.

Lemma inside_spec v x : (vm_start v <=? x) && (x <? vm_end v) = true <-> inside v x.
Proof. unfold inside. rewrite andb_true_iff. lia. Qed.

Lemma view_Some lo l x f :
  sorted_from lo l -> view l x = Some f <-> exists y, y ∈ l /\ inside y.2 x /\ vm_flags y.2 = f.
Proof.
  revert lo. induction l as [|[a v] l IH]; intros lo Hs; cbn [view].
  - split; [done|]. intros (y & Hy & _). by apply not_elem_of_nil in Hy.
  - destruct Hs as (H1 & H2 & H3). destruct ((vm_start v <=? x) && (x <? vm_end v)) eqn:Eb.
    + apply inside_spec in Eb. split.
      * intros [= <-]. exists (a, v). split_and!; [left|done|done].
      * intros (y & [->|Hy]%elem_of_cons & Hin & <-); [done|]. exfalso.
        destruct (sorted_from_elem _ _ _ H3 Hy). unfold inside in *. lia.
    + rewrite (IH _ H3). split; intros (y & Hy & Hin & Hf).
      * exists y. split_and!; [by right|done|done].
      * apply elem_of_cons in Hy as [->|Hy]; [|by exists y]. exfalso.
        apply inside_spec in Hin. cbn in Hin. congruence.
Qed.

Lemma view_None lo l x : sorted_from lo l -> view l x = None <-> forall y, y ∈ l -> ~ inside y.2 x.
Proof.
  intros Hs. split.
  - intros H y Hy Hin. assert (view l x = Some (vm_flags y.2)) by (apply (view_Some lo); eauto). congruence.
  - intros H. destruct (view l x) as [f|] eqn:E; [|done]. exfalso.
    apply (view_Some lo) in E as (y & Hy & Hin & _); [|done]. by eapply H.
Qed.

(** The window [start, e) is free. *)
Definition unmapped (M : amap) (start e : Z) : Prop := forall x, start <= x < e -> M x = None.

(** [mm_map]'s overlap test is exact. *)
Lemma overlap_exact lo l start e :
  sorted_from lo l -> start < e ->
  match find_vma_list l start with
  | Some a => exists v l1 l2, l = l1 ++ (a, v) :: l2 /\
      (forall x, x ∈ l1 -> vm_end x.2 <= start) /\ start < vm_end v /\
      (e <= vm_start v <-> unmapped (view l) start e)
  | None => (forall x, x ∈ l -> vm_end x.2 <= start) /\ unmapped (view l) start e
  end.
Proof.
  intros Hs Hse. pose proof (find_vma_list_spec lo l start Hs) as H.
  destruct (find_vma_list l start) as [a|].
  - destruct H as (l1 & v & l2 & -> & Hlt & Hl1). exists v, l1, l2. split_and!; [done|done|done|]. split.
    + intros Hle x Hx. apply (view_None lo); [done|]. intros y Hy Hin. unfold inside in Hin.
      apply elem_of_app in Hy as [Hy|[->|Hy]%elem_of_cons].
      * specialize (Hl1 y Hy). lia.
      * cbn in Hin. lia.
      * apply sorted_from_app in Hs as (_ & _ & _ & Hv & Hs2). destruct (sorted_from_elem _ _ _ Hs2 Hy). lia.
    + intros Hun. destruct (Z.le_gt_cases e (vm_start v)) as [?|Hgt]; [done|]. exfalso.
      pose proof Hs as Hs0. apply sorted_from_app in Hs0 as (_ & _ & _ & Hv & _).
      assert (view (l1 ++ (a, v) :: l2) (Z.max start (vm_start v)) = None) as Hn by (apply Hun; lia).
      rewrite (view_None lo) in Hn by done. apply (Hn (a, v)); [apply elem_of_app; right; left|].
      unfold inside; cbn. lia.
  - split; [done|]. intros x Hx. apply (view_None lo); [done|]. intros y Hy Hin. specialize (H y Hy).
    unfold inside in Hin. lia.
Qed.

(** A free window splits the areas into those before and those after it. *)
Lemma unmapped_fits lo l v :
  sorted_from lo l -> vm_start v < vm_end v -> unmapped (view l) (vm_start v) (vm_end v) ->
  exists l1 l2, l = l1 ++ l2 /\ fits v l1 l2.
Proof.
  intros Hs Hv Hun. pose proof (overlap_exact lo l (vm_start v) (vm_end v) Hs Hv) as H.
  destruct (find_vma_list l (vm_start v)) as [a|].
  - destruct H as (w & l1 & l2 & -> & Hl1 & Hlt & Hiff). exists l1, ((a, w) :: l2). split_and!; [done|].
    split; [done|]. pose proof (proj2 Hiff Hun) as Hle. intros y [->|Hy]%elem_of_cons; [done|].
    apply sorted_from_app in Hs as (_ & _ & _ & ? & Hs2). destruct (sorted_from_elem _ _ _ Hs2 Hy). lia.
  - exists l, []. split_and!; [by rewrite app_nil_r|]. split; [by destruct H|].
    intros y Hy. by apply not_elem_of_nil in Hy.
Qed.

(** The view after an insertion. *)
Lemma view_insert lo l1 l2 a v x :
  sorted_from lo (l1 ++ l2) -> sorted_from lo (l1 ++ (a, v) :: l2) ->
  view (l1 ++ (a, v) :: l2) x =
    if (vm_start v <=? x) && (x <? vm_end v) then Some (vm_flags v) else view (l1 ++ l2) x.
Proof.
  intros Hs Hs'. apply option_eq. intros f. rewrite (view_Some lo) by done.
  destruct ((vm_start v <=? x) && (x <? vm_end v)) eqn:Eb.
  - apply inside_spec in Eb. assert (Hv : view (l1 ++ (a, v) :: l2) x = Some (vm_flags v)).
    { apply (view_Some lo); [done|]. exists (a, v). split_and!; [apply elem_of_app; right; left|done|done]. }
    rewrite <- (view_Some lo), Hv by done. split; congruence.
  - rewrite (view_Some lo) by done. split; intros (y & Hy & Hin & Hf); exists y; split_and!; try done.
    + apply elem_of_app in Hy as [Hy|[->|Hy]%elem_of_cons]; [apply elem_of_app; by left| |apply elem_of_app; by right].
      apply inside_spec in Hin. cbn in Hin. congruence.
    + apply elem_of_app in Hy as [Hy|Hy]; apply elem_of_app; [by left|right; by right].
Qed.

(** *** Rounding *)

Lemma ROUNDDOWN_aligned a : ROUNDDOWN a PGSIZE mod PGSIZE = 0.
Proof. unfold ROUNDDOWN, PGSIZE. rewrite Zminus_mod, Zmod_mod, Z.sub_diag. done. Qed.

Lemma ROUNDUP_aligned a : ROUNDUP a PGSIZE mod PGSIZE = 0.
Proof. apply ROUNDDOWN_aligned. Qed.

Lemma USER_ACCESS_spec a b : USER_ACCESS a b = true <-> USERBASE <= a /\ a < b /\ b <= USERTOP.
Proof. unfold USER_ACCESS. rewrite !andb_true_iff. lia. Qed.

Lemma has_ldiff f b : has (Z.ldiff f b) b = false.
Proof.
  unfold has. replace (Z.land (Z.ldiff f b) b) with 0; [done|]. symmetry. apply Z.bits_inj'. intros n Hn.
  rewrite Z.land_spec, Z.ldiff_spec, Z.bits_0. by destruct (Z.testbit f n), (Z.testbit b n).
Qed.

(** *** Mapping *)

Section MapProofs.
Context `{RB : RbTree}.
Context (rb_alloc : mm_struct -> bool).
Context `{PT : PageTables}.

(** A set of areas with their addresses, seen through [aspace]. *)
Definition mapped_as (m m' : mm_struct) (start e : Z) (f : option Z) : Prop :=
  forall x, aspace m' x = if (start <=? x) && (x <? e) then f else aspace m x.

Lemma find_vma_cases m start e :
  mm_inv m -> start < e ->
  (exists b v l1 l2, find_vma m start = Ok (Some b, found m start) /\ mmap_list m = l1 ++ (b, v) :: l2 /\
     (forall x, x ∈ l1 -> vm_end x.2 <= start) /\ start < vm_end v /\
     vma_at b (found m start) = Ok v /\ (e <= vm_start v <-> unmapped (aspace m) start e)) \/
  (find_vma m start = Ok (None, found m start) /\ unmapped (aspace m) start e /\
     forall x, x ∈ mmap_list m -> vm_end x.2 <= start).
Proof.
  intros I Hse. rewrite (find_vma_ok m start I). fold (found m start).
  pose proof (overlap_exact 0 (mmap_list m) start e (mi_sorted _ I) Hse) as H.
  destruct (find_vma_list (mmap_list m) start) as [b|] eqn:Ef.
  - left. destruct H as (v & l1 & l2 & El & Hl1 & Hlt & Hiff). exists b, v, l1, l2. split_and!; auto; [|apply Hiff..].
    apply vma_at_ok; [|rewrite found_list, El; apply elem_of_app; right; left].
    rewrite found_list. apply I.
  - right. destruct H as [H1 H2]. by split_and!.
Qed.

Lemma insert_mapped m a v :
  mm_inv m -> a ∉ (mmap_list m).*1 -> 0 <= vm_start v -> vm_start v < vm_end v ->
  unmapped (aspace m) (vm_start v) (vm_end v) ->
  returns (insert_vma_struct rb_alloc m (a, v)) (fun m' =>
    mm_inv m' /\ mapped_as m m' (vm_start v) (vm_end v) (Some (vm_flags v)) /\
    (exists l1 l2, mmap_list m = l1 ++ l2 /\ mmap_list m' = l1 ++ (a, v) :: l2) /\
    mmap_cache m' = mmap_cache m /\ mm_count m' = mm_count m).
Proof.
  intros I Hn H0 Hv Hun. destruct (unmapped_fits 0 (mmap_list m) v) as (l1 & l2 & El & F); [apply I|done|done|].
  eapply returns_mono; [by apply (insert_vma_ok rb_alloc m a v l1 l2)|].
  intros m' (I' & E' & Hc & Hm). split_and!; eauto. intros x. unfold aspace. rewrite E', El.
  apply (view_insert 0); [rewrite <- El; apply I|rewrite <- E'; apply I'].
Qed.

Lemma user_mm_insert m m' a v l1 l2 :
  user_mm m -> user_vma v -> mmap_list m = l1 ++ l2 -> mmap_list m' = l1 ++ (a, v) :: l2 -> user_mm m'.
Proof.
  unfold user_mm. intros U Hv E1 E2. rewrite E1, Forall_app in U. rewrite E2, Forall_app. destruct U. split; [done|]. by constructor.
Qed.

Lemma mm_map_ok a addr len flags (s : vm) :
  let start := ROUNDDOWN addr PGSIZE in
  let e := ROUNDUP (u32 (addr + len)) PGSIZE in
  mm_inv (mm s) -> user_mm (mm s) -> a ∉ (mmap_list (mm s)).*1 ->
  returns (mm_map rb_alloc (Some a) addr len flags s) (fun '(ret, vma, s') =>
    mm_inv (mm s') /\ user_mm (mm s') /\ shrefs s' = shrefs s /\ pg s' = pg s /\
    ((USER_ACCESS start e = true /\ unmapped (aspace (mm s)) start e /\ ret = 0 /\ vma = Some a /\
      mapped_as (mm s) (mm s') start e (Some (Z.ldiff flags VM_SHARE)) /\
      (a, mk_vma start e (Z.ldiff flags VM_SHARE) None 0) ∈ mmap_list (mm s')) \/
     (~ (USER_ACCESS start e = true /\ unmapped (aspace (mm s)) start e) /\
      ret = - E_INVAL /\ vma = None /\ forall x, aspace (mm s') x = aspace (mm s) x))).
Proof.
  intros start e I U Hn. unfold mm_map. fold start e. destruct (USER_ACCESS start e) eqn:Ea; cbn [negb].
  2: { apply returns_ok. split_and!; auto. right. split_and!; auto. intros [? _]; congruence. }
  apply USER_ACCESS_spec in Ea as (Hb1 & Hb2 & Hb3).
  assert (I' : mm_inv (found (mm s) start)) by by apply found_inv.
  assert (U' : user_mm (found (mm s) start)) by (unfold user_mm; by rewrite found_list).
  assert (Ev : forall x, aspace (found (mm s) start) x = aspace (mm s) x) by (intros x; unfold aspace; by rewrite found_list).
  assert (Hok : unmapped (aspace (mm s)) start e ->
    returns (let* m := insert_vma_struct rb_alloc (found (mm s) start) (a, mk_vma start e (Z.ldiff flags VM_SHARE) None 0) in
             Ok (0, Some a, set_mm m s)) (fun '(ret, vma, s') =>
      mm_inv (mm s') /\ user_mm (mm s') /\ shrefs s' = shrefs s /\ pg s' = pg s /\ ret = 0 /\ vma = Some a /\
      mapped_as (mm s) (mm s') start e (Some (Z.ldiff flags VM_SHARE)) /\
      (a, mk_vma start e (Z.ldiff flags VM_SHARE) None 0) ∈ mmap_list (mm s'))).
  { intros Hun. eapply returns_bind.
    - apply insert_mapped; [done|by rewrite found_list|cbn; unfold USERBASE in *; lia|done|].
      intros x Hx. rewrite Ev. by apply Hun.
    - intros m' (I2 & M2 & (l1 & l2 & E1 & E2) & _). apply returns_ok. cbn [mm set_mm shrefs pg].
      split_and!; auto; [|intros x; by rewrite M2, Ev|rewrite E2; apply elem_of_app; right; left].
      eapply user_mm_insert; [exact U'| |exact E1|exact E2]. unfold user_vma; cbn.
      split_and!; auto; [apply ROUNDDOWN_aligned|apply ROUNDUP_aligned]. }
  destruct (find_vma_cases (mm s) start e I Hb2) as [(b & v & l1 & l2 & -> & El & _ & Hlt & Hat & Hiff)|(-> & Hun & _)];
    cbn [res_bind]; [rewrite Hat; cbn [res_bind]|].
  - destruct (Z.ltb_spec (vm_start v) e) as [Hov|Hno]; cbn [res_bind].
    + apply returns_ok. cbn [mm set_mm shrefs pg]. split_and!; auto. right. split_and!; auto. intros [_ Hu].
      apply Hiff in Hu. lia.
    + cbn [vma_create]. eapply returns_mono; [apply Hok; by apply Hiff|].
      intros [[ret vma] s'] (? & ? & ? & ? & ? & ? & ? & ?). split_and!; auto. left. split_and!; auto;
        first [by apply USER_ACCESS_spec|by apply Hiff].
  - cbn [vma_create]. eapply returns_mono; [by apply Hok|].
    intros [[ret vma] s'] (? & ? & ? & ? & ? & ? & ? & ?). split_and!; auto. left. split_and!; auto;
      by apply USER_ACCESS_spec.
Qed.

End MapProofs.

(** *** Unmapping *)

(** References of the areas of a list to a shared memory object. *)
Definition shares (sh : Z) (x : Z * vma_struct) : bool :=
  has (vm_flags x.2) VM_SHARE && bool_decide (shmem x.2 = Some sh).

Definition nshares (sh : Z) (l : list (Z * vma_struct)) : nat := length (List.filter (shares sh) l).

(** Every shared area has its object, and no object has fewer references than
    areas. *)
Definition share_ok (refs : gmap Z Z) (l : list (Z * vma_struct)) : Prop :=
  (forall x, x ∈ l -> has (vm_flags x.2) VM_SHARE = true -> is_Some (shmem x.2)) /\
  (forall sh, (0 < nshares sh l)%nat -> exists n, refs !! sh = Some n /\ Z.of_nat (nshares sh l) <= n < 2 ^ 31).

Lemma nshares_perm sh l l' : l ≡ₚ l' -> nshares sh l = nshares sh l'.
Proof.
  unfold nshares. induction 1 as [|x l l' _ IH|x y l|l1 l2 l3 _ IH1 _ IH2]; cbn; [done| | |congruence].
  - destruct (shares sh x); cbn; congruence.
  - by destruct (shares sh x), (shares sh y).
Qed.

Lemma share_ok_perm refs l l' : l ≡ₚ l' -> share_ok refs l -> share_ok refs l'.
Proof.
  intros P [H1 H2]. split.
  - intros x Hx. apply H1. by rewrite P.
  - intros sh. rewrite <- !(nshares_perm sh l l') by done. apply H2.
Qed.

(** Replacing an area by a part of it. *)
Lemma share_ok_resize refs a v v' l :
  vm_flags v' = vm_flags v -> shmem v' = shmem v -> share_ok refs ((a, v) :: l) -> share_ok refs ((a, v') :: l).
Proof.
  intros Ef Es [H1 H2]. split.
  - intros x [->|Hx]%elem_of_cons; cbn; [rewrite Ef, Es; apply (H1 (a, v)); left|apply H1; by right].
  - intros sh. assert (E : nshares sh ((a, v') :: l) = nshares sh ((a, v) :: l))
      by (unfold nshares, shares; cbn [List.filter snd]; rewrite Ef, Es; by destruct (_ && _)). rewrite E. apply H2.
Qed.

Section UnmapProofs.
Context `{RB : RbTree}.

Lemma filter_mid a v (l1 l2 : list (Z * vma_struct)) :
  NoDup (l1 ++ (a, v) :: l2).*1 -> filter (fun x => x.1 <> a) (l1 ++ (a, v) :: l2) = l1 ++ l2.
Proof.
  rewrite fmap_app. cbn. intros (_ & Hd & [Hn _]%NoDup_cons)%NoDup_app.
  rewrite filter_app, filter_cons_False by (cbn; tauto).
  assert (Hid : forall l : list (Z * vma_struct), a ∉ l.*1 -> filter (fun x => x.1 <> a) l = l).
  { induction l as [|[b w] l IH]; [done|]. intros Hx. rewrite fmap_cons in Hx. apply not_elem_of_cons in Hx as [Hx ?]. cbn [fst] in Hx.
    rewrite filter_cons_True by (cbn; congruence). by rewrite IH. }
  rewrite !Hid; [done|done|]. intros Hin. apply (Hd a Hin). left.
Qed.

Lemma remove_vma_ok m a v l1 l2 :
  mm_inv m -> mmap_list m = l1 ++ (a, v) :: l2 ->
  returns (remove_vma_struct m a) (fun m' =>
    mm_inv m' /\ mmap_list m' = l1 ++ l2 /\ mm_count m' = mm_count m).
Proof.
  intros I El. unfold remove_vma_struct. pose proof (mi_nodup _ I) as Hnd.
  rewrite (vma_at_ok a m v); [|done|rewrite El; apply elem_of_app; right; left]. cbn [res_bind].
  apply returns_ok. rewrite El in *. split_and!; [|cbn; by rewrite filter_mid|done].
  split; cbn [mmap_list mmap_tree mmap_cache map_count]; rewrite filter_mid by done.
  - pose proof (mi_sorted _ I) as Hs. rewrite El in Hs. apply sorted_from_app in Hs as (S1 & S2 & ? & ? & S3).
    apply sorted_from_app. split_and!; [done| |eapply sorted_from_weaken; [|exact S3]; lia].
    intros x Hx y Hy. apply S2; [done|by right].
  - rewrite fmap_app in *. cbn in Hnd. apply NoDup_app in Hnd as (N1 & N2 & [_ N3]%NoDup_cons).
    apply NoDup_app. split_and!; auto. intros x Hx Hy. apply (N2 x Hx). by right.
  - rewrite (mi_count _ I), El, !length_app. cbn. lia.
  - intros b. case_decide as Hd; [done|]. intros Hb. pose proof (mi_cache _ I b Hb) as H. rewrite El in H.
    rewrite fmap_app in *. cbn in H. apply elem_of_app in H as [H|[->|H]%elem_of_cons]; apply elem_of_app; auto. done.
  - intros t Ht. destruct (mmap_tree m) as [t0|] eqn:Et; [|done]. injection Ht as <-.
    pose proof (mi_tree _ I t0 Et) as He. rewrite tree_delete_ok.
    + rewrite He, El, !fmap_app. cbn. rewrite fmap_app in Hnd. cbn in Hnd.
      apply NoDup_app in Hnd as (_ & N2 & [N3 _]%NoDup_cons).
      rewrite filter_app, filter_cons_False by tauto. rewrite !filter_ne_id; [done|done|].
      intros Hin. apply (N2 a Hin). left.
    + rewrite He, El. exact Hnd.
    + rewrite He, El, fmap_app. apply elem_of_app. right. left.
Qed.

Lemma unmap_collect_ok e mid : forall m l1 l2 free,
  mm_inv m -> mmap_list m = l1 ++ mid ++ l2 ->
  (forall x, x ∈ mid -> vm_start x.2 < e) -> (forall y, y ∈ l2 -> e <= vm_start y.2) ->
  returns (unmap_collect e (mid ++ l2) m free) (fun '(m', free') =>
    mm_inv m' /\ mmap_list m' = l1 ++ l2 /\ free' = rev mid ++ free /\ mm_count m' = mm_count m).
Proof.
  induction mid as [|[a v] mid IH]; intros m l1 l2 free I El H1 H2; cbn [app unmap_collect].
  - destruct l2 as [|[b w] l2]; cbn [unmap_collect]; [by apply returns_ok|].
    rewrite (proj2 (Z.ltb_ge _ _)) by exact (H2 (b, w) ltac:(left)). by apply returns_ok.
  - rewrite (proj2 (Z.ltb_lt _ _)) by exact (H1 (a, v) ltac:(left)).
    eapply returns_bind; [by apply (remove_vma_ok m a v l1 (mid ++ l2))|]. intros m' (I' & E' & Hm').
    eapply returns_mono; [apply (IH m' l1 l2 ((a, v) :: free)); auto; intros; apply H1; by right|].
    intros [m'' free'] (I'' & E'' & -> & Hm''). split_and!; auto; [|congruence]. cbn [rev]. by rewrite <- app_assoc.
Qed.

Context (rb_alloc : mm_struct -> bool).
Context `{PT : PageTables}.

Lemma vma_destroy_ok a v l (s : vm) :
  share_ok (shrefs s) ((a, v) :: l) ->
  returns (vma_destroy v s) (fun s' => mm s' = mm s /\ pg s' = pg s /\ share_ok (shrefs s') l).
Proof.
  intros [H1 H2]. unfold vma_destroy. destruct (has (vm_flags v) VM_SHARE) eqn:Eh.
  - destruct (H1 (a, v) ltac:(left) Eh) as [sh Hsh]. cbn in Hsh. rewrite Hsh. unfold shmem_ref_add.
    assert (Hn : nshares sh ((a, v) :: l) = S (nshares sh l)).
    { unfold nshares, shares; cbn [List.filter snd]. by rewrite Eh, Hsh, bool_decide_true. }
    destruct (H2 sh) as (n & Hr & Hb); [lia|]. rewrite Hn in Hb. rewrite (fetch_ok _ _ _ Hr). cbn [res_bind].
    rewrite s32_small by lia.
    assert (Ho : forall sh', sh' <> sh -> nshares sh' ((a, v) :: l) = nshares sh' l).
    { intros sh' Hne. unfold nshares, shares; cbn [List.filter snd]. rewrite Hsh. rewrite bool_decide_false by congruence.
      by rewrite andb_false_r. }
    destruct (Z.eqb_spec (n + -1) 0) as [Hz|Hz]; apply returns_ok; cbn [mm pg shrefs]; split_and!; auto.
    + split; [intros x Hx; apply H1; by right|]. intros sh' Hp.
      destruct (decide (sh' = sh)) as [->|Hne]; [lia|]. rewrite lookup_delete_ne, lookup_insert_ne by done.
      rewrite <- (Ho sh' Hne) in *. by apply H2.
    + split; [intros x Hx; apply H1; by right|]. intros sh' Hp.
      destruct (decide (sh' = sh)) as [->|Hne].
      * rewrite lookup_insert_eq. exists (n + -1). split; [done|lia].
      * rewrite lookup_insert_ne by done. rewrite <- (Ho sh' Hne) in *. by apply H2.
  - apply returns_ok. split_and!; auto. split; [intros x Hx; apply H1; by right|].
    intros sh. assert (E : nshares sh ((a, v) :: l) = nshares sh l) by (unfold nshares, shares; cbn [List.filter snd]; by rewrite Eh).
    rewrite <- E. apply H2.
Qed.

(** What is left of an area outside the window. *)
Definition cut (start e : Z) (x : Z * vma_struct) : list (Z * vma_struct) :=
  let off d := if has (vm_flags x.2) VM_SHARE then u32 (shmem_off x.2 + d) else shmem_off x.2 in
  if vm_start x.2 <? start then
    [(x.1, mk_vma (vm_start x.2) start (vm_flags x.2) (shmem x.2) (off (vm_start x.2 - vm_start x.2)))]
  else if e <? vm_end x.2 then
    [(x.1, mk_vma e (vm_end x.2) (vm_flags x.2) (shmem x.2) (off (e - vm_start x.2)))]
  else [].

Lemma vma_resize_ok v start e :
  start mod PGSIZE = 0 -> e mod PGSIZE = 0 -> vm_start v <= start -> start < e -> e <= vm_end v ->
  vma_resize v start e = Ok (mk_vma start e (vm_flags v) (shmem v)
    (if has (vm_flags v) VM_SHARE then u32 (shmem_off v + (start - vm_start v)) else shmem_off v)).
Proof.
  intros A1 A2 H1 H2 H3. unfold vma_resize. rewrite A1, A2.
  rewrite (proj2 (Z.leb_le _ _) H1), (proj2 (Z.ltb_lt _ _) H2), (proj2 (Z.leb_le _ _) H3). done.
Qed.

(** One area of the free list. *)
Definition straddles (start e : Z) (v : vma_struct) : Prop := vm_start v < start /\ e < vm_end v.

Lemma NoDup_addr_mid {A} (l1 l2 : list A) (x : A) : NoDup (l1 ++ x :: l2) -> x ∉ l1 ++ l2.
Proof. rewrite <- Permutation_middle. by intros [? _]%NoDup_cons. Qed.

(** Between [p] and [p'] the window has lost entries, in particular those of
    the addresses in [P]. *)
Definition drops (start e : Z) (P : Z -> Prop) (p p' : PG) : Prop := forall v,
  (start <= v * PGSIZE < e -> P (v * PGSIZE) -> pt_entry p' v = None) /\
  (~ (start <= v * PGSIZE < e) -> pt_entry p' v = pt_entry p v) /\
  (pt_entry p' v = None \/ pt_entry p' v = pt_entry p v).

Lemma drops_refl start e p : drops start e (fun _ => False) p p.
Proof. intros v. split_and!; [done|done|by right]. Qed.

Lemma drops_trans start e (P Q R : Z -> Prop) p p1 p2 :
  drops start e P p p1 -> drops start e Q p1 p2 -> (forall x, R x -> P x \/ Q x) -> drops start e R p p2.
Proof.
  intros H1 H2 HR v. destruct (H1 v) as (A1 & B1 & C1), (H2 v) as (A2 & B2 & C2). split_and!.
  - intros Hw [HP|HQ]%HR; [|auto]. destruct C2 as [?|E]; [done|]. rewrite E. auto.
  - intros Hw. rewrite B2, B1; auto.
  - destruct C2 as [?|E]; [by left|]. rewrite E. done.
Qed.

Lemma pt_unmap_drops v start e us ue p :
  pt_inv p -> user_vma v -> start mod PGSIZE = 0 -> e mod PGSIZE = 0 ->
  us = Z.max start (vm_start v) -> ue = Z.min e (vm_end v) -> us < ue ->
  returns (pt_unmap_range us ue p) (fun p' => pt_inv p' /\ drops start e (inside v) p p').
Proof.
  intros I (U1 & U2 & U3 & U4) As Ae Es Ee Hlt.
  assert (A1 : us mod PGSIZE = 0) by (destruct (Z.max_spec start (vm_start v)) as [[_ E]|[_ E]]; congruence).
  assert (A2 : ue mod PGSIZE = 0) by (destruct (Z.min_spec e (vm_end v)) as [[_ E]|[_ E]]; congruence).
  eapply returns_mono; [apply (pt_unmap_ok us ue p I A1 A2); apply USER_ACCESS_spec; lia|].
  intros p' [I' H]. split; [done|]. intros w. rewrite H. unfold inside. split_and!.
  - intros Hw Hin. apply decide_True. lia.
  - intros Hw. apply decide_False. lia.
  - case_decide; auto.
Qed.

Lemma unmap_release_ok start e mid : forall (s : vm) l1 r,
  start < e -> start mod PGSIZE = 0 -> e mod PGSIZE = 0 ->
  mm_inv (mm s) -> mmap_list (mm s) = l1 ++ r -> sorted_from 0 (l1 ++ mid) ->
  (forall x, x ∈ mid -> user_vma x.2 /\ start < vm_end x.2 /\ vm_start x.2 < e /\ ~ straddles start e x.2) ->
  (forall x, x ∈ mid -> forall y, y ∈ r -> vm_end x.2 <= vm_start y.2) ->
  NoDup (l1 ++ mid ++ r).*1 -> share_ok (shrefs s) (l1 ++ mid ++ r) -> pt_inv (pg s) ->
  returns (unmap_release rb_alloc start e (rev mid) s) (fun s' =>
    mm_inv (mm s') /\ mmap_list (mm s') = l1 ++ mjoin (cut start e <$> mid) ++ r /\
    share_ok (shrefs s') (mmap_list (mm s')) /\ mm_count (mm s') = mm_count (mm s) /\
    pt_inv (pg s') /\ drops start e (fun x => exists y, y ∈ mid /\ inside y.2 x) (pg s) (pg s')).
Proof.
  induction mid as [|[a v] mid IH] using rev_ind; intros s l1 r Hse As Ae I El Hs Hm Hr Hnd Hsh Hpt.
  { apply returns_ok. cbn in *. rewrite El. split_and!; auto. eapply drops_trans; [apply drops_refl..|].
    by intros x (y & Hy%not_elem_of_nil & _). }
  rewrite rev_app_distr. cbn [rev app unmap_release].
  destruct (Hm (a, v)) as ((U1 & U2 & U3 & U4) & V1 & V2 & V3); [apply elem_of_app; right; left|].
  cbn [snd] in *. unfold straddles in V3.
  rewrite app_assoc in Hs. apply sorted_from_app in Hs as (Hs1 & Hs2 & S1 & S2 & _).
  assert (Hbefore : forall x, x ∈ l1 ++ mid -> vm_end x.2 <= vm_start v)
    by (intros x Hx; exact (Hs2 x Hx (a, v) ltac:(left))).
  assert (Hafter : forall y, y ∈ r -> vm_end v <= vm_start y.2)
    by (intros y Hy; apply (Hr (a, v)); [apply elem_of_app; right; left|done]).
  rewrite <- app_assoc in Hnd, Hsh. cbn [app] in Hnd, Hsh.
  assert (Hperm : l1 ++ mid ++ (a, v) :: r ≡ₚ (a, v) :: l1 ++ mid ++ r) by solve_Permutation.
  assert (Hsh1 : share_ok (shrefs s) ((a, v) :: l1 ++ mid ++ r)) by (by eapply share_ok_perm).
  assert (Hnd1 : NoDup (a :: (l1 ++ mid ++ r).*1)) by (rewrite Hperm in Hnd; exact Hnd).
  assert (Hna : a ∉ (mmap_list (mm s)).*1).
  { rewrite El. apply NoDup_cons in Hnd1 as [Hn _]. intros Hin. apply Hn.
    rewrite fmap_app, elem_of_app in Hin. rewrite !fmap_app, !elem_of_app. tauto. }
  (* the state after this area has been handled, with its remainder [c] *)
  assert (Hrest : forall (s1 : vm) c,
    mm_inv (mm s1) -> mmap_list (mm s1) = l1 ++ c ++ r -> mm_count (mm s1) = mm_count (mm s) ->
    cut start e (a, v) = c -> share_ok (shrefs s1) (c ++ l1 ++ mid ++ r) ->
    pt_inv (pg s1) -> drops start e (inside v) (pg s) (pg s1) ->
    returns (unmap_release rb_alloc start e (rev mid) s1) (fun s' =>
      mm_inv (mm s') /\ mmap_list (mm s') = l1 ++ mjoin (cut start e <$> (mid ++ [(a, v)])) ++ r /\
      share_ok (shrefs s') (mmap_list (mm s')) /\ mm_count (mm s') = mm_count (mm s) /\
      pt_inv (pg s') /\ drops start e (fun x => exists y, y ∈ mid ++ [(a, v)] /\ inside y.2 x) (pg s) (pg s'))).
  { intros s1 c I1 E1 C1 Hc Hsh' Hpt1 Hdr. rewrite fmap_app, join_app. cbn [fmap list_fmap mjoin list_join]. rewrite Hc, app_nil_r.
    assert (Hcv : forall y, y ∈ c -> y.1 = a /\ vm_start v <= vm_start y.2).
    { intros y. rewrite <- Hc. unfold cut; cbn [fst snd].
      destruct (Z.ltb_spec (vm_start v) start); [|destruct (Z.ltb_spec e (vm_end v))];
        intros Hy; [apply list_elem_of_singleton in Hy as ->; cbn; lia..|by apply not_elem_of_nil in Hy]. }
    eapply returns_mono; [apply (IH s1 l1 (c ++ r)); auto|].
    - intros x Hx. apply Hm. apply elem_of_app. by left.
    - intros x Hx y [Hy|Hy]%elem_of_app; [|apply Hr; [apply elem_of_app; by left|done]].
      destruct (Hcv y Hy) as [_ Hy2]. assert (vm_end x.2 <= vm_start v); [|lia].
      apply Hbefore. apply elem_of_app. by right.
    - assert (Hp : l1 ++ mid ++ c ++ r ≡ₚ c ++ l1 ++ mid ++ r) by solve_Permutation. rewrite Hp.
      clear -Hnd1 Hc Hcv. rewrite fmap_app. apply NoDup_cons in Hnd1 as [N1 N2]. apply NoDup_app. split_and!; [| |done].
      + rewrite <- Hc. unfold cut. destruct (_ <? _); [|destruct (_ <? _)]; cbn; try apply NoDup_singleton. constructor.
      + intros x (y & -> & Hy)%list_elem_of_fmap. destruct (Hcv y Hy) as [-> _]. done.
    - eapply share_ok_perm; [|exact Hsh']. solve_Permutation.
    - intros s' (I' & E' & S' & C' & P' & D'). split_and!; auto; [rewrite E'; by rewrite <- !app_assoc|congruence|].
      eapply drops_trans; [exact Hdr|exact D'|]. intros x (y & [Hy| ->%list_elem_of_singleton]%elem_of_app & Hin); [right; eauto|by left]. }
  assert (Hun : forall us ue p, pg p = pg s -> us = Z.max start (vm_start v) -> ue = Z.min e (vm_end v) -> us < ue ->
    returns (pt_unmap_range us ue (pg p)) (fun p' => pt_inv p' /\ drops start e (inside v) (pg s) p'))
    by (intros us ue p Ep Eus Eue Hlt; rewrite Ep; by apply (pt_unmap_drops v)).
  assert (Hs_cur : forall x, x ∈ l1 -> vm_end x.2 <= vm_start v)
    by (intros x Hx; apply Hbefore; apply elem_of_app; by left).
  unfold cut in Hrest; cbn [fst snd] in Hrest. destruct (Z.ltb_spec (vm_start v) start) as [Hl|Hl].
  - rewrite vma_resize_ok by (auto; lia). cbn [res_bind]. set (v' := mk_vma _ _ _ _ _).
    destruct (insert_vma_ok rb_alloc (mm s) a v' l1 r) as (m' & -> & I' & E' & _ & C'); [done|done|done| | | |].
    { change (0 <= vm_start v). unfold USERBASE in U1. lia. }
    { change (vm_start v < start). lia. }
    { split; [done|]. intros y Hy. cbn. specialize (Hafter y Hy). lia. }
    cbn [res_bind]. eapply returns_bind; [apply Hun; [done|lia..]|]. intros p' [Hp' Hd'].
    apply (Hrest _ [(a, v')]); auto; cbn [mm shrefs set_mm]; auto.
    cbn [app]. by apply (share_ok_resize _ a v).
  - destruct (Z.ltb_spec e (vm_end v)) as [Hh|Hh].
    + rewrite vma_resize_ok by (auto; lia). cbn [res_bind]. set (v' := mk_vma _ _ _ _ _).
      destruct (insert_vma_ok rb_alloc (mm s) a v' l1 r) as (m' & -> & I' & E' & _ & C'); [done|done|done| | | |].
      { change (0 <= e). unfold USERBASE in U1. lia. }
      { change (e < vm_end v). lia. }
      { split; [|done]. intros x Hx. cbn. specialize (Hs_cur x Hx). lia. }
      cbn [res_bind]. eapply returns_bind; [apply Hun; [done|lia..]|]. intros p' [Hp' Hd'].
      apply (Hrest _ [(a, v')]); auto; cbn [mm shrefs set_mm]; auto.
      cbn [app]. by apply (share_ok_resize _ a v).
    + destruct (vma_destroy_ok a v (l1 ++ mid ++ r) s Hsh1) as (s1 & -> & Em & Ep & Hsh2). cbn [res_bind].
      eapply returns_bind; [apply Hun; [done|lia..]|]. intros p' [Hp' Hd'].
      apply (Hrest _ []); cbn [mm shrefs app]; rewrite ?Em; auto.
Qed.

End UnmapProofs.

Lemma view_window l1 old new l2 start e x :
  sorted_from 0 (l1 ++ old ++ l2) -> sorted_from 0 (l1 ++ new ++ l2) ->
  (forall y, y ∈ l1 -> vm_end y.2 <= start) -> (forall y, y ∈ l2 -> e <= vm_start y.2) ->
  (forall f, (exists y, y ∈ new /\ inside y.2 x /\ vm_flags y.2 = f) <->
             ~ (start <= x < e) /\ exists y, y ∈ old /\ inside y.2 x /\ vm_flags y.2 = f) ->
  view (l1 ++ new ++ l2) x = if (start <=? x) && (x <? e) then None else view (l1 ++ old ++ l2) x.
Proof.
  intros So Sn H1 H2 Hn. apply option_eq. intros f. rewrite (view_Some 0) by done.
  assert (Hw : (if (start <=? x) && (x <? e) then None else view (l1 ++ old ++ l2) x) = Some f <->
               ~ (start <= x < e) /\ view (l1 ++ old ++ l2) x = Some f).
  { destruct ((start <=? x) && (x <? e)) eqn:E.
    - apply andb_true_iff in E. split; [done|]. lia.
    - apply andb_false_iff in E. split; [|tauto]. intros ?; split; [lia|done]. }
  rewrite Hw, (view_Some 0) by done. clear Hw. specialize (Hn f). split.
  - intros (y & [Hy|[Hy|Hy]%elem_of_app]%elem_of_app & Hin & Hf).
    + specialize (H1 y Hy). unfold inside in Hin. split; [lia|]. exists y. rewrite elem_of_app. by split_and!; [left|..].
    + destruct (proj1 Hn) as (Hx & z & Hz & ? & ?); [eauto|]. split; [done|]. exists z. rewrite !elem_of_app. auto.
    + specialize (H2 y Hy). unfold inside in Hin. split; [lia|]. exists y. rewrite !elem_of_app. auto.
  - intros (Hx & y & [Hy|[Hy|Hy]%elem_of_app]%elem_of_app & Hin & Hf).
    + exists y. rewrite elem_of_app. by split_and!; [left|..].
    + destruct (proj2 Hn) as (z & Hz & ? & ?); [eauto|]. exists z. rewrite !elem_of_app. auto.
    + exists y. rewrite !elem_of_app. auto.
Qed.

Lemma vput_mid b v v' l1 l2 : b ∉ l1.*1 -> vput b v' (l1 ++ (b, v) :: l2) = l1 ++ (b, v') :: l2.
Proof.
  induction l1 as [|[x w] l1 IH]; cbn; [by rewrite decide_True|].
  intros [? ?]%not_elem_of_cons. rewrite decide_False by congruence. by rewrite IH.
Qed.

Lemma from_mid b v l1 l2 : b ∉ l1.*1 -> from b (l1 ++ (b, v) :: l2) = (b, v) :: l2.
Proof.
  induction l1 as [|[x w] l1 IH]; cbn; [by rewrite decide_True|].
  intros [? ?]%not_elem_of_cons. rewrite decide_False by congruence. auto.
Qed.

Lemma addr_not_before m b v l1 l2 : mm_inv m -> mmap_list m = l1 ++ (b, v) :: l2 -> b ∉ l1.*1.
Proof.
  intros I El. pose proof (mi_nodup _ I) as Hnd. rewrite El, fmap_app in Hnd.
  apply NoDup_app in Hnd as (_ & Hd & _). intros Hin. apply (Hd b Hin). left.
Qed.

(** Changing the bounds of an area in place. *)
Lemma mm_inv_vput m b v v' l1 l2 :
  mm_inv m -> mmap_list m = l1 ++ (b, v) :: l2 -> sorted_from 0 (l1 ++ (b, v') :: l2) ->
  mm_inv (set_list (vput b v' (mmap_list m)) m) /\ vput b v' (mmap_list m) = l1 ++ (b, v') :: l2.
Proof.
  intros I El Hs. assert (E : vput b v' (mmap_list m) = l1 ++ (b, v') :: l2).
  { rewrite El. apply vput_mid. by eapply addr_not_before. }
  assert (Ea : (l1 ++ (b, v') :: l2).*1 = (mmap_list m).*1) by (by rewrite El, !fmap_app).
  split; [|done]. rewrite E. split; cbn [mmap_list mmap_tree mmap_cache map_count set_list]; rewrite ?Ea; try apply I; [done|].
  rewrite (mi_count _ I), El, !length_app. done.
Qed.

(** The areas from the first one that ends after [start], split at [e]. *)
Lemma split_window lo e l :
  sorted_from lo l -> exists mid l2, l = mid ++ l2 /\
    (forall x, x ∈ mid -> vm_start x.2 < e) /\ (forall y, y ∈ l2 -> e <= vm_start y.2).
Proof.
  revert lo. induction l as [|[a v] l IH]; intros lo Hs.
  - exists [], []. split_and!; [done|intros x Hx; by apply not_elem_of_nil in Hx..].
  - destruct Hs as (H1 & H2 & H3). destruct (Z.le_gt_cases e (vm_start v)) as [Hle|Hgt].
    + exists [], ((a, v) :: l). split_and!; [done|intros x Hx; by apply not_elem_of_nil in Hx|].
      intros y [->|Hy]%elem_of_cons; [done|]. destruct (sorted_from_elem _ _ _ H3 Hy). lia.
    + destruct (IH _ H3) as (mid & l2 & -> & M1 & M2). exists ((a, v) :: mid), l2. split_and!; [done| |done].
      intros x [->|Hx]%elem_of_cons; [cbn; lia|auto].
Qed.

Lemma cut_elem start e x y :
  start <= e -> y ∈ cut start e x -> user_vma x.2 -> vm_start x.2 < e -> start < vm_end x.2 ->
  start mod PGSIZE = 0 -> e mod PGSIZE = 0 ->
  y.1 = x.1 /\ user_vma y.2 /\ vm_flags y.2 = vm_flags x.2 /\
  vm_start x.2 <= vm_start y.2 /\ vm_end y.2 <= vm_end x.2.
Proof.
  intros Hse Hy (U1 & U2 & U3 & U4) H1 H2 A1 A2. unfold cut in Hy.
  destruct (Z.ltb_spec (vm_start x.2) start); [|destruct (Z.ltb_spec e (vm_end x.2))];
    [apply list_elem_of_singleton in Hy as ->..|by apply not_elem_of_nil in Hy];
    unfold user_vma; cbn; split_and!; auto; lia.
Qed.

Lemma cut_inside start e x z f :
  start <= e -> vm_start x.2 < e -> start < vm_end x.2 -> ~ straddles start e x.2 ->
  (exists y, y ∈ cut start e x /\ inside y.2 z /\ vm_flags y.2 = f) <->
  ~ (start <= z < e) /\ inside x.2 z /\ vm_flags x.2 = f.
Proof.
  intros Hse H1 H2 H3. unfold cut, straddles, inside in *.
  destruct (Z.ltb_spec (vm_start x.2) start); [|destruct (Z.ltb_spec e (vm_end x.2))]; split.
  - intros (y & ->%list_elem_of_singleton & Hin & Hf). cbn in *. split_and!; auto; lia.
  - intros (Hn & Hin & Hf). eexists; split; [by apply list_elem_of_singleton|]. cbn. split; [lia|done].
  - intros (y & ->%list_elem_of_singleton & Hin & Hf). cbn in *. split_and!; auto; lia.
  - intros (Hn & Hin & Hf). eexists; split; [by apply list_elem_of_singleton|]. cbn. split; [lia|done].
  - intros (y & Hy%not_elem_of_nil & _). done.
  - intros (Hn & Hin & _). lia.
Qed.

Section Unmap.
Context `{RB : RbTree}.
Context (rb_alloc : mm_struct -> bool).
Context `{PT : PageTables}.

(** No page table entry is outside the areas of the address space. *)
Definition covered (m : mm_struct) (p : PG) : Prop :=
  forall v x, pt_entry p v = Some x -> is_Some (aspace m (v * PGSIZE)).

(** The window has no entries any more and the others are as they were. *)
Definition without (start e : Z) (p p' : PG) : Prop :=
  forall v, pt_entry p' v = if decide (start <= v * PGSIZE < e) then None else pt_entry p v.

Lemma covered_without m m' start e p p' :
  covered m p -> mapped_as m m' start e None -> without start e p p' -> covered m' p'.
Proof.
  intros C M W v x Hx. rewrite W in Hx. case_decide as Hw; [done|]. rewrite M.
  replace ((start <=? v * PGSIZE) && (v * PGSIZE <? e)) with false; [by eapply C|].
  symmetry. apply andb_false_iff. lia.
Qed.

Lemma drops_without m start e (P : Z -> Prop) p p' :
  covered m p -> drops start e P p p' -> (forall x, start <= x < e -> is_Some (aspace m x) -> P x) -> without start e p p'.
Proof.
  intros C D HP v. destruct (D v) as (D1 & D2 & D3). case_decide as Hw; [|auto].
  destruct (pt_entry p' v) as [x|] eqn:Ex; [|done]. destruct D3 as [E3|E3]; [congruence|].
  apply D1, HP; [done|done|]. by eapply (C v x).
Qed.

Lemma without_unmapped m start e p : covered m p -> unmapped (aspace m) start e -> without start e p p.
Proof.
  intros C Hu v. case_decide as Hw; [|done]. destruct (pt_entry p v) as [x|] eqn:Ex; [|done].
  destruct (C v x Ex) as [f Hf]. rewrite Hu in Hf by lia. done.
Qed.

(** What every user address space satisfies. *)
Record vm_inv (s : vm) : Prop := {
  vi_mm : mm_inv (mm s);
  vi_user : user_mm (mm s);
  vi_share : share_ok (shrefs s) (mmap_list (mm s));
  vi_pg : pt_inv (pg s);
  vi_covered : covered (mm s) (pg s)
}.

Definition no_shared_split (start e : Z) (m : mm_struct) : Prop :=
  forall x, x ∈ mmap_list m -> straddles start e x.2 -> has (vm_flags x.2) VM_SHARE = false.

(** The window lies strictly inside one area. *)
Lemma unmap_split_ok (s : vm) m a b v l1 l2 start e :
  vm_inv s -> mm_inv m -> mmap_list m = mmap_list (mm s) -> mmap_list (mm s) = l1 ++ (b, v) :: l2 ->
  a ∉ (mmap_list (mm s)).*1 -> start < e -> start mod PGSIZE = 0 -> e mod PGSIZE = 0 ->
  straddles start e v -> has (vm_flags v) VM_SHARE = false ->
  returns (let* v' := vma_resize v e (vm_end v) in
           let m := set_list (vput b v' (mmap_list m)) m in
           let* m := insert_vma_struct rb_alloc m (a, mk_vma (vm_start v) start (vm_flags v) None 0) in
           let* p := pt_unmap_range start e (pg s) in
           Ok (0, mk_vm m (shrefs s) p)) (fun '(ret, s') =>
    ret = 0 /\ vm_inv s' /\ mapped_as (mm s) (mm s') start e None /\ without start e (pg s) (pg s') /\
    (forall y, y ∈ (mmap_list (mm s')).*1 -> y = a \/ y ∈ (mmap_list (mm s)).*1)).
Proof.
  intros [I0 U Sh Pg Cv] I Em El Hn Hse A1 A2 [H1 H2] Hns. pose proof (mi_sorted _ I0) as Hs. rewrite El in Hs.
  assert (Hv : user_vma v).
  { unfold user_mm in U. rewrite El, Forall_app, Forall_cons in U. by destruct U as (_ & ? & _). }
  pose proof Hv as (U1 & U2 & U3 & U4).
  rewrite vma_resize_ok by (auto; lia). cbn [res_bind]. set (v' := mk_vma e _ _ _ _). set (nv := mk_vma _ start _ _ _).
  pose proof Hs as Hs0. apply sorted_from_app in Hs as (S1 & S2 & S3 & S4 & S5).
  assert (Hs' : sorted_from 0 (l1 ++ (b, v') :: l2)).
  { apply sorted_from_app. split_and!; [done| |cbn; split_and!; [unfold USERBASE in U1; lia|lia|done]].
    intros x Hx y [->|Hy]%elem_of_cons; [|apply S2; [done|by right]].
    specialize (S2 x Hx (b, v) ltac:(left)). cbn in *. lia. }
  destruct (mm_inv_vput m b v v' l1 l2 I) as [I1 E1]; [congruence|done|].
  assert (Hf : fits nv l1 ((b, v') :: l2)).
  { split.
    - intros x Hx. exact (S2 x Hx (b, v) ltac:(left)).
    - intros y [->|Hy]%elem_of_cons; cbn; [lia|]. destruct (sorted_from_elem _ _ _ S5 Hy). lia. }
  eapply returns_bind; [apply (insert_vma_ok rb_alloc _ a nv l1 ((b, v') :: l2)); [done|exact E1| | | |done]|].
  - cbn [mmap_list set_list]. rewrite E1. rewrite El in Hn. rewrite fmap_app in *. exact Hn.
  - change (0 <= vm_start v). unfold USERBASE in U1. lia.
  - change (vm_start v < start). lia.
  - intros m' (I' & E' & _).
    eapply returns_bind; [apply (pt_unmap_ok start e (pg s) Pg A1 A2); apply USER_ACCESS_spec; lia|].
    intros p' [Hp' Hw']. apply returns_ok.
    set (s' := mk_vm m' (shrefs s) p'). cut (user_mm m' /\ share_ok (shrefs s) (mmap_list m') /\
      mapped_as (mm s) m' start e None /\ forall y, y ∈ (mmap_list m').*1 -> y = a \/ y ∈ (mmap_list (mm s)).*1).
    { intros (H3 & H4 & H5 & H6). split_and!; auto. split; auto. by eapply covered_without. }
    split_and!.
    + unfold user_mm in *. rewrite E'. rewrite El, Forall_app, Forall_cons in U. destruct U as (? & _ & ?).
        rewrite Forall_app, !Forall_cons. split_and!; auto; unfold user_vma; cbn; split_and!; auto; lia.
    + rewrite E'. rewrite El in Sh. eapply (share_ok_perm _ ((a, nv) :: l1 ++ (b, v') :: l2)); [solve_Permutation|].
        assert (Sh' : share_ok (shrefs s) (l1 ++ (b, v') :: l2)).
        { apply (share_ok_perm _ ((b, v') :: l1 ++ l2)); [solve_Permutation|].
          apply (share_ok_resize _ b v); [done|done|].
          apply (share_ok_perm _ (l1 ++ (b, v) :: l2)); [solve_Permutation|exact Sh]. }
        destruct Sh' as [Q1 Q2]. split.
        * intros x [->|Hx]%elem_of_cons; [cbn; congruence|auto].
        * intros sh. assert (E : nshares sh ((a, nv) :: l1 ++ (b, v') :: l2) = nshares sh (l1 ++ (b, v') :: l2)).
           { unfold nshares, shares at 1; cbn [List.filter snd vm_flags nv]. by rewrite Hns. }
           rewrite E. apply Q2.
    + intros x. unfold aspace; cbn [mm]. rewrite E', El.
      apply (view_window l1 [(b, v)] [(a, nv); (b, v')] l2).
      * done.
      * change (sorted_from 0 (l1 ++ (a, nv) :: (b, v') :: l2)). rewrite <- E'. apply I'.
      * intros y Hy. specialize (S2 y Hy (b, v) ltac:(left)). cbn in S2. lia.
      * intros y Hy. destruct (sorted_from_elem _ _ _ S5 Hy). lia.
      * intros f. split.
        -- intros (y & [->|[->|Hy%not_elem_of_nil]%elem_of_cons]%elem_of_cons & Hin & Hfl); [| |done];
             unfold inside in Hin; cbn in Hin, Hfl; (split; [lia|]); exists (b, v); unfold inside; cbn;
             (split_and!; [left|lia|lia|done]).
        -- intros (Hnw & y & ->%list_elem_of_singleton & Hin & Hfl). unfold inside in Hin; cbn in Hin, Hfl.
           destruct (Z.lt_ge_cases x start).
           ++ exists (a, nv). unfold inside; cbn. split_and!; [left|lia|lia|done].
           ++ exists (b, v'). unfold inside; cbn. split_and!; [right; left|lia|lia|done].
    + intros y. rewrite E', El, !fmap_app, !elem_of_app. cbn. rewrite !elem_of_cons. tauto.
Qed.

(** The window meets a run of areas. *)
Lemma unmap_run_ok (s : vm) m b v l1 rest start e :
  vm_inv s -> mm_inv m -> mmap_list m = mmap_list (mm s) -> mmap_list (mm s) = l1 ++ (b, v) :: rest ->
  (forall x, x ∈ l1 -> vm_end x.2 <= start) -> start < vm_end v -> vm_start v < e ->
  start < e -> start mod PGSIZE = 0 -> e mod PGSIZE = 0 -> ~ straddles start e v ->
  returns (let* (m, free) := unmap_collect e (from b (mmap_list m)) m [] in
           let* s := unmap_release rb_alloc start e free (set_mm m s) in
           Ok (0, s)) (fun '(ret, s') =>
    ret = 0 /\ vm_inv s' /\ mapped_as (mm s) (mm s') start e None /\ without start e (pg s) (pg s') /\
    (forall y, y ∈ (mmap_list (mm s')).*1 -> y ∈ (mmap_list (mm s)).*1)).
Proof.
  intros [I0 U Sh Pg Cv] I Em El Hl1 Hv1 Hv2 Hse A1 A2 Hnst. pose proof (mi_sorted _ I0) as Hs. rewrite El in Hs.
  pose proof Hs as Hs0. apply sorted_from_app in Hs as (S1 & S2 & S3 & S4 & S5).
  rewrite Em, El, from_mid by (by eapply (addr_not_before m); [|rewrite Em]).
  destruct (split_window (vm_end v) e rest S5) as (mid' & l2 & -> & M1 & M2).
  set (mid := (b, v) :: mid').
  change ((b, v) :: mid' ++ l2) with (mid ++ l2) in *.
  assert (Hmid : forall x, x ∈ mid -> vm_start x.2 < e) by (intros x [->|Hx]%elem_of_cons; [done|auto]).
  assert (Hend : forall x, x ∈ mid -> start < vm_end x.2 /\ ~ straddles start e x.2).
  { intros x [->|Hx]%elem_of_cons; [by split|].
    destruct (sorted_from_elem _ _ x S5) as [? ?]; [apply elem_of_app; by left|]. unfold straddles. split; lia. }
  assert (Humid : forall x, x ∈ mid -> user_vma x.2).
  { intros x Hx. unfold user_mm in U. rewrite Forall_forall in U. apply U. rewrite El, !elem_of_app. auto. }
  eapply returns_bind; [apply (unmap_collect_ok e mid m l1 l2 []); auto; congruence|].
  intros [m' free] (I' & E' & -> & _). rewrite app_nil_r.
  assert (Smid : sorted_from 0 (l1 ++ mid)).
  { rewrite app_assoc in Hs0. by apply sorted_from_app in Hs0 as [? _]. }
  assert (Hafter : forall x, x ∈ l1 ++ mid -> forall y, y ∈ l2 -> vm_end x.2 <= vm_start y.2).
  { rewrite app_assoc in Hs0. by apply sorted_from_app in Hs0 as (_ & ? & _). }
  eapply returns_bind; [apply (unmap_release_ok rb_alloc start e mid (set_mm m' s) l1 l2); [done|done|done|done|done|done| | | | |done]|].
  - intros x Hx. destruct (Hend x Hx). by split_and!; auto.
  - intros x Hx. apply Hafter. apply elem_of_app. by right.
  - rewrite <- El. apply I0.
  - cbn [shrefs set_mm]. by rewrite <- El.
  - intros s' (J & Es & Shs & _ & Pg' & Dr). apply returns_ok.
    assert (Hw : without start e (pg s) (pg s')).
    { eapply drops_without; [exact Cv|exact Dr|]. intros x Hx [f (y & Hy & Hin & _)%(view_Some 0)]; [|apply I0].
      unfold inside in Hin. rewrite El in Hy. apply elem_of_app in Hy as [Hy|[Hy|Hy]%elem_of_app].
      - specialize (Hl1 y Hy). lia.
      - by exists y.
      - specialize (M2 y Hy). lia. }
    assert (Hjoin : forall y, y ∈ mjoin (cut start e <$> mid) <-> exists x, x ∈ mid /\ y ∈ cut start e x).
    { intros y. rewrite list_elem_of_join. split.
      - intros (l & Hy & (x & -> & Hx)%list_elem_of_fmap). eauto.
      - intros (x & Hx & Hy). exists (cut start e x). split; [done|]. by apply list_elem_of_fmap_2. }
    cut (user_mm (mm s') /\ mapped_as (mm s) (mm s') start e None /\
         forall y, y ∈ (mmap_list (mm s')).*1 -> y ∈ (l1 ++ mid ++ l2).*1).
    { intros (H3 & H4 & H5). split_and!; auto. split; auto. by eapply covered_without. }
    split_and!.
    + unfold user_mm in *. rewrite Es. rewrite El in U. rewrite !Forall_app in *.
      destruct U as (? & _ & ?). split_and!; auto. apply Forall_forall. intros y (x & Hx & Hy)%Hjoin.
      destruct (cut_elem start e x y) as (_ & ? & _); auto; [lia|by apply Hend].
    + intros x. unfold aspace. rewrite Es, El. apply (view_window l1 mid); auto.
      * rewrite <- Es. apply J.
      * intros f. split.
        -- intros (y & (z & Hz & Hy)%Hjoin & Hin & Hf).
           destruct (proj1 (cut_inside start e z x f ltac:(lia) (Hmid z Hz) (proj1 (Hend z Hz)) (proj2 (Hend z Hz))))
             as (? & ? & ?); [eauto|]. split; [done|eauto].
        -- intros (Hnw & z & Hz & Hin & Hf).
           destruct (proj2 (cut_inside start e z x f ltac:(lia) (Hmid z Hz) (proj1 (Hend z Hz)) (proj2 (Hend z Hz))))
             as (y & Hy & ? & ?); [done|]. exists y. split_and!; auto. apply Hjoin. eauto.
    + intros y (z & -> & Hz)%list_elem_of_fmap. rewrite Es, !elem_of_app in Hz. rewrite !fmap_app, !elem_of_app.
      destruct Hz as [Hz|[(x & Hx & Hz)%Hjoin|Hz]]; [left; by apply list_elem_of_fmap_2| |right; right; by apply list_elem_of_fmap_2].
      right; left. destruct (cut_elem start e x z) as (-> & _); auto; [lia|by apply Hend|by apply list_elem_of_fmap_2].
Qed.

Lemma mm_unmap_ok a addr len (s : vm) :
  let start := ROUNDDOWN addr PGSIZE in
  let e := ROUNDUP (u32 (addr + len)) PGSIZE in
  vm_inv s -> a ∉ (mmap_list (mm s)).*1 -> no_shared_split start e (mm s) ->
  returns (mm_unmap rb_alloc (Some a) addr len s) (fun '(ret, s') =>
    vm_inv s' /\
    (forall y, y ∈ (mmap_list (mm s')).*1 -> y = a \/ y ∈ (mmap_list (mm s)).*1) /\
    if USER_ACCESS start e then ret = 0 /\ mapped_as (mm s) (mm s') start e None /\ without start e (pg s) (pg s')
    else ret = - E_INVAL /\ s' = s).
Proof.
  intros start e V Hn Hns. pose proof V as [I U Sh Pg Cv]. unfold mm_unmap. fold start e.
  destruct (USER_ACCESS start e) eqn:Ea; cbn [negb]; [|apply returns_ok; by split_and!; auto].
  apply USER_ACCESS_spec in Ea as (Hb1 & Hb2 & Hb3).
  assert (I' : mm_inv (found (mm s) start)) by by apply found_inv.
  assert (Vf : vm_inv (set_mm (found (mm s) start) s)).
  { split; cbn [mm shrefs set_mm pg]; [done|unfold user_mm; by rewrite found_list|by rewrite found_list|done|].
    intros w x Hx. unfold aspace. rewrite found_list. by eapply Cv. }
  assert (Hskip : unmapped (aspace (mm s)) start e ->
            mapped_as (mm s) (mm (set_mm (found (mm s) start) s)) start e None /\ without start e (pg s) (pg s)).
  { intros Hun. split; [|by eapply without_unmapped]. intros x. unfold aspace; cbn [mm set_mm]. rewrite found_list.
    destruct ((start <=? x) && (x <? e)) eqn:E; [|done]. apply andb_true_iff in E. apply Hun. lia. }
  assert (Hfound : forall m', mapped_as (found (mm s) start) m' start e None -> mapped_as (mm s) m' start e None)
    by (intros m' M x; rewrite M; unfold aspace; by rewrite found_list).
  assert (A1 : start mod PGSIZE = 0) by apply ROUNDDOWN_aligned.
  assert (A2 : e mod PGSIZE = 0) by apply ROUNDUP_aligned.
  destruct (find_vma_cases (mm s) start e I Hb2) as [(b & v & l1 & l2 & -> & El & Hl1 & Hlt & Hat & Hiff)|(-> & Hun & _)];
    cbn [res_bind]; [rewrite Hat; cbn [res_bind]|apply returns_ok; cbn [mm set_mm pg]; rewrite found_list; split_and!; auto; by apply Hskip].
  destruct (Z.leb_spec e (vm_start v)) as [Hle|Hgt]; [apply returns_ok; cbn [mm set_mm pg]; rewrite found_list; split_and!; auto; by apply Hskip, Hiff|].
  destruct (Z.ltb_spec (vm_start v) start) as [H1|H1]; [destruct (Z.ltb_spec e (vm_end v)) as [H2|H2]|]; cbn [andb].
  - cbn [vma_create]. eapply returns_mono.
    + apply (unmap_split_ok (set_mm (found (mm s) start) s) (found (mm s) start) a b v l1 l2 start e);
        auto; cbn [mm set_mm]; rewrite ?found_list; auto; [by split|].
      apply (Hns (b, v)); [rewrite El; apply elem_of_app; right; left|by split].
    + intros [ret s'] (-> & V' & M' & W' & A'). cbn [mm set_mm] in A'. rewrite found_list in A'. split_and!; auto.
  - eapply returns_mono.
    + apply (unmap_run_ok (set_mm (found (mm s) start) s) (found (mm s) start) b v l1 l2 start e);
        auto; cbn [mm set_mm]; rewrite ?found_list; auto. unfold straddles. lia.
    + intros [ret s'] (-> & V' & M' & W' & A'). cbn [mm set_mm] in A'. rewrite found_list in A'. split_and!; auto.
  - eapply returns_mono.
    + apply (unmap_run_ok (set_mm (found (mm s) start) s) (found (mm s) start) b v l1 l2 start e);
        auto; cbn [mm set_mm]; rewrite ?found_list; auto. unfold straddles. lia.
    + intros [ret s'] (-> & V' & M' & W' & A'). cbn [mm set_mm] in A'. rewrite found_list in A'. split_and!; auto.
Qed.

End Unmap.

(** *** The heap *)

Lemma ROUND_id e : e mod PGSIZE = 0 -> 0 <= e <= USERTOP -> ROUNDDOWN e PGSIZE = e /\ ROUNDUP (u32 e) PGSIZE = e.
Proof.
  intros A H. unfold USERTOP in H. split; [unfold ROUNDDOWN; lia|]. unfold ROUNDUP, ROUNDDOWN.
  rewrite (u32_small e), (u32_small (e + PGSIZE)), u32_small by (unfold PGSIZE; lia).
  unfold PGSIZE in *. replace (e + 4096 - 1) with (4095 + e) by lia.
  rewrite Zplus_mod, A, Z.add_0_r, Zmod_mod. change (4095 mod 4096) with 4095. lia.
Qed.

Section Brk.
Context `{RB : RbTree}.
Context (rb_alloc : mm_struct -> bool).
Context `{PT : PageTables}.

Definition RW : Z := Z.lor VM_READ VM_WRITE.

(** Growing an area into the free window behind it. *)
Lemma grow_ok m b v l1 l2 e :
  mm_inv m -> user_mm m -> mmap_list m = l1 ++ (b, v) :: l2 -> vm_end v < e -> e <= USERTOP -> e mod PGSIZE = 0 ->
  unmapped (aspace m) (vm_end v) e ->
  let v' := mk_vma (vm_start v) e (vm_flags v) (shmem v) (shmem_off v) in
  let m' := set_list (vput b v' (mmap_list m)) m in
  mm_inv m' /\ user_mm m' /\ mmap_list m' = l1 ++ (b, v') :: l2 /\ mapped_as m m' (vm_end v) e (Some (vm_flags v)).
Proof.
  intros I U El He Htop Ae Hun v' m'. pose proof (mi_sorted _ I) as Hs. rewrite El in Hs.
  pose proof Hs as Hs0. apply sorted_from_app in Hs as (S1 & S2 & S3 & S4 & S5).
  assert (Hl2 : forall y, y ∈ l2 -> e <= vm_start y.2).
  { intros y Hy. destruct (sorted_from_elem _ _ _ S5 Hy) as [G1 G2].
    destruct (Z.le_gt_cases e (vm_start y.2)) as [?|Hgt]; [done|]. exfalso.
    assert (Hn : aspace m (vm_start y.2) = None) by (apply Hun; lia). unfold aspace in Hn. rewrite El in Hn.
    rewrite (view_None 0) in Hn by done. apply (Hn y); [apply elem_of_app; right; by right|]. unfold inside. lia. }
  assert (Hs' : sorted_from 0 (l1 ++ (b, v') :: l2)).
  { apply sorted_from_app. split_and!; [done| |].
    - intros x Hx y [->|Hy]%elem_of_cons; [exact (S2 x Hx (b, v) ltac:(left))|apply S2; [done|by right]].
    - cbn. split_and!; [done|lia|]. destruct l2 as [|[c w] l2]; [done|]. cbn in *. destruct S5 as (? & ? & ?).
      split_and!; auto. exact (Hl2 (c, w) ltac:(left)). }
  destruct (mm_inv_vput m b v v' l1 l2 I El Hs') as [I' E']. split_and!; [done| |done|].
  - unfold user_mm in *. cbn [mmap_list m' set_list]. rewrite E'. rewrite El, Forall_app, Forall_cons in U.
    destruct U as (? & (? & ? & ? & ?) & ?). rewrite Forall_app, Forall_cons. split_and!; auto.
    unfold user_vma; cbn. split_and!; auto.
  - intros x. unfold aspace. cbn [mmap_list m' set_list]. rewrite E', El. apply option_eq. intros f.
    rewrite (view_Some 0) by done.
    destruct ((vm_end v <=? x) && (x <? e)) eqn:Eb; [apply andb_true_iff in Eb|apply andb_false_iff in Eb; rewrite (view_Some 0) by done].
    + split.
      * intros (y & [Hy|[->|Hy]%elem_of_cons]%elem_of_app & Hin & Hf).
        -- specialize (S2 y Hy (b, v) ltac:(left)). unfold inside in Hin. cbn in S2. lia.
        -- cbn in Hf. by rewrite Hf.
        -- specialize (Hl2 y Hy). unfold inside in Hin. lia.
      * intros [= <-]. exists (b, v'). split_and!; [apply elem_of_app; right; left|unfold inside; cbn; lia..|done].
    + split; intros (y & Hy & Hin & Hf); apply elem_of_app in Hy as [Hy|[->|Hy]%elem_of_cons].
      * exists y. rewrite elem_of_app. auto.
      * exists (b, v). unfold inside in *; cbn in *. split_and!; [apply elem_of_app; right; left|lia|lia|done].
      * exists y. rewrite elem_of_app, elem_of_cons. auto.
      * exists y. rewrite elem_of_app. auto.
      * exists (b, v'). unfold inside in *; cbn in *. split_and!; [apply elem_of_app; right; left|lia|lia|done].
      * exists y. rewrite elem_of_app, elem_of_cons. auto.
Qed.

Lemma share_ok_plain refs a v l : has (vm_flags v) VM_SHARE = false -> share_ok refs l -> share_ok refs ((a, v) :: l).
Proof.
  intros Hf [H1 H2]. split.
  - intros x [->|Hx]%elem_of_cons; [cbn; congruence|auto].
  - intros sh. assert (E : nshares sh ((a, v) :: l) = nshares sh l)
      by (unfold nshares, shares at 1; cbn [List.filter snd]; by rewrite Hf).
    rewrite E. apply H2.
Qed.

Lemma mm_brk_ok a1 a2 addr len (s : vm) :
  let start := ROUNDDOWN addr PGSIZE in
  let e := ROUNDUP (u32 (addr + len)) PGSIZE in
  vm_inv s -> a1 ∉ (mmap_list (mm s)).*1 -> a2 ∉ (mmap_list (mm s)).*1 -> a1 <> a2 ->
  no_shared_split start e (mm s) ->
  returns (mm_brk rb_alloc (Some a1) (Some a2) addr len s) (fun '(ret, s') =>
    vm_inv s' /\
    if USER_ACCESS start e then ret = 0 /\ mapped_as (mm s) (mm s') start e (Some RW) /\ without start e (pg s) (pg s')
    else ret = - E_INVAL /\ s' = s).
Proof.
  intros start e V Hn1 Hn2 Hne Hns. unfold mm_brk. fold start e.
  destruct (USER_ACCESS start e) eqn:Ea; cbn [negb]; [|by apply returns_ok].
  pose proof Ea as (Hb1 & Hb2 & Hb3)%USER_ACCESS_spec.
  assert (A1 : start mod PGSIZE = 0) by apply ROUNDDOWN_aligned.
  assert (A2 : e mod PGSIZE = 0) by apply ROUNDUP_aligned.
  assert (Hst : 0 <= start <= USERTOP) by (unfold USERBASE in *; lia).
  assert (Hen : 0 <= e <= USERTOP) by (unfold USERBASE in *; lia).
  destruct (ROUND_id start A1 Hst) as [R1 _]. destruct (ROUND_id e A2 Hen) as [_ R2].
  pose proof (mm_unmap_ok rb_alloc a1 start (e - start) s) as Hu. cbv zeta in Hu.
  replace (start + (e - start)) with e in Hu by lia. rewrite R1, R2, Ea in Hu.
  eapply returns_bind; [by apply Hu|]. intros [ret s1] (V1 & Had & -> & M1 & W1). cbn [negb Z.eqb].
  pose proof V1 as [I1 U1 Sh1 Pg1 Cv1].
  assert (Hun : unmapped (aspace (mm s1)) start e).
  { intros x Hx. rewrite M1. replace ((start <=? x) && (x <? e)) with true; [done|].
    symmetry. apply andb_true_iff. lia. }
  assert (Hmap : forall m, mapped_as (mm s1) m start e (Some RW) -> mapped_as (mm s) m start e (Some RW)).
  { intros m Hm x. rewrite Hm. destruct ((start <=? x) && (x <? e)) eqn:E; [done|]. rewrite M1, E. done. }
  assert (Hcov : forall m, mapped_as (mm s1) m start e (Some RW) -> covered m (pg s1)).
  { intros m Hm v x Hx. rewrite Hm. destruct (_ && _); [done|by eapply Cv1]. }
  assert (If : mm_inv (found (mm s1) (start - 1))) by by apply found_inv.
  assert (Uf : user_mm (found (mm s1) (start - 1))) by (unfold user_mm; by rewrite found_list).
  assert (Af : forall x, aspace (found (mm s1) (start - 1)) x = aspace (mm s1) x)
    by (intros x; unfold aspace; by rewrite found_list).
  assert (Hnew : returns
      (let* m := insert_vma_struct rb_alloc (found (mm s1) (start - 1)) (a2, mk_vma start e RW None 0) in
       Ok (0, set_mm m s1)) (fun '(ret, s') => vm_inv s' /\ ret = 0 /\
         mapped_as (mm s) (mm s') start e (Some RW) /\ without start e (pg s) (pg s'))).
  { eapply returns_bind.
    - apply insert_mapped; [done| |cbn; lia|done|].
      + rewrite found_list. intros Hin. destruct (Had a2 Hin); [congruence|done].
      + intros x Hx. rewrite Af. by apply Hun.
    - intros m (I2 & M2 & (l1 & l2 & E1 & E2) & _). rewrite found_list in E1. apply returns_ok. cbn [mm set_mm].
      split_and!; [split; cbn [mm shrefs set_mm pg]; [done| | |done|]|done| |done].
      + eapply (user_mm_insert (mm s1)); [done| |exact E1|exact E2]. unfold user_vma; cbn. by split_and!.
      + rewrite E2. rewrite E1 in Sh1. apply (share_ok_perm _ ((a2, mk_vma start e RW None 0) :: l1 ++ l2)); [solve_Permutation|].
        by apply share_ok_plain.
      + apply Hcov. intros x. by rewrite M2, Af.
      + apply Hmap. intros x. rewrite M2, Af. done. }
  destruct (find_vma_cases (mm s1) (start - 1) start I1 ltac:(lia)) as [(b & v & l1 & l2 & -> & El & _ & Hlt & Hat & _)|(-> & _ & _)];
    cbn [res_bind]; [rewrite Hat; cbn [res_bind]|exact Hnew].
  destruct ((vm_end v =? start) && (vm_flags v =? Z.lor VM_READ VM_WRITE)) eqn:Eb; [|exact Hnew].
  apply andb_true_iff in Eb as [E1%Z.eqb_eq E2%Z.eqb_eq]. apply returns_ok.
  destruct (grow_ok (found (mm s1) (start - 1)) b v l1 l2 e) as (I2 & U2 & L2 & M2); [done|done|by rewrite found_list|lia|lia|done| |].
  { rewrite E1. intros x Hx. rewrite Af. by apply Hun. }
  assert (M3 : mapped_as (mm s1) (set_list (vput b (mk_vma (vm_start v) e (vm_flags v) (shmem v) (shmem_off v))
      (mmap_list (found (mm s1) (start - 1)))) (found (mm s1) (start - 1))) start e (Some RW)).
  { intros x. rewrite M2, E1, E2. destruct (_ && _); [done|]. apply Af. }
  cbn [mm set_mm]. split_and!; [split; cbn [mm shrefs set_mm pg]; [done|done| |done|by apply Hcov]|done|by apply Hmap|done].
  rewrite L2. rewrite El in Sh1. set (v' := mk_vma _ _ _ _ _).
  apply (share_ok_perm _ ((b, v') :: l1 ++ l2)); [solve_Permutation|].
  apply (share_ok_resize _ b v); [done|done|]. apply (share_ok_perm _ (l1 ++ (b, v) :: l2)); [solve_Permutation|done].
Qed.

End Brk.

(** *** Queries *)

(** A free window of the user address space. *)
Definition free_window (m : mm_struct) (len r : Z) : Prop :=
  USERBASE <= r /\ r + len <= USERTOP /\ unmapped (aspace m) r (r + len).

(** A window of [len] bytes at [r] is free among the areas [l]. *)
Definition clear_of (l : list (Z * vma_struct)) (len r : Z) : Prop :=
  forall y, y ∈ l -> r + len <= vm_start y.2 \/ vm_end y.2 <= r.

Lemma clear_of_spec l len r : sorted_from 0 l -> 0 < len -> clear_of l len r <-> unmapped (view l) r (r + len).
Proof.
  intros Hs Hl. split.
  - intros H x Hx. apply (view_None 0); [done|]. intros y Hy Hin. unfold inside in Hin. destruct (H y Hy); lia.
  - intros H y Hy. destruct (sorted_from_elem _ _ _ Hs Hy).
    destruct (Z.le_gt_cases (r + len) (vm_start y.2)); [by left|].
    destruct (Z.le_gt_cases (vm_end y.2) r); [by right|]. exfalso.
    assert (Hn : view l (Z.max r (vm_start y.2)) = None) by (apply H; lia).
    rewrite (view_None 0) in Hn by done. apply (Hn y Hy). unfold inside. lia.
Qed.

Lemma gua_loop_ok len l : forall done start,
  0 < len -> sorted_from 0 (rev l ++ done) -> Forall (fun x => user_vma x.2) (rev l ++ done) ->
  0 <= start -> start + len <= USERTOP -> clear_of done len start ->
  (forall r, r + len <= USERTOP -> clear_of done len r -> USERBASE <= r -> r <= start) ->
  let r := gua_loop len l start in
  (r <> 0 -> USERBASE <= r /\ r + len <= USERTOP /\ clear_of (rev l ++ done) len r) /\
  (forall r', USERBASE <= r' -> r' + len <= USERTOP -> clear_of (rev l ++ done) len r' -> r' <= r).
Proof.
  induction l as [|[a v] l IH]; intros done start Hl Hs HU H0 Htop Hc Hmax r; unfold r; cbn [gua_loop rev app].
  - destruct (Z.leb_spec USERBASE start); split; auto.
    + done.
    + intros r' ? ? Hr. assert (r' <= start) by (by apply Hmax). lia.
  - cbn [rev] in Hs, HU. rewrite <- app_assoc in *. cbn [app] in *.
    pose proof Hs as Hs0. apply sorted_from_app in Hs as (S1 & S2 & S3 & S4 & S5).
    pose proof HU as HU0. rewrite Forall_app, Forall_cons in HU. destruct HU as (_ & (U1 & U2 & _) & _). cbn [snd] in *.
    rewrite u32_small by (unfold USERTOP in *; lia).
    destruct (Z.leb_spec (vm_end v) start) as [Hge|Hlt]; [|destruct (Z.ltb_spec (vm_start v) (start + len)) as [Hov|Hno]].
    + split.
      * intros _. split_and!; [lia|done|]. intros y [Hy|[->|Hy]%elem_of_cons]%elem_of_app; [right|by right|auto].
        specialize (S2 y Hy (a, v) ltac:(left)). cbn in S2. lia.
      * intros r' ? ? Hr. apply Hmax; auto. intros y Hy. apply Hr. apply elem_of_app. right. by right.
    + assert (Hcut : forall r', USERBASE <= r' -> r' + len <= USERTOP ->
                clear_of (rev l ++ (a, v) :: done) len r' -> r' <= vm_start v - len).
      { intros r' Hb Ht Hr. destruct (Hr (a, v)) as [?|?]; cbn in *; [apply elem_of_app; right; left|lia|].
        assert (r' <= start); [|lia]. apply Hmax; auto. intros y Hy. apply Hr. apply elem_of_app. right. by right. }
      destruct (Z.leb_spec (vm_start v) len) as [Hle|Hgt].
      * split; [done|]. intros r' Hb Ht Hr. specialize (Hcut r' Hb Ht Hr). lia.
      * destruct (IH ((a, v) :: done) (vm_start v - len)) as [G1 G2]; auto; try lia.
        -- intros y [->|Hy]%elem_of_cons; cbn; [lia|]. left. destruct (sorted_from_elem _ _ _ S5 Hy). lia.
        -- intros r' Ht Hr Hb. destruct (Hr (a, v)) as [?|?]; cbn in *; [left|lia|].
           assert (r' <= start); [|lia]. apply Hmax; auto. intros y Hy. apply Hr. by right.
    + destruct (IH ((a, v) :: done) start) as [G1 G2]; auto.
      * intros y [->|Hy]%elem_of_cons; cbn; [lia|auto].
      * intros r' Ht Hr Hb. apply Hmax; auto. intros y Hy. apply Hr. by right.
Qed.

(** What [user_mem_check] asks of an address. *)
Definition accessible (m : mm_struct) (write : bool) (x : Z) : Prop :=
  exists y, y ∈ mmap_list m /\ inside y.2 x /\ has (vm_flags y.2) (if write then VM_WRITE else VM_READ) = true /\
    (write = true -> has (vm_flags y.2) VM_STACK = true -> vm_start y.2 + PGSIZE <= x).

(** The areas that end after an address. *)
Definition above (start : Z) (l : list (Z * vma_struct)) : nat :=
  length (List.filter (fun x => start <? vm_end x.2) l).

Lemma above_le l s1 s2 : s1 <= s2 -> (above s2 l <= above s1 l)%nat.
Proof.
  intros H. unfold above. induction l as [|y l IH]; cbn; [lia|].
  destruct (Z.ltb_spec s1 (vm_end y.2)), (Z.ltb_spec s2 (vm_end y.2)); cbn; lia.
Qed.

Lemma above_lt l y start : y ∈ l -> start < vm_end y.2 -> (above (vm_end y.2) l < above start l)%nat.
Proof.
  intros (l1 & l2 & ->)%list_elem_of_split Hlt. unfold above. rewrite !List.filter_app, !length_app. cbn.
  pose proof (above_le l1 start (vm_end y.2) ltac:(lia)). pose proof (above_le l2 start (vm_end y.2) ltac:(lia)).
  unfold above in *. rewrite Z.ltb_irrefl, (proj2 (Z.ltb_lt _ _) Hlt). cbn. lia.
Qed.

Lemma above_max l start : (above start l <= length l)%nat.
Proof. unfold above. induction l as [|y l IH]; cbn; [lia|]. destruct (_ <? _); cbn; lia. Qed.

(** Addresses of one area are accessible together, beyond the first one. *)
Lemma umc_loop_ok fuel : forall m start e write,
  mm_inv m -> (above start (mmap_list m) < fuel)%nat ->
  (* [start] is the user's address, or the end of an area *)
  returns (umc_loop fuel m start e write) (fun '(b, m') =>
    mm_inv m' /\ mmap_list m' = mmap_list m /\
    (b = true <-> forall x, start <= x < e -> accessible m write x)).
Proof.
  induction fuel as [|fuel IH]; intros m start e write I Hf; [lia|]. cbn [umc_loop].
  destruct (Z.ltb_spec start e) as [Hse|Hse].
  2: { apply returns_ok. split_and!; auto. split; [|done]. intros _ x Hx. lia. }
  rewrite (find_vma_ok m start I). fold (found m start). cbn [res_bind].
  pose proof (found_inv m start I) as I'. pose proof (found_list m start) as L'.
  pose proof (find_vma_list_spec 0 (mmap_list m) start (mi_sorted _ I)) as Hfind.
  destruct (find_vma_list (mmap_list m) start) as [a|].
  2: { apply returns_ok. split_and!; auto. split; [done|]. intros H.
       destruct (H start) as (y & Hy & Hin & _); [lia|]. specialize (Hfind y Hy). unfold inside in Hin. lia. }
  destruct Hfind as (l1 & v & l2 & El & Hlt & Hl1).
  assert (Hav : (a, v) ∈ mmap_list m) by (rewrite El; apply elem_of_app; right; left).
  rewrite (vma_at_ok a _ v); [|rewrite L'; apply I|by rewrite L']. cbn [res_bind].
  (* the only area that can contain [start] is the one found *)
  assert (Honly : forall y x, y ∈ mmap_list m -> inside y.2 x -> inside v x -> y = (a, v)).
  { intros y x Hy Hyx Hvx. unfold inside in *. pose proof (mi_sorted _ I) as Hs. rewrite El in *.
    apply sorted_from_app in Hs as (_ & S2 & _ & _ & S5).
    apply elem_of_app in Hy as [Hy|[->|Hy]%elem_of_cons]; [|done|].
    - specialize (S2 y Hy (a, v) ltac:(left)). cbn in S2. lia.
    - destruct (sorted_from_elem _ _ _ S5 Hy). lia. }
  assert (Hfirst : forall y, y ∈ mmap_list m -> inside y.2 start -> vm_start v <= start).
  { intros y Hy Hin. unfold inside in Hin. pose proof (mi_sorted _ I) as Hs. rewrite El in *.
    apply sorted_from_app in Hs as (_ & S2 & _ & _ & S5).
    apply elem_of_app in Hy as [Hy|[->|Hy]%elem_of_cons]; [specialize (Hl1 y Hy); lia|cbn in *; lia|].
    destruct (sorted_from_elem _ _ _ S5 Hy). lia. }
  destruct (Z.ltb_spec start (vm_start v)) as [Hgap|Hin].
  { apply returns_ok. split_and!; auto. split; [done|]. intros H.
    destruct (H start) as (y & Hy & Hyin & _); [lia|]. specialize (Hfirst y Hy Hyin). lia. }
  assert (Hvs : inside v start) by (unfold inside; lia).
  destruct (has (vm_flags v) (if write then VM_WRITE else VM_READ)) eqn:Ep; cbn [negb].
  2: { apply returns_ok. split_and!; auto. split; [done|]. intros H.
       destruct (H start) as (y & Hy & Hyin & Hp & _); [lia|].
       rewrite (Honly y start Hy Hyin Hvs) in Hp. cbn in Hp. congruence. }
  destruct (write && has (vm_flags v) VM_STACK && (start <? vm_start v + PGSIZE)) eqn:Es.
  { rewrite !andb_true_iff in Es. destruct Es as [[Ew Est] Eg].
    apply returns_ok. split_and!; auto. split; [done|]. intros H.
    destruct (H start) as (y & Hy & Hyin & _ & Hg); [lia|].
    rewrite (Honly y start Hy Hyin Hvs) in Hg. cbn in Hg. specialize (Hg Ew Est). lia. }
  eapply returns_mono; [apply (IH (found m start) (vm_end v) e write); [done|]|].
  { rewrite L'. pose proof (above_lt (mmap_list m) (a, v) start Hav Hlt). cbn in *. lia. }
  intros [b m'] (I2 & L2 & Hiff). rewrite L'  in L2. split_and!; auto. rewrite Hiff. unfold accessible. rewrite L'.
  split; intros H x Hx; [|apply H; lia].
  destruct (Z.lt_ge_cases x (vm_end v)); [|apply H; lia].
  exists (a, v). split_and!; [done|unfold inside; cbn; lia..|done|].
  intros Ew Est. cbn in *. rewrite Ew, Est in Es. cbn in Es. lia.
Qed.

Lemma user_mem_check_ok KERNBASE KERNTOP m addr len write :
  mm_inv m ->
  returns (user_mem_check KERNBASE KERNTOP (Some m) addr len write) (fun '(b, o) =>
    (exists m', o = Some m' /\ mm_inv m' /\ mmap_list m' = mmap_list m) /\
    (b = true <-> USER_ACCESS addr (u32 (addr + len)) = true /\
                  forall x, addr <= x < u32 (addr + len) -> accessible m write x)).
Proof.
  intros I. unfold user_mem_check. destruct (USER_ACCESS addr (u32 (addr + len))) eqn:Ea; cbn [negb].
  - eapply returns_bind.
    + apply (umc_loop_ok (S (S (length (mmap_list m)))) m); [done|]. pose proof (above_max (mmap_list m) addr). lia.
    + intros [b m'] (I' & L' & Hiff). apply returns_ok. split; [eauto|]. rewrite Hiff. naive_solver.
  - apply returns_ok. split; [eauto|]. split; [done|]. by intros [? _].
Qed.

(** *** Fork *)

Section Dup.
Context `{RB : RbTree}.
Context (rb_alloc : mm_struct -> bool).
Context `{CT : CopyTables}.

Definition same_area (v w : vma_struct) : Prop :=
  vm_start w = vm_start v /\ vm_end w = vm_end v /\ vm_flags w = vm_flags v /\
  (has (vm_flags v) VM_SHARE = true -> shmem w = shmem v /\ shmem_off w = shmem_off v).

(** Every shared area has a counted object with room for another reference. *)
Definition can_share (refs : gmap Z Z) (l : list (Z * vma_struct)) : Prop :=
  forall x, x ∈ l -> has (vm_flags x.2) VM_SHARE = true ->
    exists sh n, shmem x.2 = Some sh /\ refs !! sh = Some n /\ 0 <= n /\ n + Z.of_nat (length l) < 2 ^ 31.

Lemma can_share_tail refs x l : can_share refs (x :: l) -> can_share refs l.
Proof.
  intros H y Hy Hf. destruct (H y) as (sh & n & ? & ? & ? & ?); [by right|done|].
  exists sh, n. cbn in *. split_and!; auto. lia.
Qed.

(** The pages of the areas in [m] have been copied; the parent's entries were
    [F]. *)
Definition duplicated (m : mm_struct) (F : Z -> option entry) (p : PG) : Prop := forall v,
  pt_entry p v = match aspace m (v * PGSIZE) with Some f => cow (has f VM_SHARE) <$> F v | None => None end /\
  pt_from p v = match aspace m (v * PGSIZE) with Some f => cow (has f VM_SHARE) <$> F v | None => F v end.

Lemma duplicated_covered m F p : duplicated m F p -> covered m p.
Proof. intros D v x Hx. destruct (D v) as [E _]. rewrite E in Hx. by destruct (aspace m (v * PGSIZE)). Qed.

(** One area more. *)
(** The page tables always find memory. *)
Definition never_fails : Prop := forall a b c p r p', pt_copy_range a b c p = Ok (r, p') -> r = 0.

Lemma copy_area_ok m m' F a nv p :
  mm_inv m -> (forall y, y ∈ mmap_list m -> vm_end nv <= vm_start y.2) -> mmap_list m' = (a, nv) :: mmap_list m ->
  user_vma nv -> vm_start nv < vm_end nv -> pt_linked p -> duplicated m F p ->
  returns (pt_copy_range (vm_start nv) (vm_end nv) (has (vm_flags nv) VM_SHARE) p) (fun '(r, p') =>
    pt_linked p' /\ covered m' p' /\ ((r = 0 /\ duplicated m' F p') \/ (r = - E_NO_MEM /\ ~ never_fails))).
Proof.
  intros I Hafter El (U1 & U2 & U3 & U4) Hlt Hl D.
  assert (Hview : forall x, aspace m' x = if (vm_start nv <=? x) && (x <? vm_end nv) then Some (vm_flags nv) else aspace m x)
    by (intros x; unfold aspace; by rewrite El).
  assert (Hnone : forall x, vm_start nv <= x < vm_end nv -> aspace m x = None).
  { intros x Hx. apply (view_None 0); [apply I|]. intros y Hy Hin. specialize (Hafter y Hy). unfold inside in Hin. lia. }
  eapply returns_mono_eq; [apply (pt_copy_ok (vm_start nv) (vm_end nv) (has (vm_flags nv) VM_SHARE) p Hl U3 U4)|].
  - apply USER_ACCESS_spec. lia.
  - intros v Hv. destruct (D v) as [-> _]. by rewrite Hnone.
  - intros [r p'] Ec (Hl' & c & Hr & Hp). split_and!; [done| |].
    + intros v x Hx. destruct (Hp v) as [E _]. rewrite E in Hx. rewrite Hview. case_decide as Hw.
      * assert (v * PGSIZE < vm_end nv) by (destruct Hr as [[_ ->]|[_ ?]]; lia).
        replace (_ && _) with true; [done|]. symmetry. apply andb_true_iff. lia.
      * destruct (_ && _); [done|]. by eapply duplicated_covered.
    + destruct Hr as [[-> ->]|[-> _]]; [left|right; split; [done|]; intros Hn; by apply Hn in Ec]. split; [done|]. intros v. destruct (Hp v) as [-> ->], (D v) as [D1 D2].
      rewrite Hview. case_decide as Hw.
      * replace (_ && _) with true by (symmetry; apply andb_true_iff; lia). rewrite D2, Hnone by done. done.
      * replace (_ && _) with false by (symmetry; apply andb_false_iff; lia). done.
Qed.

Lemma dup_loop_ok l : forall allocs (s : vm) r F,
  pt_linked (pg s) -> duplicated (mm s) F (pg s) -> Forall (fun x => user_vma x.2) l ->
  mm_inv (mm s) -> mmap_list (mm s) = r -> length allocs = length l ->
  sorted_from 0 (rev l) -> (forall x, x ∈ l -> forall y, y ∈ r -> vm_end x.2 <= vm_start y.2) ->
  NoDup (omap id allocs ++ r.*1) -> can_share (shrefs s) l ->
  returns (dup_loop rb_alloc allocs l s) (fun '(ret, s') =>
    mm_inv (mm s') /\ pt_linked (pg s') /\ covered (mm s') (pg s') /\
    ((ret = 0 /\ duplicated (mm s') F (pg s') /\
      exists l', mmap_list (mm s') = l' ++ r /\ Forall2 (fun x y => same_area x.2 y.2) (rev l) l') \/
     (ret = - E_NO_MEM /\ (Forall is_Some allocs -> ~ never_fails)))).
Proof.
  induction l as [|[b v] l IH]; intros allocs s r F Hl Hd Hu I Er Hlen Hs Hr Hnd Hsh; cbn [dup_loop].
  { apply returns_ok. split_and!; [done|done|by eapply duplicated_covered|]. left. split_and!; auto. exists []. split; [done|constructor]. }
  apply Forall_cons in Hu as [Hu1 Hu].
  destruct allocs as [|[a|] allocs]; [done| |].
  2:{ apply returns_ok. split_and!; [done|done|by eapply duplicated_covered|]. right. split; [done|]. by intros [[? [=]] _]%Forall_cons. }
  cbn [hd_error default from_option id vma_create tail].
  cbn [omap list_omap id app] in Hnd. apply NoDup_cons in Hnd as [Hna Hnd].
  cbn [rev] in Hs. apply sorted_from_app in Hs as (S1 & S2 & S3 & S4 & _).
  set (nv0 := mk_vma (vm_start v) (vm_end v) (vm_flags v) None 0).
  assert (Hstep : returns
      (if has (vm_flags v) VM_SHARE then
         let* (_, s) := shmem_ref_add (shmem v) 1 s in
         Ok (mk_vma (vm_start nv0) (vm_end nv0) (vm_flags nv0) (shmem v) (shmem_off v), s)
       else Ok (nv0, s)) (fun '(nv, s1) => same_area v nv /\ mm s1 = mm s /\ pg s1 = pg s /\ can_share (shrefs s1) l)).
  { destruct (has (vm_flags v) VM_SHARE) eqn:Ef.
    - destruct (Hsh (b, v) ltac:(left) Ef) as (sh & n & E1 & E2 & E3 & E4). cbn in E1, E4. rewrite E1. unfold shmem_ref_add.
      rewrite (fetch_ok _ _ _ E2). cbn [res_bind]. rewrite s32_small by lia. apply returns_ok. split_and!; [by split_and!|done|done|].
      intros y Hy Hf. destruct (Hsh y) as (sh' & n' & F1 & F2 & F3 & F4); [by right|done|]. cbn in F4.
      destruct (decide (sh' = sh)) as [->|Hne].
      + exists sh, (n + 1). cbn. rewrite lookup_insert_eq. assert (n' = n) as -> by congruence. split_and!; auto; lia.
      + exists sh', n'. cbn. rewrite lookup_insert_ne by done. split_and!; auto. lia.
    - apply returns_ok. split_and!; [split_and!; [done..|congruence]|done|done|by eapply can_share_tail]. }
  eapply returns_bind; [exact Hstep|]. intros [nv s1] (Hsame & Em & Ep & Hsh1). pose proof Hsame as (N1 & N2 & N3 & _).
  assert (Hafter : forall y, y ∈ r -> vm_end nv <= vm_start y.2) by (intros y Hy; rewrite N2; exact (Hr (b, v) ltac:(left) y Hy)).
  assert (Hfit : fits nv [] r) by (split; [intros x Hx; by apply not_elem_of_nil in Hx|done]).
  rewrite Em. eapply returns_bind.
  { apply (insert_vma_ok rb_alloc (mm s) a nv [] r); auto; [|by rewrite N1|by rewrite N1, N2].
    rewrite Er. intros Hin. apply Hna. apply elem_of_app. by right. }
  intros m' (I' & E' & _). cbn [app] in E'. rewrite Ep, <- N1, <- N2, <- N3.
  eapply returns_bind; [apply (copy_area_ok (mm s) m' F a nv (pg s)); auto; [by rewrite Er|by rewrite Er| |by rewrite N1, N2]|].
  { destruct Hu1 as (? & ? & ? & ?). unfold user_vma. by rewrite N1, N2. }
  intros [ret p'] (Hl' & Hc' & [[-> Hd']|[-> Hnf]]).
  2:{ change (- E_NO_MEM =? 0) with false. apply returns_ok. split_and!; auto. }
  cbn [Z.eqb negb]. eapply returns_mono; [apply (IH allocs (mk_vm m' (shrefs s1) p') ((a, nv) :: r) F); auto|].
  - intros x Hx y [->|Hy]%elem_of_cons; cbn.
    + rewrite N1. apply (S2 x (proj2 (list_elem_of_In _ _) (proj1 (in_rev _ _) (proj1 (list_elem_of_In _ _) Hx))) (b, v)). left.
    + apply Hr; [by right|done].
  - cbn. rewrite <- Permutation_middle. by apply NoDup_cons.
  - intros [ret s'] (J & K1 & K2 & K3). split_and!; auto. 
    destruct K3 as [(-> & K3 & l' & El & HF)|[-> K3]]; [left|right; split; [done|]; intros [_ Ha]%Forall_cons; auto].
    split_and!; auto. exists (l' ++ [(a, nv)]). split.
    + rewrite El. by rewrite <- app_assoc.
    + cbn [rev]. apply Forall2_app; [done|]. by constructor.
Qed.

Lemma view_same l l' x : Forall2 (fun x y => same_area x.2 y.2) l l' -> view l' x = view l x.
Proof.
  induction 1 as [|[a v] [b w] l l' (E1 & E2 & E3 & _) _ IH]; cbn in *; [done|]. by rewrite E1, E2, E3, IH.
Qed.

End Dup.

(** ** A reference implementation of the page table interface

    Maps from pages to entries, for the address space and for its parent. *)

Definition map_drop (start e : Z) (m : gmap Z entry) : gmap Z entry :=
  filter (fun x => ~ (start <= x.1 * PGSIZE < e)) m.

Lemma map_drop_lookup start e m v : map_drop start e m !! v = if decide (start <= v * PGSIZE < e) then None else m !! v.
Proof.
  unfold map_drop. case_decide as H.
  - apply map_lookup_filter_None. right. intros x _. cbn. tauto.
  - destruct (m !! v) as [x|] eqn:E; [by apply map_lookup_filter_Some|]. apply map_lookup_filter_None. by left.
Qed.

Definition map_tables : PageTables.
Proof.
  refine {| PG := gmap Z entry * gmap Z entry;
            pt_unmap_range := fun start e p => Ok (map_drop start e p.1, p.2);
            pt_exit_range := fun start e p => Ok p; pt_inv := fun _ => True; pt_entry := fun p v => p.1 !! v |}.
  - intros start e p _ _ _ _. apply returns_ok. split; [done|]. intros v. apply map_drop_lookup.
  - intros start e p _ _ _ _ H. by apply returns_ok.
Defined.

Definition map_cow (start e : Z) (share : bool) (m : gmap Z entry) : gmap Z entry :=
  map_imap (fun v x => Some (if decide (start <= v * PGSIZE < e) then cow share x else x)) m.

Definition map_copy : CopyTables map_tables.
Proof.
  refine {| pt_copy_range := fun start e share (p : PG (PageTables := map_tables)) =>
              Ok (0, (map_imap (fun v x => if decide (start <= v * PGSIZE < e) then Some (cow share x) else None) p.2 ∪ p.1,
                      map_cow start e share p.2));
            pt_from := fun (p : PG (PageTables := map_tables)) v => p.2 !! v; pt_linked := fun _ => True |}.
  - done.
  - intros start e share p _ _ _ _ H. apply returns_ok. split; [done|]. exists e. split; [by left|]. intros v. cbn in *.
    unfold map_cow. rewrite lookup_union, !map_lookup_imap.
    destruct (decide (start <= v * PGSIZE < e)) as [Hw|Hw]; [rewrite (H v Hw)|]; destruct (p.2 !! v) as [x|] eqn:Ex;
      cbn; rewrite ?(decide_True (P := start <= v * PGSIZE < e)), ?(decide_False (P := start <= v * PGSIZE < e)) by done;
      split; try done; by destruct (p.1 !! v).
Defined.

(** ** Properties *)

(** C24: [find_vma] returns the first area that ends after the address, whether it
    is answered by the cache, the red-black tree or the list; it never fails
    and changes nothing but the cache. *)
Theorem find_vma_spec m addr :
  mm_inv m ->
  returns (find_vma m addr) (fun '(r, m') =>
    mm_inv m' /\ mmap_list m' = mmap_list m /\ mmap_tree m' = mmap_tree m /\
    match r with
    | Some a => exists l1 v l2, mmap_list m = l1 ++ (a, v) :: l2 /\ addr < vm_end v /\
                  (forall x, x ∈ l1 -> vm_end x.2 <= addr) /\
                  (vm_start v <= addr <-> exists f, aspace m addr = Some f)
    | None => forall x, x ∈ mmap_list m -> vm_end x.2 <= addr
    end).
Proof.
  intros I. rewrite find_vma_ok by done. apply returns_ok. fold (found m addr).
  split_and!; [by apply found_inv|by apply found_list|unfold found; by destruct (find_vma_list _ _)|].
  pose proof (find_vma_list_spec 0 (mmap_list m) addr (mi_sorted _ I)) as H.
  destruct (find_vma_list _ _) as [a|]; [|done]. destruct H as (l1 & v & l2 & El & Hlt & Hl1).
  exists l1, v, l2. split_and!; auto. unfold aspace. pose proof (mi_sorted _ I) as Hs. rewrite El in *. split.
  - intros Hle. exists (vm_flags v). apply (view_Some 0); [done|]. exists (a, v).
    split_and!; [apply elem_of_app; right; left|by split|done].
  - intros (f & (y & Hy & Hin & _)%(view_Some 0)); [|done]. unfold inside in Hin.
    apply sorted_from_app in Hs as (_ & _ & _ & _ & S5).
    apply elem_of_app in Hy as [Hy|[->|Hy]%elem_of_cons]; [specialize (Hl1 y Hy); lia|cbn in *; lia|].
    destruct (sorted_from_elem _ _ _ S5 Hy). lia.
Qed.

(** [insert_vma_struct] puts an area that fits between its neighbours at its
    sorted place, in the list and in the tree (built at the 32nd area or when
    it exists already), counts it, and fails no assertion. *)
Theorem insert_vma_struct_spec (RB : RbTree) rb_alloc m a v l1 l2 :
  mm_inv m -> mmap_list m = l1 ++ l2 -> a ∉ (mmap_list m).*1 -> 0 <= vm_start v -> vm_start v < vm_end v ->
  fits v l1 l2 ->
  returns (insert_vma_struct rb_alloc m (a, v)) (fun m' =>
    mm_inv m' /\ mmap_list m' = l1 ++ (a, v) :: l2 /\ map_count m' = map_count m + 1 /\
    forall x, aspace m' x = if (vm_start v <=? x) && (x <? vm_end v) then Some (vm_flags v) else aspace m x).
Proof.
  intros I El Hn H0 Hv F. eapply returns_mono; [by apply insert_vma_ok|].
  intros m' (I' & E' & _). split_and!; auto.
  - rewrite (mi_count _ I'), (mi_count _ I), E', El, !length_app. cbn. lia.
  - intros x. unfold aspace. rewrite E', El. apply (view_insert 0); [rewrite <- El; apply I|rewrite <- E'; apply I'].
Qed.



(** [mm_brk] leaves the window mapped readable and writable and every other
    address as it was, replacing what was there and growing the area before it
    when that has the same flags. *)
Theorem mm_brk_spec (RB : RbTree) rb_alloc (PT : PageTables) a1 a2 addr len (s : vm) :
  let start := ROUNDDOWN addr PGSIZE in
  let e := ROUNDUP (u32 (addr + len)) PGSIZE in
  vm_inv s -> a1 ∉ (mmap_list (mm s)).*1 -> a2 ∉ (mmap_list (mm s)).*1 -> a1 <> a2 ->
  no_shared_split start e (mm s) ->
  returns (mm_brk rb_alloc (Some a1) (Some a2) addr len s) (fun '(ret, s') =>
    vm_inv s' /\
    if USER_ACCESS start e then ret = 0 /\ mapped_as (mm s) (mm s') start e (Some RW) /\ without start e (pg s) (pg s')
    else ret = - E_INVAL /\ s' = s).
Proof. apply mm_brk_ok. Qed.

(** [get_unmapped_area] finds the highest free window of the requested length
    in the user range, and returns 0 only when there is none. *)
Theorem get_unmapped_area_spec m len :
  mm_inv m -> user_mm m -> 0 < len <= USERTOP ->
  let r := get_unmapped_area m len in
  (r <> 0 -> free_window m len r) /\ (forall r', free_window m len r' -> r' <= r).
Proof.
  intros I U Hl r. unfold r, get_unmapped_area. rewrite (proj2 (Z.eqb_neq len 0)), (proj2 (Z.ltb_ge USERTOP len)) by lia.
  cbn [orb]. pose proof (mi_sorted _ I) as Hs.
  destruct (gua_loop_ok len (rev (mmap_list m)) [] (USERTOP - len)) as [G1 G2];
    rewrite ?rev_involutive, ?app_nil_r; auto; try lia.
  - intros y Hy. by apply not_elem_of_nil in Hy.
  - rewrite rev_involutive, app_nil_r in G1, G2. unfold free_window, aspace. split.
    + intros Hr. destruct (G1 Hr) as (? & ? & Hc). split_and!; auto. apply clear_of_spec; auto; lia.
    + intros r' (? & ? & Hc). apply G2; auto. apply clear_of_spec; auto; lia.
Qed.

(** C25: [user_mem_check] accepts a user buffer exactly when every byte of it is
    mapped with the requested permission and, for writes, none lies in the
    guard page of a stack; the walk over the areas terminates. *)
Theorem user_mem_check_spec KERNBASE KERNTOP m addr len write :
  mm_inv m ->
  returns (user_mem_check KERNBASE KERNTOP (Some m) addr len write) (fun '(b, o) =>
    (exists m', o = Some m' /\ mm_inv m' /\ mmap_list m' = mmap_list m) /\
    (b = true <-> USER_ACCESS addr (u32 (addr + len)) = true /\
                  forall x, addr <= x < u32 (addr + len) -> accessible m write x)).
Proof. apply user_mem_check_ok. Qed.

Lemma dup_mmap_ok `{RB : RbTree} rb_alloc `{CT : CopyTables} allocs from (s : vm) :
  mm_inv from -> user_mm from -> mm s = mm_create -> pt_linked (pg s) -> (forall v, pt_entry (pg s) v = None) ->
  (forall v x, pt_from (pg s) v = Some x -> is_Some (aspace from (v * PGSIZE))) ->
  length allocs = length (mmap_list from) -> NoDup (omap id allocs) -> can_share (shrefs s) (mmap_list from) ->
  returns (dup_mmap rb_alloc allocs from s) (fun '(ret, s') =>
    mm_inv (mm s') /\ pt_linked (pg s') /\ covered (mm s') (pg s') /\
    ((ret = 0 /\ (forall x, aspace (mm s') x = aspace from x) /\
      Forall2 (fun x y => same_area x.2 y.2) (mmap_list from) (mmap_list (mm s')) /\
      forall v, pt_entry (pg s') v = pt_from (pg s') v /\
        pt_from (pg s') v = cow (has (default 0 (aspace from (v * PGSIZE))) VM_SHARE) <$> pt_from (pg s) v) \/
     (ret = - E_NO_MEM /\ (Forall is_Some allocs -> ~ never_fails)))).
Proof.
  intros I U Em Hl He Hf Hlen Hnd Hsh. unfold dup_mmap.
  assert (Ic : mm_inv mm_create) by (split; cbn; [done|constructor|done|done|done]).
  eapply returns_mono; [apply (dup_loop_ok rb_alloc _ allocs s [] (pt_from (pg s))); auto|].
  - intros v. rewrite Em. cbn. by rewrite He.
  - apply Forall_forall. intros x Hx. apply list_elem_of_In, in_rev, list_elem_of_In in Hx.
    unfold user_mm in U. rewrite Forall_forall in U. by apply U.
  - by rewrite Em.
  - by rewrite Em.
  - by rewrite length_rev.
  - rewrite rev_involutive. apply I.
  - intros x _ y Hy. by apply not_elem_of_nil in Hy.
  - by rewrite app_nil_r.
  - intros x Hx Hg. apply list_elem_of_In, in_rev, list_elem_of_In in Hx.
    destruct (Hsh x Hx Hg) as (sh & n & ? & ? & ? & ?). exists sh, n. rewrite length_rev. auto.
  - intros [ret s'] (J & Hl' & Hc' & H). split_and!; auto. destruct H as [(-> & Hd & l' & El & HF)|]; [left|by right].
    rewrite app_nil_r in El. rewrite rev_involutive in HF.
    assert (Ea : forall x, aspace (mm s') x = aspace from x) by (intros x; unfold aspace; rewrite El; by apply view_same).
    rewrite El. split_and!; auto. intros v. destruct (Hd v) as [-> ->]. rewrite Ea.
    destruct (aspace from (v * PGSIZE)) as [f|] eqn:Ef; [done|].
    destruct (pt_from (pg s) v) as [x|] eqn:Ex; [|done]. destruct (Hf v x Ex). congruence.
Qed.

(** [dup_mmap] into a new address space copies every area (start, end, flags
    and shared object) and its pages: the child's address space equals the
    parent's, every page of a private area is shown by both and writable by
    neither, and pages of shared areas keep their rights.  It fails only for
    lack of memory, leaving a consistent address space to clean up. *)
Theorem dup_mmap_spec (RB : RbTree) rb_alloc (PT : PageTables) (CT : CopyTables PT) allocs from (s : vm) :
  mm_inv from -> user_mm from -> mm s = mm_create -> pt_linked (pg s) -> (forall v, pt_entry (pg s) v = None) ->
  (forall v x, pt_from (pg s) v = Some x -> is_Some (aspace from (v * PGSIZE))) ->
  length allocs = length (mmap_list from) -> NoDup (omap id allocs) -> can_share (shrefs s) (mmap_list from) ->
  returns (dup_mmap rb_alloc allocs from s) (fun '(ret, s') =>
    mm_inv (mm s') /\ pt_linked (pg s') /\ covered (mm s') (pg s') /\
    ((ret = 0 /\ (forall x, aspace (mm s') x = aspace from x) /\
      Forall2 (fun x y => same_area x.2 y.2) (mmap_list from) (mmap_list (mm s')) /\
      forall v, pt_entry (pg s') v = pt_from (pg s') v /\
        pt_from (pg s') v = cow (has (default 0 (aspace from (v * PGSIZE))) VM_SHARE) <$> pt_from (pg s) v) \/
     (ret = - E_NO_MEM /\ (Forall is_Some allocs -> ~ never_fails)))).
Proof. apply dup_mmap_ok. Qed.

(** *** [exit_mmap] *)

Lemma each_unmap_ok `{PT : PageTables} l : forall p,
  pt_inv p -> Forall (fun x => user_vma x.2) l -> (forall x, x ∈ l -> vm_start x.2 < vm_end x.2) ->
  returns (each_area pt_unmap_range l p) (fun p' => pt_inv p' /\ forall v x, pt_entry p' v = Some x ->
    pt_entry p v = Some x /\ forall y, y ∈ l -> ~ inside y.2 (v * PGSIZE)).
Proof.
  induction l as [|[a w] l IH]; intros p I U Hl; cbn [each_area].
  { apply returns_ok. split; [done|]. intros v x Hx. split; [done|]. by intros y Hy%not_elem_of_nil. }
  apply Forall_cons in U as [(U1 & U2 & U3 & U4) U]. pose proof (Hl (a, w) ltac:(left)) as Hlt. cbn [snd] in *.
  eapply returns_bind; [apply (pt_unmap_ok _ _ p I U3 U4); apply USER_ACCESS_spec; lia|]. intros p1 [I1 H1].
  eapply returns_mono; [apply (IH p1 I1 U); intros x Hx; apply Hl; by right|].
  intros p' [I' H']. split; [done|]. intros v x Hx. destruct (H' v x Hx) as [Hx1 Hn]. rewrite H1 in Hx1. case_decide as Hw; [done|].
  split; [done|]. intros y [->|Hy]%elem_of_cons; [done|auto].
Qed.

Lemma each_exit_ok `{PT : PageTables} l : forall p,
  pt_inv p -> Forall (fun x => user_vma x.2) l -> (forall x, x ∈ l -> vm_start x.2 < vm_end x.2) ->
  (forall v, pt_entry p v = None) ->
  returns (each_area pt_exit_range l p) (fun p' => pt_inv p' /\ forall v, pt_entry p' v = None).
Proof.
  induction l as [|[a w] l IH]; intros p I U Hl H0; cbn [each_area]; [by apply returns_ok|].
  apply Forall_cons in U as [(U1 & U2 & U3 & U4) U]. pose proof (Hl (a, w) ltac:(left)) as Hlt. cbn [snd] in *.
  eapply returns_bind; [apply (pt_exit_ok _ _ p I U3 U4); [apply USER_ACCESS_spec; lia|done]|]. intros p1 [I1 H1].
  apply (IH p1 I1 U); [intros x Hx; apply Hl; by right|done].
Qed.

(** [exit_mmap] of an address space that is no longer used removes every page
    from its tables and gives the tables of its areas back. *)
Theorem exit_mmap_spec (PT : PageTables) (s : vm) :
  vm_inv s -> mm_count (mm s) = 0 ->
  returns (exit_mmap s) (fun s' => mm s' = mm s /\ shrefs s' = shrefs s /\ pt_inv (pg s') /\ forall v, pt_entry (pg s') v = None).
Proof.
  intros [I U _ Pg Cv] Hc. unfold exit_mmap. rewrite Hc. cbn [Z.eqb].
  assert (Hl : forall x, x ∈ mmap_list (mm s) -> vm_start x.2 < vm_end x.2).
  { intros x Hx. by destruct (sorted_from_elem _ _ _ (mi_sorted _ I) Hx) as [_ ?]. }
  change (assert true) with (Ok tt). cbn [res_bind].
  eapply returns_bind; [by apply (each_unmap_ok _ (pg s))|]. intros p1 [I1 H1].
  eapply returns_bind; [apply (each_exit_ok _ p1); auto|].
  - intros v. destruct (pt_entry p1 v) as [x|] eqn:Ex; [|done]. destruct (H1 v x Ex) as [H2 H3].
    destruct (Cv v x H2) as [f (y & Hy & Hin & _)%(view_Some 0)]; [|apply I]. destruct (H3 y Hy Hin).
  - intros p2 [I2 H2]. by apply returns_ok.
Qed.

(** An address space with one shared area of three pages. *)
Definition shared_mm : vm (PT := map_tables) :=
  mk_vm (PT := map_tables) (mk_mm [(1, mk_vma 0x30800000 0x30803000 (Z.lor VM_SHARE VM_READ) (Some 9) 0)] None None 1 0)
    {[9 := 1]} (∅, ∅).


(** *** Witnesses *)

Definition demo_mm : mm_struct :=
  mk_mm [(1, mk_vma 0x30800000 0x30802000 RW None 0); (2, mk_vma 0x30900000 0x30904000 VM_READ None 0)]
    None (Some 2) 2 0.
(** Page 0x30801 is mapped and writable. *)
Definition demo_vm : vm (PT := map_tables) := mk_vm (PT := map_tables) demo_mm ∅ ({[0x30801 := (5, true, true)]}, ∅).

Lemma demo_mm_inv : mm_inv demo_mm.
Proof.
  split; cbn; [by split_and!|apply (bool_decide_unpack _); by vm_compute|done| |done].
  intros a [= <-]. right. left.
Qed.

Lemma demo_user : user_mm demo_mm.
Proof. constructor; [|constructor; [|constructor]]; by split_and!. Qed.

Lemma demo_vm_inv : vm_inv demo_vm.
Proof.
  split; [apply demo_mm_inv|apply demo_user| |done|].
  2:{ intros v x Hx. cbn in Hx. apply lookup_singleton_Some in Hx as [<- _]. by eexists. }
  split.
  - intros x [->|[->|H%not_elem_of_nil]%elem_of_cons]%elem_of_cons; [done|done|done].
  - intros sh H. vm_compute in H. lia.
Qed.

Lemma demo_fresh a : 2 < a -> a ∉ (mmap_list demo_mm).*1.
Proof. intros Ha [H|[H|H%not_elem_of_nil]%elem_of_cons]%elem_of_cons; [cbn in H; lia|cbn in H; lia|done]. Qed.

Lemma demo_no_shared start e : no_shared_split start e demo_mm.
Proof. intros x [->|[->|H%not_elem_of_nil]%elem_of_cons]%elem_of_cons _; [done|done|done]. Qed.

Lemma find_vma_spec_witness : returns (find_vma demo_mm 0x30802000) (fun '(r, m') => r = Some 2).
Proof.
  eapply returns_mono.
  - exact (returns_both _ _ (fun '(r, _) => r = Some 2) (find_vma_spec demo_mm 0x30802000 demo_mm_inv)
             ltac:(by eexists; split; [reflexivity|])).
  - by intros [r m'] [_ ->].
Defined.

Lemma insert_vma_struct_spec_witness :
  returns (@insert_vma_struct rb_tree_c (fun _ => true) demo_mm (3, mk_vma 0x30802000 0x30803000 RW None 0))
    (fun m' => map_count m' = 3).
Proof.
  eapply returns_mono.
  - apply (insert_vma_struct_spec rb_tree_c (fun _ => true) demo_mm 3 (mk_vma 0x30802000 0x30803000 RW None 0)
             [(1, mk_vma 0x30800000 0x30802000 RW None 0)] [(2, mk_vma 0x30900000 0x30904000 VM_READ None 0)]);
      [apply demo_mm_inv|done|by apply demo_fresh|done|done|].
    split; intros x ->%list_elem_of_singleton; done.
  - intros m' (_ & _ & -> & _). done.
Defined.



Lemma mm_brk_spec_witness :
  returns (@mm_brk rb_tree_c (fun _ => true) map_tables (Some 3) (Some 4) 0x30802000 0x1000 demo_vm)
    (fun '(ret, s') => ret = 0 /\ aspace (mm s') 0x30802fff = Some RW).
Proof.
  eapply returns_mono.
  - apply (mm_brk_spec rb_tree_c (fun _ => true) map_tables 3 4 0x30802000 0x1000 demo_vm);
      [apply demo_vm_inv|by apply demo_fresh|by apply demo_fresh|done|apply demo_no_shared].
  - intros [ret s'] (_ & -> & M & _). split; [done|]. by rewrite M.
Defined.

Lemma get_unmapped_area_spec_witness : free_window demo_mm 0x1000 (get_unmapped_area demo_mm 0x1000).
Proof.
  apply (get_unmapped_area_spec demo_mm 0x1000); [apply demo_mm_inv|apply demo_user|done|by vm_compute].
Defined.

Lemma user_mem_check_spec_witness :
  returns (user_mem_check 0 0x10000000 (Some demo_mm) 0x30800000 0x10 true) (fun '(b, _) =>
    b = true -> accessible demo_mm true 0x30800005).
Proof.
  eapply returns_mono; [apply (user_mem_check_spec 0 0x10000000 demo_mm 0x30800000 0x10 true demo_mm_inv)|].
  intros [b o] (_ & Hiff) Hb. apply Hiff in Hb as [_ H]. apply H. by vm_compute.
Defined.

(** A new process whose parent has the page of [demo_vm]. *)
Definition demo_child : vm (PT := map_tables) := mk_vm (PT := map_tables) mm_create ∅ (∅, {[0x30801 := (5, true, true)]}).

Lemma dup_mmap_spec_witness :
  returns (@dup_mmap rb_tree_c (fun _ => true) map_tables map_copy [Some 5; Some 6] demo_mm
             demo_child) (fun '(ret, s') =>
    ret = 0 /\ aspace (mm s') 0x30800000 = Some RW /\
    pt_entry (pg s') 0x30801 = Some (5, true, false) /\ @pt_from map_tables map_copy (pg s') 0x30801 = Some (5, true, false)).
Proof.
  eapply returns_mono.
  - apply (dup_mmap_spec rb_tree_c (fun _ => true) map_tables map_copy [Some 5; Some 6] demo_mm
             demo_child);
      [apply demo_mm_inv|apply demo_user|done|done|done| |done| |].
    + intros v x Hx. cbn in Hx. apply lookup_singleton_Some in Hx as [<- _]. by eexists.
    + apply (bool_decide_unpack _). by vm_compute.
    + intros x [->|[->|H%not_elem_of_nil]%elem_of_cons]%elem_of_cons; done.
  - intros [ret s'] (_ & _ & _ & [(-> & H & _ & Hp)|[_ Hn]]).
    + split_and!; [done|by rewrite H|..]; destruct (Hp 0x30801) as [E1 E2]; by rewrite ?E1, E2.
    + destruct Hn; [by repeat constructor|]. by intros a b c p r p' [= <- _].
Defined.
