(* ===== verification/PageTable.v ===== *)
(** * PageTable: the two-level page tables (glue-ucore/pmm.c, and for ARM
      glue-kern/arch/arm/glue_pgmap.h and mmu.h)

    A page directory has 4096 words, each naming a page that holds a second
    level table: 256 entries for the hardware and, 512 words further on, the
    kernel's own copy of the permissions.  On ARM the levels pgd, pud and pmd
    of the machine-independent code are one.  TLB maintenance has no effect on
    the tables and is not modelled; reference counts cannot overflow because
    there is less room for page table entries than [2 ^ 31]. *)
From S2P Require Import Prelude Buddy Pmm Vma.

(** ** Addresses and entries (mmu.h) *)

Definition NPTEENTRY : Z := 256.
Definition PTSIZE : Z := PGSIZE * NPTEENTRY.
Definition PDX (la : Z) : Z := Z.land (Z.shiftr la 20) 0xFFF.
Definition PTX (la : Z) : Z := Z.land (Z.shiftr la 12) 0xFF.
Definition PTE_ADDR (pte : Z) : Z := Z.ldiff pte 0xFFF.
Definition PTE_STATUS (i : Z) : Z := i + 512.

Definition PTE_P : Z := 0x001.
Definition PTE_W : Z := 0x002.
Definition PTE_U : Z := 0x004.
Definition PTE_PWT : Z := 0x008.
Definition PTE_IOMEM : Z := 0x10000.

Definition PTEX_P : Z := 0x3.
Definition PTEX_WT : Z := 0x2.
Definition PTEX_PWT : Z := Z.shiftl PTEX_WT 2.
Definition PTEX_PIO : Z := 0.
Definition PTEX_PROTECT_MASK : Z := 0xFF0.
Definition PTEX_CB_MASK : Z := 0xC.
Definition PTEX_L1_PDTYPE : Z := 0x1.
Definition PTEX_L2_PGTYPE : Z := 0x2.

(** The access bits depend on the version of the architecture. *)
Inductive arm_cpu := ARMV5 | ARMV7.

Section Entries.
Context (cpu : arm_cpu).

Definition PTEX_R : Z := match cpu with ARMV5 => 0x000 | ARMV7 => 0x210 end.
Definition PTEX_W : Z := match cpu with ARMV5 => 0x550 | ARMV7 => 0x010 end.
Definition PTEX_U : Z := match cpu with ARMV5 => 0xAA0 | ARMV7 => 0x020 end.
Definition PTEX_UW : Z := match cpu with ARMV5 => 0xFF0 | ARMV7 => 0x030 end.

(** [_arm_pte_setflags] on the entry; the status word gets [|= flags]. *)
Definition _arm_pte_setflags (pte flags : Z) : Z :=
  let pte := if has flags PTE_P then Z.lor pte PTEX_L2_PGTYPE else pte in
  let pte := Z.ldiff pte PTEX_PROTECT_MASK in
  let pte :=
    if has flags PTE_U then
      if has flags PTE_W then Z.lor pte PTEX_UW else Z.lor pte PTEX_U
    else
      if has flags PTE_W then Z.lor pte PTEX_W else Z.lor pte PTEX_R in
  if has flags PTE_PWT then Z.lor (Z.ldiff pte PTEX_CB_MASK) PTEX_PWT
  else if has flags PTE_IOMEM then Z.lor (Z.ldiff pte PTEX_CB_MASK) PTEX_PIO
  else pte.

Definition ptep_present (pte : Z) : bool := negb (Z.land pte PTEX_P =? 0).
Definition ptep_invalid (pte : Z) : bool := pte =? 0.
Definition ptep_u_read (pte : Z) : bool :=
  let p := Z.land pte PTEX_PROTECT_MASK in (p =? PTEX_U) || (p =? PTEX_UW).
Definition ptep_u_write (pte : Z) : bool :=
  let p := Z.land pte PTEX_PROTECT_MASK in p =? PTEX_UW.
Definition ptep_dirty (pte : Z) : bool := has pte 0x040.

(** ** The state *)

Context {KERNBASE : Z} `{PA : PageAlloc KERNBASE}.

(** Page directories by address, the contents of pages by page number (words
    that are not in the map are 0), and what the page descriptors hold. *)
Record ptmem := mk_ptm {
  dirs : gmap Z (gmap Z Z);
  words : gmap Z (gmap Z Z);
  refs : gmap Z Z;
  PG_IO : gset Z;
  PG_swap : gset Z;
  PG_dirty : gset Z;
  pages : pg_state }.

Definition word (W : gmap Z Z) (i : Z) : Z := default 0 (W !! i).
Definition set_dirs d s := mk_ptm d (words s) (refs s) (PG_IO s) (PG_swap s) (PG_dirty s) (pages s).
Definition set_words w s := mk_ptm (dirs s) w (refs s) (PG_IO s) (PG_swap s) (PG_dirty s) (pages s).
Definition set_refs r s := mk_ptm (dirs s) (words s) r (PG_IO s) (PG_swap s) (PG_dirty s) (pages s).
Definition set_pages p s := mk_ptm (dirs s) (words s) (refs s) (PG_IO s) (PG_swap s) (PG_dirty s) p.

Definition page_ref (p : Z) (s : ptmem) : Z := default 0 (refs s !! p).
Definition set_page_ref (p n : Z) (s : ptmem) : ptmem := set_refs (<[p := n]> (refs s)) s.
Definition page_ref_inc (p : Z) (s : ptmem) : ptmem := set_page_ref p (page_ref p s + 1) s.
Definition page_ref_dec (p : Z) (s : ptmem) : Z * ptmem :=
  (page_ref p s - 1, set_page_ref p (page_ref p s - 1) s).

Definition alloc_page (s : ptmem) : res (option Z * ptmem) :=
  let* (o, g) := pg_alloc 1 (pages s) in Ok (o, set_pages g s).
(** The page manager resets the reference count of a page it gets back. *)
Definition free_page (p : Z) (s : ptmem) : res ptmem :=
  let* g := pg_free p 1 (pages s) in Ok (set_page_ref p 0 (set_pages g s)).

(** [memset(KADDR(pa), 0, PGSIZE)] *)
Definition clear_page (p : Z) (s : ptmem) : ptmem := set_words (<[p := ∅]> (words s)) s.

(** An entry is named by its page and its index. *)
Definition ptep : Type := Z * Z.
Definition rd_pte (e : ptep) (s : ptmem) : res Z :=
  let* W := fetch (words s) e.1 in Ok (word W e.2).
Definition wr_pte (e : ptep) (v : Z) (s : ptmem) : res ptmem :=
  let* W := fetch (words s) e.1 in Ok (set_words (<[e.1 := <[e.2 := v]> W]> (words s)) s).

Definition ptep_set_perm (e : ptep) (perm : Z) (s : ptmem) : res ptmem :=
  let* st := rd_pte (e.1, PTE_STATUS e.2) s in
  let* s := wr_pte (e.1, PTE_STATUS e.2) (Z.lor st perm) s in
  let* pte := rd_pte e s in
  wr_pte e (_arm_pte_setflags pte perm) s.
Definition ptep_map (e : ptep) (pa : Z) (s : ptmem) : res ptmem :=
  let* s := wr_pte e (Z.lor pa (Z.shiftl PTEX_PWT 2)) s in
  ptep_set_perm e PTE_P s.
Definition ptep_unmap (e : ptep) (s : ptmem) : res ptmem := wr_pte e 0 s.
Definition pdep_map (pa : Z) : Z := Z.lor (Z.lor pa PTEX_L1_PDTYPE) (Z.shiftl 1 4).

Definition pte2page (pte : Z) (s : ptmem) : res Z :=
  if ptep_present pte then pa2page (pg_npage (pages s)) (PTE_ADDR pte) else Panic.

(** ** Operations (glue-ucore/pmm.c) *)

(** [&pgdir[PGX(la)]]; a directory is never freed under its users. *)
Definition get_pgd (pgdir la : Z) (s : ptmem) : res Z :=
  let* D := fetch (dirs s) pgdir in Ok (word D (PDX la)).

Definition get_pte (pgdir la : Z) (create : bool) (s : ptmem) : res (option ptep * ptmem) :=
  let* pmd := get_pgd pgdir la s in
  let* (o, s) :=
    if ptep_present pmd then Ok (Some pmd, s)
    else if negb create then Ok (None, s)
    else
      let* (o, s) := alloc_page s in
      match o with
      | None => Ok (None, s)
      | Some page =>
          let s := set_page_ref page 1 s in
          let pa := page2pa page in
          let* _ := KADDR (pg_npage (pages s)) pa in
          let s := clear_page page s in
          let* D := fetch (dirs s) pgdir in
          Ok (Some (pdep_map pa), set_dirs (<[pgdir := <[PDX la := pdep_map pa]> D]> (dirs s)) s)
      end in
  match o with
  | None => Ok (None, s)
  | Some pmd =>
      let* kva := KADDR (pg_npage (pages s)) (PTE_ADDR pmd) in
      Ok (Some (PPN kva, PTX la), s)
  end.

Definition get_page (pgdir la : Z) (s : ptmem) : res (option Z * option ptep * ptmem) :=
  let* (e, s) := get_pte pgdir la false s in
  match e with
  | None => Ok (None, None, s)
  | Some e =>
      let* pte := rd_pte e s in
      if ptep_present pte then
        let* p := pa2page (pg_npage (pages s)) pte in Ok (Some p, Some e, s)
      else Ok (None, Some e, s)
  end.

Definition page_remove_pte (e : ptep) (s : ptmem) : res ptmem :=
  let* pte := rd_pte e s in
  if ptep_present pte then
    let* page := pte2page pte s in
    let* s :=
      if negb (bool_decide (page ∈ PG_swap s)) then
        let '(n, s) := page_ref_dec page s in
        if (n =? 0) && negb (bool_decide (page ∈ PG_IO s)) then free_page page s else Ok s
      else
        let s := if ptep_dirty pte
                 then mk_ptm (dirs s) (words s) (refs s) (PG_IO s) (PG_swap s) ({[page]} ∪ PG_dirty s) (pages s)
                 else s in
        Ok (page_ref_dec page s).2 in
    ptep_unmap e s
  else if negb (ptep_invalid pte) then ptep_unmap e s
  else Ok s.

Definition page_insert (pgdir page la perm : Z) (s : ptmem) : res (Z * ptmem) :=
  let* (e, s) := get_pte pgdir la true s in
  match e with
  | None => Ok (- E_NO_MEM, s)
  | Some e =>
      let s := page_ref_inc page s in
      let* pte := rd_pte e s in
      let* s :=
        if pte =? 0 then Ok s
        else
          let* same :=
            if ptep_present pte then let* p := pte2page pte s in Ok (p =? page) else Ok false in
          if (same : bool) then Ok (page_ref_dec page s).2
          else page_remove_pte e s in
      let* s := ptep_map e (page2pa page) s in
      let* s := ptep_set_perm e perm s in
      Ok (0, s)
  end.

Definition page_remove (pgdir la : Z) (s : ptmem) : res ptmem :=
  let* (e, s) := get_pte pgdir la false s in
  match e with
  | Some e => page_remove_pte e s
  | None => Ok s
  end.

Definition pgdir_alloc_page (pgdir la perm : Z) (s : ptmem) : res (option Z * ptmem) :=
  let* (o, s) := alloc_page s in
  match o with
  | None => Ok (None, s)
  | Some page =>
      let* _ := page2kva (pg_npage (pages s)) page in
      let s := clear_page page s in
      let* (r, s) := page_insert pgdir page la perm s in
      if r =? 0 then Ok (Some page, s)
      else let* s := free_page page s in Ok (None, s)
  end.

(** The loop of [unmap_range_pte] over the table [pte]. *)
Fixpoint unmap_pte_loop (fuel : nat) (pte start e : Z) (s : ptmem) : res ptmem :=
  match fuel with
  | O => Panic
  | S fuel =>
      let p := (pte, PTX start) in
      let* v := rd_pte p s in
      let* s := if v =? 0 then Ok s else page_remove_pte p s in
      let start := u32 (start + PGSIZE) in
      if negb (start =? 0) && (start <? e) then unmap_pte_loop fuel pte start e s else Ok s
  end.

Definition unmap_range_pte (pte start e : Z) (s : ptmem) : res ptmem :=
  assert! (0 <=? start) && (start <? e) && (e <=? PTSIZE) ;;
  assert! (start mod PGSIZE =? 0) && (e mod PGSIZE =? 0) ;;
  unmap_pte_loop (Z.to_nat NPTEENTRY) pte start e s.

(** [unmap_range_pud] and [unmap_range_pmd] pass their arguments on. *)
Fixpoint unmap_range_pgd (fuel : nat) (pgd start la e : Z) (s : ptmem) : res ptmem :=
  match fuel with
  | O => Panic
  | S fuel =>
      let off := u32 (start - la) in
      let size := u32 (PTSIZE - off) in
      let size := if u32 (e - start) <? size then u32 (e - start) else size in
      let* pmd := get_pgd pgd la s in
      let* s :=
        if ptep_present pmd then
          let* kva := KADDR (pg_npage (pages s)) (PTE_ADDR pmd) in
          unmap_range_pte (PPN kva) off (u32 (off + size)) s
        else Ok s in
      let start := u32 (start + size) in
      let la := u32 (la + PTSIZE) in
      if negb (start =? 0) && (start <? e) then unmap_range_pgd fuel pgd start la e s else Ok s
  end.

Definition unmap_range (pgdir start e : Z) (s : ptmem) : res ptmem :=
  assert! (start mod PGSIZE =? 0) && (e mod PGSIZE =? 0) ;;
  assert! USER_ACCESS start e ;;
  unmap_range_pgd (Z.to_nat ((e - start) / PTSIZE + 2)) pgdir start (ROUNDDOWN start PTSIZE) e s.

Fixpoint exit_range_pgd (fuel : nat) (pgd start e : Z) (s : ptmem) : res ptmem :=
  match fuel with
  | O => Panic
  | S fuel =>
      let* pmd := get_pgd pgd start s in
      let* s :=
        if ptep_present pmd then
          let* _ := KADDR (pg_npage (pages s)) (PTE_ADDR pmd) in
          let* page := pa2page (pg_npage (pages s)) (PTE_ADDR pmd) in
          let* s := free_page page s in
          let* D := fetch (dirs s) pgd in
          Ok (set_dirs (<[pgd := <[PDX start := 0]> D]> (dirs s)) s)
        else Ok s in
      let start := u32 (start + PTSIZE) in
      if negb (start =? 0) && (start <? e) then exit_range_pgd fuel pgd start e s else Ok s
  end.

Definition exit_range (pgdir start e : Z) (s : ptmem) : res ptmem :=
  assert! (start mod PGSIZE =? 0) && (e mod PGSIZE =? 0) ;;
  assert! USER_ACCESS start e ;;
  exit_range_pgd (Z.to_nat ((e - start) / PTSIZE + 2)) pgdir (ROUNDDOWN start PTSIZE) e s.

(** One round of [copy_range] for an entry [pte] that is not 0: [false] when
    there is no memory for a table. *)
Definition copy_pte (to start : Z) (share : bool) (p : ptep) (pte : Z) (s : ptmem) : res (bool * ptmem) :=
  let* (np, s) := get_pte to start true s in
  match np with
  | None => Ok (false, s)
  | Some np =>
      let* npte := rd_pte np s in
      assert! npte =? 0 ;;
      if ptep_present pte then
        let perm := PTE_P in
        let perm := if ptep_u_read pte then Z.lor perm PTE_U else perm in
        let* (perm, s) :=
          if negb share then let* s := ptep_set_perm p perm s in Ok (perm, s)
          else Ok (if ptep_u_write pte then Z.lor perm PTE_W else perm, s) in
        let* v := rd_pte p s in
        let* page := pte2page v s in
        let* (_, s) := page_insert to page start perm s in
        Ok (true, s)
      else Panic
  end.

Fixpoint copy_loop (fuel : nat) (to from start e : Z) (share : bool) (s : ptmem) : res (Z * ptmem) :=
  match fuel with
  | O => Panic
  | S fuel =>
      let* (p, s) := get_pte from start false s in
      let* (ok, start, s) :=
        match p with
        | None => Ok (true, ROUNDDOWN (u32 (start + PTSIZE)) PTSIZE, s)
        | Some p =>
            let* pte := rd_pte p s in
            if pte =? 0 then Ok (true, u32 (start + PGSIZE), s)
            else
              let* (ok, s) := copy_pte to start share p pte s in
              Ok (ok, u32 (start + PGSIZE), s)
        end in
      if negb ok then Ok (- E_NO_MEM, s)
      else if negb (start =? 0) && (start <? e) then copy_loop fuel to from start e share s
      else Ok (0, s)
  end.

Definition copy_range (to from start e : Z) (share : bool) (s : ptmem) : res (Z * ptmem) :=
  assert! (start mod PGSIZE =? 0) && (e mod PGSIZE =? 0) ;;
  assert! USER_ACCESS start e ;;
  copy_loop (Z.to_nat ((e - start) / PGSIZE)) to from start e share s.

End Entries.

Arguments mk_ptm {KERNBASE PA}.

(** ** Entries as a page and flags *)

Lemma bits_word p f n : 0 <= f < PGSIZE -> 0 <= n ->
  Z.testbit (p * PGSIZE + f) n = if n <? 12 then Z.testbit f n else Z.testbit p (n - 12).
Proof.
  intros Hf Hn. change PGSIZE with (2 ^ 12) in *. destruct (Z.ltb_spec n 12).
  - rewrite <- (Z.mod_pow2_bits_low _ 12) by lia. rewrite Z.add_comm, Z.mod_add, Z.mod_small by lia. done.
  - replace n with (n - 12 + 12) at 1 by lia. rewrite <- Z.div_pow2_bits by lia.
    rewrite Z.div_add_l, Z.div_small by lia. by rewrite Z.add_0_r.
Qed.

Lemma bits_low f n : 0 <= f < PGSIZE -> 12 <= n -> Z.testbit f n = false.
Proof.
  intros Hf Hn. rewrite <- (Z.add_0_l f), <- (Z.mul_0_l PGSIZE), bits_word by (done || lia).
  destruct (Z.ltb_spec n 12); [lia|apply Z.bits_0].
Qed.

Lemma low_range f : 0 <= f -> (forall n, 12 <= n -> Z.testbit f n = false) -> 0 <= f < PGSIZE.
Proof.
  intros H0 Hb. split; [done|]. destruct (Z.eq_dec f 0) as [->|]; [unfold PGSIZE; lia|].
  change PGSIZE with (2 ^ 12). apply Z.log2_lt_pow2; [lia|].
  destruct (Z.lt_ge_cases (Z.log2 f) 12) as [|Hge]; [done|].
  apply Hb in Hge. rewrite Z.bit_log2 in Hge by lia. done.
Qed.

Ltac low_bits :=
  apply Z.bits_inj'; intros n Hn;
  rewrite ?Z.lor_spec, ?Z.land_spec, ?Z.ldiff_spec, ?bits_word, ?Z.lor_spec, ?Z.land_spec, ?Z.ldiff_spec by assumption;
  destruct (Z.ltb_spec n 12); try reflexivity;
  repeat match goal with |- context [Z.testbit ?b n] => rewrite (bits_low b n) by assumption end;
  rewrite ?orb_false_r, ?andb_false_r, ?andb_true_r; try reflexivity.

Lemma low_lor_range f b : 0 <= f < PGSIZE -> 0 <= b < PGSIZE -> 0 <= Z.lor f b < PGSIZE.
Proof.
  intros Hf Hb. apply low_range; [apply Z.lor_nonneg; lia|]. intros n Hn.
  by rewrite Z.lor_spec, (bits_low f), (bits_low b).
Qed.

Lemma low_ldiff_range f b : 0 <= f < PGSIZE -> 0 <= Z.ldiff f b < PGSIZE.
Proof.
  intros Hf. apply low_range; [apply Z.ldiff_nonneg; lia|]. intros n Hn.
  by rewrite Z.ldiff_spec, (bits_low f).
Qed.

Lemma word_lor p f b : 0 <= f < PGSIZE -> 0 <= b < PGSIZE -> Z.lor (p * PGSIZE + f) b = p * PGSIZE + Z.lor f b.
Proof. intros Hf Hb. pose proof (low_lor_range f b Hf Hb). low_bits. Qed.

Lemma word_ldiff p f b : 0 <= f < PGSIZE -> 0 <= b < PGSIZE -> Z.ldiff (p * PGSIZE + f) b = p * PGSIZE + Z.ldiff f b.
Proof. intros Hf Hb. pose proof (low_ldiff_range f b Hf). low_bits. Qed.

Lemma word_land p f b : 0 <= f < PGSIZE -> 0 <= b < PGSIZE -> Z.land (p * PGSIZE + f) b = Z.land f b.
Proof. intros Hf Hb. low_bits. Qed.

Lemma word_addr p f : 0 <= f < PGSIZE -> PTE_ADDR (p * PGSIZE + f) = p * PGSIZE.
Proof.
  intros Hf. unfold PTE_ADDR. rewrite word_ldiff by (unfold PGSIZE in *; lia).
  replace (Z.ldiff f 0xFFF) with 0; [lia|]. symmetry. change 0xFFF with (Z.ones 12). apply Z.ldiff_ones_r_low; [lia|].
  destruct (Z.eq_dec f 0) as [->|]; [done|]. apply Z.log2_lt_pow2; [lia|]. apply Hf.
Qed.

Section Words.
Context (cpu : arm_cpu).

Lemma flags_range : 0 <= PTEX_R cpu < PGSIZE /\ 0 <= PTEX_W cpu < PGSIZE /\ 0 <= PTEX_U cpu < PGSIZE /\ 0 <= PTEX_UW cpu < PGSIZE.
Proof. destruct cpu; repeat split; by vm_compute. Qed.

Lemma setflags_word p f flags : 0 <= f < PGSIZE ->
  _arm_pte_setflags cpu (p * PGSIZE + f) flags = p * PGSIZE + _arm_pte_setflags cpu f flags /\
  0 <= _arm_pte_setflags cpu f flags < PGSIZE.
Proof.
  intros Hf. pose proof flags_range as (HR & HW & HU & HUW). unfold _arm_pte_setflags.
  assert (C : 0 <= PTEX_L2_PGTYPE < PGSIZE /\ 0 <= PTEX_PROTECT_MASK < PGSIZE /\ 0 <= PTEX_CB_MASK < PGSIZE /\
              0 <= PTEX_PWT < PGSIZE /\ 0 <= PTEX_PIO < PGSIZE) by (repeat split; by vm_compute). destruct C as (C1 & C2 & C3 & C4 & C5).
  destruct (has flags PTE_P), (has flags PTE_U), (has flags PTE_W), (has flags PTE_PWT), (has flags PTE_IOMEM);
    rewrite ?word_lor, ?word_ldiff, ?word_lor, ?word_ldiff, ?word_lor by auto using low_lor_range, low_ldiff_range;
    auto 10 using low_lor_range, low_ldiff_range.
Qed.

Lemma present_word p f : 0 <= f < PGSIZE -> ptep_present (p * PGSIZE + f) = ptep_present f.
Proof. intros Hf. unfold ptep_present. rewrite word_land; [done|done|unfold PTEX_P, PGSIZE; lia]. Qed.

Lemma prot_word p f : 0 <= f < PGSIZE -> Z.land (p * PGSIZE + f) PTEX_PROTECT_MASK = Z.land f PTEX_PROTECT_MASK.
Proof. intros Hf. rewrite word_land; [done|done|unfold PTEX_PROTECT_MASK, PGSIZE; lia]. Qed.

(** What the flags of an entry are after [ptep_map] and [ptep_set_perm]. *)
Definition hwbits (perm : Z) : Z :=
  _arm_pte_setflags cpu (_arm_pte_setflags cpu (Z.shiftl PTEX_PWT 2) PTE_P) perm.

Lemma hwbits_range perm : 0 <= hwbits perm < PGSIZE.
Proof.
  assert (H0 : 0 <= Z.shiftl PTEX_PWT 2 < PGSIZE) by (split; by vm_compute).
  unfold hwbits. eapply (setflags_word 0), (setflags_word 0), H0.
Qed.

Lemma hwbits_word p perm : 0 <= p ->
  _arm_pte_setflags cpu (_arm_pte_setflags cpu (Z.lor (p * PGSIZE) (Z.shiftl PTEX_PWT 2)) PTE_P) perm =
  p * PGSIZE + hwbits perm.
Proof.
  intros Hp. assert (H0 : 0 <= Z.shiftl PTEX_PWT 2 < PGSIZE) by (split; by vm_compute).
  pose proof (word_lor p 0 (Z.shiftl PTEX_PWT 2) ltac:(split; by vm_compute) H0) as E.
  rewrite Z.add_0_r, Z.lor_0_l in E. rewrite E.
  destruct (setflags_word p _ PTE_P H0) as [-> H1]. by destruct (setflags_word p _ perm H1) as [-> _].
Qed.

Lemma hwbits_bits perm :
  ptep_present (hwbits perm) = true /\
  Z.land (hwbits perm) PTEX_PROTECT_MASK =
    (if has perm PTE_U then if has perm PTE_W then PTEX_UW cpu else PTEX_U cpu
     else if has perm PTE_W then PTEX_W cpu else PTEX_R cpu).
Proof.
  unfold hwbits, _arm_pte_setflags at 1 3. 
  destruct cpu, (has perm PTE_P), (has perm PTE_U), (has perm PTE_W), (has perm PTE_PWT), (has perm PTE_IOMEM); by vm_compute.
Qed.

(** [ptep_set_perm] without write permission, as [copy_range] does it to the
    parent: a present entry stays present and becomes read-only. *)
Lemma readonly_bits f (u : bool) :
  let f' := _arm_pte_setflags cpu f (if u then Z.lor PTE_P PTE_U else PTE_P) in
  ptep_present f' = true /\ ptep_u_write cpu f' = false /\ ptep_u_read cpu f' = u.
Proof.
  assert (E : Z.land (Z.ldiff (Z.lor f PTEX_L2_PGTYPE) PTEX_PROTECT_MASK) PTEX_P <> 0).
  { intros E. apply (f_equal (fun z => Z.testbit z 1)) in E.
    rewrite Z.land_spec, Z.ldiff_spec, Z.lor_spec in E.
    change (Z.testbit PTEX_L2_PGTYPE 1) with true in E. rewrite orb_true_r in E. discriminate E. }
  assert (M : forall a, Z.land (Z.lor (Z.ldiff (Z.lor f PTEX_L2_PGTYPE) PTEX_PROTECT_MASK) a) PTEX_PROTECT_MASK = Z.land a PTEX_PROTECT_MASK).
  { intros a. apply Z.bits_inj'. intros n Hn. rewrite !Z.land_spec, Z.lor_spec, Z.ldiff_spec.
    destruct (Z.testbit PTEX_PROTECT_MASK n); [|by rewrite !andb_false_r]. by rewrite andb_false_r. }
  assert (Q : forall a b, Z.land a PTEX_P <> 0 -> Z.land (Z.lor a b) PTEX_P <> 0).
  { intros a b Ha H. apply Ha. rewrite Z.land_lor_distr_l in H. by apply Z.lor_eq_0_iff in H as [? _]. }
  cbv zeta. unfold ptep_present, ptep_u_write, ptep_u_read. cbv zeta.
  destruct u.
  - change (_arm_pte_setflags cpu f (Z.lor PTE_P PTE_U)) with
      (Z.lor (Z.ldiff (Z.lor f PTEX_L2_PGTYPE) PTEX_PROTECT_MASK) (PTEX_U cpu)).
    rewrite M. rewrite (proj2 (Z.eqb_neq _ _) (Q _ _ E)). destruct cpu; by vm_compute.
  - change (_arm_pte_setflags cpu f PTE_P) with
      (Z.lor (Z.ldiff (Z.lor f PTEX_L2_PGTYPE) PTEX_PROTECT_MASK) (PTEX_R cpu)).
    rewrite M. rewrite (proj2 (Z.eqb_neq _ _) (Q _ _ E)). destruct cpu; by vm_compute.
Qed.

Lemma PDX_page v : 0 <= v < 2 ^ 20 -> PDX (v * PGSIZE) = v / NPTEENTRY.
Proof.
  intros Hv. unfold PDX. change 0xFFF with (Z.ones 12). rewrite Z.land_ones, Z.shiftr_div_pow2 by lia.
  change (2 ^ 20) with (PGSIZE * NPTEENTRY). unfold NPTEENTRY in *.
  rewrite <- Z.div_div, Z.div_mul by (unfold PGSIZE; lia).
  apply Z.mod_small. Z.to_euclidean_division_equations; lia.
Qed.

Lemma PTX_page v : 0 <= v < 2 ^ 20 -> PTX (v * PGSIZE) = v mod NPTEENTRY.
Proof.
  intros Hv. unfold PTX. change 0xFF with (Z.ones 8). rewrite Z.land_ones, Z.shiftr_div_pow2 by lia.
  change (2 ^ 12) with PGSIZE. by rewrite Z.div_mul by (unfold PGSIZE; lia).
Qed.

End Words.

(** ** The invariant

    [maps] is the abstract content of all page tables: the entry that page [v]
    of the address space [d] has.  [E p] counts the references to page [p]
    that are not in a page table, and [L p] says that [p] is in use for
    something else. *)

Section Inv.
Context (cpu : arm_cpu) {KERNBASE : Z} `{PA : PageAlloc KERNBASE}.
Implicit Types (s : ptmem) (maps : gmap (Z * Z) Z) (E : Z -> Z) (L : Z -> Prop).

Definition pde (q : Z) : Z := q * PGSIZE + 17.

(** [q] holds a second level table. *)
Definition table s (q : Z) : Prop := exists d D i, dirs s !! d = Some D /\ word D i = pde q.

(** The entry of page [v] in the directory [D]. *)
Definition pte_at s (D : gmap Z Z) (v : Z) : Z :=
  let p := word D (v / NPTEENTRY) in
  if p =? 0 then 0
  else match words s !! PPN p with Some W => word W (v mod NPTEENTRY) | None => 0 end.

Record struct_ok maps s : Prop := {
  st_pde : forall d D i, dirs s !! d = Some D ->
    word D i = 0 \/ exists q W, 0 <= q /\ word D i = pde q /\ words s !! q = Some W;
  st_inj : forall d D i d' D' i' q, dirs s !! d = Some D -> dirs s !! d' = Some D' ->
    word D i = pde q -> word D' i' = pde q -> d = d' /\ i = i';
  st_maps : forall d D v, dirs s !! d = Some D -> 0 <= v < 2 ^ 20 ->
    pte_at s D v = default 0 (maps !! (d, v));
  st_dom : forall d v w, maps !! (d, v) = Some w -> w <> 0 /\ is_Some (dirs s !! d) /\ 0 <= v < 2 ^ 20
}.

(** How many entries map the page [p]. *)
Definition cnt maps (p : Z) : Z := Z.of_nat (size (filter (fun kv => PPN kv.2 = p) maps)).

Record count_ok L E maps s : Prop := {
  ct_pg : pg_inv (pages s);
  ct_swap : PG_swap s = ∅;
  ct_free : forall p, ~ pg_owned (pages s) p 1 -> page_ref p s = 0;
  ct_ext : forall p, 0 <= E p;
  ct_table : forall q, table s q -> pg_owned (pages s) q 1 /\ page_ref q s = 1 /\ E q + cnt maps q = 0;
  ct_cnt : forall p, ~ table s p -> page_ref p s = E p + cnt maps p;
  ct_own : forall p, 0 < E p + cnt maps p -> pg_owned (pages s) p 1;
  ct_ent : forall k w, maps !! k = Some w ->
    exists p f, w = p * PGSIZE + f /\ 0 <= f < PGSIZE /\ ptep_present f = true;
  ct_live : forall p, pg_owned (pages s) p 1 -> L p \/ p ∈ PG_IO s \/ table s p \/ 0 < E p + cnt maps p
}.

Definition pt_ok L E maps s : Prop := struct_ok maps s /\ count_ok L E maps s.

(** [e] is the entry of page [v] in the address space [d]. *)
Definition slot s (d v : Z) (e : ptep) : Prop :=
  exists D q, dirs s !! d = Some D /\ word D (v / NPTEENTRY) = pde q /\ 0 <= q /\ e = (q, v mod NPTEENTRY).

(** *** Counting *)

Lemma PPN_word p f : 0 <= f < PGSIZE -> PPN (p * PGSIZE + f) = p.
Proof. apply PPN_page. Qed.

Lemma cnt_nonneg maps p : 0 <= cnt maps p.
Proof. unfold cnt. lia. Qed.

Definition hit (w p : Z) : Z := if PPN w =? p then 1 else 0.

Lemma cnt_insert maps k w p : maps !! k = None -> cnt (<[k := w]> maps) p = cnt maps p + hit w p.
Proof.
  intros Hk. unfold cnt, hit. destruct (Z.eqb_spec (PPN w) p) as [E|E].
  - rewrite map_filter_insert_True by done. rewrite map_size_insert_None; [lia|].
    apply map_lookup_filter_None. by left.
  - rewrite map_filter_insert_False by done. rewrite delete_id; [lia|done].
Qed.

Lemma cnt_delete maps k w p : maps !! k = Some w -> cnt (delete k maps) p = cnt maps p - hit w p.
Proof.
  intros Hk. pose proof (cnt_insert (delete k maps) k w p (lookup_delete_eq _ _)) as H.
  rewrite insert_delete_id in H by done. lia.
Qed.

Lemma cnt_replace maps k w w' p : maps !! k = Some w -> PPN w' = PPN w -> cnt (<[k := w']> maps) p = cnt maps p.
Proof.
  intros Hk E. rewrite <- insert_delete_eq, cnt_insert by apply lookup_delete_eq.
  rewrite (cnt_delete _ _ w) by done. unfold hit. rewrite E. lia.
Qed.

Lemma cnt_pos maps k w : maps !! k = Some w -> 0 < cnt maps (PPN w).
Proof.
  intros Hk. pose proof (cnt_delete maps k w (PPN w) Hk) as H. pose proof (cnt_nonneg (delete k maps) (PPN w)).
  unfold hit in H. rewrite Z.eqb_refl in H. lia.
Qed.

(** *** Entries *)

Lemma pde_inj q q' : pde q = pde q' -> q = q'.
Proof. unfold pde, PGSIZE. lia. Qed.
Lemma pde_nonzero q : 0 <= q -> pde q <> 0.
Proof. unfold pde, PGSIZE. lia. Qed.
Lemma PPN_pde q : PPN (pde q) = q.
Proof. unfold pde. apply PPN_word. unfold PGSIZE; lia. Qed.

Lemma word_insert_eq W i v : word (<[i := v]> W) i = v.
Proof. unfold word. by simpl_map. Qed.
Lemma word_insert_ne W i j v : i <> j -> word (<[i := v]> W) j = word W j.
Proof. intros. unfold word. by simpl_map. Qed.

Lemma v_split v v' : v / NPTEENTRY = v' / NPTEENTRY -> v mod NPTEENTRY = v' mod NPTEENTRY -> v = v'.
Proof. unfold NPTEENTRY. intros. rewrite (Z.div_mod v 256), (Z.div_mod v' 256); lia. Qed.

Lemma v_ranges v : 0 <= v < 2 ^ 20 -> 0 <= v / NPTEENTRY < 4096 /\ 0 <= v mod NPTEENTRY < 256.
Proof. unfold NPTEENTRY. intros. Z.to_euclidean_division_equations; lia. Qed.

Lemma slot_words maps s d v e : struct_ok maps s -> slot s d v e -> exists W, words s !! e.1 = Some W /\
  (0 <= v < 2 ^ 20 -> word W e.2 = default 0 (maps !! (d, v))).
Proof.
  intros S (D & q & HD & Hq & H0 & ->). cbn [fst snd].
  destruct (st_pde _ _ S d D (v / NPTEENTRY) HD) as [E|(q' & W & _ & E & HW)].
  - rewrite Hq in E. by apply pde_nonzero in E.
  - rewrite Hq in E. apply pde_inj in E as <-. exists W. split; [done|]. intros Hv.
    rewrite <- (st_maps _ _ S d D v HD Hv). unfold pte_at. rewrite Hq, (proj2 (Z.eqb_neq _ _) (pde_nonzero q H0)).
    by rewrite PPN_pde, HW.
Qed.

(** Writing an entry changes one place of the abstract map. *)
Lemma st_write maps s d v e w W :
  struct_ok maps s -> slot s d v e -> 0 <= v < 2 ^ 20 -> words s !! e.1 = Some W ->
  struct_ok (if decide (w = 0) then delete (d, v) maps else <[(d, v) := w]> maps)
    (set_words (<[e.1 := <[e.2 := w]> W]> (words s)) s).
Proof.
  intros S (D & q & HD & Hq & H0 & ->) Hv HW. cbn [fst snd] in *.
  assert (Hlook : forall d' v', default 0 ((if decide (w = 0) then delete (d, v) maps else <[(d, v) := w]> maps) !! (d', v')) =
                    if decide ((d', v') = (d, v)) then w else default 0 (maps !! (d', v'))).
  { intros d' v'. destruct (decide (w = 0)) as [->|]; destruct (decide ((d', v') = (d, v))) as [[= -> ->]|Hne]; by simplify_map_eq. }
  split; cbn [dirs words set_words].
  - intros d' D' i HD'. destruct (st_pde _ _ S _ _ i HD') as [E|(q' & W' & Hq0 & E & HW')]; [by left|right].
    destruct (decide (q' = q)) as [->|Hne]; [exists q, (<[v mod NPTEENTRY := w]> W)|exists q', W']; by simpl_map.
  - apply S.
  - intros d' D' v' HD' Hv'. rewrite Hlook. unfold pte_at. cbn [words set_words]. pose proof (st_maps _ _ S _ _ _ HD' Hv') as Hm. unfold pte_at in Hm.
    destruct (st_pde _ _ S _ _ (v' / NPTEENTRY) HD') as [E|(q' & W' & Hq0 & E & HW')].
    + rewrite E in Hm |- *. cbn [Z.eqb] in Hm |- *. destruct (decide ((d', v') = (d, v))) as [[= -> ->]|]; [|done].
      simplify_eq. rewrite Hq in E. by apply pde_nonzero in E.
    + rewrite E, PPN_pde in Hm |- *. rewrite (proj2 (Z.eqb_neq _ _) (pde_nonzero q' Hq0)) in Hm |- *.
      destruct (decide (q' = q)) as [->|Hne].
      * rewrite lookup_insert_eq. destruct (st_inj _ _ S _ _ _ _ _ _ _ HD HD' Hq E) as [<- Ei].
        destruct (decide ((d, v') = (d, v))) as [[= ->]|Hne]; [by rewrite word_insert_eq|].
        rewrite word_insert_ne; [by rewrite HW in Hm|]. intros Em. apply Hne. f_equal. by apply v_split.
      * rewrite lookup_insert_ne by done. rewrite decide_False; [done|]. intros [= -> ->].
        rewrite HD in HD'. injection HD' as <-. rewrite Hq in E. by apply pde_inj in E.
  - intros d' v' w' Hl. pose proof (Hlook d' v') as H. rewrite Hl in H. cbn in H.
    destruct (decide ((d', v') = (d, v))) as [[= -> ->]|Hne].
    + split_and!; [|by eexists|lia..]. intros ->. subst w. rewrite decide_True, lookup_delete_eq in Hl by done. discriminate Hl.
    + apply (st_dom _ _ S d' v'). destruct (decide (w = 0)); [rewrite lookup_delete_ne in Hl|rewrite lookup_insert_ne in Hl];
        first [exact Hl|congruence].
Qed.

(** What is not a table entry may change. *)
Lemma st_frame maps s s' :
  struct_ok maps s -> dirs s' = dirs s ->
  (forall q W, table s q -> words s !! q = Some W ->
     exists W', words s' !! q = Some W' /\ forall j, 0 <= j < 256 -> word W' j = word W j) ->
  struct_ok maps s'.
Proof.
  intros S Ed K. split; rewrite Ed; try apply S.
  - intros d D i HD. destruct (st_pde _ _ S d D i HD) as [|(q & W & H0 & E & HW)]; [by left|right].
    destruct (K q W) as (W' & HW' & _); [by exists d, D, i|done|]. by exists q, W'.
  - intros d D v HD Hv. rewrite <- (st_maps _ _ S d D v HD Hv). unfold pte_at.
    destruct (st_pde _ _ S d D (v / NPTEENTRY) HD) as [E|(q & W & H0 & E & HW)]; rewrite E; [done|].
    rewrite (proj2 (Z.eqb_neq _ _) (pde_nonzero q H0)), PPN_pde, HW.
    destruct (K q W) as (W' & -> & HW'); [by exists d, D, (v / NPTEENTRY)|done|]. apply HW'. by apply v_ranges.
Qed.

Lemma ct_words L E maps s w : count_ok L E maps s -> count_ok L E maps (set_words w s).
Proof. intros [? ? ? ? ? ? ? ?]; by split. Qed.

Lemma set_perm_ok maps s d v e w perm :
  struct_ok maps s -> slot s d v e -> 0 <= v < 2 ^ 20 -> maps !! (d, v) = Some w ->
  _arm_pte_setflags cpu w perm <> 0 ->
  returns (ptep_set_perm cpu e perm s) (fun s' =>
    struct_ok (<[(d, v) := _arm_pte_setflags cpu w perm]> maps) s' /\ exists W', s' = set_words (<[e.1 := W']> (words s)) s).
Proof.
  intros S Hs Hv Hw Hnz. destruct (slot_words _ _ _ _ _ S Hs) as (W & HW & Ew). specialize (Ew Hv). rewrite Hw in Ew.
  unfold ptep_set_perm, rd_pte, wr_pte. cbn [fst snd]. rewrite (fetch_ok _ _ _ HW). cbn [res_bind].
  set (W1 := <[PTE_STATUS e.2 := _]> W). cbn [words set_words].
  rewrite (fetch_ok _ _ W1) by apply lookup_insert_eq. cbn [res_bind].
  assert (E1 : word W1 e.2 = w).
  { unfold W1, PTE_STATUS. by rewrite word_insert_ne by lia. }
  rewrite E1. apply returns_ok. split; [|eexists; by rewrite insert_insert_eq].
  set (s1 := set_words (<[e.1 := W1]> (words s)) s).
  assert (S1 : struct_ok maps s1).
  { eapply st_frame; [exact S|done|]. intros q W2 _ HW2. cbn [words set_words s1].
    destruct (decide (q = e.1)) as [->|Hne].
    - rewrite HW in HW2. injection HW2 as <-. exists W1. split; [apply lookup_insert_eq|]. intros j Hj.
      unfold W1, PTE_STATUS. destruct Hs as (D & q & _ & _ & _ & ->). cbn [snd].
      pose proof (v_ranges v Hv). apply word_insert_ne. lia.
    - exists W2. by rewrite lookup_insert_ne. }
  assert (HW1 : words s1 !! e.1 = Some W1) by apply lookup_insert_eq.
  pose proof (st_write maps s1 d v e (_arm_pte_setflags cpu w perm) W1 S1 Hs Hv HW1) as S2.
  rewrite decide_False in S2 by done. exact S2.
Qed.

(** The flags [ptep_map] gives an entry. *)
Definition mapbits : Z := _arm_pte_setflags cpu (Z.shiftl PTEX_PWT 2) PTE_P.

Lemma mapbits_ok : 0 <= mapbits < PGSIZE /\ ptep_present mapbits = true.
Proof. unfold mapbits. destruct cpu; split; by vm_compute. Qed.

Lemma present_nonzero p f : 0 <= p -> 0 <= f < PGSIZE -> ptep_present f = true -> p * PGSIZE + f <> 0.
Proof. intros H0 Hr Hf. assert (f <> 0) by (by intros ->). unfold PGSIZE in *. lia. Qed.

Lemma ptep_map_ok maps s d v e p :
  struct_ok maps s -> slot s d v e -> 0 <= v < 2 ^ 20 -> 0 <= p < 2 ^ 20 ->
  returns (ptep_map cpu e (page2pa p) s) (fun s' =>
    struct_ok (<[(d, v) := p * PGSIZE + mapbits]> maps) s' /\ exists W', s' = set_words (<[e.1 := W']> (words s)) s).
Proof.
  intros S Hs Hv Hp. destruct (slot_words _ _ _ _ _ S Hs) as (W & HW & _).
  rewrite page2pa_eq by done. unfold ptep_map, wr_pte. rewrite (fetch_ok _ _ _ HW). cbn [res_bind].
  set (w0 := Z.lor (p * PGSIZE) (Z.shiftl PTEX_PWT 2)).
  assert (H32 : 0 <= Z.shiftl PTEX_PWT 2 < PGSIZE) by (split; by vm_compute).
  assert (Hw0 : w0 = p * PGSIZE + Z.shiftl PTEX_PWT 2).
  { unfold w0. pose proof (word_lor p 0 (Z.shiftl PTEX_PWT 2) ltac:(unfold PGSIZE; lia) H32) as E.
    rewrite Z.add_0_r, Z.lor_0_l in E. exact E. }
  pose proof (st_write maps s d v e w0 W S Hs Hv HW) as S1.
  rewrite decide_False in S1 by (rewrite Hw0; unfold PGSIZE; change (Z.shiftl PTEX_PWT 2) with 32; lia).
  assert (Ew : _arm_pte_setflags cpu w0 PTE_P = p * PGSIZE + mapbits)
    by (rewrite Hw0; exact (proj1 (setflags_word cpu p _ PTE_P H32))).
  destruct mapbits_ok as [Hr Hpr].
  eapply returns_mono; [eapply (set_perm_ok _ _ d v e w0 PTE_P S1); [exact Hs|done|apply lookup_insert_eq|]|].
  { rewrite Ew. apply present_nonzero; [lia|done|done]. }
  intros s2 [S2 [W2 ->]]. rewrite insert_insert_eq, Ew in S2. split; [exact S2|].
  exists W2. cbn [words set_words]. by rewrite !insert_insert_eq.
Qed.

Lemma map_set_ok maps s d v e p perm :
  struct_ok maps s -> slot s d v e -> 0 <= v < 2 ^ 20 -> 0 <= p < 2 ^ 20 ->
  returns (let* s := ptep_map cpu e (page2pa p) s in ptep_set_perm cpu e perm s) (fun s' =>
    struct_ok (<[(d, v) := p * PGSIZE + hwbits cpu perm]> maps) s' /\ exists W', s' = set_words (<[e.1 := W']> (words s)) s).
Proof.
  intros S Hs Hv Hp. eapply returns_bind; [by apply (ptep_map_ok maps s d v e p)|]. intros s1 [S1 [W1 ->]].
  destruct mapbits_ok as [Hr _]. destruct (setflags_word cpu p mapbits perm Hr) as [E2 R2].
  assert (Ew : _arm_pte_setflags cpu (p * PGSIZE + mapbits) perm = p * PGSIZE + hwbits cpu perm) by (by rewrite E2).
  eapply returns_mono; [eapply (set_perm_ok _ _ d v e _ perm S1); [exact Hs|done|apply lookup_insert_eq|]|].
  { rewrite Ew. apply present_nonzero; [lia|apply hwbits_range|apply hwbits_bits]. }
  intros s2 [S2 [W2 ->]]. rewrite insert_insert_eq, Ew in S2. split; [exact S2|].
  exists W2. cbn [words set_words]. by rewrite !insert_insert_eq.
Qed.

(** *** Reference counts *)

Lemma page_ref_set p p' n s : page_ref p' (set_page_ref p n s) = if decide (p' = p) then n else page_ref p' s.
Proof. unfold page_ref. cbn. case_decide; subst; by simpl_map. Qed.

Lemma not_table L E maps s k w : count_ok L E maps s -> maps !! k = Some w -> ~ table s (PPN w).
Proof.
  intros C Hk Ht. destruct (ct_table _ _ _ _ C _ Ht) as (_ & _ & H). apply cnt_pos in Hk.
  pose proof (ct_ext _ _ _ _ C (PPN w)). lia.
Qed.

Lemma apart_one p q : p <> q -> apart p 1 q 1.
Proof. intros Hne x H1 H2. lia. Qed.

(** A mapped page is in range. *)
Lemma mapped_range L E maps s k w : count_ok L E maps s -> maps !! k = Some w ->
  pg_owned (pages s) (PPN w) 1 /\ 0 <= PPN w < pg_npage (pages s) /\ pg_npage (pages s) <= 2 ^ 20.
Proof.
  intros C Hk. pose proof (cnt_pos _ _ _ Hk). pose proof (ct_ext _ _ _ _ C (PPN w)).
  assert (Ho : pg_owned (pages s) (PPN w) 1) by (apply (ct_own _ _ _ _ C); lia).
  pose proof (pg_range _ _ 1 (ct_pg _ _ _ _ C) ltac:(lia) Ho). pose proof (pg_bound _ (ct_pg _ _ _ _ C)).
  split_and!; [done|lia..].
Qed.

Lemma free_page_ok s p : pg_inv (pages s) -> pg_owned (pages s) p 1 ->
  exists g, free_page p s = Ok (set_page_ref p 0 (set_pages g s)) /\ pg_inv g /\ pg_npage g = pg_npage (pages s) /\
    (forall q m, pg_owned (pages s) q m -> apart p 1 q m -> pg_owned g q m) /\
    forall q, pg_owned g q 1 -> pg_owned (pages s) q 1 /\ q <> p.
Proof.
  intros I Ho. destruct (pg_free_ok p 1 (pages s) I ltac:(lia) Ho) as (g & Eg & I' & En & K'). exists g.
  unfold free_page. rewrite Eg. split_and!; [done..|]. intros q Hq.
  destruct (pg_free_gone p 1 (pages s) g q I ltac:(lia) Ho Eg Hq) as [H1 H2]. split; [done|]. intros ->. lia.
Qed.

(** One entry less: the count goes down, or the page is given back. *)
Lemma drop_ref_ok L E maps s k w p :
  count_ok L E maps s -> maps !! k = Some w -> PPN w = p ->
  let s1 := set_page_ref p (page_ref p s - 1) s in
  returns (if (page_ref p s - 1 =? 0) && negb (bool_decide (p ∈ PG_IO s)) then free_page p s1 else Ok s1)
    (fun s' => count_ok L E (delete k maps) s' /\ dirs s' = dirs s /\ words s' = words s /\
               pg_npage (pages s') = pg_npage (pages s) /\
               forall q, pg_owned (pages s) q 1 -> q <> p -> pg_owned (pages s') q 1).
Proof.
  intros C Hk Ep s1. pose proof (not_table _ _ _ _ _ _ C Hk) as Hnt. pose proof (mapped_range _ _ _ _ _ _ C Hk) as [Ho _].
  rewrite Ep in Hnt, Ho.
  pose proof (ct_cnt _ _ _ _ C p Hnt) as Hr. pose proof (ct_ext _ _ _ _ C p). pose proof (cnt_nonneg (delete k maps) p).
  assert (Hd : forall q, cnt (delete k maps) q = cnt maps q - (if decide (q = p) then 1 else 0)).
  { intros q. rewrite (cnt_delete _ _ _ _ Hk). unfold hit. rewrite Ep. destruct (Z.eqb_spec p q), (decide (q = p)); congruence || lia. }
  pose proof (Hd p) as Hdp. rewrite decide_True in Hdp by done.
  destruct (_ && _) eqn:Eb.
  - apply andb_true_iff in Eb as [Eb _]. apply Z.eqb_eq in Eb.
    destruct (free_page_ok s1 p (ct_pg _ _ _ _ C) Ho) as (g & -> & I' & En & K' & Kg). apply returns_ok.
    split_and!; [|done|done|done|intros q Hq Hne; apply K'; [done|by apply apart_one]].
    assert (Hpr : forall q, page_ref q (set_page_ref p 0 (set_pages g s1)) = if decide (q = p) then 0 else page_ref q s).
    { intros q. rewrite page_ref_set. case_decide; [done|]. unfold page_ref, s1. cbn. by simpl_map. }
    split; cbn [pages PG_swap set_page_ref set_refs set_pages].
    + done.
    + apply C.
    + intros q Hq. rewrite Hpr. case_decide; [done|]. apply (ct_free _ _ _ _ C). intros Hoq. apply Hq, K'; [done|by apply apart_one].
    + apply C.
    + intros q Ht. assert (Hne : q <> p) by (intros ->; by apply Hnt).
      destruct (ct_table _ _ _ _ C q Ht) as (H1 & H2 & H3). rewrite Hpr, Hd, !decide_False by done.
      split_and!; [apply K'; [done|by apply apart_one]|done|lia].
    + intros q Hq. rewrite Hpr, Hd. case_decide as E1; [subst q; lia|]. rewrite (ct_cnt _ _ _ _ C q Hq). lia.
    + intros q Hq. rewrite Hd in Hq. case_decide as E1; [subst q; lia|].
      apply K'; [apply (ct_own _ _ _ _ C); lia|by apply apart_one].
    + intros k' w' Hk'. apply lookup_delete_Some in Hk' as [_ Hk']. by apply (ct_ent _ _ _ _ C k').
    + intros q Hq. apply Kg in Hq as [Hq Hne]. rewrite Hd, decide_False by done. rewrite Z.sub_0_r. by apply (ct_live _ _ _ _ C).
  - assert (Hkeep : page_ref p s - 1 <> 0 \/ p ∈ PG_IO s).
    { apply andb_false_iff in Eb as [Eb|Eb]; [left; by apply Z.eqb_neq|right; by apply negb_false_iff, bool_decide_eq_true in Eb]. }
    clear Eb. apply returns_ok. split_and!; [|done..].
    assert (Hpr : forall q, page_ref q s1 = if decide (q = p) then page_ref p s - 1 else page_ref q s)
      by (intros q; apply page_ref_set).
    split; change (pages s1) with (pages s); try apply C.
    + intros q Hq. rewrite Hpr. case_decide as E1; [subst q; done|]. by apply (ct_free _ _ _ _ C).
    + intros q Ht. assert (Hne : q <> p) by (intros ->; by apply Hnt).
      destruct (ct_table _ _ _ _ C q Ht) as (H1 & H2 & H3). rewrite Hpr, Hd, !decide_False by done.
      split_and!; [done|done|lia].
    + intros q Hq. rewrite Hpr, Hd. case_decide as E1; [subst q; lia|]. rewrite (ct_cnt _ _ _ _ C q Hq). lia.
    + intros q Hq. rewrite Hd in Hq. case_decide as E1; [by subst q|]. apply (ct_own _ _ _ _ C). lia.
    + intros k' w' Hk'. apply lookup_delete_Some in Hk' as [_ Hk']. by apply (ct_ent _ _ _ _ C k').
    + intros q Hq. rewrite Hd. case_decide as E1; [subst q|rewrite Z.sub_0_r; by apply (ct_live _ _ _ _ C)].
      destruct Hkeep; [right; right; right; lia|by right; left].
Qed.

Lemma page_remove_pte_ok L E maps s d v e w :
  pt_ok L E maps s -> slot s d v e -> maps !! (d, v) = Some w ->
  returns (page_remove_pte e s) (fun s' => pt_ok L E (delete (d, v) maps) s' /\ dirs s' = dirs s /\
    (forall q, q <> e.1 -> words s' !! q = words s !! q) /\
    forall q, pg_owned (pages s) q 1 -> q <> PPN w -> pg_owned (pages s') q 1).
Proof.
  intros [S C] Hs Hw. destruct (st_dom _ _ S _ _ _ Hw) as (Hnz & _ & Hv).
  destruct (slot_words _ _ _ _ _ S Hs) as (W & HW & Ew). specialize (Ew Hv). rewrite Hw in Ew. cbn in Ew.
  destruct (ct_ent _ _ _ _ C _ _ Hw) as (p & f & Ewf & Hf & Hp).
  pose proof (mapped_range _ _ _ _ _ _ C Hw) as (Ho & Hr & Hb).
  assert (Ep : PPN w = p) by (rewrite Ewf; by apply PPN_word).
  unfold page_remove_pte, rd_pte. rewrite (fetch_ok _ _ _ HW). cbn [res_bind]. rewrite Ew.
  assert (Hpw : ptep_present w = true) by (rewrite Ewf, present_word; done). rewrite Hpw.
  unfold pte2page. rewrite Hpw. unfold pa2page.
  assert (Ea : PPN (PTE_ADDR w) = p).
  { rewrite Ewf, word_addr by done. rewrite <- (Z.add_0_r (p * PGSIZE)). apply PPN_word. unfold PGSIZE; lia. }
  rewrite Ea. destruct (Z.leb_spec (pg_npage (pages s)) p); [lia|]. cbn [res_bind].
  rewrite (ct_swap _ _ _ _ C), bool_decide_eq_false_2 by set_solver. cbn [negb page_ref_dec].
  eapply returns_bind; [by apply (drop_ref_ok L E maps s (d, v) w p)|].
  intros s1 (C1 & Ed & Ewd & En & Hk). unfold ptep_unmap, wr_pte. rewrite Ewd, (fetch_ok _ _ _ HW). cbn [res_bind].
  apply returns_ok. split_and!; [|done|intros q Hq; cbn; by rewrite lookup_insert_ne|by rewrite Ep].
  assert (S1 : struct_ok maps s1).
  { eapply st_frame; [exact S|done|]. intros q W' _ HW'. rewrite Ewd. by exists W'. }
  assert (Hs1 : slot s1 d v e) by (unfold slot; by rewrite Ed).
  rewrite <- Ewd in HW. pose proof (st_write maps s1 d v e 0 W S1 Hs1 Hv HW) as S2. rewrite decide_True in S2 by done.
  split; [by rewrite <- Ewd|by apply ct_words].
Qed.

(** *** [get_pte] *)

Lemma present_pde q : ptep_present (pde q) = true.
Proof. unfold pde. rewrite present_word; [done|]. unfold PGSIZE; lia. Qed.

Lemma addr_pde q : PTE_ADDR (pde q) = q * PGSIZE.
Proof. apply word_addr. unfold PGSIZE; lia. Qed.

Lemma PPN_mul q : PPN (q * PGSIZE) = q.
Proof. rewrite <- (Z.add_0_r (q * PGSIZE)). apply PPN_word. unfold PGSIZE; lia. Qed.

Lemma KADDR_ok q n : q < n -> KADDR n (q * PGSIZE) = Ok (q * PGSIZE).
Proof. intros. unfold KADDR. rewrite PPN_mul. destruct (Z.leb_spec n q); [lia|done]. Qed.

Lemma table_range L E maps s q : count_ok L E maps s -> table s q -> 0 <= q < pg_npage (pages s).
Proof.
  intros C Ht. destruct (ct_table _ _ _ _ C q Ht) as (Ho & _).
  pose proof (pg_range _ _ 1 (ct_pg _ _ _ _ C) ltac:(lia) Ho). lia.
Qed.

Lemma get_pte_found L E maps s d D v q create :
  pt_ok L E maps s -> dirs s !! d = Some D -> 0 <= v < 2 ^ 20 -> word D (v / NPTEENTRY) = pde q ->
  get_pte d (v * PGSIZE) create s = Ok (Some (q, v mod NPTEENTRY), s) /\ slot s d v (q, v mod NPTEENTRY).
Proof.
  intros [S C] HD Hv Hq. assert (Hr := table_range _ _ _ _ q C ltac:(by exists d, D, (v / NPTEENTRY))).
  unfold get_pte, get_pgd. rewrite (fetch_ok _ _ _ HD). cbn [res_bind]. rewrite PDX_page, PTX_page by done.
  rewrite Hq, present_pde. cbn [res_bind]. rewrite addr_pde, KADDR_ok by lia. cbn [res_bind]. rewrite PPN_mul.
  split; [done|]. exists D, q. split_and!; [done..|lia|done].
Qed.

Lemma get_pte_missing L E maps s d D v :
  pt_ok L E maps s -> dirs s !! d = Some D -> 0 <= v < 2 ^ 20 -> word D (v / NPTEENTRY) = 0 ->
  get_pte d (v * PGSIZE) false s = Ok (None, s).
Proof.
  intros [S C] HD Hv Hq. unfold get_pte, get_pgd. rewrite (fetch_ok _ _ _ HD). cbn [res_bind]. rewrite PDX_page by done.
  by rewrite Hq.
Qed.

(** [s'] has the directories of [s], possibly with more tables. *)
Definition grows s s' : Prop :=
  (forall d, is_Some (dirs s !! d) -> is_Some (dirs s' !! d)) /\ (forall d v e, slot s d v e -> slot s' d v e).

Lemma grows_refl s : grows s s.
Proof. done. Qed.
Lemma grows_trans s1 s2 s3 : grows s1 s2 -> grows s2 s3 -> grows s1 s3.
Proof. intros [A B] [C D]. split; auto. Qed.
Lemma grows_dirs s s' : dirs s' = dirs s -> grows s s'.
Proof. intros E. split; unfold slot; by rewrite E. Qed.

(** Pages in use that are no tables stay so. *)
Definition keeps s s' : Prop :=
  (forall q, pg_owned (pages s) q 1 -> pg_owned (pages s') q 1) /\
  forall q, pg_owned (pages s) q 1 -> ~ table s q ->
    pg_owned (pages s') q 1 /\ ~ table s' q /\ words s' !! q = words s !! q.

(** A page that is handed out is not in use; until it is entered somewhere it
    is held by the code that asked for it. *)
Definition held (o : option Z) L : Z -> Prop := fun q => L q \/ o = Some q.

Lemma alloc_page_ok L E maps s :
  pt_ok L E maps s ->
  returns (alloc_page s) (fun '(o, s') => pt_ok (held o L) E maps s' /\ dirs s' = dirs s /\ words s' = words s /\
    (forall q, pg_owned (pages s) q 1 -> pg_owned (pages s') q 1 /\ o <> Some q) /\
    match o with
    | Some p => pg_owned (pages s') p 1 /\ ~ table s' p /\ page_ref p s' = 0 /\ E p = 0 /\ cnt maps p = 0
    | None => True
    end).
Proof.
  intros [S C]. unfold alloc_page.
  destruct (pg_alloc_ok 1 (pages s) (ct_pg _ _ _ _ C) ltac:(lia)) as ([o g] & Eg & I & En & H). rewrite Eg. cbn [res_bind]. apply returns_ok.
  assert (Hk : forall q, pg_owned (pages s) q 1 -> pg_owned g q 1) by (destruct o; intros q Hq; by apply H).
  assert (C' : count_ok (held o L) E maps (set_pages g s)).
  { destruct C as [? ? Hf ? Ht ? Hown ? Hl]. split; cbn [pages set_pages]; try done.
    - intros p Hp. apply Hf. auto.
    - intros q Hq. destruct (Ht q Hq) as (? & ? & ?). split_and!; auto.
    - intros p Hp. auto.
    - intros q Hq. destruct (pg_alloc_only 1 (pages s) o g q ltac:(done) ltac:(lia) Eg Hq) as [Hq'|(p & -> & Hp)].
      + destruct (Hl q Hq') as [|[|[]]]; [left; by left|tauto..].
      + left. right. f_equal. lia. }
  split_and!; [split; [|done]|done|done| |].
  { eapply st_frame; [exact S|done|]. intros q W _ HW. by exists W. }
  { intros q Hq. split; [by apply Hk|]. intros ->. destruct H as [_ H]. apply H in Hq as [_ Hq]. by apply (Hq q); lia. }
  destruct o as [p|]; [|done]. destruct H as [Ho Hap].
  assert (Hno : ~ pg_owned (pages s) p 1) by (intros Hp; apply Hap in Hp as [_ Hp]; by apply (Hp p); lia).
  assert (Hnt : ~ table s p) by (intros Ht; by apply Hno, (ct_table _ _ _ _ C p Ht)).
  pose proof (ct_ext _ _ _ _ C p). pose proof (cnt_nonneg maps p).
  assert (~ 0 < E p + cnt maps p) by (intros Hp; by apply Hno, (ct_own _ _ _ _ C)).
  split_and!; [done|done|by apply (ct_free _ _ _ _ C)|lia|lia].
Qed.

Lemma held_none L E maps s : pt_ok (held None L) E maps s -> pt_ok L E maps s.
Proof.
  intros [S C]. split; [done|]. split; try apply C. intros q Hq.
  destruct (ct_live _ _ _ _ C q Hq) as [[|]|]; [by left|done|by right].
Qed.

Lemma held_entered L E maps s p : pt_ok (held (Some p) L) E maps s -> 0 < E p + cnt maps p -> pt_ok L E maps s.
Proof.
  intros [S C] H. split; [done|]. split; try apply C. intros q Hq.
  destruct (ct_live _ _ _ _ C q Hq) as [[|[= <-]]|]; [by left|by right; right; right|by right].
Qed.

Lemma pdep_map_page p : 0 <= p < 2 ^ 20 -> pdep_map (page2pa p) = pde p.
Proof.
  intros Hp. unfold pdep_map, pde. rewrite page2pa_eq by done.
  pose proof (word_lor p 0 PTEX_L1_PDTYPE ltac:(split; by vm_compute) ltac:(split; by vm_compute)) as E.
  rewrite Z.add_0_r in E. rewrite E, word_lor; [done|split; by vm_compute..].
Qed.

(** A new table, entered into a directory. *)
Lemma new_table_struct maps s s' d D i p :
  struct_ok maps s -> dirs s !! d = Some D -> word D i = 0 -> ~ table s p -> 0 <= p ->
  dirs s' = <[d := <[i := pde p]> D]> (dirs s) -> words s' !! p = Some ∅ ->
  (forall q, q <> p -> words s' !! q = words s !! q) ->
  struct_ok maps s' /\ (forall q, table s' q <-> table s q \/ q = p).
Proof.
  intros S HD H0 Hnt Hp Ed Hwp Hw.
  assert (Hdir : forall d' D', dirs s' !! d' = Some D' -> exists D0, dirs s !! d' = Some D0 /\
            forall j, word D' j = if decide (d' = d /\ j = i) then pde p else word D0 j).
  { intros d' D' HD'. rewrite Ed in HD'. destruct (decide (d' = d)) as [->|Hne].
    - rewrite lookup_insert_eq in HD'. injection HD' as <-. exists D. split; [done|]. intros j.
      destruct (decide (j = i)) as [->|]; [rewrite decide_True by done; apply word_insert_eq|].
      rewrite decide_False by tauto. by apply word_insert_ne.
    - rewrite lookup_insert_ne in HD' by done. exists D'. split; [done|]. intros j. by rewrite decide_False by tauto. }
  assert (Hnp : forall d' D' j, dirs s !! d' = Some D' -> word D' j = pde p -> False)
    by (intros d' D' j HD' Hj; apply Hnt; by exists d', D', j).
  split.
  - split.
    + intros d' D' j HD'. destruct (Hdir _ _ HD') as (D0 & HD0 & ->). case_decide; [right; by exists p, ∅|].
      destruct (st_pde _ _ S d' D0 j HD0) as [|(q & W & Hq0 & Hq & HW)]; [by left|right]. exists q, W.
      rewrite Hw; [done|]. intros ->. exact (Hnp _ _ _ HD0 Hq).
    + intros d1 D1 i1 d2 D2 i2 q HD1 HD2 E1 E2. destruct (Hdir _ _ HD1) as (D1' & HD1' & W1).
      destruct (Hdir _ _ HD2) as (D2' & HD2' & W2). rewrite W1 in E1. rewrite W2 in E2.
      destruct (decide (d1 = d /\ i1 = i)) as [[-> ->]|]; destruct (decide (d2 = d /\ i2 = i)) as [[-> ->]|]; [done| | |].
      * apply pde_inj in E1. subst q. destruct (Hnp _ _ _ HD2' E2).
      * apply pde_inj in E2. subst q. destruct (Hnp _ _ _ HD1' E1).
      * by eapply (st_inj _ _ S d1 D1' i1 d2 D2' i2 q).
    + intros d' D' v' HD' Hv'. destruct (Hdir _ _ HD') as (D0 & HD0 & Hj).
      rewrite <- (st_maps _ _ S d' D0 v' HD0 Hv'). unfold pte_at. rewrite Hj.
      destruct (decide (d' = d /\ v' / NPTEENTRY = i)) as [[-> Ei]|Hne].
      * assert (D0 = D) as -> by congruence. rewrite Ei, H0, (proj2 (Z.eqb_neq _ _) (pde_nonzero p Hp)), PPN_pde, Hwp. done.
      * destruct (st_pde _ _ S d' D0 (v' / NPTEENTRY) HD0) as [->|(q & W & Hq0 & Eq & HW)]; [done|].
        rewrite Eq, PPN_pde, Hw; [done|]. intros ->. exact (Hnp _ _ _ HD0 Eq).
    + intros d' v' w Hl. destruct (st_dom _ _ S _ _ _ Hl) as (H1 & [D' HD'] & H3). split_and!; [done| |lia..].
      rewrite Ed. destruct (decide (d' = d)) as [->|Hne]; simpl_map; eauto.
  - intros q. split.
    + intros (d' & D' & j & HD' & Hj). destruct (Hdir _ _ HD') as (D0 & HD0 & Hj0). rewrite Hj0 in Hj.
      case_decide; [right; by apply pde_inj|left; by exists d', D0, j].
    + intros [(d' & D' & j & HD' & Hj)| ->].
      * destruct (decide (d' = d)) as [->|Hne].
        -- simplify_eq. exists d, (<[i := pde p]> D), j. split; [rewrite Ed; by simpl_map|].
           rewrite word_insert_ne; [done|]. intros <-. rewrite H0 in Hj. unfold pde, PGSIZE in Hj. lia.
        -- exists d', D', j. split; [rewrite Ed; by simpl_map|done].
      * exists d, (<[i := pde p]> D), i. split; [rewrite Ed; by simpl_map|apply word_insert_eq].
Qed.

Lemma new_table_ok L E maps s d D v p :
  pt_ok (held (Some p) L) E maps s -> dirs s !! d = Some D -> 0 <= v < 2 ^ 20 -> word D (v / NPTEENTRY) = 0 ->
  pg_owned (pages s) p 1 -> ~ table s p -> E p = 0 -> cnt maps p = 0 -> 0 <= p ->
  let s1 := clear_page p (set_page_ref p 1 s) in
  let s2 := set_dirs (<[d := <[v / NPTEENTRY := pde p]> D]> (dirs s1)) s1 in
  pt_ok L E maps s2 /\ grows s s2 /\ slot s2 d v (p, v mod NPTEENTRY) /\ forall q, table s2 q -> table s q \/ q = p.
Proof.
  intros [S C] HD Hv H0 Ho Hnt HE Hc Hp s1 s2. set (i := v / NPTEENTRY) in *.
  destruct (new_table_struct maps s s2 d D i p S HD H0 Hnt Hp) as [S2 Htab];
    [done|unfold s2, s1; cbn; by simpl_map|intros q Hq; unfold s2, s1; cbn; by simpl_map|].
  assert (Hpr : forall q, page_ref q s2 = if decide (q = p) then 1 else page_ref q s) by (intros q; apply page_ref_set).
  split_and!; [split; [exact S2|]|split| |intros q; apply Htab].
  - split; change (pages s2) with (pages s); try apply C.
    + intros q Hq. rewrite Hpr, decide_False by (by intros ->). by apply (ct_free _ _ _ _ C).
    + intros q Hq. rewrite Hpr. apply Htab in Hq as [Hq| ->]; [|rewrite decide_True by done; split_and!; [done|done|lia]].
      rewrite decide_False by (by intros ->). by apply (ct_table _ _ _ _ C).
    + intros q Hq. rewrite Htab in Hq. rewrite Hpr, decide_False by tauto. apply (ct_cnt _ _ _ _ C). tauto.
    + intros q Hq. rewrite Htab. destruct (ct_live _ _ _ _ C q Hq) as [[Hl|[= <-]]|[Hl|[Hl|Hl]]]; tauto.
  - intros d' [D' HD']. destruct (decide (d' = d)) as [->|Hne]; unfold s2, s1; cbn; simpl_map; eauto.
  - intros d' v' e (D' & q & HD' & Hq & Hq0 & ->). destruct (decide (d' = d)) as [->|Hne].
    + assert (D' = D) as -> by congruence. exists (<[i := pde p]> D), q. split_and!; [unfold s2, s1; cbn; by simpl_map| |done|done].
      rewrite word_insert_ne; [done|]. intros Ei. rewrite <- Ei, H0 in Hq. unfold pde, PGSIZE in Hq. lia.
    + exists D', q. split_and!; [unfold s2, s1; cbn; by simpl_map|done..].
  - exists (<[i := pde p]> D), p. split_and!; [unfold s2, s1; cbn; by simpl_map|apply word_insert_eq|done|done].
Qed.

Lemma clear_page_ok L E maps s p : pt_ok L E maps s -> ~ table s p -> pt_ok L E maps (clear_page p s).
Proof.
  intros [S C] Hnt. split; [|by apply ct_words]. eapply st_frame; [exact S|done|]. intros q W Ht HW. exists W.
  split; [|done]. cbn. rewrite lookup_insert_ne; [done|]. by intros ->.
Qed.

Lemma get_pte_create L E maps s d v :
  pt_ok L E maps s -> is_Some (dirs s !! d) -> 0 <= v < 2 ^ 20 ->
  returns (get_pte d (v * PGSIZE) true s) (fun '(o, s') => pt_ok L E maps s' /\ grows s s' /\ keeps s s' /\
    match o with Some e => slot s' d v e | None => True end).
Proof.
  intros [S C] [D HD] Hv. destruct (st_pde _ _ S d D (v / NPTEENTRY) HD) as [H0|(q & W & _ & Hq & _)].
  2:{ destruct (get_pte_found L E maps s d D v q true) as [-> Hs]; [done..|]. apply returns_ok. split_and!; [done|apply grows_refl|by split|done]. }
  unfold get_pte, get_pgd. rewrite (fetch_ok _ _ _ HD). cbn [res_bind]. rewrite PDX_page, PTX_page, H0 by done.
  change (ptep_present 0) with false. cbn [negb]. rewrite bind_assoc.
  eapply returns_bind; [by apply (alloc_page_ok L E maps s)|]. intros [o s1] (Hok1 & Ed & Ew & Hk & H). pose proof Hok1 as [S1 C1].
  assert (Ht1 : forall q, table s1 q -> table s q) by (intros q; unfold table; by rewrite Ed).
  destruct o as [p|].
  2:{ apply returns_ok. split_and!; [by apply held_none|by apply grows_dirs| |done]. split; [by intros q Hq; apply Hk|]. intros q Hq Hnt. split_and!; [by apply Hk|auto|by rewrite Ew]. }
  destruct H as (Ho & Hnt & Hr & HE & Hc). rewrite <- Ed in HD.
  pose proof (pg_range _ _ 1 (ct_pg _ _ _ _ C1) ltac:(lia) Ho) as (Hp & _ & Hp2). pose proof (pg_bound _ (ct_pg _ _ _ _ C1)).
  cbn [pages set_page_ref set_refs]. rewrite page2pa_eq, KADDR_ok by lia. cbn [res_bind].
  cbn [dirs clear_page set_words set_refs set_page_ref]. rewrite (fetch_ok _ _ _ HD). cbn [res_bind].
  destruct (new_table_ok L E maps s1 d D v p) as (Ok2 & G & Hs & Ht2); [done..|lia|].
  rewrite <- (page2pa_eq p), pdep_map_page, addr_pde by lia. cbn [pages set_dirs]. rewrite KADDR_ok by (cbn; lia).
  cbn [res_bind]. rewrite PPN_mul. apply returns_ok.
  split_and!; [exact Ok2|eapply grows_trans; [by apply grows_dirs|exact G]| |exact Hs].
  split; [by intros q Hq; apply Hk|]. intros q Hq Hnq. destruct (Hk q Hq) as [Ho1 Hne]. split_and!; [exact Ho1| |].
  - intros Hq2. apply Ht2 in Hq2 as [Hq2| ->]; auto.
  - cbn. rewrite lookup_insert_ne by congruence. by rewrite Ew.
Qed.

(** *** [page_insert] *)

(** What an operation leaves alone: the contents of the pages in use that are
    no tables, and the pages that are not mapped anywhere. *)
Definition frames maps s s' : Prop :=
  forall q, pg_owned (pages s) q 1 -> ~ table s q ->
    words s' !! q = words s !! q /\ ~ table s' q /\ (cnt maps q = 0 -> pg_owned (pages s') q 1).

Definition bump (p : Z) E : Z -> Z := fun q => E q + (if decide (q = p) then 1 else 0).

Lemma ref_inc_ok L E maps s p :
  pt_ok L E maps s -> pg_owned (pages s) p 1 -> ~ table s p -> pt_ok L (bump p E) maps (page_ref_inc p s).
Proof.
  intros [S C] Ho Hnt. split; [by eapply st_frame; [exact S|done|]; intros q W _ HW; exists W|].
  assert (Hpr : forall q, page_ref q (page_ref_inc p s) = if decide (q = p) then page_ref p s + 1 else page_ref q s)
    by (intros q; apply page_ref_set).
  split; change (pages (page_ref_inc p s)) with (pages s); try apply C; unfold bump.
  - intros q Hq. rewrite Hpr, decide_False by (by intros ->). by apply (ct_free _ _ _ _ C).
  - intros q. pose proof (ct_ext _ _ _ _ C q). case_decide; lia.
  - intros q Hq. assert (q <> p) by (by intros ->). rewrite Hpr, !decide_False by done. rewrite Z.add_0_r. by apply (ct_table _ _ _ _ C).
  - intros q Hq. rewrite Hpr, (ct_cnt _ _ _ _ C p), (ct_cnt _ _ _ _ C q) by done. case_decide; subst; lia.
  - intros q Hq. case_decide; [by subst q|]. apply (ct_own _ _ _ _ C). lia.
  - intros q Hq. destruct (ct_live _ _ _ _ C q Hq) as [|[|[|]]]; [tauto..|]. right; right; right. case_decide; lia.
Qed.

Lemma ref_dec_ok L E maps s p :
  pt_ok L (bump p E) maps s -> ~ table s p -> (forall q, 0 <= E q) -> 0 < E p + cnt maps p ->
  pt_ok L E maps (page_ref_dec p s).2.
Proof.
  intros [S C] Hnt HE Hpos. split; [by eapply st_frame; [exact S|done|]; intros q W _ HW; exists W|].
  assert (Hpr : forall q, page_ref q (page_ref_dec p s).2 = if decide (q = p) then page_ref p s - 1 else page_ref q s)
    by (intros q; apply page_ref_set).
  pose proof (cnt_nonneg maps p) as Hn. pose proof (HE p) as HEp.
  assert (Hop : pg_owned (pages s) p 1) by (apply (ct_own _ _ _ _ C); unfold bump; rewrite decide_True by done; lia).
  split; change (pages (page_ref_dec p s).2) with (pages s); try apply C; try done.
  - intros q Hq. rewrite Hpr, decide_False by (by intros ->). by apply (ct_free _ _ _ _ C).
  - intros q Hq. assert (q <> p) by (by intros ->). destruct (ct_table _ _ _ _ C q Hq) as (H1 & H2 & H3).
    unfold bump in H3. rewrite decide_False in H3 by done. rewrite Hpr, decide_False by done. split_and!; [done|done|lia].
  - intros q Hq. rewrite Hpr, (ct_cnt _ _ _ _ C p), (ct_cnt _ _ _ _ C q) by done. unfold bump. rewrite (decide_True (P := p = p)) by done.
    case_decide; subst; lia.
  - intros q Hq. apply (ct_own _ _ _ _ C). unfold bump. case_decide; lia.
  - intros q Hq. destruct (decide (q = p)) as [->|Hne]; [tauto|]. pose proof (ct_live _ _ _ _ C q Hq) as Hl.
    unfold bump in Hl. rewrite decide_False, Z.add_0_r in Hl by done. exact Hl.
Qed.

(** A reference from outside the tables is given up. *)
Lemma drop_ext_ok L E maps s p :
  pt_ok L (bump p E) maps s -> ~ table s p -> (forall q, 0 <= E q) ->
  let s1 := set_page_ref p (page_ref p s - 1) s in
  returns (if page_ref p s - 1 =? 0 then free_page p s1 else Ok s1) (fun s' =>
    pt_ok L E maps s' /\ dirs s' = dirs s /\ words s' = words s /\
    forall q, pg_owned (pages s) q 1 -> q <> p -> pg_owned (pages s') q 1).
Proof.
  intros [S C] Hnt HE s1. pose proof (cnt_nonneg maps p) as Hn. pose proof (HE p) as HEp.
  pose proof (ct_cnt _ _ _ _ C p Hnt) as Hr. unfold bump in Hr. rewrite decide_True in Hr by done.
  destruct (Z.eqb_spec (page_ref p s - 1) 0) as [H0|H0].
  - assert (Hop : pg_owned (pages s) p 1) by (apply (ct_own _ _ _ _ C); unfold bump; rewrite decide_True by done; lia).
    destruct (free_page_ok s1 p (ct_pg _ _ _ _ C) Hop) as (g & -> & I' & En & K' & Kg). apply returns_ok.
    split_and!; [|done|done|intros q Hq Hne; apply K'; [done|by apply apart_one]]. set (s2 := set_page_ref p 0 (set_pages g s1)).
    assert (Hpr : forall q, page_ref q s2 = if decide (q = p) then 0 else page_ref q s).
    { intros q. unfold s2, s1. rewrite page_ref_set. case_decide; [done|]. unfold page_ref. cbn. by simpl_map. }
    assert (Hb : forall q, q <> p -> bump p E q = E q) by (intros q Hq; unfold bump; rewrite decide_False by done; lia).
    split; [by eapply st_frame; [exact S|done|]; intros q W _ HW; exists W|].
    split; change (pages s2) with g; try apply C; [done|..].
    + intros q Hq. rewrite Hpr. case_decide; [done|]. apply (ct_free _ _ _ _ C). intros Hoq. apply Hq, K'; [done|by apply apart_one].
    + done.
    + intros q Ht. assert (Hne : q <> p) by (by intros ->). destruct (ct_table _ _ _ _ C q Ht) as (H1 & H2 & H3).
      rewrite Hb in H3 by done. rewrite Hpr, decide_False by done. split_and!; [apply K'; [done|by apply apart_one]|done|done].
    + intros q Hq. rewrite Hpr. case_decide as E1; [subst q; lia|]. rewrite <- (Hb q E1). by apply (ct_cnt _ _ _ _ C).
    + intros q Hq. destruct (decide (q = p)) as [->|Hne]; [lia|]. apply K'; [|by apply apart_one]. apply (ct_own _ _ _ _ C). by rewrite Hb.
    + intros q Hq. apply Kg in Hq as [Hq Hne]. rewrite <- (Hb q Hne). by apply (ct_live _ _ _ _ C).
  - apply returns_ok. split_and!; [|done..]. by apply (ref_dec_ok L E maps s p); [split|done|done|lia].
Qed.

Lemma pt_ok_ext L L' E E' maps s :
  pt_ok L E maps s -> (forall p, pg_owned (pages s) p 1 -> L p -> L' p \/ p ∈ PG_IO s \/ table s p \/ 0 < E p + cnt maps p) ->
  (forall p, E' p = E p) -> pt_ok L' E' maps s.
Proof.
  intros [S C] HL HE. split; [done|]. split; try apply C.
  - intros p. rewrite HE. apply C.
  - intros q. rewrite HE. apply C.
  - intros q. rewrite HE. apply C.
  - intros q. rewrite HE. apply C.
  - intros p Hp. rewrite HE. destruct (ct_live _ _ _ _ C p Hp) as [Hl|]; [|by right]. auto.
Qed.

(** A reference that is held becomes an entry. *)
Lemma enter_ok L E maps s k p f :
  count_ok L (bump p E) maps s -> (forall q, 0 <= E q) -> maps !! k = None -> 0 <= f < PGSIZE -> ptep_present f = true ->
  count_ok L E (<[k := p * PGSIZE + f]> maps) s.
Proof.
  intros C HE Hk Hf Hp.
  assert (Hc : forall q, E q + cnt (<[k := p * PGSIZE + f]> maps) q = bump p E q + cnt maps q).
  { intros q. rewrite cnt_insert by done. unfold hit, bump. rewrite PPN_word by done.
    destruct (Z.eqb_spec p q), (decide (q = p)); subst; done || lia. }
  split; try apply C; try done.
  - intros q Hq. rewrite Hc. by apply (ct_table _ _ _ _ C).
  - intros q Hq. rewrite Hc. by apply (ct_cnt _ _ _ _ C).
  - intros q Hq. rewrite Hc in Hq. by apply (ct_own _ _ _ _ C).
  - intros k' w' [[<- <-]|[_ H]]%lookup_insert_Some; [by exists p, f|by apply (ct_ent _ _ _ _ C k')].
  - intros q Hq. rewrite Hc. by apply (ct_live _ _ _ _ C).
Qed.

Lemma rewrite_ok L E maps s k w p f :
  count_ok L E maps s -> maps !! k = Some w -> PPN w = p -> 0 <= f < PGSIZE -> ptep_present f = true ->
  count_ok L E (<[k := p * PGSIZE + f]> maps) s.
Proof.
  intros C Hk Hw Hf Hp.
  assert (Hc : forall q, cnt (<[k := p * PGSIZE + f]> maps) q = cnt maps q)
    by (intros q; eapply cnt_replace; [exact Hk|by rewrite PPN_word]).
  split; try apply C.
  - intros q Hq. rewrite Hc. by apply (ct_table _ _ _ _ C).
  - intros q Hq. rewrite Hc. by apply (ct_cnt _ _ _ _ C).
  - intros q Hq. rewrite Hc in Hq. by apply (ct_own _ _ _ _ C).
  - intros k' w' [[<- <-]|[_ H]]%lookup_insert_Some; [by exists p, f|by apply (ct_ent _ _ _ _ C k')].
  - intros q Hq. rewrite Hc. by apply (ct_live _ _ _ _ C).
Qed.

(** The old entry of the slot is given up, unless it maps the same page. *)
Definition clear_slot (e : ptep) (pte page : Z) (s : ptmem) : res ptmem :=
  if pte =? 0 then Ok s
  else
    let* same := if ptep_present pte then let* p := pte2page pte s in Ok (p =? page) else Ok false in
    if (same : bool) then Ok (page_ref_dec page s).2
    else page_remove_pte e s.

Lemma clear_slot_ok L E maps s d v e p :
  pt_ok L (bump p E) maps s -> (forall q, 0 <= E q) -> slot s d v e -> ~ table s p ->
  returns (clear_slot e (default 0 (maps !! (d, v))) p s) (fun s' => dirs s' = dirs s /\
    (forall q, q <> e.1 -> words s' !! q = words s !! q) /\
    (forall q, pg_owned (pages s) q 1 -> cnt maps q = 0 -> pg_owned (pages s') q 1) /\
    ((maps !! (d, v) = None /\ pt_ok L (bump p E) maps s') \/
     (exists w, maps !! (d, v) = Some w /\ PPN w = p /\ pt_ok L E maps s') \/
     pt_ok L (bump p E) (delete (d, v) maps) s')).
Proof.
  intros Ok HE Hs Hnt. unfold clear_slot. destruct (maps !! (d, v)) as [w|] eqn:Ew; cbn [default].
  2:{ apply returns_ok. split_and!; [done..|by left]. }
  pose proof Ok as [S C]. destruct (st_dom _ _ S _ _ _ Ew) as (Hnz & _ & Hv).
  unfold from_option, id. rewrite (proj2 (Z.eqb_neq _ _) Hnz).
  destruct (ct_ent _ _ _ _ C _ _ Ew) as (p' & f & Ewf & Hf & Hp'). pose proof (mapped_range _ _ _ _ _ _ C Ew) as (_ & Hr & _).
  assert (Ep : PPN w = p') by (rewrite Ewf; by apply PPN_word).
  assert (Hpw : ptep_present w = true) by (rewrite Ewf, present_word; done). rewrite Hpw.
  unfold pte2page. rewrite Hpw. unfold pa2page. rewrite Ewf, word_addr, PPN_mul by done.
  destruct (Z.leb_spec (pg_npage (pages s)) p'); [lia|]. cbn [res_bind]. destruct (Z.eqb_spec p' p) as [->|Hne].
  - apply returns_ok. split_and!; [done..|]. right; left. exists w. split_and!; [by rewrite Ewf|done|].
    apply ref_dec_ok; [done..|]. pose proof (cnt_pos _ _ _ Ew) as H'. rewrite Ep in H'. pose proof (HE p). lia.
  - eapply returns_mono; [by eapply page_remove_pte_ok|]. intros s' (Ok' & Ed & Hw' & Ho'). split_and!; [done|done| |by right; right].
    intros q Hq Hc. apply Ho'; [done|]. intros ->. apply cnt_pos in Ew. lia.
Qed.

Lemma slot_table s d v e : slot s d v e -> table s e.1.
Proof. intros (D & q & HD & Hq & _ & ->). by exists d, D, (v / NPTEENTRY). Qed.

Lemma slot_dirs s s' d v e : dirs s' = dirs s -> slot s d v e -> slot s' d v e.
Proof. intros Ed. unfold slot. by rewrite Ed. Qed.

(** Entering a page whose reference is held already. *)
Lemma put_entry_ok L E maps s d v e p perm :
  pt_ok L (bump p E) maps s -> (forall q, 0 <= E q) -> slot s d v e -> ~ table s p -> 0 <= v < 2 ^ 20 -> 0 <= p < 2 ^ 20 ->
  returns (let* s := clear_slot e (default 0 (maps !! (d, v))) p s in
           let* s := ptep_map cpu e (page2pa p) s in
           let* s := ptep_set_perm cpu e perm s in
           Ok (0, s))
    (fun '(r, s') => r = 0 /\ pt_ok L E (<[(d, v) := p * PGSIZE + hwbits cpu perm]> maps) s' /\ dirs s' = dirs s /\
       (forall q, q <> e.1 -> words s' !! q = words s !! q) /\
       (forall q, pg_owned (pages s) q 1 -> cnt maps q = 0 -> pg_owned (pages s') q 1)).
Proof.
  intros Hok HE Hs Hnt Hv Hp. pose proof (hwbits_range cpu perm) as Hr. destruct (hwbits_bits cpu perm) as [Hpr _].
  eapply returns_bind; [by apply (clear_slot_ok L E maps s d v e p)|]. intros s1 (Ed & Hw1 & Ho1 & H).
  pose proof (slot_dirs _ _ _ _ _ Ed Hs) as Hs1.
  assert (Hfin : forall maps1, struct_ok maps1 s1 ->
    (forall w1, count_ok L E (<[(d, v) := p * PGSIZE + hwbits cpu perm]> maps1) (set_words w1 s1)) ->
    <[(d, v) := p * PGSIZE + hwbits cpu perm]> maps1 = <[(d, v) := p * PGSIZE + hwbits cpu perm]> maps ->
    returns (let* s := ptep_map cpu e (page2pa p) s1 in let* s := ptep_set_perm cpu e perm s in Ok (0, s))
      (fun '(r, s') => r = 0 /\ pt_ok L E (<[(d, v) := p * PGSIZE + hwbits cpu perm]> maps) s' /\ dirs s' = dirs s /\
         (forall q, q <> e.1 -> words s' !! q = words s !! q) /\
         (forall q, pg_owned (pages s) q 1 -> cnt maps q = 0 -> pg_owned (pages s') q 1))).
  { intros maps1 S1 C1 Em. destruct (map_set_ok maps1 s1 d v e p perm S1 Hs1 Hv Hp) as (s2 & E2 & S2 & W2 & ->).
    apply bind_ok in E2 as (s0 & -> & E2). cbn [res_bind]. rewrite E2. cbn [res_bind]. apply returns_ok.
    rewrite Em in S2. specialize (C1 (<[e.1 := W2]> (words s1))). rewrite Em in C1. split_and!; [done|done|done| |exact Ho1].
    intros q Hq. cbn. rewrite lookup_insert_ne by done. auto. }
  destruct H as [[Hn [S1 C1]]|[(w & Hw & Ew & [S1 C1])|[S1 C1]]].
  - apply (Hfin maps S1); [|done]. intros w1. apply ct_words. by apply enter_ok.
  - apply (Hfin maps S1); [|done]. intros w1. apply ct_words. by eapply rewrite_ok.
  - apply (Hfin _ S1); [|by rewrite insert_delete_eq]. intros w1. apply ct_words.
    apply enter_ok; [done|done|apply lookup_delete_eq|done|done].
Qed.

Lemma page_insert_ok L E maps s d v p perm :
  pt_ok L E maps s -> is_Some (dirs s !! d) -> 0 <= v < 2 ^ 20 -> pg_owned (pages s) p 1 -> ~ table s p ->
  returns (page_insert cpu d p (v * PGSIZE) perm s) (fun '(r, s') => grows s s' /\ frames maps s s' /\
    ((r = 0 /\ pt_ok L E (<[(d, v) := p * PGSIZE + hwbits cpu perm]> maps) s') \/
     (r = - E_NO_MEM /\ pt_ok L E maps s' /\ pg_owned (pages s') p 1 /\ ~ table s' p))).
Proof.
  intros Hok Hd Hv Ho Hnt. unfold page_insert.
  eapply returns_bind; [by apply (get_pte_create L E maps s d v)|]. intros [o s1] (Hok1 & G & [_ K] & H).
  destruct (K p Ho Hnt) as (Ho1 & Hnt1 & _).
  destruct o as [e|]; [|apply returns_ok; split_and!; [done|intros q Hq Hnq; destruct (K q Hq Hnq) as (? & ? & ?); auto|auto 10]].
  pose proof (ref_inc_ok L E maps s1 p Hok1 Ho1 Hnt1) as Hok2.
  assert (Hs2 : slot (page_ref_inc p s1) d v e) by exact H.
  pose proof (pg_range _ _ 1 (ct_pg _ _ _ _ (proj2 Hok1)) ltac:(lia) Ho1) as (Hp0 & _ & Hp1).
  pose proof (pg_bound _ (ct_pg _ _ _ _ (proj2 Hok1))).
  destruct (slot_words _ _ _ _ _ (proj1 Hok2) Hs2) as (W & HW & Ew). specialize (Ew Hv).
  unfold rd_pte. rewrite (fetch_ok _ _ _ HW). cbn [res_bind]. rewrite Ew.
  eapply returns_mono; [apply (put_entry_ok L E maps (page_ref_inc p s1) d v e p perm Hok2); [apply Hok|done|done|done|lia]|].
  intros [r s'] (-> & Hok' & Ed & Hw' & Ho'). split_and!; [| |by left].
  - eapply grows_trans; [exact G|]. by apply grows_dirs.
  - intros q Hq Hnq. destruct (K q Hq Hnq) as (K1 & K2 & K3). split_and!; [|unfold table in *; by rewrite Ed|intros Hc; by apply Ho'].
    rewrite Hw'; [exact K3|]. intros ->. apply K2. by eapply slot_table.
Qed.

Lemma page_remove_ok L E maps s d v :
  pt_ok L E maps s -> is_Some (dirs s !! d) -> 0 <= v < 2 ^ 20 ->
  returns (page_remove d (v * PGSIZE) s) (fun s' => pt_ok L E (delete (d, v) maps) s' /\ dirs s' = dirs s).
Proof.
  intros Hok [D HD] Hv. unfold page_remove. pose proof Hok as [S C].
  destruct (st_pde _ _ S d D (v / NPTEENTRY) HD) as [H0|(q & W & _ & Hq & HW)].
  - rewrite (get_pte_missing L E maps s d D v) by done. cbn [res_bind]. apply returns_ok. split; [|done].
    rewrite delete_id; [done|]. pose proof (st_maps _ _ S d D v HD Hv) as Hm. unfold pte_at in Hm. rewrite H0 in Hm. cbn in Hm.
    destruct (maps !! (d, v)) as [w|] eqn:Ew; [|done]. destruct (st_dom _ _ S _ _ _ Ew) as [Hnz _]. by cbn in Hm.
  - destruct (get_pte_found L E maps s d D v q false) as [-> Hs]; [done..|]. cbn [res_bind].
    destruct (maps !! (d, v)) as [w|] eqn:Ew; [eapply returns_mono; [by eapply page_remove_pte_ok|]; by intros s' (? & ? & _)|].
    destruct (slot_words _ _ _ _ _ S Hs) as (W' & HW' & Ew'). specialize (Ew' Hv). rewrite Ew in Ew'. cbn in Ew', HW'.
    unfold page_remove_pte, rd_pte. cbn [fst snd]. rewrite (fetch_ok _ _ _ HW'). cbn [res_bind]. rewrite Ew'.
    apply returns_ok. split; [|done]. by rewrite delete_id.
Qed.

(** With the table in place [page_insert] cannot run out of memory. *)
Lemma page_insert_slot L E maps s d v e p perm :
  pt_ok L E maps s -> slot s d v e -> 0 <= v < 2 ^ 20 -> pg_owned (pages s) p 1 -> ~ table s p ->
  returns (page_insert cpu d p (v * PGSIZE) perm s) (fun '(r, s') => r = 0 /\ dirs s' = dirs s /\ frames maps s s' /\
    pt_ok L E (<[(d, v) := p * PGSIZE + hwbits cpu perm]> maps) s').
Proof.
  intros Hok Hs Hv Ho Hnt. pose proof Hs as (D & q & HD & Hq & _ & ->). unfold page_insert.
  destruct (get_pte_found L E maps s d D v q true) as [-> _]; [done..|]. cbn [res_bind].
  pose proof (ref_inc_ok L E maps s p Hok Ho Hnt) as Hok2.
  assert (Hs2 : slot (page_ref_inc p s) d v (q, v mod NPTEENTRY)) by exact Hs.
  pose proof (pg_range _ _ 1 (ct_pg _ _ _ _ (proj2 Hok)) ltac:(lia) Ho) as (Hp0 & _ & Hp1).
  pose proof (pg_bound _ (ct_pg _ _ _ _ (proj2 Hok))).
  destruct (slot_words _ _ _ _ _ (proj1 Hok2) Hs2) as (W & HW & Ew). specialize (Ew Hv).
  unfold rd_pte. rewrite (fetch_ok _ _ _ HW). cbn [res_bind]. rewrite Ew.
  eapply returns_mono; [apply (put_entry_ok L E maps (page_ref_inc p s) d v _ p perm Hok2); [apply Hok|done|done|done|lia]|].
  intros [r s'] (-> & Hok' & Ed & Hw' & Ho'). split_and!; [done|done| |done].
  intros q' Hq' Hnq. split_and!; [|unfold table in *; by rewrite Ed|intros Hc; by apply Ho'].
  rewrite Hw'; [done|]. intros ->. apply Hnq. by eapply (slot_table s d v (q, v mod NPTEENTRY)).
Qed.

(** Giving back a page that nothing refers to. *)
Lemma free_unused_ok L E maps s p :
  pt_ok (held (Some p) L) E maps s -> pg_owned (pages s) p 1 -> ~ table s p -> E p + cnt maps p = 0 ->
  returns (free_page p s) (fun s' => pt_ok L E maps s' /\ dirs s' = dirs s /\ words s' = words s /\
    forall q, pg_owned (pages s) q 1 -> q <> p -> pg_owned (pages s') q 1).
Proof.
  intros [S C] Ho Hnt H0. destruct (free_page_ok s p (ct_pg _ _ _ _ C) Ho) as (g & -> & I' & En & K' & Kg). apply returns_ok.
  split_and!; [|done|done|intros q Hq Hne; apply K'; [done|by apply apart_one]]. set (s1 := set_page_ref p 0 (set_pages g s)).
  assert (Hpr : forall q, page_ref q s1 = if decide (q = p) then 0 else page_ref q s)
    by (intros q; exact (page_ref_set p q 0 (set_pages g s))).
  split; [by eapply st_frame; [exact S|done|]; intros q W _ HW; exists W|].
  split; change (pages s1) with g; try apply C; [done|..].
  - intros q Hq. rewrite Hpr. case_decide; [done|]. apply (ct_free _ _ _ _ C). intros Hoq. apply Hq, K'; [done|by apply apart_one].
  - intros q Ht. assert (Hne : q <> p) by (by intros ->). destruct (ct_table _ _ _ _ C q Ht) as (H1 & H2 & H3).
    rewrite Hpr, decide_False by done. split_and!; [apply K'; [done|by apply apart_one]|done|done].
  - intros q Hq. rewrite Hpr. case_decide as E1; [by subst q|]. by apply (ct_cnt _ _ _ _ C).
  - intros q Hq. apply K'; [by apply (ct_own _ _ _ _ C)|]. apply apart_one. intros ->. lia.
  - intros q Hq. apply Kg in Hq as [Hq Hne]. destruct (ct_live _ _ _ _ C q Hq) as [[Hl|[= <-]]|]; [by left|done|by right].
Qed.

Lemma pgdir_alloc_page_ok L E maps s d v perm :
  pt_ok L E maps s -> is_Some (dirs s !! d) -> 0 <= v < 2 ^ 20 ->
  returns (pgdir_alloc_page cpu d (v * PGSIZE) perm s) (fun '(o, s') => grows s s' /\ frames maps s s' /\
    match o with
    | Some p => cnt maps p = 0 /\ E p = 0 /\ pt_ok L E (<[(d, v) := p * PGSIZE + hwbits cpu perm]> maps) s' /\
                words s' !! p = Some ∅ /\ ~ pg_owned (pages s) p 1
    | None => pt_ok L E maps s'
    end).
Proof.
  intros Hok Hd Hv. unfold pgdir_alloc_page.
  eapply returns_bind; [by apply (alloc_page_ok L E maps s)|]. intros [o s1] (Hok1 & Ed & Ew & Hk & H).
  assert (Ht1 : forall q, table s1 q -> table s q) by (intros q; unfold table; by rewrite Ed).
  destruct o as [p|].
  2:{ apply returns_ok. split_and!; [by apply grows_dirs| |by apply held_none]. intros q Hq Hnq. rewrite Ew. split_and!; auto. intros _. by apply Hk. }
  destruct H as (Ho & Hnt & _ & HE & Hc).
  pose proof (pg_range _ _ 1 (ct_pg _ _ _ _ (proj2 Hok1)) ltac:(lia) Ho) as (Hp0 & _ & Hp1).
  pose proof (pg_bound _ (ct_pg _ _ _ _ (proj2 Hok1))).
  rewrite page2kva_ok by lia. cbn [res_bind]. set (s2 := clear_page p s1).
  assert (Hok2 : pt_ok (held (Some p) L) E maps s2) by (by apply clear_page_ok).
  assert (Hp2 : words s2 !! p = Some ∅) by (unfold s2; cbn; by simpl_map).
  eapply returns_bind; [apply (page_insert_ok _ E maps s2 d v p perm Hok2); [by rewrite <- Ed in Hd|done|done|done]|].
  intros [r s3] (G & Fr & H3). assert (G0 : grows s s3) by (eapply grows_trans; [by apply grows_dirs|exact G]).
  destruct (Fr p Ho Hnt) as (Hp3 & _ & _). rewrite Hp2 in Hp3.
  assert (Fr0 : frames maps s s3).
  { intros q Hq Hnq. destruct (Hk q Hq) as [Hq1 Hne]. destruct (Fr q Hq1) as (F1 & F2 & F3); [auto|]. split_and!; auto.
    rewrite F1. unfold s2. cbn. rewrite lookup_insert_ne by congruence. by rewrite Ew. }
  destruct H3 as [[-> Hok3]|(-> & Hok3 & Ho3 & Hnt3)].
  - apply returns_ok. split_and!; [done..| |done|by intros Hq; destruct (Hk p Hq)]. apply (held_entered _ _ _ _ p Hok3).
    pose proof (cnt_pos _ (d, v) _ (lookup_insert_eq maps (d, v) (p * PGSIZE + hwbits cpu perm))) as H'.
    rewrite PPN_word in H' by apply hwbits_range. lia.
  - change (- E_NO_MEM =? 0) with false. cbv iota.
    eapply returns_bind; [apply (free_unused_ok L E maps s3 p); [done|done|done|lia]|].
    intros s4 (Hok4 & Ed4 & Ew4 & Ho4). apply returns_ok. split_and!; [|intros q Hq Hnq|done].
    + eapply grows_trans; [exact G0|by apply grows_dirs].
    + destruct (Fr0 q Hq Hnq) as (F1 & F2 & F3). rewrite Ew4. split_and!; [done|unfold table in *; by rewrite Ed4|].
      intros Hcq. apply Ho4; [auto|]. intros ->. by destruct (Hk p Hq).
Qed.

(** *** [unmap_range] *)

Definition pt_unmapped (d a b : Z) maps : gmap (Z * Z) Z :=
  filter (fun kv => ~ (kv.1.1 = d /\ a <= kv.1.2 < b)) maps.

Lemma pt_unmapped_lookup d a b maps d' v :
  pt_unmapped d a b maps !! (d', v) = if decide (d' = d /\ a <= v < b) then None else maps !! (d', v).
Proof.
  unfold pt_unmapped. case_decide as H.
  - apply map_lookup_filter_None. right. intros w _. cbn. tauto.
  - destruct (maps !! (d', v)) as [w|] eqn:E.
    + by apply map_lookup_filter_Some.
    + apply map_lookup_filter_None. by left.
Qed.

Ltac solve_pt_unmapped :=
  apply map_eq; intros [d' v']; rewrite ?pt_unmapped_lookup;
  repeat case_decide; rewrite ?pt_unmapped_lookup; repeat case_decide; try reflexivity; try lia.

Lemma pt_unmapped_empty d a maps : pt_unmapped d a a maps = maps.
Proof. solve_pt_unmapped. Qed.

Lemma pt_unmapped_app d a b c maps : a <= b <= c -> pt_unmapped d b c (pt_unmapped d a b maps) = pt_unmapped d a c maps.
Proof. intros. solve_pt_unmapped. Qed.

Lemma pt_unmapped_one d a maps : delete (d, a) maps = pt_unmapped d a (a + 1) maps.
Proof.
  apply map_eq; intros [d' v']. rewrite pt_unmapped_lookup. case_decide as H.
  - destruct H as [-> H]. replace v' with a by lia. apply lookup_delete_eq.
  - apply lookup_delete_ne. intros [= -> ->]. apply H. lia.
Qed.

Lemma pt_unmapped_none d a b maps : (forall v, a <= v < b -> maps !! (d, v) = None) -> pt_unmapped d a b maps = maps.
Proof.
  intros H. apply map_eq; intros [d' v']. rewrite pt_unmapped_lookup. case_decide as Hd; [|done].
  destruct Hd as [-> Hd]. by rewrite H.
Qed.

Lemma unmap_pte_loop_ok fuel : forall L E maps s d D q i j je,
  pt_ok L E maps s -> dirs s !! d = Some D -> word D i = pde q -> 0 <= i < 4096 -> 0 <= j < je -> je <= 256 ->
  (Z.to_nat (je - j) <= fuel)%nat ->
  returns (unmap_pte_loop fuel q (j * PGSIZE) (je * PGSIZE) s) (fun s' =>
    pt_ok L E (pt_unmapped d (i * NPTEENTRY + j) (i * NPTEENTRY + je) maps) s' /\ dirs s' = dirs s).
Proof.
  induction fuel as [|fuel IH]; intros L E maps s d D q i j je Hok HD Hq Hi Hj Hje Hf; [lia|]. cbn [unmap_pte_loop].
  set (v := i * NPTEENTRY + j). assert (Hv : 0 <= v < 2 ^ 20) by (unfold v, NPTEENTRY; lia).
  assert (Evi : v / NPTEENTRY = i) by (unfold v, NPTEENTRY; Z.to_euclidean_division_equations; lia).
  assert (Evj : v mod NPTEENTRY = j) by (unfold v, NPTEENTRY; Z.to_euclidean_division_equations; lia).
  assert (Hq0 := table_range _ _ _ _ q (proj2 Hok) ltac:(by exists d, D, i)).
  assert (Hs : slot s d v (q, j)) by (exists D, q; rewrite Evi, Evj; split_and!; [done..|lia|done]).
  rewrite PTX_page by lia. replace (j mod NPTEENTRY) with j by (unfold NPTEENTRY; rewrite Z.mod_small; lia).
  destruct (slot_words _ _ _ _ _ (proj1 Hok) Hs) as (W & HW & Ew). specialize (Ew Hv).
  unfold rd_pte at 1. rewrite (fetch_ok _ _ _ HW). cbn [res_bind]. rewrite Ew.
  eapply (returns_bind _ _ (fun s1 => pt_ok L E (pt_unmapped d v (v + 1) maps) s1 /\ dirs s1 = dirs s)).
  { rewrite <- pt_unmapped_one. destruct (maps !! (d, v)) as [w|] eqn:Em.
    - destruct (st_dom _ _ (proj1 Hok) _ _ _ Em) as [Hnz _]. cbn [default from_option id].
      rewrite (proj2 (Z.eqb_neq _ _) Hnz). eapply returns_mono; [by eapply page_remove_pte_ok|]. by intros s1 (? & ? & _).
    - cbn. apply returns_ok. by rewrite delete_id. }
  intros s1 [Hok1 Ed]. assert (Eu : u32 (j * PGSIZE + PGSIZE) = (j + 1) * PGSIZE).
  { replace (j * PGSIZE + PGSIZE) with ((j + 1) * PGSIZE) by lia. apply u32_small. unfold PGSIZE; lia. }
  rewrite Eu. destruct (Z.eqb_spec ((j + 1) * PGSIZE) 0) as [|_]; [unfold PGSIZE in *; lia|]. cbn [negb andb].
  destruct (Z.ltb_spec ((j + 1) * PGSIZE) (je * PGSIZE)) as [Hlt|Hge]; unfold PGSIZE in Hlt || unfold PGSIZE in Hge.
  - eapply returns_mono; [apply (IH L E _ s1 d D q i (j + 1) je Hok1); [by rewrite Ed|done|done|lia|lia|lia]|].
    intros s2 [Hok2 Ed2]. split; [|congruence].
    replace (i * NPTEENTRY + (j + 1)) with (v + 1) in Hok2 by (unfold v; lia).
    rewrite pt_unmapped_app in Hok2 by (unfold v; lia). exact Hok2.
  - apply returns_ok. split; [|done]. replace (i * NPTEENTRY + je) with (v + 1) by (unfold v; lia). exact Hok1.
Qed.

Lemma maps_absent maps s d D v :
  struct_ok maps s -> dirs s !! d = Some D -> word D (v / NPTEENTRY) = 0 -> maps !! (d, v) = None.
Proof.
  intros S HD H0. destruct (maps !! (d, v)) as [w|] eqn:Ew; [|done].
  destruct (st_dom _ _ S _ _ _ Ew) as (Hnz & _ & Hv). pose proof (st_maps _ _ S d D v HD Hv) as Hm.
  unfold pte_at in Hm. rewrite H0, Ew in Hm. cbn in Hm. congruence.
Qed.

(** The part [j, je) of the section [i]. *)
Definition unmap_section (pmd off e : Z) s : res ptmem :=
  if ptep_present pmd then
    let* kva := KADDR (pg_npage (pages s)) (PTE_ADDR pmd) in
    unmap_range_pte (PPN kva) off e s
  else Ok s.

Lemma unmap_section_ok L E maps s d D i j je :
  pt_ok L E maps s -> dirs s !! d = Some D -> 0 <= i < 4096 -> 0 <= j < je -> je <= 256 ->
  returns (unmap_section (word D i) (j * PGSIZE) (je * PGSIZE) s) (fun s' =>
    pt_ok L E (pt_unmapped d (i * NPTEENTRY + j) (i * NPTEENTRY + je) maps) s' /\ dirs s' = dirs s).
Proof.
  intros Hok HD Hi Hj Hje. unfold unmap_section.
  destruct (st_pde _ _ (proj1 Hok) d D i HD) as [H0|(q & W & Hq0 & Hq & HW)].
  - rewrite H0. apply returns_ok. split; [|done]. rewrite pt_unmapped_none; [done|]. intros v Hv.
    apply (maps_absent maps s d D v (proj1 Hok) HD). replace (v / NPTEENTRY) with i; [done|].
    unfold NPTEENTRY in *. Z.to_euclidean_division_equations; lia.
  - assert (Hr := table_range _ _ _ _ q (proj2 Hok) ltac:(by exists d, D, i)).
    rewrite Hq, present_pde, addr_pde, KADDR_ok by lia. cbn [res_bind]. rewrite PPN_mul. unfold unmap_range_pte.
    rewrite !Z_mod_mult. rewrite !(proj2 (Z.leb_le _ _)), (proj2 (Z.ltb_lt _ _)) by (unfold PTSIZE, NPTEENTRY, PGSIZE; lia).
    cbn [andb Z.eqb]. apply (unmap_pte_loop_ok _ L E maps s d D q i j je); try done. unfold NPTEENTRY; lia.
Qed.

Lemma unmap_range_pgd_ok fuel : forall L E maps s d D vs ve,
  pt_ok L E maps s -> dirs s !! d = Some D -> 0 <= vs < ve -> ve <= 2 ^ 19 ->
  (Z.to_nat (ve / NPTEENTRY - vs / NPTEENTRY + 1) <= fuel)%nat ->
  returns (unmap_range_pgd fuel d (vs * PGSIZE) (vs / NPTEENTRY * PTSIZE) (ve * PGSIZE) s) (fun s' =>
    pt_ok L E (pt_unmapped d vs ve maps) s' /\ dirs s' = dirs s).
Proof.
  induction fuel as [|fuel IH]; intros L E maps s d D vs ve Hok HD Hvs Hve Hf.
  { assert (vs / NPTEENTRY <= ve / NPTEENTRY) by (apply Z.div_le_mono; unfold NPTEENTRY; lia). lia. }
  cbn [unmap_range_pgd]. set (i := vs / NPTEENTRY) in *. set (j := vs - i * NPTEENTRY).
  assert (Hi : 0 <= i < 4095) by (unfold i, NPTEENTRY; Z.to_euclidean_division_equations; lia).
  assert (Hj : 0 <= j < 256) by (unfold j, i, NPTEENTRY; Z.to_euclidean_division_equations; lia).
  set (vm := Z.min ve ((i + 1) * NPTEENTRY)).
  assert (Hvm : vs < vm <= ve) by (unfold vm, j, NPTEENTRY in *; lia).
  assert (Hvm2 : vm - i * NPTEENTRY <= 256) by (unfold vm, NPTEENTRY; lia).
  replace (u32 (vs * PGSIZE - i * PTSIZE)) with (j * PGSIZE)
    by (rewrite u32_small; unfold j, PTSIZE, PGSIZE, NPTEENTRY in *; lia).
  replace (u32 (PTSIZE - j * PGSIZE)) with ((256 - j) * PGSIZE)
    by (rewrite u32_small; unfold PTSIZE, PGSIZE, NPTEENTRY in *; lia).
  replace (u32 (ve * PGSIZE - vs * PGSIZE)) with ((ve - vs) * PGSIZE)
    by (rewrite u32_small; unfold PGSIZE in *; lia).
  replace (if (ve - vs) * PGSIZE <? (256 - j) * PGSIZE then (ve - vs) * PGSIZE else (256 - j) * PGSIZE)
    with ((vm - vs) * PGSIZE).
  2:{ destruct (Z.ltb_spec ((ve - vs) * PGSIZE) ((256 - j) * PGSIZE)); unfold vm, j, PGSIZE, NPTEENTRY in *; lia. }
  replace (u32 (j * PGSIZE + (vm - vs) * PGSIZE)) with ((vm - i * NPTEENTRY) * PGSIZE)
    by (rewrite u32_small; unfold j, PGSIZE in *; lia).
  replace (u32 (vs * PGSIZE + (vm - vs) * PGSIZE)) with (vm * PGSIZE) by (rewrite u32_small; unfold PGSIZE in *; lia).
  replace (u32 (i * PTSIZE + PTSIZE)) with ((i + 1) * PTSIZE) by (rewrite u32_small; unfold PTSIZE, PGSIZE, NPTEENTRY in *; lia).
  replace (i * PTSIZE) with (i * NPTEENTRY * PGSIZE) by (unfold PTSIZE; lia).
  unfold get_pgd. rewrite (fetch_ok _ _ _ HD). cbn [res_bind]. rewrite PDX_page by (unfold NPTEENTRY; lia).
  rewrite Z.div_mul by done.
  eapply returns_bind; [apply (unmap_section_ok L E maps s d D i j (vm - i * NPTEENTRY) Hok HD); unfold j; lia|].
  intros s1 [Hok1 Ed]. replace (i * NPTEENTRY + j) with vs in Hok1 by (unfold j; lia).
  replace (i * NPTEENTRY + (vm - i * NPTEENTRY)) with vm in Hok1 by lia.
  destruct (Z.eqb_spec (vm * PGSIZE) 0) as [|_]; [unfold PGSIZE in *; lia|]. cbn [negb andb].
  destruct (Z.ltb_spec (vm * PGSIZE) (ve * PGSIZE)) as [Hlt|Hge]; unfold PGSIZE in Hlt || unfold PGSIZE in Hge.
  - assert (Em : vm = (i + 1) * NPTEENTRY) by (unfold vm in *; lia).
    assert (Ei : vm / NPTEENTRY = i + 1) by (rewrite Em; by apply Z.div_mul).
    rewrite <- Ei. rewrite <- Ed in HD. eapply returns_mono; [apply (IH L E _ s1 d D vm ve Hok1 HD); lia|].
    intros s2 [Hok2 Ed2]. split; [|congruence]. by rewrite pt_unmapped_app in Hok2 by lia.
  - apply returns_ok. split; [|done]. by replace ve with vm by lia.
Qed.

Lemma user_pages vs ve : USER_ACCESS (vs * PGSIZE) (ve * PGSIZE) = true <->
  USERBASE / PGSIZE <= vs /\ vs < ve <= USERTOP / PGSIZE.
Proof.
  unfold USER_ACCESS. rewrite !andb_true_iff, !Z.leb_le, Z.ltb_lt. change (USERBASE / PGSIZE) with 0x30000.
  change (USERTOP / PGSIZE) with 0x70000. unfold USERBASE, USERTOP, PGSIZE. lia.
Qed.

Lemma rounddown_section vs : ROUNDDOWN (vs * PGSIZE) PTSIZE = vs / NPTEENTRY * PTSIZE.
Proof. unfold ROUNDDOWN, PTSIZE, NPTEENTRY, PGSIZE. Z.to_euclidean_division_equations; lia. Qed.

Lemma section_fuel vs ve : vs < ve ->
  ve / NPTEENTRY - vs / NPTEENTRY + 1 <= (ve * PGSIZE - vs * PGSIZE) / PTSIZE + 2.
Proof. intros. unfold PTSIZE, NPTEENTRY, PGSIZE. Z.to_euclidean_division_equations; lia. Qed.

Lemma unmap_range_ok L E maps s d vs ve :
  pt_ok L E maps s -> is_Some (dirs s !! d) -> USER_ACCESS (vs * PGSIZE) (ve * PGSIZE) = true ->
  returns (unmap_range d (vs * PGSIZE) (ve * PGSIZE) s) (fun s' =>
    pt_ok L E (pt_unmapped d vs ve maps) s' /\ dirs s' = dirs s).
Proof.
  intros Hok [D HD] Hu. unfold unmap_range. rewrite Hu, !Z_mod_mult. cbn [andb Z.eqb].
  apply user_pages in Hu. change (USERBASE / PGSIZE) with 0x30000 in Hu. change (USERTOP / PGSIZE) with 0x70000 in Hu.
  rewrite rounddown_section. apply (unmap_range_pgd_ok _ L E maps s d D vs ve Hok HD); [lia..|].
  pose proof (section_fuel vs ve). lia.
Qed.

(** *** [exit_range] *)

(** The directory [d] after its entry [i] is cleared. *)
Definition no_table (d i : Z) s : ptmem := set_dirs (alter (fun D => <[i := 0]> D) d (dirs s)) s.

Lemma no_table_dirs d i s d' D' : dirs (no_table d i s) !! d' = Some D' ->
  exists D, dirs s !! d' = Some D /\ forall j, word D' j = if decide (d' = d /\ j = i) then 0 else word D j.
Proof.
  cbn. destruct (decide (d' = d)) as [->|Hne].
  - rewrite lookup_alter_eq. intros (D & HD & ->)%fmap_Some. exists D. split; [done|]. intros j.
    destruct (decide (j = i)) as [->|]; [by rewrite decide_True, word_insert_eq|].
    rewrite decide_False by tauto. by apply word_insert_ne.
  - rewrite lookup_alter_ne by done. intros HD. exists D'. split; [done|]. intros j. by rewrite decide_False by tauto.
Qed.

Lemma no_table_table d D i q s q' : dirs s !! d = Some D -> word D i = pde q -> 0 <= q ->
  (forall d' D' i', dirs s !! d' = Some D' -> word D' i' = pde q -> d' = d /\ i' = i) ->
  table (no_table d i s) q' <-> table s q' /\ q' <> q.
Proof.
  intros HD Hq H0 Hinj. split.
  - intros (d' & D' & j & HD' & Hj). apply no_table_dirs in HD' as (D0 & HD0 & Hw). rewrite Hw in Hj.
    case_decide as Hd; [unfold pde, PGSIZE in Hj; lia|]. split; [by exists d', D0, j|]. intros ->. by apply Hd, (Hinj d' D0 j).
  - intros [(d' & D' & j & HD' & Hj) Hne]. destruct (decide (d' = d)) as [->|Hd].
    + exists d, (<[i := 0]> D'), j. split; [cbn; by rewrite lookup_alter_eq, HD'|].
      rewrite word_insert_ne; [done|]. intros <-. simplify_eq. rewrite Hq in Hj. by apply pde_inj in Hj.
    + exists d', D', j. split; [cbn; by rewrite lookup_alter_ne by done|done].
Qed.

Lemma no_table_struct maps s d D i q :
  struct_ok maps s -> dirs s !! d = Some D -> word D i = pde q -> (forall v, v / NPTEENTRY = i -> maps !! (d, v) = None) ->
  struct_ok maps (no_table d i s).
Proof.
  intros S HD Hq Hm. split.
  - intros d' D' j HD'. apply no_table_dirs in HD' as (D0 & HD0 & ->). case_decide; [by left|]. by apply (st_pde _ _ S d').
  - intros d1 D1 i1 d2 D2 i2 q' HD1 HD2 E1 E2.
    apply no_table_dirs in HD1 as (D1' & HD1' & W1). apply no_table_dirs in HD2 as (D2' & HD2' & W2).
    rewrite W1 in E1. rewrite W2 in E2.
    destruct (decide (d1 = d /\ i1 = i)); [unfold pde, PGSIZE in E1; lia|].
    destruct (decide (d2 = d /\ i2 = i)); [unfold pde, PGSIZE in E2; lia|]. by eapply (st_inj _ _ S d1 D1' i1 d2 D2' i2 q').
  - intros d' D' v HD' Hv. apply no_table_dirs in HD' as (D0 & HD0 & Hw). unfold pte_at. rewrite Hw.
    destruct (decide (d' = d /\ v / NPTEENTRY = i)) as [[-> Hi]|_]; [by rewrite Hm|]. apply (st_maps _ _ S d' D0 v HD0 Hv).
  - intros d' v w Hl. destruct (st_dom _ _ S _ _ _ Hl) as (H1 & [D' HD'] & H3). split_and!; [done| |lia..].
    cbn. destruct (decide (d' = d)) as [->|]; [rewrite lookup_alter_eq, HD'|rewrite lookup_alter_ne, HD' by done]; eauto.
Qed.

(** A table without entries is given back. *)
Lemma free_table_ok L E maps s d D i q :
  pt_ok L E maps s -> dirs s !! d = Some D -> word D i = pde q -> (forall v, v / NPTEENTRY = i -> maps !! (d, v) = None) ->
  returns (free_page q s) (fun s' => pt_ok L E maps (no_table d i s') /\ dirs s' = dirs s).
Proof.
  intros [S C] HD Hq Hm. assert (Ht : table s q) by (by exists d, D, i).
  pose proof (table_range _ _ _ _ q C Ht) as [Hq0 _]. destruct (ct_table _ _ _ _ C q Ht) as (Ho & _ & Hc).
  assert (Htab : forall s1 q', dirs s1 = dirs s -> table (no_table d i s1) q' <-> table s q' /\ q' <> q).
  { intros s1 q' E1. rewrite (no_table_table d D i q s1 q'); [unfold table; by rewrite E1|by rewrite E1|done|done|].
    rewrite E1. intros d' D' i' HD' Hi'. by destruct (st_inj _ _ S d' D' i' d D i q HD' HD Hi' Hq). }
  destruct (free_page_ok s q (ct_pg _ _ _ _ C) Ho) as (g & -> & I' & En & K' & Kg). apply returns_ok. split; [|done]. set (s1 := set_page_ref q 0 (set_pages g s)).
  assert (Hpr : forall p, page_ref p (no_table d i s1) = if decide (p = q) then 0 else page_ref p s)
    by (intros p; exact (page_ref_set q p 0 (set_pages g s))).
  split.
  - eapply (no_table_struct maps s1 d D i q); [|exact HD|exact Hq|exact Hm].
    eapply st_frame; [exact S|done|]. intros p W _ HW. by exists W.
  - split; change (pages (no_table d i s1)) with g; try apply C; [done|..].
    + intros p Hp. rewrite Hpr. case_decide; [done|]. apply (ct_free _ _ _ _ C). intros Hop. apply Hp, K'; [done|by apply apart_one].
    + intros p Hp. apply Htab in Hp as [Hp Hne]; [|done]. destruct (ct_table _ _ _ _ C p Hp) as (H1 & H2 & H3).
      rewrite Hpr, decide_False by done. split_and!; [apply K'; [done|by apply apart_one]|done|done].
    + intros p Hp. rewrite Hpr. case_decide as E1; [subst p; lia|]. apply (ct_cnt _ _ _ _ C). intros Hp2. apply Hp.
      by apply Htab.
    + intros p Hp. apply K'; [by apply (ct_own _ _ _ _ C)|]. apply apart_one. intros ->. lia.
    + intros p Hp. apply Kg in Hp as [Hp Hne]. destruct (ct_live _ _ _ _ C p Hp) as [|[|[Hl|]]]; [tauto..| |tauto].
      right; right; left. by apply Htab.
Qed.

(** Every section between [ib] and [ie] of [d] is without a table; the other
    entries of the directories are as they were. *)
Definition cleared (d ib ie : Z) s s' : Prop :=
  (forall d', d' <> d -> dirs s' !! d' = dirs s !! d') /\
  exists D D', dirs s !! d = Some D /\ dirs s' !! d = Some D' /\
    forall i, word D' i = if decide (ib <= i < ie) then 0 else word D i.

Lemma exit_range_pgd_ok fuel : forall L E maps s d i ve,
  pt_ok L E maps s -> is_Some (dirs s !! d) -> 0 <= i -> i * NPTEENTRY < ve -> ve <= 2 ^ 19 ->
  (forall v, i * NPTEENTRY <= v < (ve + NPTEENTRY - 1) / NPTEENTRY * NPTEENTRY -> maps !! (d, v) = None) ->
  (Z.to_nat ((ve + NPTEENTRY - 1) / NPTEENTRY - i) <= fuel)%nat ->
  returns (exit_range_pgd fuel d (i * PTSIZE) (ve * PGSIZE) s) (fun s' =>
    pt_ok L E maps s' /\ cleared d i ((ve + NPTEENTRY - 1) / NPTEENTRY) s s').
Proof.
  induction fuel as [|fuel IH]; intros L E maps s d i ve Hok [D HD] Hi Hlt Hve Hm Hf.
  { assert (i + 1 <= (ve + NPTEENTRY - 1) / NPTEENTRY) by (apply Z.div_le_lower_bound; unfold NPTEENTRY in *; lia). lia. }
  cbn [exit_range_pgd]. set (ie := (ve + NPTEENTRY - 1) / NPTEENTRY) in *.
  assert (Hie : i + 1 <= ie /\ ie <= 2048) by (unfold ie, NPTEENTRY in *; Z.to_euclidean_division_equations; lia).
  assert (Hiv : i + 1 < ie <-> (i + 1) * NPTEENTRY < ve) by (unfold ie, NPTEENTRY in *; Z.to_euclidean_division_equations; lia).
  replace (u32 (i * PTSIZE + PTSIZE)) with ((i + 1) * PTSIZE) by (rewrite u32_small; unfold PTSIZE, PGSIZE, NPTEENTRY in *; lia).
  assert (Epd : PDX (i * PTSIZE) = i).
  { replace (i * PTSIZE) with (i * NPTEENTRY * PGSIZE) by (unfold PTSIZE; lia).
    rewrite PDX_page by (unfold NPTEENTRY; lia). by apply Z.div_mul. }
  unfold get_pgd. rewrite (fetch_ok _ _ _ HD). cbn [res_bind]. rewrite Epd.
  eapply (returns_bind _ _ (fun s1 => pt_ok L E maps s1 /\ cleared d i (i + 1) s s1)).
  { destruct (st_pde _ _ (proj1 Hok) d D i HD) as [H0|(q & W & _ & Hq & _)].
    - rewrite H0. apply returns_ok. split; [done|]. split; [done|]. exists D, D. split_and!; [done..|]. intros j.
      case_decide; [|done]. by replace j with i by lia.
    - assert (Hr := table_range _ _ _ _ q (proj2 Hok) ltac:(by exists d, D, i)).
      rewrite Hq, present_pde, addr_pde, KADDR_ok by lia. cbn [res_bind]. unfold pa2page. rewrite PPN_mul.
      destruct (Z.leb_spec (pg_npage (pages s)) q); [lia|]. cbn [res_bind].
      eapply returns_bind; [apply (free_table_ok L E maps s d D i q Hok HD Hq)|].
      { intros v Hv. apply Hm. unfold NPTEENTRY in *. Z.to_euclidean_division_equations; lia. }
      intros s1 [Hok1 Ed]. rewrite Ed, (fetch_ok _ _ _ HD). cbn [res_bind]. apply returns_ok.
      assert (En : set_dirs (<[d := <[i := 0]> D]> (dirs s)) s1 = no_table d i s1).
      { unfold no_table. f_equal. rewrite Ed. apply map_eq. intros d'. destruct (decide (d' = d)) as [->|Hne].
        - by rewrite lookup_insert_eq, lookup_alter_eq, HD.
        - by rewrite lookup_insert_ne, lookup_alter_ne by done. }
      rewrite En. split; [done|]. split.
      + intros d' Hne. cbn. by rewrite lookup_alter_ne, Ed by done.
      + exists D, (<[i := 0]> D). split_and!; [done|cbn; by rewrite lookup_alter_eq, Ed, HD|]. intros j.
        destruct (decide (j = i)) as [->|]; [rewrite decide_True by lia; apply word_insert_eq|].
        rewrite decide_False by lia. by apply word_insert_ne. }
  intros s1 [Hok1 (Ko & D0 & D1 & HD0 & HD1 & Hw)].
  destruct (Z.eqb_spec ((i + 1) * PTSIZE) 0) as [|_]; [unfold PTSIZE, PGSIZE, NPTEENTRY in *; lia|]. cbn [negb andb].
  destruct (Z.ltb_spec ((i + 1) * PTSIZE) (ve * PGSIZE)) as [Hl|Hge].
  - assert (Hl' : (i + 1) * NPTEENTRY < ve) by (unfold PTSIZE, PGSIZE in Hl; lia).
    eapply returns_mono; [apply (IH L E maps s1 d (i + 1) ve Hok1); [by eexists|lia|lia|lia| |lia]|].
    { intros v Hv. apply Hm. fold ie in Hv. unfold NPTEENTRY in *. lia. }
    fold ie. intros s2 [Hok2 (Ko2 & D1' & D2 & HD1' & HD2 & Hw2)]. split; [done|]. split; [intros d' Hne; by rewrite Ko2, Ko|].
    exists D0, D2. split_and!; [done..|]. intros j. rewrite Hw2. simplify_eq. rewrite Hw.
    repeat case_decide; try done; lia.
  - assert (Hl' : ~ (i + 1) * NPTEENTRY < ve) by (unfold PTSIZE, PGSIZE in Hge; lia).
    apply returns_ok. replace ie with (i + 1) by lia. split; [done|]. split; [done|]. by exists D0, D1.
Qed.

Lemma exit_range_ok L E maps s d vs ve :
  pt_ok L E maps s -> is_Some (dirs s !! d) -> USER_ACCESS (vs * PGSIZE) (ve * PGSIZE) = true ->
  (forall v, vs / NPTEENTRY <= v / NPTEENTRY < (ve + NPTEENTRY - 1) / NPTEENTRY -> maps !! (d, v) = None) ->
  returns (exit_range d (vs * PGSIZE) (ve * PGSIZE) s) (fun s' =>
    pt_ok L E maps s' /\ cleared d (vs / NPTEENTRY) ((ve + NPTEENTRY - 1) / NPTEENTRY) s s').
Proof.
  intros Hok Hd Hu Hm. unfold exit_range. rewrite Hu, !Z_mod_mult. cbn [andb Z.eqb].
  apply user_pages in Hu. change (USERBASE / PGSIZE) with 0x30000 in Hu. change (USERTOP / PGSIZE) with 0x70000 in Hu.
  rewrite rounddown_section. apply (exit_range_pgd_ok _ L E maps s d (vs / NPTEENTRY) ve Hok Hd).
  - apply Z.div_pos; [lia|done].
  - unfold NPTEENTRY. Z.to_euclidean_division_equations; lia.
  - lia.
  - intros v Hv. apply Hm. unfold NPTEENTRY in *. Z.to_euclidean_division_equations; lia.
  - apply Z2Nat.inj_le; [..|]; unfold PTSIZE, NPTEENTRY, PGSIZE; Z.to_euclidean_division_equations; lia.
Qed.

(** *** [copy_range] *)

(** The permissions the copy of the entry [w] gets. *)
Definition copy_perm (share : bool) (w : Z) : Z :=
  let perm := if ptep_u_read cpu w then Z.lor PTE_P PTE_U else PTE_P in
  if share && ptep_u_write cpu w then Z.lor perm PTE_W else perm.
Definition parent_word (share : bool) (w : Z) : Z :=
  if share then w else _arm_pte_setflags cpu w (copy_perm share w).
Definition child_word (share : bool) (w : Z) : Z := PPN w * PGSIZE + hwbits cpu (copy_perm share w).

(** Both sides map the page the original maps; a private copy leaves neither
    side the right to write, a shared one keeps the rights of the original. *)
Lemma readonly_word p f : 0 <= f < PGSIZE -> ptep_present f = true ->
  let w := p * PGSIZE + f in
  exists f', parent_word false w = p * PGSIZE + f' /\ 0 <= f' < PGSIZE /\ ptep_present f' = true.
Proof.
  intros Hf Hp w. unfold parent_word, copy_perm. cbn [andb].
  destruct (setflags_word cpu p f (if ptep_u_read cpu w then Z.lor PTE_P PTE_U else PTE_P) Hf) as [Ew Hr].
  exists (_arm_pte_setflags cpu f (if ptep_u_read cpu w then Z.lor PTE_P PTE_U else PTE_P)). split_and!; [exact Ew|lia..|].
  by destruct (readonly_bits cpu f (ptep_u_read cpu w)) as (H & _).
Qed.

Lemma read_at s e W : words s !! e.1 = Some W -> rd_pte e s = Ok (word W e.2).
Proof. intros H. unfold rd_pte. by rewrite (fetch_ok _ _ _ H). Qed.

Lemma slot_read L E maps s d v e : pt_ok L E maps s -> slot s d v e -> 0 <= v < 2 ^ 20 ->
  rd_pte e s = Ok (default 0 (maps !! (d, v))).
Proof.
  intros [S C] Hs Hv. destruct (slot_words _ _ _ _ _ S Hs) as (W & HW & Ew). by rewrite (read_at _ _ _ HW), Ew.
Qed.

Lemma pte2page_ok p f s : 0 <= f < PGSIZE -> ptep_present f = true -> p < pg_npage (pages s) ->
  pte2page (p * PGSIZE + f) s = Ok p.
Proof.
  intros Hf Hp Hr. unfold pte2page. rewrite present_word, Hp by done. unfold pa2page. rewrite word_addr, PPN_mul by done.
  destruct (Z.leb_spec (pg_npage (pages s)) p); [lia|done].
Qed.

(** The original gives up its write permission unless the copy is shared. *)
Lemma protect_ok L E maps s d v e w (share : bool) :
  pt_ok L E maps s -> slot s d v e -> maps !! (d, v) = Some w ->
  returns (if share then Ok s else ptep_set_perm cpu e (copy_perm false w) s) (fun s' =>
    pt_ok L E (<[(d, v) := parent_word share w]> maps) s' /\ dirs s' = dirs s /\ pages s' = pages s).
Proof.
  intros [S C] Hs Hw. destruct share.
  { apply returns_ok. unfold parent_word. by rewrite insert_id. }
  destruct (ct_ent _ _ _ _ C _ _ Hw) as (p & f & -> & Hf & Hp). destruct (readonly_word p f Hf Hp) as (f' & E' & Hf' & Hp').
  destruct (st_dom _ _ S _ _ _ Hw) as (_ & _ & Hv). unfold parent_word in *.
  eapply returns_mono; [eapply (set_perm_ok maps s d v e _ (copy_perm false (p * PGSIZE + f)) S Hs Hv Hw)|].
  { cbv beta iota in E'. rewrite E'. assert (f' <> 0) by (by intros ->). unfold PGSIZE in *. lia. }
  intros s' [S' [W' ->]]. split; [|done]. split; [exact S'|]. apply ct_words. cbv beta iota in E'. rewrite E'.
  eapply rewrite_ok; [exact C|exact Hw|by apply PPN_word|done|done].
Qed.

Lemma copy_pte_ok L E maps s dto dfrom v p w (share : bool) :
  pt_ok L E maps s -> slot s dfrom v p -> is_Some (dirs s !! dto) -> dfrom <> dto ->
  maps !! (dfrom, v) = Some w -> maps !! (dto, v) = None ->
  returns (copy_pte cpu dto (v * PGSIZE) share p w s) (fun '(ok, s') => grows s s' /\
    pt_ok L E (if ok : bool then <[(dto, v) := child_word share w]> (<[(dfrom, v) := parent_word share w]> maps) else maps) s').
Proof.
  intros Hok Hs Hd Hne Hw Hn. destruct (st_dom _ _ (proj1 Hok) _ _ _ Hw) as (Hnz & _ & Hv). unfold copy_pte.
  eapply returns_bind; [by apply (get_pte_create L E maps s dto v)|]. intros [o s1] (Hok1 & G & _ & Ht).
  destruct o as [np|]; [|by apply returns_ok]. pose proof (proj2 G _ _ _ Hs) as Hs1.
  rewrite (slot_read L E maps s1 dto v np Hok1 Ht Hv), Hn. cbn [res_bind default from_option]. change (assert (0 =? 0)) with (Ok tt). cbn [res_bind].
  destruct (ct_ent _ _ _ _ (proj2 Hok1) _ _ Hw) as (pg & f & Ew & Hf & Hp).
  assert (Epg : PPN w = pg) by (rewrite Ew; by apply PPN_word).
  assert (Hpw : ptep_present w = true) by (rewrite Ew, present_word; done). rewrite Hpw.
  eapply (returns_bind _ _ (fun '(perm, s2) => perm = copy_perm share w /\
    pt_ok L E (<[(dfrom, v) := parent_word share w]> maps) s2 /\ dirs s2 = dirs s1 /\ pages s2 = pages s1)).
  { pose proof (protect_ok L E maps s1 dfrom v p w share Hok1 Hs1 Hw) as (s2 & E2 & H2). destruct share; cbn [negb].
    - injection E2 as <-. by apply returns_ok.
    - unfold copy_perm in E2 |- *. cbn [andb] in E2 |- *. rewrite E2. cbn [res_bind]. by apply returns_ok. }
  intros [perm s2] (-> & Hok2 & Ed2 & Ep2).
  rewrite (slot_read L E _ s2 dfrom v p Hok2 (slot_dirs _ _ _ _ _ Ed2 Hs1) Hv), lookup_insert_eq. cbn [res_bind default from_option id].
  assert (Hcnt : pg_owned (pages s2) pg 1 /\ pg < pg_npage (pages s2) /\ ~ table s2 pg /\
                 exists f', parent_word share w = pg * PGSIZE + f' /\ 0 <= f' < PGSIZE /\ ptep_present f' = true).
  { assert (Hf' : exists f', parent_word share w = pg * PGSIZE + f' /\ 0 <= f' < PGSIZE /\ ptep_present f' = true)
      by (rewrite Ew; destruct share; [by exists f|by apply readonly_word]).
    destruct Hf' as (f' & Ef' & Hf' & Hp'). pose proof (lookup_insert_eq maps (dfrom, v) (parent_word share w)) as Hl.
    pose proof (mapped_range _ _ _ _ _ _ (proj2 Hok2) Hl) as (H1 & H2 & _). pose proof (not_table _ _ _ _ _ _ (proj2 Hok2) Hl) as H3.
    rewrite Ef', PPN_word in H1, H2, H3 by done. split_and!; [done|lia|done|by exists f']. }
  destruct Hcnt as (Ho & Hr & Hnt & f' & Ef' & Hf' & Hp'). rewrite Ef', (pte2page_ok pg f' s2 Hf' Hp' Hr). cbn [res_bind].
  eapply returns_bind; [eapply (page_insert_slot L E _ s2 dto v np pg (copy_perm share w) Hok2); [by eapply slot_dirs|done..]|].
  intros [r s3] (-> & Ed3 & _ & Hok3). apply returns_ok. split.
  - eapply grows_trans; [exact G|]. apply grows_dirs. congruence.
  - unfold child_word. by rewrite Epg, <- Ef'.
Qed.

(** The pages [a, b) of [dfrom] have been copied to [dto]. *)
Definition copied (share : bool) (dto dfrom a b : Z) maps maps' : Prop :=
  forall d v, maps' !! (d, v) =
    if decide (a <= v < b) then
      if decide (d = dfrom) then parent_word share <$> maps !! (dfrom, v)
      else if decide (d = dto) then child_word share <$> maps !! (dfrom, v)
      else maps !! (d, v)
    else maps !! (d, v).

Lemma copied_start share dto dfrom a maps : copied share dto dfrom a a maps maps.
Proof. intros d v. by rewrite decide_False by lia. Qed.

Lemma copied_skip share dto dfrom a b c maps maps' :
  copied share dto dfrom a b maps maps' -> a <= b <= c ->
  (forall v, b <= v < c -> maps !! (dfrom, v) = None /\ maps !! (dto, v) = None) ->
  copied share dto dfrom a c maps maps'.
Proof.
  intros H Hb Hn d v. rewrite H. destruct (decide (a <= v < b)) as [|Hv]; [by rewrite (decide_True (P := a <= v < c)) by lia|].
  destruct (decide (a <= v < c)) as [Hv2|]; [|done]. destruct (Hn v ltac:(lia)) as [E1 E2].
  repeat case_decide; subst; by rewrite ?E1, ?E2.
Qed.

Lemma copied_step share dto dfrom a b w maps maps' :
  copied share dto dfrom a b maps maps' -> a <= b -> maps !! (dfrom, b) = Some w -> dfrom <> dto ->
  copied share dto dfrom a (b + 1) maps
    (<[(dto, b) := child_word share w]> (<[(dfrom, b) := parent_word share w]> maps')).
Proof.
  intros H Hab Hw Hne d v. destruct (decide (v = b)) as [->|Hv].
  - rewrite (decide_True (P := a <= b < b + 1)) by lia. rewrite Hw. destruct (decide (d = dfrom)) as [->|Hf].
    + rewrite lookup_insert_ne by congruence. by rewrite lookup_insert_eq.
    + destruct (decide (d = dto)) as [->|Ht]; [by rewrite lookup_insert_eq|].
      rewrite !lookup_insert_ne by congruence. by rewrite H, decide_False by lia.
  - rewrite !lookup_insert_ne by congruence. rewrite H.
    destruct (decide (a <= v < b)), (decide (a <= v < b + 1)); try done; lia.
Qed.

Lemma copy_loop_ok fuel : forall L E maps maps' s dto dfrom vs b ve share,
  pt_ok L E maps' s -> copied share dto dfrom vs b maps maps' -> vs <= b < ve -> 0 <= vs -> ve <= 2 ^ 19 ->
  is_Some (dirs s !! dto) -> is_Some (dirs s !! dfrom) -> dfrom <> dto ->
  (forall v, vs <= v < ve -> maps !! (dto, v) = None) -> (Z.to_nat (ve - b) <= fuel)%nat ->
  returns (copy_loop cpu fuel dto dfrom (b * PGSIZE) (ve * PGSIZE) share s) (fun '(r, s') => grows s s' /\
    exists maps2, pt_ok L E maps2 s' /\
      ((r = 0 /\ copied share dto dfrom vs ve maps maps2) \/
       (r = - E_NO_MEM /\ exists c, vs <= c < ve /\ copied share dto dfrom vs c maps maps2))).
Proof.
  induction fuel as [|fuel IH]; intros L E maps maps' s dto dfrom vs b ve share Hok Hc Hb H0 Hve Hdt [D HD] Hne Hn Hf; [lia|].
  cbn [copy_loop]. assert (Hv : 0 <= b < 2 ^ 20) by lia.
  assert (Hnext : forall s1 maps1 c, pt_ok L E maps1 s1 -> copied share dto dfrom vs (Z.min c ve) maps maps1 -> grows s s1 ->
    b < c < 2 ^ 20 ->
    returns (if negb (c * PGSIZE =? 0) && (c * PGSIZE <? ve * PGSIZE)
             then copy_loop cpu fuel dto dfrom (c * PGSIZE) (ve * PGSIZE) share s1 else Ok (0, s1)) (fun '(r, s') => grows s s' /\
      exists maps2, pt_ok L E maps2 s' /\
        ((r = 0 /\ copied share dto dfrom vs ve maps maps2) \/
         (r = - E_NO_MEM /\ exists c, vs <= c < ve /\ copied share dto dfrom vs c maps maps2)))).
  { intros s1 maps1 c Hok1 Hc1 G Hbc. destruct (Z.eqb_spec (c * PGSIZE) 0) as [|_]; [unfold PGSIZE in *; lia|]. cbn [negb andb].
    destruct (Z.ltb_spec (c * PGSIZE) (ve * PGSIZE)) as [Hl|Hl].
    - assert (c < ve) by (unfold PGSIZE in Hl; lia). rewrite Z.min_l in Hc1 by lia.
      eapply returns_mono; [eapply (IH L E maps maps1 s1 dto dfrom vs c ve share); try done; try lia; apply G; [done|by eexists]|].
      intros [r s2] [G2 H2]. split; [by eapply grows_trans|done].
    - rewrite Z.min_r in Hc1 by (unfold PGSIZE in Hl; lia). apply returns_ok. split; [done|]. exists maps1. split; [done|by left]. }
  assert (Eu : u32 (b * PGSIZE + PGSIZE) = (b + 1) * PGSIZE) by (rewrite u32_small; unfold PGSIZE in *; lia).
  assert (Hsame : forall d, maps' !! (d, b) = maps !! (d, b)) by (intros d; by rewrite Hc, decide_False by lia).
  destruct (st_pde _ _ (proj1 Hok) dfrom D (b / NPTEENTRY) HD) as [Hz|(q & W & _ & Hq & _)].
  - rewrite (get_pte_missing L E maps' s dfrom D b) by done. cbn [res_bind negb].
    set (c := (b / NPTEENTRY + 1) * NPTEENTRY).
    assert (Hbc : b < c < 2 ^ 20) by (unfold c, NPTEENTRY; Z.to_euclidean_division_equations; lia).
    replace (ROUNDDOWN (u32 (b * PGSIZE + PTSIZE)) PTSIZE) with (c * PGSIZE).
    2:{ rewrite u32_small by (unfold PTSIZE, NPTEENTRY, PGSIZE; lia).
        replace (b * PGSIZE + PTSIZE) with ((b + NPTEENTRY) * PGSIZE) by (unfold PTSIZE; lia). rewrite rounddown_section.
        unfold c, PTSIZE, NPTEENTRY, PGSIZE. Z.to_euclidean_division_equations; lia. }
    apply (Hnext s maps' c Hok); [|apply grows_refl|done].
    eapply copied_skip; [exact Hc|lia|]. intros v Hvc. split; [|apply Hn; lia].
    assert (Hv' : maps' !! (dfrom, v) = maps !! (dfrom, v)) by (by rewrite Hc, decide_False by lia).
    rewrite <- Hv'. apply (maps_absent maps' s dfrom D v (proj1 Hok) HD). replace (v / NPTEENTRY) with (b / NPTEENTRY); [done|].
    unfold c, NPTEENTRY in *. Z.to_euclidean_division_equations; lia.
  - destruct (get_pte_found L E maps' s dfrom D b q false) as [-> Hs]; [done..|]. cbn [res_bind].
    rewrite (slot_read L E maps' s dfrom b _ Hok Hs Hv), Hsame. cbn [res_bind].
    destruct (maps !! (dfrom, b)) as [w|] eqn:Ew; cbn [default from_option id].
    + assert (Hw' : maps' !! (dfrom, b) = Some w) by (by rewrite Hsame).
      destruct (st_dom _ _ (proj1 Hok) _ _ _ Hw') as (Hnz & _). rewrite (proj2 (Z.eqb_neq _ _) Hnz), bind_assoc.
      eapply returns_bind; [eapply (copy_pte_ok L E maps' s dto dfrom b _ w share Hok Hs Hdt Hne Hw'); rewrite Hsame; apply Hn; lia|].
      intros [ok s1] [G Hok1]. cbn [res_bind]. destruct ok; cbn [negb].
      * rewrite Eu. apply (Hnext s1 _ (b + 1) Hok1); [|done|lia]. rewrite Z.min_l by lia. apply copied_step; [done|lia|done|done].
      * apply returns_ok. split; [done|]. exists maps'. split; [done|]. right. split; [done|]. exists b. split; [lia|done].
    + cbn [res_bind negb Z.eqb]. rewrite Eu. apply (Hnext s maps' (b + 1) Hok); [|apply grows_refl|lia]. rewrite Z.min_l by lia.
      eapply copied_skip; [exact Hc|lia|]. intros v Hvb. replace v with b by lia. split; [done|apply Hn; lia].
Qed.

Lemma copy_range_ok L E maps s dto dfrom vs ve share :
  pt_ok L E maps s -> is_Some (dirs s !! dto) -> is_Some (dirs s !! dfrom) -> dfrom <> dto ->
  USER_ACCESS (vs * PGSIZE) (ve * PGSIZE) = true -> (forall v, vs <= v < ve -> maps !! (dto, v) = None) ->
  returns (copy_range cpu dto dfrom (vs * PGSIZE) (ve * PGSIZE) share s) (fun '(r, s') => grows s s' /\
    exists maps2, pt_ok L E maps2 s' /\
      ((r = 0 /\ copied share dto dfrom vs ve maps maps2) \/
       (r = - E_NO_MEM /\ exists c, vs <= c < ve /\ copied share dto dfrom vs c maps maps2))).
Proof.
  intros Hok Ht Hfr Hne Hu Hn. unfold copy_range. rewrite Hu, !Z_mod_mult. cbn [andb Z.eqb].
  apply user_pages in Hu. change (USERBASE / PGSIZE) with 0x30000 in Hu. change (USERTOP / PGSIZE) with 0x70000 in Hu.
  apply (copy_loop_ok _ L E maps maps s dto dfrom vs vs ve share Hok); try done; [apply copied_start|lia..|].
  rewrite <- Z.mul_sub_distr_r, Z.div_mul by done. lia.
Qed.

(** *** What the user of the tables sees *)

Lemma hwbits_rights perm :
  ptep_u_read cpu (hwbits cpu perm) = has perm PTE_U /\
  ptep_u_write cpu (hwbits cpu perm) = has perm PTE_U && has perm PTE_W.
Proof.
  destruct (hwbits_bits cpu perm) as [_ E]. unfold ptep_u_read, ptep_u_write. rewrite E.
  destruct cpu, (has perm PTE_U), (has perm PTE_W); by vm_compute.
Qed.

Lemma rights_word p f : 0 <= f < PGSIZE ->
  ptep_u_read cpu (p * PGSIZE + f) = ptep_u_read cpu f /\ ptep_u_write cpu (p * PGSIZE + f) = ptep_u_write cpu f.
Proof. intros Hf. unfold ptep_u_read, ptep_u_write. by rewrite prot_word. Qed.

(** Page [v] of [d] shows the page [p], with these rights for user programs. *)
Definition shows s (d v p : Z) (r w : bool) : Prop :=
  exists e x, get_page d (v * PGSIZE) s = Ok (Some p, Some e, s) /\ rd_pte e s = Ok x /\
    ptep_u_read cpu x = r /\ ptep_u_write cpu x = w.

Lemma shows_ok L E maps s d v x :
  pt_ok L E maps s -> maps !! (d, v) = Some x -> shows s d v (PPN x) (ptep_u_read cpu x) (ptep_u_write cpu x).
Proof.
  intros Hok Hx. pose proof Hok as [S C]. destruct (st_dom _ _ S _ _ _ Hx) as (Hnz & [D HD] & Hv).
  destruct (st_pde _ _ S d D (v / NPTEENTRY) HD) as [H0|(q & W & _ & Hq & _)].
  { by rewrite (maps_absent maps s d D v S HD H0) in Hx. }
  destruct (get_pte_found L E maps s d D v q false) as [Eg Hs]; [done..|].
  assert (Er : rd_pte (q, v mod NPTEENTRY) s = Ok x) by (by rewrite (slot_read L E maps s d v _ Hok Hs Hv), Hx).
  exists (q, v mod NPTEENTRY), x. split_and!; [|done..]. unfold get_page. rewrite Eg. cbn [res_bind]. rewrite Er. cbn [res_bind].
  destruct (ct_ent _ _ _ _ C _ _ Hx) as (p & f & -> & Hf & Hp). rewrite present_word, Hp by done.
  pose proof (mapped_range _ _ _ _ _ _ C Hx) as (_ & Hr & _). unfold pa2page.
  destruct (Z.leb_spec (pg_npage (pages s)) (PPN (p * PGSIZE + f))); [lia|done].
Qed.

Lemma copy_perm_rights share x :
  has (copy_perm share x) PTE_U = ptep_u_read cpu x /\
  has (copy_perm share x) PTE_U && has (copy_perm share x) PTE_W = share && ptep_u_write cpu x.
Proof.
  assert (Hw : ptep_u_write cpu x = true -> ptep_u_read cpu x = true).
  { unfold ptep_u_write, ptep_u_read. intros ->. apply orb_true_r. }
  unfold copy_perm. destruct (ptep_u_read cpu x), share, (ptep_u_write cpu x); try by vm_compute. by specialize (Hw eq_refl).
Qed.

(** Both sides of a copied entry. *)
Lemma copied_rights L E maps s d v x share :
  pt_ok L E maps s -> maps !! (d, v) = Some x ->
  PPN (child_word share x) = PPN x /\ PPN (parent_word share x) = PPN x /\
  ptep_u_read cpu (child_word share x) = ptep_u_read cpu x /\ ptep_u_read cpu (parent_word share x) = ptep_u_read cpu x /\
  ptep_u_write cpu (child_word share x) = share && ptep_u_write cpu x /\
  ptep_u_write cpu (parent_word share x) = share && ptep_u_write cpu x.
Proof.
  intros [S C] Hx. destruct (copy_perm_rights share x) as [R1 R2]. pose proof (hwbits_range cpu (copy_perm share x)) as Hr.
  destruct (hwbits_rights (copy_perm share x)) as [W1 W2]. destruct (rights_word (PPN x) _ Hr) as [V1 V2].
  assert (Hc : PPN (child_word share x) = PPN x) by (by apply PPN_word).
  split; [done|]. unfold child_word. rewrite V1, V2, W1, W2, R2, R1.
  destruct share; [done|]. destruct (ct_ent _ _ _ _ C _ _ Hx) as (p & f & -> & Hf & Hp).
  unfold parent_word, copy_perm. cbn [andb]. set (u := ptep_u_read cpu (p * PGSIZE + f)).
  destruct (setflags_word cpu p f (if u then Z.lor PTE_P PTE_U else PTE_P) Hf) as [-> Hr'].
  destruct (rights_word p _ Hr') as [-> ->]. destruct (readonly_bits cpu f u) as (_ & -> & ->). by rewrite !PPN_word.
Qed.

End Inv.

(** ** The properties *)

Section Properties.
Context (cpu : arm_cpu) {KERNBASE : Z} `{PA : PageAlloc KERNBASE}.

(** C9: [page_insert] maps a page in use at an address: the reference counts,
    the tables and the abstract map stay in agreement whatever the slot held
    before (nothing, another page, which loses a reference and is given back
    with its last one, or the same page), the address then shows the page with
    the requested rights, and -E_NO_MEM is returned only when there is no table
    for the address yet, changing no entry. *)
Theorem page_insert_spec L E maps (s : ptmem) d D v p perm :
  pt_ok L E maps s -> dirs s !! d = Some D -> 0 <= v < 2 ^ 20 -> pg_owned (pages s) p 1 -> ~ table s p ->
  returns (page_insert cpu d p (v * PGSIZE) perm s) (fun '(r, s') =>
    (r = 0 /\ pt_ok L E (<[(d, v) := p * PGSIZE + hwbits cpu perm]> maps) s' /\
     shows cpu s' d v p (has perm PTE_U) (has perm PTE_U && has perm PTE_W)) \/
    (r = - E_NO_MEM /\ word D (v / NPTEENTRY) = 0 /\ pt_ok L E maps s')).
Proof.
  intros Hok HD Hv Ho Hnt. set (maps' := <[(d, v) := p * PGSIZE + hwbits cpu perm]> maps).
  assert (Hsh : forall s', pt_ok L E maps' s' -> shows cpu s' d v p (has perm PTE_U) (has perm PTE_U && has perm PTE_W)).
  { intros s' Hok'. pose proof (shows_ok cpu L E maps' s' d v _ Hok' (lookup_insert_eq _ _ _)) as Hs.
    pose proof (hwbits_range cpu perm) as Hr. destruct (rights_word cpu p _ Hr) as [E1 E2]. destruct (hwbits_rights cpu perm) as [E3 E4].
    by rewrite PPN_word, E1, E2, E3, E4 in Hs. }
  destruct (st_pde _ _ (proj1 Hok) d D (v / NPTEENTRY) HD) as [H0|(q & W & Hq0 & Hq & _)].
  - eapply returns_mono; [by apply (page_insert_ok cpu L E maps s d v p perm)|].
    intros [r s'] (_ & _ & [[-> Hok']|(-> & Hok' & _)]); [left|right]; auto.
  - eapply returns_mono; [by apply (page_insert_slot cpu L E maps s d v (q, v mod NPTEENTRY) p perm Hok); [by exists D, q|..]|].
    intros [r s'] (-> & _ & _ & Hok'). left. auto.
Qed.

(** C10: [unmap_range] over a user range removes exactly the entries of the
    range from the tables of the address space; a page that loses its last
    reference is given back, and every reference count stays the number of
    entries that map the page. *)
Theorem unmap_range_spec L E maps (s : ptmem) d vs ve :
  pt_ok L E maps s -> is_Some (dirs s !! d) -> USER_ACCESS (vs * PGSIZE) (ve * PGSIZE) = true ->
  returns (unmap_range d (vs * PGSIZE) (ve * PGSIZE) s) (fun s' =>
    pt_ok L E (pt_unmapped d vs ve maps) s' /\
    forall p, ~ L p -> E p = 0 -> p ∉ PG_IO s' -> ~ table s' p -> cnt (pt_unmapped d vs ve maps) p = 0 -> ~ pg_owned (pages s') p 1).
Proof.
  intros Hok Hd Hu. eapply returns_mono; [by apply (unmap_range_ok L E maps s d vs ve)|].
  intros s' [Hok' _]. split; [done|]. intros p HL HE HI Ht Hc Ho.
  destruct (ct_live _ _ _ _ (proj2 Hok') p Ho) as [|[|[|]]]; [done..|lia].
Qed.

(** [exit_range] on sections without entries gives back exactly their
    tables and clears their directory entries, keeping all counts. *)
Theorem exit_range_spec L E maps (s : ptmem) d vs ve :
  pt_ok L E maps s -> is_Some (dirs s !! d) -> USER_ACCESS (vs * PGSIZE) (ve * PGSIZE) = true ->
  (forall v, vs / NPTEENTRY <= v / NPTEENTRY < (ve + NPTEENTRY - 1) / NPTEENTRY -> maps !! (d, v) = None) ->
  returns (exit_range d (vs * PGSIZE) (ve * PGSIZE) s) (fun s' =>
    pt_ok L E maps s' /\ cleared d (vs / NPTEENTRY) ((ve + NPTEENTRY - 1) / NPTEENTRY) s s').
Proof. apply exit_range_ok. Qed.

(** [copy_range] copies every entry of the range into the other address
    space, or a first part of them when it runs out of memory (-E_NO_MEM): both
    sides map the same page; if the copy is private neither side may write any
    more (copy on write), if it is shared both keep their rights; all counts
    stay right. *)
Theorem copy_range_spec L E maps (s : ptmem) dto dfrom vs ve share :
  pt_ok L E maps s -> is_Some (dirs s !! dto) -> is_Some (dirs s !! dfrom) -> dfrom <> dto ->
  USER_ACCESS (vs * PGSIZE) (ve * PGSIZE) = true -> (forall v, vs <= v < ve -> maps !! (dto, v) = None) ->
  returns (copy_range cpu dto dfrom (vs * PGSIZE) (ve * PGSIZE) share s) (fun '(r, s') => exists maps' c,
    pt_ok L E maps' s' /\ copied cpu share dto dfrom vs c maps maps' /\
    ((r = 0 /\ c = ve) \/ (r = - E_NO_MEM /\ vs <= c < ve)) /\
    forall v x d, vs <= v < c -> maps !! (dfrom, v) = Some x -> d = dfrom \/ d = dto ->
      shows cpu s' d v (PPN x) (ptep_u_read cpu x) (share && ptep_u_write cpu x)).
Proof.
  intros Hok Ht Hf Hne Hu Hn. eapply returns_mono; [by apply (copy_range_ok cpu L E maps s dto dfrom vs ve share)|].
  intros [r s'] (_ & maps' & Hok' & H).
  assert (Hsh : forall c, copied cpu share dto dfrom vs c maps maps' -> forall v x d, vs <= v < c -> maps !! (dfrom, v) = Some x ->
    d = dfrom \/ d = dto -> shows cpu s' d v (PPN x) (ptep_u_read cpu x) (share && ptep_u_write cpu x)).
  { intros c Hc v x d Hv Hx Hd. destruct (copied_rights cpu L E maps s dfrom v x share Hok Hx) as (P1 & P2 & R1 & R2 & W1 & W2).
    destruct Hd as [-> | ->].
    - pose proof (Hc dfrom v) as Hl. rewrite !decide_True, Hx in Hl by done.
      pose proof (shows_ok cpu L E maps' s' dfrom v _ Hok' Hl) as Hs. by rewrite P2, R2, W2 in Hs.
    - pose proof (Hc dto v) as Hl. rewrite (decide_True (P := vs <= v < c)), (decide_False (P := dto = dfrom)), (decide_True (P := dto = dto)), Hx in Hl by congruence || done.
      pose proof (shows_ok cpu L E maps' s' dto v _ Hok' Hl) as Hs. by rewrite P1, R1, W1 in Hs. }
  destruct H as [[-> Hc]|(-> & c & Hr & Hc)]; [exists maps', ve|exists maps', c]; split_and!; eauto.
Qed.

(** [pgdir_alloc_page] maps a cleared page that nothing else refers to, or
    changes no entry. *)
Theorem pgdir_alloc_page_spec L E maps (s : ptmem) d v perm :
  pt_ok L E maps s -> is_Some (dirs s !! d) -> 0 <= v < 2 ^ 20 ->
  returns (pgdir_alloc_page cpu d (v * PGSIZE) perm s) (fun '(o, s') =>
    match o with
    | Some p => cnt maps p = 0 /\ E p = 0 /\ pt_ok L E (<[(d, v) := p * PGSIZE + hwbits cpu perm]> maps) s' /\
                words s' !! p = Some ∅ /\ ~ pg_owned (pages s) p 1
    | None => pt_ok L E maps s'
    end).
Proof.
  intros. eapply returns_mono; [by apply (pgdir_alloc_page_ok cpu L E maps s d v perm)|]. by intros [o s'] (_ & _ & Hp).
Qed.

End Properties.

(** ** A machine with two address spaces and the pages of [Buddy.demo_state] *)

Definition demo_pt : ptmem (PA := pmm_PageAlloc 0x5000) :=
  mk_ptm (PA := pmm_PageAlloc 0x5000) (<[1 := ∅]> {[2 := ∅]}) ∅ ∅ ∅ ∅ ∅ (mk_pmm demo_state 0).

(** Pages that are not free in [demo_state] are held elsewhere. *)
Definition demo_held (p : Z) : Prop := pmm_owned (mk_pmm demo_state 0) p 1.

Lemma demo_word d D i : dirs demo_pt !! d = Some D -> word D i = 0.
Proof.
  intros HD. assert (D = ∅) as ->; [|done]. unfold demo_pt in HD. cbn in HD.
  apply lookup_insert_Some in HD as [[_ <-]|[_ HD]]; [done|]. by apply lookup_singleton_Some in HD as [_ <-].
Qed.

Lemma demo_pt_ok : pt_ok demo_held (fun _ => 0) ∅ demo_pt.
Proof.
  assert (Hnt : forall q, ~ table demo_pt q).
  { intros q (d & D & i & HD & Hi). rewrite (demo_word d D i HD) in Hi. unfold pde, PGSIZE in Hi. lia. }
  split.
  - split.
    + intros d D i HD. left. by eapply demo_word.
    + intros d D i d' D' i' q HD HD' Hi. destruct (Hnt q). by exists d, D, i.
    + intros d D v HD Hv. unfold pte_at. by rewrite (demo_word d D _ HD).
    + by intros d v w [=].
  - split; try done.
    + split; [apply demo_inv|]. assert (E : zones (buddy (mk_pmm demo_state 0)) = [5]) by by vm_compute.
      cbn [pages demo_pt]. rewrite E. constructor; [|constructor]. unfold PGSIZE. lia.
    + intros q Ht. by destruct (Hnt q).
    + intros p Hp. by left.
Qed.

(** Page 0x30001 of address space 1 is mapped. *)
Lemma demo_page : fst (run (None, demo_pt) (pgdir_alloc_page ARMV7 1 (0x30001 * PGSIZE) 7 demo_pt)) = Some 5.
Proof. by vm_compute. Qed.

Definition demo_maps : gmap (Z * Z) Z := <[(1, 0x30001) := 5 * PGSIZE + hwbits ARMV7 7]> ∅.

Lemma demo_mapped : exists s, pgdir_alloc_page ARMV7 1 (0x30001 * PGSIZE) 7 demo_pt = Ok (Some 5, s) /\
  pt_ok demo_held (fun _ => 0) demo_maps s /\ grows demo_pt s.
Proof.
  destruct (pgdir_alloc_page_ok ARMV7 demo_held (fun _ => 0) ∅ demo_pt 1 0x30001 7 demo_pt_ok) as ([o s] & E & G & _ & H); [by eexists|lia|].
  pose proof demo_page as Ho. rewrite E in Ho. cbn [run fst] in Ho. subst o. exists s. split_and!; [exact E|apply H|exact G].
Qed.

Lemma demo_dir s d : grows demo_pt s -> d = 1 \/ d = 2 -> is_Some (dirs s !! d).
Proof. intros [G _] [-> | ->]; apply G; by eexists. Qed.

Lemma demo_hit : PPN (5 * PGSIZE + hwbits ARMV7 7) = 5.
Proof. by vm_compute. Qed.

Lemma page_insert_spec_witness : exists (s : ptmem (PA := pmm_PageAlloc 0x5000)) D, pt_ok demo_held (fun _ => 0) demo_maps s /\ dirs s !! 2 = Some D /\
  returns (page_insert ARMV7 2 5 (0x40000 * PGSIZE) 5 s) (fun '(r, s') =>
    (r = 0 /\ pt_ok demo_held (fun _ => 0) (<[(2, 0x40000) := 5 * PGSIZE + hwbits ARMV7 5]> demo_maps) s' /\
     shows ARMV7 s' 2 0x40000 5 true false) \/
    (r = - E_NO_MEM /\ word D (0x40000 / NPTEENTRY) = 0 /\ pt_ok demo_held (fun _ => 0) demo_maps s')).
Proof.
  destruct demo_mapped as (s & _ & Hok & G). destruct (demo_dir s 2 G ltac:(by right)) as [D HD]. exists s, D.
  split_and!; [done..|].
  pose proof (mapped_range _ _ _ _ _ _ (proj2 Hok) (lookup_insert_eq ∅ (1, 0x30001) (5 * PGSIZE + hwbits ARMV7 7))) as [Ho _].
  pose proof (not_table _ _ _ _ _ _ (proj2 Hok) (lookup_insert_eq ∅ (1, 0x30001) (5 * PGSIZE + hwbits ARMV7 7))) as Hnt.
  rewrite demo_hit in Ho, Hnt.
  apply (page_insert_spec ARMV7 demo_held (fun _ => 0) demo_maps s 2 D 0x40000 5 5); [done|done|lia|done|done].
Defined.

Lemma unmap_range_spec_witness : exists s : ptmem (PA := pmm_PageAlloc 0x5000), pt_ok demo_held (fun _ => 0) demo_maps s /\
  returns (unmap_range 1 (0x30000 * PGSIZE) (0x30200 * PGSIZE) s) (fun s' =>
    pt_ok demo_held (fun _ => 0) (pt_unmapped 1 0x30000 0x30200 demo_maps) s').
Proof.
  destruct demo_mapped as (s & _ & Hok & G). exists s. split; [done|].
  eapply returns_mono; [apply (unmap_range_spec demo_held (fun _ => 0) demo_maps s 1 0x30000 0x30200 Hok);
                          [by apply (demo_dir s 1 G); left|by vm_compute]|].
  by intros s' [H _].
Defined.

Lemma exit_range_spec_witness : exists s : ptmem (PA := pmm_PageAlloc 0x5000), pt_ok demo_held (fun _ => 0) demo_maps s /\
  returns (exit_range 1 (0x40000 * PGSIZE) (0x40200 * PGSIZE) s) (fun s' =>
    pt_ok demo_held (fun _ => 0) demo_maps s' /\ cleared 1 (0x40000 / NPTEENTRY) ((0x40200 + NPTEENTRY - 1) / NPTEENTRY) s s').
Proof.
  destruct demo_mapped as (s & _ & Hok & G). exists s. split; [done|].
  apply (exit_range_spec demo_held (fun _ => 0) demo_maps s 1 0x40000 0x40200 Hok); [by apply (demo_dir s 1 G); left|by vm_compute|].
  intros v Hv. unfold demo_maps. rewrite lookup_insert_ne; [done|]. intros [= <-]. vm_compute in Hv. by destruct Hv as [[] _].
Defined.

Lemma copy_range_spec_witness : exists s : ptmem (PA := pmm_PageAlloc 0x5000), pt_ok demo_held (fun _ => 0) demo_maps s /\
  returns (copy_range ARMV7 2 1 (0x30000 * PGSIZE) (0x30002 * PGSIZE) false s) (fun '(r, s') => exists maps' c,
    pt_ok demo_held (fun _ => 0) maps' s' /\ copied ARMV7 false 2 1 0x30000 c demo_maps maps' /\
    ((r = 0 /\ c = 0x30002) \/ (r = - E_NO_MEM /\ 0x30000 <= c < 0x30002))).
Proof.
  destruct demo_mapped as (s & _ & Hok & G). exists s. split; [done|].
  eapply returns_mono; [apply (copy_range_spec ARMV7 demo_held (fun _ => 0) demo_maps s 2 1 0x30000 0x30002 false Hok);
    [by apply (demo_dir s 2 G); right|by apply (demo_dir s 1 G); left|done|by vm_compute|]|].
  - intros v _. unfold demo_maps. by rewrite lookup_insert_ne by done.
  - intros [r s'] (maps' & c & H1 & H2 & H3 & _). by exists maps', c.
Defined.

(** The machine runs: a private copy takes the right to write from both sides,
    and unmapping both gives page 5 back. *)
Definition demo_run : res (Z * bool * bool * Z * Z) :=
  let* (_, s) := pgdir_alloc_page ARMV7 1 (0x30001 * PGSIZE) 7 demo_pt in
  let* (r, s) := copy_range ARMV7 2 1 (0x30000 * PGSIZE) (0x30002 * PGSIZE) false s in
  let* (e1, s) := get_pte 1 (0x30001 * PGSIZE) false s in
  let* (e2, s) := get_pte 2 (0x30001 * PGSIZE) false s in
  let* w1 := rd_pte (default (0, 0) e1) s in
  let* w2 := rd_pte (default (0, 0) e2) s in
  let n := page_ref 5 s in
  let* s := unmap_range 1 (0x30000 * PGSIZE) (0x30200 * PGSIZE) s in
  let* s := unmap_range 2 (0x30000 * PGSIZE) (0x30200 * PGSIZE) s in
  let* s := exit_range 1 (0x30000 * PGSIZE) (0x30200 * PGSIZE) s in
  let* s := exit_range 2 (0x30000 * PGSIZE) (0x30200 * PGSIZE) s in
  Ok (r, ptep_u_write ARMV7 w1, ptep_u_write ARMV7 w2, n, buddy_nr_free_pages (buddy (pages s))).

Example page_tables_run : demo_run = Ok (0, false, false, 2, buddy_nr_free_pages demo_state).
Proof. by vm_compute. Qed.
