(* ===== verification/Mm.v ===== *)
(** * Mm: address spaces over the page tables

    The page tables of [PageTable] implement the interface that the address
    spaces of [Vma] are proved against, so the two components compose: an
    address space of mm/vmm.c whose [pgdir] is a directory of
    glue-ucore/pmm.c. *)
From S2P Require Import Prelude Buddy Pmm RbTree Vma PageTable.

Section Instances.
Context (cpu : arm_cpu) {KERNBASE : Z} `{PA : PageAlloc KERNBASE}.
Context (L : Z -> Prop) (E : Z -> Z).

(** What the entry [w] shows. *)
Definition show (w : Z) : entry := (PPN w, ptep_u_read cpu w, ptep_u_write cpu w).

(** What page [v] of the directory [d] shows. *)
Definition shown (d : Z) (s : ptmem) (v : Z) : option entry :=
  match dirs s !! d with
  | Some D => if (0 <=? v) && (v <? 2 ^ 20) && negb (pte_at s D v =? 0) then Some (show (pte_at s D v)) else None
  | None => None
  end.

Lemma shown_maps maps s d v : pt_ok L E maps s -> is_Some (dirs s !! d) -> shown d s v = show <$> maps !! (d, v).
Proof.
  intros [S C] [D HD]. unfold shown. rewrite HD. destruct ((0 <=? v) && (v <? 2 ^ 20)) eqn:Ev.
  - apply andb_true_iff in Ev as [H1%Z.leb_le H2%Z.ltb_lt]. rewrite (st_maps _ _ S d D v HD (conj H1 H2)).
    destruct (maps !! (d, v)) as [w|] eqn:Ew; [|done]. destruct (st_dom _ _ S _ _ _ Ew) as [Hnz _].
    cbn. by rewrite (proj2 (Z.eqb_neq _ _) Hnz).
  - destruct (maps !! (d, v)) as [w|] eqn:Ew; [|done]. destruct (st_dom _ _ S _ _ _ Ew) as (_ & _ & Hv).
    apply andb_false_iff in Ev. rewrite Z.leb_gt, Z.ltb_ge in Ev. lia.
Qed.

Lemma page_aligned a : a mod PGSIZE = 0 -> a = a / PGSIZE * PGSIZE.
Proof. intros H. pose proof (Z.div_mod a PGSIZE ltac:(done)). lia. Qed.

Lemma page_between a v b : a * PGSIZE <= v * PGSIZE < b * PGSIZE <-> a <= v < b.
Proof. unfold PGSIZE. lia. Qed.

Definition tables_ok (d : Z) (s : ptmem) : Prop := exists maps, pt_ok L E maps s /\ is_Some (dirs s !! d).

Lemma arm_unmap_ok d start e s :
  tables_ok d s -> start mod PGSIZE = 0 -> e mod PGSIZE = 0 -> USER_ACCESS start e = true ->
  returns (unmap_range d start e s) (fun s' => tables_ok d s' /\
    forall v, shown d s' v = if decide (start <= v * PGSIZE < e) then None else shown d s v).
Proof.
  intros (maps & Hok & Hd) Hs%page_aligned He%page_aligned Hu. rewrite Hs, He in Hu |- *.
  eapply returns_mono; [by apply (unmap_range_ok L E maps s d)|]. intros s' [Hok' Ed].
  assert (Hd' : is_Some (dirs s' !! d)) by (by rewrite Ed). split; [by eexists|]. intros v.
  rewrite (shown_maps _ _ _ _ Hok' Hd'), (shown_maps _ _ _ _ Hok Hd), pt_unmapped_lookup.
  destruct (decide (_ <= v * PGSIZE < _)) as [Hw|Hw]; rewrite page_between in Hw.
  - by rewrite decide_True by done.
  - by rewrite decide_False by tauto.
Qed.

Lemma arm_exit_ok d start e s :
  tables_ok d s -> start mod PGSIZE = 0 -> e mod PGSIZE = 0 -> USER_ACCESS start e = true ->
  (forall v, shown d s v = None) ->
  returns (exit_range d start e s) (fun s' => tables_ok d s' /\ forall v, shown d s' v = None).
Proof.
  intros (maps & Hok & Hd) Hs%page_aligned He%page_aligned Hu Hn. rewrite Hs, He in Hu |- *.
  assert (Hm : forall v, maps !! (d, v) = None).
  { intros v. specialize (Hn v). rewrite (shown_maps _ _ _ _ Hok Hd) in Hn. by apply fmap_None in Hn. }
  eapply returns_mono; [by apply (exit_range_ok L E maps s d)|]. intros s' (Hok' & _ & D & D' & _ & HD' & _).
  assert (Hd' : is_Some (dirs s' !! d)) by (by eexists). split; [by exists maps|].
  intros v. by rewrite (shown_maps _ _ _ _ Hok' Hd'), Hm.
Qed.

(** The tables of one directory. *)
Definition arm_tables (d : Z) : PageTables := {|
  PG := ptmem;
  pt_unmap_range := unmap_range d;
  pt_exit_range := exit_range d;
  pt_inv := tables_ok d;
  pt_entry := shown d;
  pt_unmap_ok := arm_unmap_ok d;
  pt_exit_ok := arm_exit_ok d |}.

(** The tables of two directories, for [dup_mmap]. *)
Definition both_ok (dto dfrom : Z) (s : ptmem) : Prop :=
  dfrom <> dto /\ exists maps, pt_ok L E maps s /\ is_Some (dirs s !! dto) /\ is_Some (dirs s !! dfrom).

Lemma both_tables dto dfrom s : both_ok dto dfrom s -> tables_ok dto s.
Proof. intros (_ & maps & Hok & Hd & _). by exists maps. Qed.

Lemma arm_copy_ok dto dfrom start e share s :
  both_ok dto dfrom s -> start mod PGSIZE = 0 -> e mod PGSIZE = 0 -> USER_ACCESS start e = true ->
  (forall v, start <= v * PGSIZE < e -> shown dto s v = None) ->
  returns (copy_range cpu dto dfrom start e share s) (fun '(r, s') => both_ok dto dfrom s' /\ exists c,
    ((r = 0 /\ c = e) \/ (r = - E_NO_MEM /\ start <= c < e)) /\ forall v,
      shown dto s' v = (if decide (start <= v * PGSIZE < c) then cow share <$> shown dfrom s v else shown dto s v) /\
      shown dfrom s' v = (if decide (start <= v * PGSIZE < c) then cow share <$> shown dfrom s v else shown dfrom s v)).
Proof.
  intros (Hne & maps & Hok & Ht & Hf) Hs%page_aligned He%page_aligned Hu Hn. rewrite Hs, He in Hu, Hn |- *.
  set (vs := start / PGSIZE) in *. set (ve := e / PGSIZE) in *.
  assert (Hm : forall v, vs <= v < ve -> maps !! (dto, v) = None).
  { intros v Hv. apply page_between in Hv. specialize (Hn v Hv). rewrite (shown_maps _ _ _ _ Hok Ht) in Hn. by apply fmap_None in Hn. }
  eapply returns_mono; [by apply (copy_range_ok cpu L E maps s dto dfrom vs ve share)|].
  intros [r s'] (G & maps2 & Hok2 & H). pose proof (proj1 G _ Ht) as Ht2. pose proof (proj1 G _ Hf) as Hf2.
  split; [split; [done|]; by exists maps2|].
  assert (Hc : exists c, ((r = 0 /\ c = ve) \/ (r = - E_NO_MEM /\ vs <= c < ve)) /\ copied cpu share dto dfrom vs c maps maps2)
    by (destruct H as [[-> H]|(-> & c & Hr & H)]; eauto 10).
  destruct Hc as (c & Hr & Hc). exists (c * PGSIZE). split.
  { destruct Hr as [[-> ->]|[-> Hr]]; [by left|right]. split; [done|]. clear -Hr. unfold PGSIZE. lia. }
  intros v. rewrite !(shown_maps _ _ _ _ Hok2), !(shown_maps _ _ _ _ Hok), !Hc by done.
  destruct (decide (_ <= v * PGSIZE < _)) as [Hw|Hw]; rewrite page_between in Hw;
    [rewrite !(decide_True (P := vs <= v < c)) by done|by rewrite !(decide_False (P := vs <= v < c)) by done].
  rewrite (decide_False (P := dto = dfrom)), !decide_True by congruence || done.
  destruct (maps !! (dfrom, v)) as [x|] eqn:Ex; [|done]. cbn.
  destruct (copied_rights cpu L E maps s dfrom v x share Hok Ex) as (P1 & P2 & R1 & R2 & W1 & W2).
  unfold show, cow. cbn. by rewrite P1, P2, R1, R2, W1, W2.
Qed.

Definition arm_copy (dto dfrom : Z) : CopyTables (arm_tables dto) := {|
  pt_copy_range := copy_range cpu dto dfrom : Z -> Z -> bool -> PG (PageTables := arm_tables dto) -> _;
  pt_from := shown dfrom : PG (PageTables := arm_tables dto) -> _;
  pt_linked := both_ok dto dfrom : PG (PageTables := arm_tables dto) -> _;
  pt_linked_inv := both_tables dto dfrom;
  pt_copy_ok := arm_copy_ok dto dfrom |}.

End Instances.

(** ** Composition *)

Section Compose.
Context `{RB : RbTree} (rb_alloc : mm_struct -> bool).
Context (cpu : arm_cpu) {KERNBASE : Z} `{PA : PageAlloc KERNBASE}.
Context (L : Z -> Prop) (E : Z -> Z).

Lemma shown_shows d s v p r w :
  tables_ok L E d s -> shown cpu d s v = Some (p, r, w) -> shows cpu s d v p r w.
Proof.
  intros (maps & Hok & Hd) Hs. rewrite (shown_maps cpu L E maps s d v Hok Hd) in Hs.
  apply fmap_Some in Hs as (x & Hx & [= -> -> ->]). by apply (shows_ok cpu L E maps).
Qed.

Lemma shown_none d s v :
  tables_ok L E d s -> 0 <= v < 2 ^ 20 -> shown cpu d s v = None ->
  exists o, get_page d (v * PGSIZE) s = Ok (None, o, s).
Proof.
  intros (maps & Hok & Hd) Hv Hs. rewrite (shown_maps cpu L E maps s d v Hok Hd) in Hs. apply fmap_None in Hs.
  destruct Hd as [D HD]. unfold get_page. destruct (st_pde _ _ (proj1 Hok) d D (v / NPTEENTRY) HD) as [H0|(q & W & _ & Hq & _)].
  - rewrite (get_pte_missing L E maps s d D v) by done. by eexists.
  - destruct (get_pte_found L E maps s d D v q false) as [-> Hsl]; [done..|]. cbn [res_bind].
    rewrite (slot_read L E maps s d v _ Hok Hsl Hv), Hs. by eexists.
Qed.


(** C12: forking is copy on write: when [dup_mmap] succeeds, the child has the
    parent's areas, and every page frame the parent had mapped is shown by the
    page tables of both with the same right to read; neither may write it
    unless its area is shared, in which case both keep the right to write. *)
Theorem fork_cow dto dfrom allocs from (s : vm (PT := arm_tables cpu L E dto)) :
  mm_inv from -> user_mm from -> mm s = mm_create -> both_ok L E dto dfrom (pg s) -> (forall v, shown cpu dto (pg s) v = None) ->
  (forall v x, shown cpu dfrom (pg s) v = Some x -> is_Some (aspace from (v * PGSIZE))) ->
  length allocs = length (mmap_list from) -> NoDup (omap id allocs) -> can_share (shrefs s) (mmap_list from) ->
  returns (dup_mmap rb_alloc allocs from s (CT := arm_copy cpu L E dto dfrom)) (fun '(ret, s') =>
    (ret = 0 \/ ret = - E_NO_MEM) /\ (ret = 0 ->
      (forall x, aspace (mm s') x = aspace from x) /\
      forall v p r w, shown cpu dfrom (pg s) v = Some (p, r, w) -> exists f, aspace from (v * PGSIZE) = Some f /\
        shows cpu (pg s') dto v p r (has f VM_SHARE && w) /\ shows cpu (pg s') dfrom v p r (has f VM_SHARE && w))).
Proof.
  intros I U Em Hl He Hf Hlen Hnd Hsh.
  eapply returns_mono; [by apply (dup_mmap_ok rb_alloc (CT := arm_copy cpu L E dto dfrom) allocs from s)|].
  intros [ret s'] (_ & Hl' & _ & [(-> & Ha & _ & Hp)|[-> _]]); (split; [auto|]); [|done]. intros _. split; [done|].
  intros v p r w Hx. destruct (Hf v _ Hx) as [f Ef]. exists f. split; [done|].
  destruct (Hp v) as [P1 P2]. cbn in P1, P2. rewrite Hx, Ef in P2. rewrite P2 in P1. cbn in P1, P2.
  destruct Hl' as (Hne & maps & Hok & Ht & Hfr).
  split; [apply shown_shows; [by exists maps|exact P1]|apply shown_shows; [by exists maps|exact P2]].
Qed.

End Compose.

(** ** A process on the machine of [PageTable.demo_pt] *)

Definition demo_tables (d : Z) : PageTables := arm_tables (PA := pmm_PageAlloc 0x5000) ARMV7 demo_held (fun _ => 0) d.
Definition one_area : mm_struct := mk_mm [(7, mk_vma 0x30001000 0x30003000 RW None 0)] None None 1 0.

(** The process maps a page, touches it, and exits; in between it unmaps the
    page again or not.  The result is the number of free pages in the end. *)
Definition life (unmaps : bool) : res Z :=
  let s : vm (PT := demo_tables 1) := mk_vm (PT := demo_tables 1) mm_create ∅ demo_pt in
  let* (_, _, s) := mm_map (fun _ => true) (Some 7) 0x30001000 0x1000 RW s in
  let* (_, p) := pgdir_alloc_page ARMV7 1 0x30001000 7 (pg s) in
  let s : vm (PT := demo_tables 1) := mk_vm (PT := demo_tables 1) (mm s) (shrefs s) p in
  let* s :=
    if unmaps then let* (_, s) := mm_unmap (fun _ => true) None 0x30001000 0x1000 s in Ok s
    else Ok s in
  let* s := exit_mmap s in
  Ok (buddy_nr_free_pages (buddy (pages (pg s)))).

(** page table pages leak: [mm_unmap] keeps the second level table of the
    range, and [exit_mmap] gives back only the tables of the areas that are
    still there.  A process that touches a page, unmaps it and exits leaves one
    page less than there was before; without the unmapping nothing is lost. *)
Theorem exit_mmap_leaks_table :
  life false = Ok (buddy_nr_free_pages demo_state) /\ life true = Ok (buddy_nr_free_pages demo_state - 1).
Proof. split; by vm_compute. Qed.

Lemma one_area_ok : mm_inv one_area /\ user_mm one_area.
Proof.
  split; [|constructor; [|constructor]; by split_and!].
  split; cbn; [by split_and!|apply NoDup_singleton|done|done|done].
Qed.

Lemma one_area_covers v x : show ARMV7 <$> demo_maps !! (1, v) = Some x -> is_Some (aspace one_area (v * PGSIZE)).
Proof. intros (w & Hw & _)%fmap_Some. unfold demo_maps in Hw. apply lookup_insert_Some in Hw as [[[= <-] _]|[_ [=]]]. by eexists. Qed.

Lemma one_area_shares refs : share_ok refs (mmap_list one_area).
Proof.
  split; [by intros x ->%list_elem_of_singleton|]. intros sh H.
  change (nshares sh (mmap_list one_area)) with 0%nat in H. lia.
Qed.

Lemma one_area_inv s : pt_ok demo_held (fun _ => 0) demo_maps s -> is_Some (dirs s !! 1) ->
  vm_inv (mk_vm (PT := demo_tables 1) one_area ∅ s).
Proof.
  intros Hok Hd. destruct one_area_ok. split; cbn; [done|done|apply one_area_shares|by exists demo_maps|].
  intros v x. cbn. rewrite (shown_maps ARMV7 _ _ _ _ _ _ Hok Hd). apply one_area_covers.
Qed.


Lemma fork_cow_witness : exists p,
  returns (dup_mmap (fun _ => true) [Some 8] one_area
             (mk_vm (PT := demo_tables 2) mm_create ∅ p)
             (CT := arm_copy ARMV7 demo_held (fun _ => 0) 2 1))
    (fun '(ret, s') => ret = 0 -> shows ARMV7 (pg s') 2 0x30001 5 true false /\ shows ARMV7 (pg s') 1 0x30001 5 true false).
Proof.
  destruct demo_mapped as (s & _ & Hok & G). exists s. destruct one_area_ok as [I U].
  pose proof (demo_dir s 1 G ltac:(by left)) as H1. pose proof (demo_dir s 2 G ltac:(by right)) as H2.
  assert (Hs : shown ARMV7 1 s 0x30001 = Some (5, true, true)).
  { rewrite (shown_maps ARMV7 _ _ _ _ _ _ Hok H1). by vm_compute. }
  eapply returns_mono; [apply (fork_cow (fun _ => true) ARMV7 demo_held (fun _ => 0) 2 1 [Some 8] one_area
                                 (mk_vm (PT := demo_tables 2) mm_create ∅ s) I U)|].
  - done.
  - split; [done|]. by exists demo_maps.
  - intros v. cbn. rewrite (shown_maps ARMV7 _ _ _ _ _ _ Hok H2). unfold demo_maps. by rewrite lookup_insert_ne by done.
  - intros v x. cbn. rewrite (shown_maps ARMV7 _ _ _ _ _ _ Hok H1). apply one_area_covers.
  - done.
  - apply NoDup_singleton.
  - by intros x ->%list_elem_of_singleton.
  - intros [ret s'] [_ H] Hr. destruct (H Hr) as [_ Hp]. destruct (Hp 0x30001 5 true true Hs) as (f & [= <-] & S1 & S2). by split.
Defined.
