(* ===== verification/Shmem.v ===== *)
(** * Shmem: shared memory objects (mm/shmem.c, mm/shmem.h)

    An object is a sorted list of nodes, each with a page that holds the
    entries of one megabyte, like a second level page table.  The build is the
    one without swapping (CONFIG_NO_SWAP), so every entry that is not 0 is
    present.  The pages and their reference counts are those of [PageTable]. *)
From S2P Require Import Prelude Buddy Pmm Vma PageTable.

Definition SHMN_NENTRY : Z := PGSIZE / 4 / 4.

Record shmn_t := mk_shmn { sn_start : Z; sn_end : Z; sn_entry : Z }.

Record shmem_struct := mk_shmem {
  shmn_list : list (Z * shmn_t);
  shmn_cache : option Z;
  shm_len : Z;
  shmem_ref : Z;
  shmem_sem : Z }.

Section Ops.
Context (cpu : arm_cpu) {KERNBASE : Z} `{PA : PageAlloc KERNBASE}.

(** The objects by address, and the pages. *)
Record shm := mk_shm { objs : gmap Z shmem_struct; tabs : ptmem }.

(** [a] is what [kmalloc] returns. *)
Definition shmem_create (a : option Z) (len : Z) (s : shm) : option Z * shm :=
  match a with
  | Some a => (Some a, mk_shm (<[a := mk_shmem [] None len 0 1]> (objs s)) (tabs s))
  | None => (None, s)
  end.

(** The page number stands for the address [page2kva] gives.  The operators of
    the assertion associate to the left: it tests [start % PGSIZE] only. *)
Definition shmn_create (a : option Z) (start : Z) (p : ptmem) : res (option (Z * shmn_t) * ptmem) :=
  assert! start mod PGSIZE * SHMN_NENTRY =? 0 ;;
  match a with
  | None => Ok (None, p)
  | Some a =>
      let* (o, p) := alloc_page p in
      match o with
      | Some page =>
          let* kva := page2kva (pg_npage (pages p)) page in
          Ok (Some (a, mk_shmn start (u32 (start + PGSIZE * SHMN_NENTRY)) (PPN kva)), clear_page page p)
      | None => Ok (None, p)
      end
  end.

Definition shmem_remove_entry_pte (e : ptep) (p : ptmem) : res ptmem :=
  let* pte := rd_pte e p in
  if ptep_present pte then
    let* page := pte2page pte p in
    let '(n, p) := page_ref_dec page p in
    let* p := if n =? 0 then free_page page p else Ok p in
    ptep_unmap e p
  else if negb (ptep_invalid pte) then Panic
  else Ok p.

Fixpoint remove_entries (n : nat) (i : Z) (q : Z) (p : ptmem) : res ptmem :=
  match n with
  | O => Ok p
  | S n => let* p := shmem_remove_entry_pte (q, i) p in remove_entries n (i + 1) q p
  end.

Definition shmn_destroy (x : shmn_t) (p : ptmem) : res ptmem :=
  let* p := remove_entries (Z.to_nat SHMN_NENTRY) 0 (sn_entry x) p in
  let* page := kva2page KERNBASE (pg_npage (pages p)) (sn_entry x * PGSIZE) in
  free_page page p.

Definition shmn_has (x : shmn_t) (addr : Z) : bool := (sn_start x <=? addr) && (addr <? sn_end x).

Fixpoint search_shmn (l : list (Z * shmn_t)) (addr : Z) : option (Z * shmn_t) :=
  match l with
  | [] => None
  | x :: l => if shmn_has x.2 addr then Some x else search_shmn l addr
  end.

Definition node_at (l : list (Z * shmn_t)) (a : Z) : option (Z * shmn_t) := List.find (fun x => x.1 =? a) l.

Definition find_shmn (o : shmem_struct) (addr : Z) : res (option (Z * shmn_t) * shmem_struct) :=
  let* cached :=
    match shmn_cache o with
    | None => Ok None
    | Some a => match node_at (shmn_list o) a with Some x => Ok (Some x) | None => Panic end
    end in
  let hit := match cached with Some x => if shmn_has x.2 addr then Some x else None | None => None end in
  let r := match hit with Some x => Some x | None => search_shmn (shmn_list o) addr end in
  match r with
  | Some x => Ok (r, mk_shmem (shmn_list o) (Some x.1) (shm_len o) (shmem_ref o) (shmem_sem o))
  | None => Ok (None, o)
  end.

Definition check_shmn_overlap (prev next : shmn_t) : res unit :=
  assert! sn_start prev <? sn_end prev ;;
  assert! sn_end prev <=? sn_start next ;;
  assert (sn_start next <? sn_end next).

(** The list before and after the place of a node. *)
Fixpoint shmn_place (start : Z) (l : list (Z * shmn_t)) : list (Z * shmn_t) * list (Z * shmn_t) :=
  match l with
  | [] => ([], [])
  | x :: r => if start <? sn_start x.2 then ([], l) else let '(l1, l2) := shmn_place start r in (x :: l1, l2)
  end.

Definition insert_shmn (o : shmem_struct) (x : Z * shmn_t) : res shmem_struct :=
  let '(l1, l2) := shmn_place (sn_start x.2) (shmn_list o) in
  let* _ := match last l1 with Some y => check_shmn_overlap y.2 x.2 | None => Ok tt end in
  let* _ := match hd_error l2 with Some y => check_shmn_overlap x.2 y.2 | None => Ok tt end in
  Ok (mk_shmem (l1 ++ x :: l2) (shmn_cache o) (shm_len o) (shmem_ref o) (shmem_sem o)).

Fixpoint destroy_nodes (l : list (Z * shmn_t)) (p : ptmem) : res ptmem :=
  match l with
  | [] => Ok p
  | x :: l => let* p := shmn_destroy x.2 p in destroy_nodes l p
  end.

Definition shmem_destroy (a : Z) (s : shm) : res shm :=
  let* o := fetch (objs s) a in
  let* p := destroy_nodes (shmn_list o) (tabs s) in
  Ok (mk_shm (delete a (objs s)) p).

(** The node of [addr], a new one if [create]; [al] is what [kmalloc] returns
    for it. *)
Definition get_node (al : option Z) (o : shmem_struct) (addr : Z) (create : bool) (p : ptmem) :
    res (option (Z * shmn_t) * shmem_struct * ptmem) :=
  let* (x, o) := find_shmn o addr in
  assert! match x with Some x => shmn_has x.2 addr | None => true end ;;
  match x with
  | Some x => Ok (Some x, o, p)
  | None =>
      if negb create then Ok (None, o, p)
      else
        let* (x, p) := shmn_create al (ROUNDDOWN addr (PGSIZE * SHMN_NENTRY)) p in
        match x with
        | None => Ok (None, o, p)
        | Some x => let* o := insert_shmn o x in Ok (Some x, o, p)
        end
  end.

(** A page for an entry that has none. *)
Definition new_entry (e : ptep) (p : ptmem) : res ptmem :=
  let* (pg, p) := alloc_page p in
  match pg with
  | Some page => let* p := ptep_map cpu e (page2pa page) p in Ok (page_ref_inc page p)
  | None => Ok p
  end.

Definition shmem_get_entry (al : option Z) (a addr : Z) (create : bool) (s : shm) : res (option ptep * shm) :=
  let* o := fetch (objs s) a in
  assert! addr <? shm_len o ;;
  let addr := ROUNDDOWN addr PGSIZE in
  let* (x, o, p) := get_node al o addr create (tabs s) in
  match x with
  | None => Ok (None, mk_shm (<[a := o]> (objs s)) p)
  | Some x =>
      let e := (sn_entry x.2, (addr - sn_start x.2) / PGSIZE) in
      let* pte := rd_pte e p in
      let* p := if (pte =? 0) && create then new_entry e p else Ok p in
      Ok (Some e, mk_shm (<[a := o]> (objs s)) p)
  end.

Definition shmem_insert_entry (al : option Z) (a addr entry : Z) (s : shm) : res (Z * shm) :=
  let* (e, s) := shmem_get_entry al a addr true s in
  match e with
  | None => Ok (- E_NO_MEM, s)
  | Some e =>
      let* pte := rd_pte e (tabs s) in
      let* p := if negb (ptep_invalid pte) then shmem_remove_entry_pte e (tabs s) else Ok (tabs s) in
      let* p :=
        if ptep_present entry then let* page := pte2page entry p in Ok (page_ref_inc page p)
        else if negb (ptep_invalid entry) then Panic
        else Ok p in
      let* p := wr_pte e entry p in
      Ok (0, mk_shm (objs s) p)
  end.

Definition shmem_remove_entry (al : option Z) (a addr : Z) (s : shm) : res (Z * shm) := shmem_insert_entry al a addr 0 s.

End Ops.

Arguments mk_shm {KERNBASE PA}.

(** ** Nodes *)

Definition node_ok (x : shmn_t) : Prop :=
  0 <= sn_start x < USERTOP /\ sn_start x mod PTSIZE = 0 /\ sn_end x = sn_start x + PTSIZE.

Fixpoint ascending (l : list (Z * shmn_t)) : Prop :=
  match l with
  | [] => True
  | x :: l => (forall y, y ∈ l -> sn_start x.2 < sn_start y.2) /\ ascending l
  end.

Lemma ascending_app l1 l2 :
  ascending (l1 ++ l2) <->
  ascending l1 /\ (forall x y, x ∈ l1 -> y ∈ l2 -> sn_start x.2 < sn_start y.2) /\ ascending l2.
Proof.
  induction l1 as [|z l1 IH]; cbn.
  - split; [intros H; split_and!; auto; by intros x y Hx%not_elem_of_nil|tauto].
  - rewrite IH. split.
    + intros (H1 & H2 & H3 & H4). split_and!; auto.
      * intros y Hy. apply H1. apply elem_of_app. by left.
      * intros x y [->|Hx]%elem_of_cons Hy; [apply H1; apply elem_of_app; by right|auto].
    + intros ((H1 & H2) & H3 & H4). split_and!; auto.
      * intros y [Hy|Hy]%elem_of_app; [auto|apply H3; [left|done]].
      * intros x y Hx Hy. apply H3; [by right|done].
Qed.

Lemma section_of x addr : node_ok x -> shmn_has x addr = true <-> addr / PTSIZE = sn_start x / PTSIZE.
Proof.
  intros (H0 & Hm & He). unfold shmn_has. rewrite andb_true_iff, Z.leb_le, Z.ltb_lt, He.
  unfold PTSIZE, NPTEENTRY, PGSIZE in *. Z.to_euclidean_division_equations; lia.
Qed.

Lemma node_start x : node_ok x -> sn_start x = sn_start x / PTSIZE * PTSIZE.
Proof. intros (_ & H & _). pose proof (Z.div_mod (sn_start x) PTSIZE ltac:(done)). lia. Qed.

Lemma node_order x y : node_ok x -> node_ok y -> sn_start x < sn_start y -> sn_end x <= sn_start y.
Proof.
  intros Hx Hy Hlt. pose proof (node_start x Hx) as Ex. pose proof (node_start y Hy) as Ey. destruct Hx as (_ & _ & ->).
  unfold PTSIZE, NPTEENTRY, PGSIZE in *. lia.
Qed.

Lemma search_shmn_ok l addr :
  Forall (fun x => node_ok x.2) l ->
  match search_shmn l addr with
  | Some x => x ∈ l /\ shmn_has x.2 addr = true
  | None => forall x, x ∈ l -> shmn_has x.2 addr = false
  end.
Proof.
  induction l as [|x l IH]; intros HF; cbn; [by intros x Hx%not_elem_of_nil|].
  apply Forall_cons in HF as [_ HF]. destruct (shmn_has x.2 addr) eqn:E; [split; [left|done]|].
  specialize (IH HF). destruct (search_shmn l addr) as [y|]; [destruct IH; split; [by right|done]|].
  intros y [->|Hy]%elem_of_cons; auto.
Qed.

Lemma shmn_place_ok start l l1 l2 : shmn_place start l = (l1, l2) -> ascending l ->
  l = l1 ++ l2 /\ (forall x, x ∈ l1 -> sn_start x.2 <= start) /\ (forall x, x ∈ l2 -> start < sn_start x.2).
Proof.
  revert l1. induction l as [|x l IH]; intros l1 E Hs; cbn in E.
  - injection E as <- <-. split_and!; [done|by intros x Hx%not_elem_of_nil..].
  - destruct Hs as [H1 H2]. destruct (Z.ltb_spec start (sn_start x.2)) as [Hlt|Hge].
    + injection E as <- <-. split_and!; [done|by intros y Hy%not_elem_of_nil|].
      intros y [->|Hy]%elem_of_cons; [done|]. specialize (H1 y Hy). lia.
    + destruct (shmn_place start l) as [m1 m2] eqn:Ep. injection E as <- <-. destruct (IH m1 eq_refl H2) as (-> & A & B).
      split_and!; [done| |done]. intros y [->|Hy]%elem_of_cons; [done|auto].
Qed.

Record obj_ok (o : shmem_struct) : Prop := {
  oo_nodes : Forall (fun x => node_ok x.2) (shmn_list o);
  oo_sorted : ascending (shmn_list o);
  oo_nodup : NoDup (shmn_list o).*1;
  oo_cache : forall a, shmn_cache o = Some a -> a ∈ (shmn_list o).*1;
  oo_len : 0 <= shm_len o <= USERTOP
}.

Lemma node_at_ok l a : a ∈ l.*1 -> exists x, node_at l a = Some x /\ x ∈ l /\ x.1 = a.
Proof.
  unfold node_at. induction l as [|x l IH]; cbn; [by intros H%not_elem_of_nil|].
  destruct (Z.eqb_spec x.1 a) as [<-|Hne]; [exists x; split_and!; [done|left|done]|].
  intros [H|H]%elem_of_cons; [congruence|]. destruct (IH H) as (y & E & Hy & Ha). exists y. split_and!; [done|by right|done].
Qed.

(** [find_shmn] finds the node of the address, through the cache or the list. *)
Lemma find_shmn_ok o addr : obj_ok o ->
  returns (find_shmn o addr) (fun '(r, o') =>
    obj_ok o' /\ shmn_list o' = shmn_list o /\ shm_len o' = shm_len o /\
    match r with
    | Some x => x ∈ shmn_list o /\ shmn_has x.2 addr = true
    | None => forall x, x ∈ shmn_list o -> shmn_has x.2 addr = false
    end).
Proof.
  intros O. pose proof (search_shmn_ok (shmn_list o) addr (oo_nodes _ O)) as Hs. unfold find_shmn.
  assert (Hput : forall x, x ∈ shmn_list o -> obj_ok (mk_shmem (shmn_list o) (Some x.1) (shm_len o) (shmem_ref o) (shmem_sem o))).
  { intros x Hx. destruct O. split; cbn; auto. intros a [= <-]. by apply list_elem_of_fmap_2. }
  assert (Hlist : returns (match search_shmn (shmn_list o) addr with
      | Some x => Ok (search_shmn (shmn_list o) addr, mk_shmem (shmn_list o) (Some x.1) (shm_len o) (shmem_ref o) (shmem_sem o))
      | None => Ok (None, o) end) (fun '(r, o') =>
    obj_ok o' /\ shmn_list o' = shmn_list o /\ shm_len o' = shm_len o /\
    match r with
    | Some x => x ∈ shmn_list o /\ shmn_has x.2 addr = true
    | None => forall x, x ∈ shmn_list o -> shmn_has x.2 addr = false
    end)).
  { destruct (search_shmn (shmn_list o) addr) as [x|] eqn:Es; apply returns_ok; [|by split_and!].
    destruct Hs as [Hx Hh]. by split_and!; [apply Hput|..]. }
  destruct (shmn_cache o) as [a|] eqn:Ec; cbn [res_bind].
  - destruct (node_at_ok (shmn_list o) a (oo_cache _ O a Ec)) as (x & -> & Hx & <-). cbn [res_bind].
    destruct (shmn_has x.2 addr) eqn:Eh; [|exact Hlist]. apply returns_ok. split_and!; auto.
  - exact Hlist.
Qed.

(** [insert_shmn] of a node whose section is not there yet. *)
Lemma insert_shmn_ok o x : obj_ok o -> node_ok x.2 -> x.1 ∉ (shmn_list o).*1 ->
  (forall y, y ∈ shmn_list o -> sn_start y.2 <> sn_start x.2) ->
  returns (insert_shmn o x) (fun o' => obj_ok o' /\ shm_len o' = shm_len o /\
    exists l1 l2, shmn_list o = l1 ++ l2 /\ shmn_list o' = l1 ++ x :: l2).
Proof.
  intros O Hx Hfr Hne. unfold insert_shmn. destruct (shmn_place (sn_start x.2) (shmn_list o)) as [l1 l2] eqn:Ep.
  destruct (shmn_place_ok _ _ _ _ Ep (oo_sorted _ O)) as (El & H1 & H2). pose proof (oo_nodes _ O) as HF.
  rewrite Forall_forall in HF.
  assert (H1' : forall y, y ∈ l1 -> sn_start y.2 < sn_start x.2).
  { intros y Hy. specialize (H1 y Hy). assert (sn_start y.2 <> sn_start x.2); [|lia]. apply Hne. rewrite El. apply elem_of_app. by left. }
  assert (Hck : forall y z, node_ok y -> node_ok z -> sn_start y < sn_start z -> check_shmn_overlap y z = Ok tt).
  { intros y z Hy Hz Hlt. unfold check_shmn_overlap. pose proof (node_order y z Hy Hz Hlt). destruct Hy as (? & ? & Ey), Hz as (? & ? & Ez).
    rewrite !(proj2 (Z.ltb_lt _ _)), (proj2 (Z.leb_le _ _)) by (rewrite ?Ey, ?Ez in *; unfold PTSIZE, NPTEENTRY, PGSIZE in *; lia). done. }
  assert (E1 : match last l1 with Some y => check_shmn_overlap y.2 x.2 | None => Ok tt end = Ok tt).
  { destruct (last l1) as [y|] eqn:Ey; [|done]. apply last_Some in Ey as [l' ->].
    assert (Hy : y ∈ l' ++ [y]) by (apply elem_of_app; right; left). apply Hck; [|done|auto]. apply HF. rewrite El. apply elem_of_app. by left. }
  assert (E2 : match hd_error l2 with Some y => check_shmn_overlap x.2 y.2 | None => Ok tt end = Ok tt).
  { destruct l2 as [|y l2]; cbn; [done|]. apply Hck; [done| |apply H2; left]. apply HF. rewrite El. apply elem_of_app. right. left. }
  rewrite E1, E2. cbn [res_bind]. apply returns_ok. split_and!; [|done|by exists l1, l2].
  pose proof (oo_sorted _ O) as Hs. pose proof (oo_nodup _ O) as Hnd. rewrite El in Hs, Hnd, Hfr.
  apply ascending_app in Hs as (S1 & S2 & S3). split; cbn [shmn_list shmn_cache shm_len].
  - apply Forall_forall. intros y [Hy|[->|Hy]%elem_of_cons]%elem_of_app; [apply HF|done|apply HF]; rewrite El; apply elem_of_app; auto.
  - apply ascending_app. split_and!; [done| |split; [auto|done]]. intros y z Hy [->|Hz]%elem_of_cons; auto.
  - rewrite fmap_app in *. cbn. rewrite <- Permutation_middle. apply NoDup_cons. by split.
  - intros a Ha. apply (oo_cache _ O) in Ha. rewrite El, fmap_app in Ha. rewrite fmap_app, elem_of_app. cbn. rewrite elem_of_cons.
    apply elem_of_app in Ha. tauto.
  - apply O.
Qed.

(** ** The invariant

    Seen from above, an object is a page directory: section [i] of the object
    [a] has the page of the node that starts there.  [smaps] is what these
    directories [g] hold; the other tables and counts are those of
    [PageTable], for which the nodes are pages in use elsewhere and the shared
    entries are references from outside. *)

Section Inv.
Context (cpu : arm_cpu) {KERNBASE : Z} `{PA : PageAlloc KERNBASE}.
Implicit Types (s : ptmem) (maps smaps : gmap (Z * Z) Z) (g : gmap Z (gmap Z Z)) (E : Z -> Z) (L : Z -> Prop).

Record sh_ok L E maps smaps g s : Prop := {
  so_struct : struct_ok smaps (set_dirs g s);
  so_pages : pt_ok (fun q => L q \/ table (set_dirs g s) q) (fun q => E q + cnt smaps q) maps s;
  so_nodes : forall q, table (set_dirs g s) q ->
    pg_owned (pages s) q 1 /\ ~ table s q /\ E q + cnt smaps q + cnt maps q = 0;
  so_ext : forall q, 0 <= E q;
  so_ent : forall k w, smaps !! k = Some w ->
    exists p f, w = p * PGSIZE + f /\ 0 <= f < PGSIZE /\ ptep_present f = true
}.

Lemma shared_page L E maps smaps g s k w : sh_ok L E maps smaps g s -> smaps !! k = Some w ->
  pg_owned (pages s) (PPN w) 1 /\ 0 <= PPN w < pg_npage (pages s) /\ pg_npage (pages s) <= 2 ^ 20 /\
  ~ table s (PPN w) /\ ~ table (set_dirs g s) (PPN w).
Proof.
  intros H Hw. pose proof (so_pages _ _ _ _ _ _ H) as [_ C]. pose proof (cnt_pos smaps k w Hw) as Hp.
  pose proof (so_ext _ _ _ _ _ _ H (PPN w)) as He. pose proof (cnt_nonneg maps (PPN w)) as Hm.
  assert (Ho : pg_owned (pages s) (PPN w) 1) by (apply (ct_own _ _ _ _ C); lia).
  pose proof (pg_range _ _ 1 (ct_pg _ _ _ _ C) ltac:(lia) Ho) as Hr. pose proof (pg_bound _ (ct_pg _ _ _ _ C)) as Hb.
  split_and!; [done|lia..| |].
  - intros Ht. destruct (ct_table _ _ _ _ C _ Ht) as (_ & _ & Hz). lia.
  - intros Ht. destruct (so_nodes _ _ _ _ _ _ H _ Ht) as (_ & _ & Hz). lia.
Qed.

(** Writing to a page that is no table. *)
Lemma pt_words L E maps s q W : pt_ok L E maps s -> ~ table s q -> pt_ok L E maps (set_words (<[q := W]> (words s)) s).
Proof.
  intros [S C] Hnt. split; [|by apply ct_words]. eapply st_frame; [exact S|done|]. intros p Wp Ht HW. exists Wp.
  split; [|done]. cbn. rewrite lookup_insert_ne; [done|]. by intros ->.
Qed.

(** The entries do not depend on the directories. *)
Lemma wr_pte_dirs e v d s : wr_pte e v (set_dirs d s) = let* s := wr_pte e v s in Ok (set_dirs d s).
Proof. unfold wr_pte, fetch. cbn. by destruct (words s !! e.1). Qed.

Lemma ptep_map_dirs e pa d s : ptep_map cpu e pa (set_dirs d s) = let* s := ptep_map cpu e pa s in Ok (set_dirs d s).
Proof.
  unfold ptep_map. rewrite wr_pte_dirs, !bind_assoc. destruct (wr_pte e _ s) as [s1|]; [|done]. cbn [res_bind].
  unfold ptep_set_perm. change (rd_pte ?x (set_dirs d ?y)) with (rd_pte x y).
  destruct (rd_pte _ s1) as [st|]; [|done]. cbn [res_bind]. rewrite wr_pte_dirs, !bind_assoc.
  destruct (wr_pte _ _ s1) as [s2|]; [|done]. cbn [res_bind]. change (rd_pte ?x (set_dirs d ?y)) with (rd_pte x y).
  destruct (rd_pte e s2) as [w|]; [|done]. cbn [res_bind]. apply wr_pte_dirs.
Qed.

Lemma dirs_back d s : set_dirs (dirs s) (set_dirs d s) = s.
Proof. by destruct s. Qed.

(** The node of page [v] of the object [a]. *)
Lemma slot_node L E maps smaps g s a v e : sh_ok L E maps smaps g s -> slot (set_dirs g s) a v e ->
  pg_owned (pages s) e.1 1 /\ ~ table s e.1 /\ E e.1 + cnt smaps e.1 + cnt maps e.1 = 0.
Proof. intros H Hs. apply (so_nodes _ _ _ _ _ _ H). by eapply slot_table. Qed.

Lemma slot_value L E maps smaps g s a v e : sh_ok L E maps smaps g s -> slot (set_dirs g s) a v e -> 0 <= v < 2 ^ 20 ->
  exists W, words s !! e.1 = Some W /\ rd_pte e s = Ok (default 0 (smaps !! (a, v))).
Proof.
  intros H Hs Hv. destruct (slot_words smaps _ a v e (so_struct _ _ _ _ _ _ H) Hs) as (W & HW & Hw). exists W. split; [exact HW|].
  rewrite <- Hw by done. by apply read_at.
Qed.
(** What happens to a page that [e] does not name. *)
Definition spares (e : ptep) s s' : Prop :=
  dirs s' = dirs s /\ forall q, q <> e.1 -> words s' !! q = words s !! q.

Lemma alloc_shared L E maps smaps g s : sh_ok L E maps smaps g s ->
  returns (alloc_page s) (fun '(o, s') => sh_ok (held o L) E maps smaps g s' /\ dirs s' = dirs s /\ words s' = words s /\
    (forall q, pg_owned (pages s) q 1 -> pg_owned (pages s') q 1) /\
    match o with
    | Some p => ~ pg_owned (pages s) p 1 /\ pg_owned (pages s') p 1 /\ ~ table s' p /\ ~ table (set_dirs g s') p /\
        E p + cnt smaps p + cnt maps p = 0
    | None => True
    end).
Proof.
  intros H. eapply returns_mono; [apply alloc_page_ok, H|]. intros [o s1] (Hok & Ed & Ew & K & Hp). split_and!; [|done|done|by intros q Hq; apply K|].
  - split; [|eapply pt_ok_ext; [exact Hok| |done]; unfold held; tauto| |apply H|apply H].
    + eapply st_frame; [apply H|done|]. intros q W _ HW. exists W. split; [|done]. cbn. by rewrite Ew.
    + intros q Hq. destruct (so_nodes _ _ _ _ _ _ H q Hq) as (N1 & N2 & N3). split_and!; [by apply K| |done].
      intros Hx. apply N2. unfold table in *. by rewrite <- Ed.
  - destruct o as [p|]; [|done]. destruct Hp as (P1 & P2 & _ & P4 & P5).
    assert (Hno : ~ pg_owned (pages s) p 1) by (intros Ho; destruct (K p Ho) as [_ ?]; congruence).
    split_and!; [done..| |lia]. intros Hx. by destruct (so_nodes _ _ _ _ _ _ H p Hx).
Qed.

Lemma map_node_ok L E maps smaps g s a v e p :
  sh_ok L E maps smaps g s -> slot (set_dirs g s) a v e -> 0 <= v < 2 ^ 20 -> 0 <= p < 2 ^ 20 ->
  forall s1, words s1 = words s -> dirs s1 = dirs s -> exists W,
    ptep_map cpu e (page2pa p) s1 = Ok (set_words (<[e.1 := W]> (words s)) s1) /\
    struct_ok (<[(a, v) := p * PGSIZE + mapbits cpu]> smaps) (set_dirs g (set_words (<[e.1 := W]> (words s)) s1)).
Proof.
  intros H Hs Hv Hp s1 Ew Ed.
  assert (S1 : struct_ok smaps (set_dirs g s1)).
  { eapply st_frame; [apply H|done|]. intros q W _ HW. exists W. split; [|done]. cbn. by rewrite Ew. }
  destruct (ptep_map_ok cpu smaps (set_dirs g s1) a v e p S1 (slot_dirs _ _ _ _ _ eq_refl Hs) Hv Hp) as (s2 & E2 & S2 & W & ->).
  exists W. pose proof (ptep_map_dirs e (page2pa p) (dirs s1) (set_dirs g s1)) as Eb. rewrite E2, dirs_back in Eb. cbn [res_bind] in Eb.
  rewrite Eb, <- Ew. split; [|exact S2]. by destruct s1.
Qed.

(** A written entry that takes a reference to the page [p]. *)
Lemma enter_shared L E maps smaps g s a v e W p f :
  sh_ok L E maps smaps g s -> smaps !! (a, v) = None -> slot (set_dirs g s) a v e -> 0 <= f < PGSIZE -> ptep_present f = true ->
  pg_owned (pages s) p 1 -> ~ table s p -> ~ table (set_dirs g s) p ->
  struct_ok (<[(a, v) := p * PGSIZE + f]> smaps) (set_dirs g (set_words (<[e.1 := W]> (words s)) s)) ->
  sh_ok L E maps (<[(a, v) := p * PGSIZE + f]> smaps) g (page_ref_inc p (set_words (<[e.1 := W]> (words s)) s)).
Proof.
  intros H Hn Hs Hf Hp Ho Hnt Hnn S2. set (s2 := set_words _ s) in *. set (smaps' := <[(a, v) := p * PGSIZE + f]> smaps) in *.
  destruct (slot_node _ _ _ _ _ _ _ _ _ H Hs) as (_ & Hne & _).
  assert (Hcnt : forall q, cnt smaps' q = cnt smaps q + if decide (q = p) then 1 else 0).
  { intros q. unfold smaps'. rewrite cnt_insert by done. unfold hit. rewrite PPN_word by done.
    destruct (Z.eqb_spec p q); [subst; by rewrite decide_True|by rewrite decide_False]. }
  split.
  - eapply st_frame; [exact S2|done|]. intros q Wq _ HW. by exists Wq.
  - eapply pt_ok_ext; [apply (ref_inc_ok _ _ _ s2 p (pt_words _ _ _ _ e.1 W (so_pages _ _ _ _ _ _ H) Hne) Ho Hnt)|by auto|].
    intros q. unfold bump. rewrite Hcnt. lia.
  - intros q Ht. destruct (so_nodes _ _ _ _ _ _ H q Ht) as (N1 & N2 & N3). split_and!; [done..|].
    rewrite Hcnt, decide_False by (by intros ->). lia.
  - apply H.
  - intros k w Hk. apply lookup_insert_Some in Hk as [[_ <-]|[_ Hk]]; [by exists p, f|by apply (so_ent _ _ _ _ _ _ H _ _ Hk)].
Qed.

(** A page that is entered, or was not handed out, is not held. *)
Lemma sh_held L E maps smaps g s o :
  sh_ok (held o L) E maps smaps g s -> (forall p, o = Some p -> 0 < E p + cnt smaps p + cnt maps p) -> sh_ok L E maps smaps g s.
Proof.
  intros H Hp. destruct H as [H1 H2 H3 H4 H5]; split; try done. eapply pt_ok_ext; [exact H2| |done].
  intros p _ [[|Ho]|]; [by left; left| |by left; right]. right; right; right. by apply Hp.
Qed.

Lemma new_entry_ok L E maps smaps g s a v e :
  sh_ok L E maps smaps g s -> slot (set_dirs g s) a v e -> 0 <= v < 2 ^ 20 -> smaps !! (a, v) = None ->
  returns (new_entry cpu e s) (fun s' => spares e s s' /\ (forall q, pg_owned (pages s) q 1 -> pg_owned (pages s') q 1) /\
    (sh_ok L E maps smaps g s' \/ exists p, ~ pg_owned (pages s) p 1 /\
       sh_ok L E maps (<[(a, v) := p * PGSIZE + mapbits cpu]> smaps) g s')).
Proof.
  intros H Hs Hv Hn. unfold new_entry. eapply returns_bind; [apply alloc_shared, H|].
  intros [[p|] s1] (H1 & Ed & Ew & K & Hp).
  - destruct Hp as (Hno & Hop & Hnt & Hnn & Hz). pose proof (ct_pg _ _ _ _ (proj2 (so_pages _ _ _ _ _ _ H1))) as I1.
    pose proof (pg_range _ p 1 I1 ltac:(lia) Hop) as Hr. pose proof (pg_bound _ I1) as Hb. destruct (mapbits_ok cpu) as [M1 M2].
    destruct (map_node_ok L E maps smaps g s a v e p H Hs Hv ltac:(lia) s1 Ew Ed) as (W & -> & S2). cbn [res_bind].
    rewrite <- Ew in S2 |- *. apply returns_ok.
    split_and!; [split; [exact Ed|]; intros q Hq; cbn; by rewrite Ew, lookup_insert_ne by done|exact K|]. right. exists p. split; [done|].
    eapply sh_held; [by apply (enter_shared _ E maps smaps g s1 a v e W p (mapbits cpu) H1 Hn); [by eapply slot_dirs|..]|].
    intros q [= <-]. pose proof (cnt_pos _ (a, v) _ (lookup_insert_eq smaps (a, v) (p * PGSIZE + mapbits cpu))) as Hc.
    rewrite PPN_word in Hc by done. pose proof (so_ext _ _ _ _ _ _ H p). pose proof (cnt_nonneg maps p). lia.
  - apply returns_ok. split_and!; [split; [done|]; intros q _; by rewrite Ew|done|]. left. by apply (sh_held _ _ _ _ _ _ _ H1).
Qed.

(** *** [shmem_remove_entry_pte] *)

Lemma cnt_bump smaps k w E : smaps !! k = Some w ->
  forall q, bump (PPN w) (fun q => E q + cnt (delete k smaps) q) q = E q + cnt smaps q.
Proof.
  intros Hk q. unfold bump. rewrite (cnt_delete smaps k w q Hk). unfold hit.
  destruct (Z.eqb_spec (PPN w) q) as [<-|Hne]; [rewrite decide_True by done; lia|rewrite decide_False by congruence; lia].
Qed.

Lemma remove_entry_ok L E maps smaps g s a v e :
  sh_ok L E maps smaps g s -> slot (set_dirs g s) a v e -> 0 <= v < 2 ^ 20 ->
  returns (shmem_remove_entry_pte e s) (fun s' => sh_ok L E maps (delete (a, v) smaps) g s' /\ spares e s s').
Proof.
  intros H Hs Hv. destruct (slot_value _ _ _ _ _ _ _ _ _ H Hs Hv) as (W & HW & Er). unfold shmem_remove_entry_pte. rewrite Er. cbn [res_bind].
  destruct (smaps !! (a, v)) as [w|] eqn:Ew; cbn [default from_option id].
  - destruct (shared_page _ _ _ _ _ _ _ _ H Ew) as (Ho & Hr & Hb & Hnt & Hnn). pose proof (cnt_bump smaps _ _ E Ew) as Hbump.
    destruct (so_ent _ _ _ _ _ _ H _ _ Ew) as (p & f & -> & Hf & Hp). rewrite PPN_word in * by done.
    rewrite present_word, Hp by done. rewrite pte2page_ok by (done || lia). cbn [res_bind].
    destruct (slot_node _ _ _ _ _ _ _ _ _ H Hs) as (Hoe & Hne & _). set (smaps' := delete (a, v) smaps) in *.
    assert (Hpos : forall q, 0 <= E q + cnt smaps' q)
      by (intros q; pose proof (so_ext _ _ _ _ _ _ H q); pose proof (cnt_nonneg smaps' q); lia).
    assert (Hok : pt_ok (fun q => L q \/ table (set_dirs g s) q) (bump p (fun q => E q + cnt smaps' q)) maps s)
      by (eapply pt_ok_ext; [apply H|by auto|exact Hbump]).
    eapply returns_bind; [apply (drop_ext_ok _ _ _ s p Hok Hnt Hpos)|]. intros s1 (Hok1 & Ed & Ews & K).
    unfold ptep_unmap, wr_pte. rewrite Ews, (fetch_ok _ _ _ HW). cbn [res_bind]. apply returns_ok.
    split; [|split; [exact Ed|]; intros q Hq; cbn; by rewrite lookup_insert_ne by done].
    assert (Ht1 : forall q, table s1 q <-> table s q) by (intros q; unfold table; by rewrite Ed).
    rewrite <- Ews. split.
    + assert (S1 : struct_ok smaps (set_dirs g s1)).
      { eapply st_frame; [apply H|done|]. intros q Wq _ HWq. exists Wq. split; [|done]. cbn. by rewrite Ews. }
      pose proof (st_write smaps (set_dirs g s1) a v e 0 W S1 (slot_dirs _ _ _ _ _ eq_refl Hs) Hv) as S2.
      rewrite decide_True in S2 by done. apply S2. cbn. by rewrite Ews.
    + apply pt_words; [exact Hok1|]. by rewrite Ht1.
    + intros q Ht. destruct (so_nodes _ _ _ _ _ _ H q Ht) as (N1 & N2 & N3). assert (Hqp : q <> p) by (by intros ->).
      split_and!; [by apply K|exact (fun Hx => N2 (proj1 (Ht1 q) Hx))|]. specialize (Hbump q). unfold bump in Hbump.
      rewrite decide_False in Hbump by done. lia.
    + apply H.
    + intros k w Hk. apply lookup_delete_Some in Hk as [_ Hk]. by apply (so_ent _ _ _ _ _ _ H _ _ Hk).
  - apply returns_ok. rewrite delete_id by done. done.
Qed.

(** *** [shmn_destroy] and [shmem_destroy] *)

Lemma section_index i j : 0 <= j < NPTEENTRY -> (i * NPTEENTRY + j) / NPTEENTRY = i /\ (i * NPTEENTRY + j) mod NPTEENTRY = j.
Proof. intros Hj. unfold NPTEENTRY in *. Z.to_euclidean_division_equations. lia. Qed.

Lemma remove_entries_ok L E maps g a D i q n : forall smaps s j,
  sh_ok L E maps smaps g s -> g !! a = Some D -> word D i = pde q -> 0 <= q -> 0 <= i < 4096 -> 0 <= j -> j + Z.of_nat n <= NPTEENTRY ->
  returns (remove_entries n j q s) (fun s' =>
    sh_ok L E maps (pt_unmapped a (i * NPTEENTRY + j) (i * NPTEENTRY + j + Z.of_nat n) smaps) g s' /\ spares (q, j) s s').
Proof.
  induction n as [|n IH]; intros smaps s j H HD Hq H0 Hi Hj Hn; cbn [remove_entries].
  - apply returns_ok. rewrite Z.add_0_r, pt_unmapped_empty. done.
  - set (v := i * NPTEENTRY + j) in *. destruct (section_index i j ltac:(lia)) as [Ed Em]. fold v in Ed, Em.
    assert (Hs : slot (set_dirs g s) a v (q, j)) by (exists D, q; by rewrite Ed, Em).
    eapply returns_bind; [apply (remove_entry_ok L E maps smaps g s a v (q, j) H Hs)|].
    { unfold v, NPTEENTRY in *. lia. }
    intros s1 [H1 [E1 W1]]. rewrite pt_unmapped_one in H1.
    eapply returns_mono; [apply (IH _ s1 (j + 1) H1 HD Hq H0 Hi); lia|]. intros s2 [H2 [E2 W2]].
    rewrite Z.add_assoc in H2. fold v in H2. rewrite pt_unmapped_app in H2 by lia.
    replace (v + Z.of_nat (S n)) with (v + 1 + Z.of_nat n) by lia. split; [exact H2|]. split; [congruence|].
    intros q' Hq'. rewrite W2, W1 by done. done.
Qed.

Definition section (x : Z * shmn_t) : Z := sn_start x.2 / PTSIZE.

Lemma shmn_destroy_ok L E maps smaps g s a D x :
  sh_ok L E maps smaps g s -> g !! a = Some D -> word D (section x) = pde (sn_entry x.2) -> 0 <= section x < 4096 ->
  returns (shmn_destroy x.2 s) (fun s' =>
    sh_ok L E maps (pt_unmapped a (section x * NPTEENTRY) (section x * NPTEENTRY + NPTEENTRY) smaps)
      (alter (fun D => <[section x := 0]> D) a g) s' /\ dirs s' = dirs s).
Proof.
  intros H HD Hw Hi. set (q := sn_entry x.2) in *. unfold shmn_destroy. fold q.
  assert (Ht : table (set_dirs g s) q) by (by exists a, D, (section x)).
  assert (H0 : 0 <= q).
  { destruct (so_nodes _ _ _ _ _ _ H q Ht) as (Ho & _).
    pose proof (pg_range _ q 1 (ct_pg _ _ _ _ (proj2 (so_pages _ _ _ _ _ _ H))) ltac:(lia) Ho). lia. }
  eapply returns_bind; [apply (remove_entries_ok L E maps g a D (section x) q (Z.to_nat SHMN_NENTRY) smaps s 0); try done|].
  intros s1 [H1 [Ed _]]. rewrite Z.add_0_r in H1. change (Z.of_nat (Z.to_nat SHMN_NENTRY)) with NPTEENTRY in H1.
  set (smaps' := pt_unmapped _ _ _ _) in *. destruct (so_nodes _ _ _ _ _ _ H1 q Ht) as (Ho & Hnt & Hz).
  pose proof (so_pages _ _ _ _ _ _ H1) as Hok. pose proof (ct_pg _ _ _ _ (proj2 Hok)) as I.
  pose proof (pg_range _ q 1 I ltac:(lia) Ho) as (Hr1 & Hr2 & Hr3).
  pose proof (kva2page_ok KERNBASE (pg_npage (pages s1)) q 0 ltac:(by split) Hr2 ltac:(lia)) as Ek. rewrite Z.add_0_r in Ek.
  rewrite Ek. cbn [res_bind]. set (g' := alter _ a g).
  assert (Htab : forall s2 q', table (set_dirs g' s2) q' <-> table (set_dirs g s2) q' /\ q' <> q).
  { intros s2 q'. apply (no_table_table a D (section x) q (set_dirs g s2)); [done..|]. intros d' D' i' HD' Hi'.
    by destruct (st_inj _ _ (so_struct _ _ _ _ _ _ H) d' D' i' a D (section x) q). }
  eapply returns_mono; [apply (free_unused_ok (fun p => L p \/ table (set_dirs g' s1) p) (fun p => E p + cnt smaps' p) maps s1 q)|].
  - eapply pt_ok_ext; [exact Hok| |done]. intros p _ [Hl|Hl]; left; [by left; left|]. unfold held.
    destruct (decide (p = q)) as [->|Hne]; [by right|]. left. right. by apply Htab.
  - done.
  - done.
  - lia.
  - intros s2 (Hok2 & Ed2 & Ew2 & K). split; [|congruence]. split.
    + assert (S2 : struct_ok smaps' (set_dirs g s2)).
      { eapply st_frame; [apply H1|done|]. intros p W _ HW. exists W. split; [|done]. cbn. by rewrite Ew2. }
      eapply (no_table_struct smaps' (set_dirs g s2) a D (section x) q S2); [done..|].
      intros v Hv. unfold smaps'. rewrite pt_unmapped_lookup, decide_True; [done|]. split; [done|].
      subst. unfold NPTEENTRY in *. Z.to_euclidean_division_equations. lia.
    + eapply pt_ok_ext; [exact Hok2|by auto|done].
    + intros p Hp. apply Htab in Hp as [Hp Hne]. destruct (so_nodes _ _ _ _ _ _ H1 p Hp) as (N1 & N2 & N3).
      split_and!; [by apply K| |done]. intros Hx. apply N2. unfold table in *. by rewrite <- Ed2.
    + apply H1.
    + apply H1.
Qed.

Lemma destroy_nodes_ok L E maps a l : forall smaps g s D,
  sh_ok L E maps smaps g s -> g !! a = Some D ->
  (forall x, x ∈ l -> word D (section x) = pde (sn_entry x.2) /\ 0 <= section x < 4096) -> NoDup (section <$> l) ->
  returns (destroy_nodes l s) (fun s' => dirs s' = dirs s /\ exists smaps' g' D',
    sh_ok L E maps smaps' g' s' /\ g' !! a = Some D' /\ (forall i, i ∉ section <$> l -> word D' i = word D i) /\
    (forall i, i ∈ section <$> l -> word D' i = 0) /\
    (forall d, d <> a -> g' !! d = g !! d) /\ (forall d v, d <> a -> smaps' !! (d, v) = smaps !! (d, v))).
Proof.
  induction l as [|x l IH]; intros smaps g s D H HD Hx Hnd; cbn [destroy_nodes].
  - apply returns_ok. split; [done|]. exists smaps, g, D. split_and!; try done. intros i Hi%not_elem_of_nil. done.
  - rewrite fmap_cons in *. apply NoDup_cons in Hnd as [Hni Hnd]. destruct (Hx x ltac:(left)) as [Hw Hi].
    eapply returns_bind; [by apply (shmn_destroy_ok L E maps smaps g s a D x)|]. intros s1 [H1 Ed1].
    set (g1 := alter _ a g) in *. set (D1 := <[section x := 0]> D).
    assert (HD1 : g1 !! a = Some D1) by (unfold g1; by rewrite lookup_alter_eq, HD).
    eapply returns_mono; [apply (IH _ g1 s1 D1 H1 HD1); [|done]|].
    + intros y Hy. unfold D1. rewrite word_insert_ne; [apply Hx; by right|]. intros Heq. apply Hni. rewrite Heq. by apply list_elem_of_fmap_2.
    + intros s2 (Ed2 & smaps' & g' & D' & H2 & HD' & W1 & W2 & G & M). split; [congruence|]. exists smaps', g', D'.
      split_and!; [done|done| | | |].
      * intros i [Hne Hi']%not_elem_of_cons. rewrite W1 by done. unfold D1. by apply word_insert_ne.
      * intros i [->|Hi']%elem_of_cons; [|auto]. destruct (decide (section x ∈ section <$> l)); [auto|]. rewrite W1 by done. apply word_insert_eq.
      * intros d Hd. rewrite G by done. unfold g1. by rewrite lookup_alter_ne.
      * intros d v Hd. rewrite M by done. rewrite pt_unmapped_lookup, decide_False; [done|]. tauto.
Qed.

(** A directory without tables can be left out. *)
Lemma drop_dir L E maps smaps g s a D :
  sh_ok L E maps smaps g s -> g !! a = Some D -> (forall i, word D i = 0) -> sh_ok L E maps smaps (delete a g) s.
Proof.
  intros H HD Hz. pose proof (so_struct _ _ _ _ _ _ H) as S.
  assert (Htab : forall q, table (set_dirs (delete a g) s) q <-> table (set_dirs g s) q).
  { intros q. split; intros (d & D' & i & HD' & Hi); exists d, D', i; (split; [|done]); cbn in *.
    - by apply lookup_delete_Some in HD' as [_ ?].
    - rewrite lookup_delete_ne; [done|]. intros ->. simplify_eq. rewrite Hz in Hi. unfold pde, PGSIZE in Hi. lia. }
  assert (Hg : forall d D', delete a g !! d = Some D' -> g !! d = Some D') by (by intros d D' [_ ?]%lookup_delete_Some).
  split.
  - split.
    + intros d D' i HD'. apply (st_pde _ _ S d). by apply Hg.
    + intros d D1 i d' D2 i' q H1 H2. apply (st_inj _ _ S d D1 i d' D2 i' q); by apply Hg.
    + intros d D' v HD' Hv. apply (st_maps _ _ S d D' v); [by apply Hg|done].
    + intros d v w Hw. destruct (st_dom _ _ S _ _ _ Hw) as (H1 & H2 & H3). split_and!; [done| |lia..]. cbn. rewrite lookup_delete_ne; [done|].
      intros ->. pose proof (st_maps _ _ S d D v HD H3) as Hm. unfold pte_at in Hm. rewrite Hz, Hw in Hm. cbn in Hm. congruence.
  - eapply pt_ok_ext; [apply H| |done]. intros p _ [|Hp]; [by left; left|]. left; right. by apply Htab.
  - intros q Hq%Htab. by apply (so_nodes _ _ _ _ _ _ H).
  - apply H.
  - apply H.
Qed.

(** ** Objects as directories *)

Definition gdir (o : shmem_struct) : gmap Z Z :=
  list_to_map ((fun x => (section x, pde (sn_entry x.2))) <$> shmn_list o).

Lemma sections_nodup l : Forall (fun x => node_ok x.2) l -> ascending l -> NoDup (section <$> l).
Proof.
  induction l as [|x l IH]; cbn; [constructor|]. intros [Hx HF]%Forall_cons [H1 H2]. apply NoDup_cons. split; [|auto].
  intros (y & Hxy & Hy)%list_elem_of_fmap. specialize (H1 y Hy). rewrite Forall_forall in HF.
  pose proof (node_start _ Hx). pose proof (node_start _ (HF y Hy)). unfold section in Hxy. rewrite <- Hxy in *. lia.
Qed.

Lemma gdir_keys o : ((fun x => (section x, pde (sn_entry x.2))) <$> shmn_list o).*1 = section <$> shmn_list o.
Proof. by rewrite <- list_fmap_compose. Qed.

Lemma gdir_word o x : obj_ok o -> x ∈ shmn_list o -> word (gdir o) (section x) = pde (sn_entry x.2).
Proof.
  intros O Hx. unfold word, gdir. rewrite (elem_of_list_to_map_1 _ (section x) (pde (sn_entry x.2))); [done| |].
  - rewrite gdir_keys. apply sections_nodup; apply O.
  - apply (list_elem_of_fmap_2 (fun x => (section x, pde (sn_entry x.2)))). done.
Qed.

Lemma gdir_none o i : i ∉ section <$> shmn_list o -> gdir o !! i = None.
Proof. intros Hi. apply not_elem_of_list_to_map_1. by rewrite gdir_keys. Qed.

Lemma gdir_insert o o' x l1 l2 : obj_ok o' -> shmn_list o = l1 ++ l2 -> shmn_list o' = l1 ++ x :: l2 ->
  gdir o' = <[section x := pde (sn_entry x.2)]> (gdir o).
Proof.
  intros O E1 E2. unfold gdir. rewrite E1, E2.
  rewrite (list_to_map_proper _ ((fun x => (section x, pde (sn_entry x.2))) <$> x :: l1 ++ l2)); [done| |].
  - rewrite <- E2, gdir_keys. apply sections_nodup; apply O.
  - apply fmap_Permutation. by rewrite Permutation_middle.
Qed.

(** The objects and the page tables together. *)
Definition shm_ok L E maps smaps (s : shm) : Prop :=
  (forall a o, objs s !! a = Some o -> obj_ok o) /\ sh_ok L E maps smaps (gdir <$> objs s) (tabs s).

Lemma objs_update L E maps smaps (s : shm) p a o o' :
  shm_ok L E maps smaps s -> objs s !! a = Some o -> obj_ok o' -> shmn_list o' = shmn_list o ->
  forall smaps', sh_ok L E maps smaps' (gdir <$> objs s) p -> shm_ok L E maps smaps' (mk_shm (<[a := o']> (objs s)) p).
Proof.
  intros [HO _] Ho O' El smaps' H'. split; cbn.
  - intros b ob [[_ <-]|[_ Hb]]%lookup_insert_Some; [done|by apply (HO b)].
  - rewrite fmap_insert, insert_id; [done|]. rewrite lookup_fmap, Ho. cbn. unfold gdir. by rewrite El.
Qed.

Lemma index_in_node v : (v * PGSIZE - v / NPTEENTRY * PTSIZE) / PGSIZE = v mod NPTEENTRY.
Proof.
  rewrite (Z.div_mod v NPTEENTRY) at 1 by done. unfold PTSIZE.
  replace (_ - _) with (v mod NPTEENTRY * PGSIZE) by lia. by apply Z.div_mul.
Qed.

(** Page [v] of an object is in the node [x]. *)
Lemma node_slot o g s a v x : obj_ok o -> g !! a = Some (gdir o) -> x ∈ shmn_list o -> shmn_has x.2 (v * PGSIZE) = true ->
  0 <= sn_entry x.2 -> slot (set_dirs g s) a v (sn_entry x.2, (v * PGSIZE - sn_start x.2) / PGSIZE).
Proof.
  intros O Hg Hx Hh H0. pose proof (oo_nodes _ O) as HF. rewrite Forall_forall in HF. specialize (HF x Hx). cbn in HF.
  pose proof (node_start _ HF) as Hst. apply section_of in Hh; [|done].
  assert (Hsec : v / NPTEENTRY = section x).
  { unfold section. rewrite <- Hh. unfold PTSIZE, NPTEENTRY, PGSIZE. Z.to_euclidean_division_equations. lia. }
  exists (gdir o), (sn_entry x.2). split_and!; [done| |done|].
  - rewrite Hsec. by apply gdir_word.
  - f_equal. rewrite Hst. fold (section x). rewrite <- Hsec. apply index_in_node.
Qed.

Lemma node_entry L E maps smaps g s a o x : sh_ok L E maps smaps g s -> g !! a = Some (gdir o) -> obj_ok o -> x ∈ shmn_list o ->
  0 <= sn_entry x.2.
Proof.
  intros H Hg O Hx. assert (Ht : table (set_dirs g s) (sn_entry x.2)) by (exists a, (gdir o), (section x); split; [done|by apply gdir_word]).
  destruct (so_nodes _ _ _ _ _ _ H _ Ht) as (Ho & _).
  pose proof (pg_range _ _ 1 (ct_pg _ _ _ _ (proj2 (so_pages _ _ _ _ _ _ H))) ltac:(lia) Ho). lia.
Qed.

(** *** [shmn_create] and [insert_shmn] *)

Lemma new_node_ok L E maps smaps g s a D i p :
  sh_ok (held (Some p) L) E maps smaps g s -> g !! a = Some D -> word D i = 0 -> pg_owned (pages s) p 1 -> ~ table s p ->
  ~ table (set_dirs g s) p -> E p + cnt smaps p + cnt maps p = 0 ->
  sh_ok L E maps smaps (<[a := <[i := pde p]> D]> g) (clear_page p s).
Proof.
  intros H HD Hi Ho Hnt Hnn Hz. pose proof (so_pages _ _ _ _ _ _ H) as Hok.
  pose proof (pg_range _ p 1 (ct_pg _ _ _ _ (proj2 Hok)) ltac:(lia) Ho) as Hr.
  set (g' := <[a := <[i := pde p]> D]> g).
  destruct (new_table_struct smaps (set_dirs g s) (set_dirs g' (clear_page p s)) a D i p (so_struct _ _ _ _ _ _ H))
    as [S' T']; [done|done|done|lia|done|cbn; by simpl_map|intros q Hq; cbn; by rewrite lookup_insert_ne|].
  split.
  - exact S'.
  - apply clear_page_ok; [|done]. eapply pt_ok_ext; [exact Hok| |done]. intros q _ [[Hq|[= <-]]|Hq]; left; [by left|right..]; apply T'; auto.
  - intros q [Hq| ->]%T'; [by apply (so_nodes _ _ _ _ _ _ H)|by split_and!].
  - apply H.
  - apply H.
Qed.

Lemma clear_other p q s : q <> p -> words (clear_page p s) !! q = words s !! q.
Proof. intros. cbn. by rewrite lookup_insert_ne. Qed.

(** Nothing but the pages of the objects changes, and no page is given back. *)
Definition sh_frames g s s' : Prop :=
  dirs s' = dirs s /\ forall q, pg_owned (pages s) q 1 ->
    pg_owned (pages s') q 1 /\ (~ table (set_dirs g s) q -> words s' !! q = words s !! q).

Lemma shmn_create_ok L E maps smaps g s a D i al :
  sh_ok L E maps smaps g s -> g !! a = Some D -> word D i = 0 -> 0 <= i * PTSIZE < USERTOP ->
  returns (shmn_create al (i * PTSIZE) s) (fun '(x, s') => sh_frames g s s' /\
    match x with
    | Some x => Some x.1 = al /\ node_ok x.2 /\ section x = i /\ sn_start x.2 = i * PTSIZE /\ ~ pg_owned (pages s) (sn_entry x.2) 1 /\
        sh_ok L E maps smaps (<[a := <[i := pde (sn_entry x.2)]> D]> g) s'
    | None => sh_ok L E maps smaps g s'
    end).
Proof.
  intros H HD Hw Hi. unfold shmn_create.
  replace (i * PTSIZE mod PGSIZE) with 0 by (unfold PTSIZE; rewrite (Z.mul_comm PGSIZE), Z.mul_assoc, Z.mod_mul; done).
  change (assert (0 * SHMN_NENTRY =? 0)) with (Ok tt). cbn [res_bind]. destruct al as [b|]; [|by apply returns_ok].
  eapply returns_bind; [apply alloc_shared, H|]. intros [[p|] s1] (H1 & Ed & Ew & K & Hp).
  - destruct Hp as (Hno & Hop & Hnt & Hnn & Hz). pose proof (ct_pg _ _ _ _ (proj2 (so_pages _ _ _ _ _ _ H1))) as I1.
    pose proof (pg_range _ p 1 I1 ltac:(lia) Hop) as Hr. pose proof (pg_bound _ I1) as Hb.
    rewrite page2kva_ok by lia. cbn [res_bind]. apply returns_ok. cbn [snd fst sn_entry sn_start section]. rewrite PPN_mul.
    split; [split; [done|]; intros q Hq; split; [by apply K|]; intros _; rewrite clear_other, Ew by (by intros ->); done|].
    split_and!; [done| | |done|done|by apply (new_node_ok L E maps smaps g s1)].
    + unfold node_ok. cbn [sn_start sn_end]. split_and!; [lia|lia|by apply Z.mod_mul|].
      change (PGSIZE * SHMN_NENTRY) with PTSIZE. apply u32_small. unfold USERTOP, PTSIZE, PGSIZE, NPTEENTRY in *. lia.
    + unfold section. cbn [snd sn_start]. by apply Z.div_mul.
  - apply returns_ok. split; [split; [done|]; intros q Hq; split; [by apply K|]; by rewrite Ew|].
    by apply (sh_held _ _ _ _ _ _ _ H1).
Qed.

(** *** [shmem_get_entry] *)

Lemma node_bound o v : obj_ok o -> 0 <= v -> v * PGSIZE < shm_len o -> 0 <= v < 2 ^ 20 /\ 0 <= v / NPTEENTRY * PTSIZE < USERTOP.
Proof.
  intros O Hv Hl. pose proof (oo_len _ O) as Hb. unfold USERTOP, PGSIZE, NPTEENTRY in *.
  pose proof (Z.mul_div_le v 256 ltac:(lia)). pose proof (Z.div_pos v 256 ltac:(lia) ltac:(lia)). unfold PTSIZE, PGSIZE, NPTEENTRY. lia.
Qed.

Lemma section_page v : v * PGSIZE / PTSIZE = v / NPTEENTRY.
Proof. unfold PTSIZE. rewrite (Z.mul_comm PGSIZE). by rewrite Z.div_mul_cancel_r. Qed.

Lemma no_section o v : obj_ok o -> (forall x, x ∈ shmn_list o -> shmn_has x.2 (v * PGSIZE) = false) ->
  v / NPTEENTRY ∉ section <$> shmn_list o.
Proof.
  intros O Hn (x & Hs & Hx)%list_elem_of_fmap. pose proof (oo_nodes _ O) as HF. rewrite Forall_forall in HF.
  specialize (Hn x Hx). rewrite (proj2 (section_of x.2 (v * PGSIZE) (HF x Hx))) in Hn; [done|]. by rewrite section_page.
Qed.

Lemma get_node_ok L E maps smaps g s a o v al create :
  sh_ok L E maps smaps g s -> g !! a = Some (gdir o) -> obj_ok o -> 0 <= v -> v * PGSIZE < shm_len o ->
  (forall b, al = Some b -> b ∉ (shmn_list o).*1) ->
  returns (get_node al o (v * PGSIZE) create s) (fun '(x, o', s') =>
    obj_ok o' /\ shm_len o' = shm_len o /\ sh_ok L E maps smaps (<[a := gdir o']> g) s' /\ sh_frames g s s' /\
    (forall q, table (set_dirs (<[a := gdir o']> g) s') q -> table (set_dirs g s) q \/ ~ pg_owned (pages s) q 1) /\
    match x with
    | Some x => x ∈ shmn_list o' /\ shmn_has x.2 (v * PGSIZE) = true
    | None => smaps !! (a, v) = None
    end).
Proof.
  intros H Hg O Hv Hl Hal. unfold get_node. destruct (node_bound o v O Hv Hl) as [Hv1 Hv2].
  eapply returns_bind; [apply (find_shmn_ok o (v * PGSIZE) O)|]. intros [x o1] (O1 & El & Elen & Hx).
  assert (Eg : gdir o1 = gdir o) by (unfold gdir; by rewrite El).
  assert (Eid : <[a := gdir o1]> g = g) by (rewrite Eg; by apply insert_id).
  assert (Hrefl : sh_frames g s s) by (split; [done|]; by intros q Hq).
  destruct x as [x|].
  { destruct Hx as [Hx Hh]. rewrite Hh. cbn [assert res_bind]. apply returns_ok. rewrite Eid, El. split_and!; auto. }
  cbn [assert res_bind]. assert (Hns := no_section o v O Hx). pose proof (gdir_none o _ Hns) as Hgn.
  assert (Hw : word (gdir o) (v / NPTEENTRY) = 0) by (unfold word; by rewrite Hgn).
  assert (Hm : smaps !! (a, v) = None) by (by apply (maps_absent smaps (set_dirs g s) a (gdir o) v (so_struct _ _ _ _ _ _ H))).
  destruct create; cbn [negb]; [|apply returns_ok; rewrite Eid; split_and!; auto].
  change (PGSIZE * SHMN_NENTRY) with PTSIZE. rewrite rounddown_section.
  eapply returns_bind; [apply (shmn_create_ok L E maps smaps g s a (gdir o) (v / NPTEENTRY) al H Hg Hw ltac:(lia))|].
  intros [[x|] s1] [F1 Hx1]; [|apply returns_ok; rewrite Eid; split_and!; auto].
  destruct Hx1 as (Hxa & Nx & Sx & Stx & Hno & H1).
  eapply returns_bind; [apply (insert_shmn_ok o1 x O1 Nx)|].
  { rewrite El. by apply Hal. }
  { rewrite El. intros y Hy Heq. apply Hns. rewrite <- Sx. unfold section. rewrite <- Heq. by apply (list_elem_of_fmap_2 section). }
  intros o2 (O2 & Elen2 & l1 & l2 & E1 & E2). apply returns_ok. pose proof (gdir_insert o1 o2 x l1 l2 O2 E1 E2) as Eg2.
  rewrite Eg2, Sx, Eg. split_and!; [done|congruence|done|done| |rewrite E2; apply elem_of_app; right; left|].
  - intros q (d & D & i & HD & Hi). cbn in HD. destruct (decide (d = a)) as [->|Hda].
    + rewrite lookup_insert_eq in HD. injection HD as <-. destruct (decide (i = v / NPTEENTRY)) as [->|Hiv].
      * rewrite word_insert_eq in Hi. apply pde_inj in Hi as <-. by right.
      * left. exists a, (gdir o), i. rewrite word_insert_ne in Hi by done. done.
    + rewrite lookup_insert_ne in HD by done. left. by exists d, D, i.
  - apply section_of; [done|]. rewrite section_page. symmetry. exact Sx.
Qed.

Lemma rounddown_page a : ROUNDDOWN a PGSIZE = a / PGSIZE * PGSIZE.
Proof. unfold ROUNDDOWN. pose proof (Z.div_mod a PGSIZE ltac:(done)). lia. Qed.

Lemma get_entry_ok L E maps smaps (s : shm) a o addr al create :
  let v := addr / PGSIZE in
  let g := gdir <$> objs s in
  shm_ok L E maps smaps s -> objs s !! a = Some o -> 0 <= addr < shm_len o -> (forall b, al = Some b -> b ∉ (shmn_list o).*1) ->
  returns (shmem_get_entry cpu al a addr create s) (fun '(r, s') => exists smaps',
    shm_ok L E maps smaps' s' /\ sh_frames g (tabs s) (tabs s') /\
    (exists o', objs s' = <[a := o']> (objs s) /\ shm_len o' = shm_len o) /\
    (smaps' = smaps \/ create = true /\ smaps !! (a, v) = None /\ exists p, ~ pg_owned (pages (tabs s)) p 1 /\
                        smaps' = <[(a, v) := p * PGSIZE + mapbits cpu]> smaps) /\
    match r with
    | Some e => slot (set_dirs (gdir <$> objs s') (tabs s')) a v e
    | None => smaps' = smaps /\ smaps !! (a, v) = None
    end).
Proof.
  intros v g [HO H] Ho Haddr Hal. unfold shmem_get_entry. rewrite (fetch_ok _ _ _ Ho). cbn [res_bind].
  apply returns_assert; [apply Z.ltb_lt; lia|]. rewrite rounddown_page. fold v. pose proof (HO a o Ho) as O.
  assert (Hv : 0 <= v) by (apply Z.div_pos; [lia|done]). assert (Hvl : v * PGSIZE < shm_len o).
  { pose proof (Z.mul_div_le addr PGSIZE ltac:(done)) as Hle. fold v in Hle. lia. }
  destruct (node_bound o v O Hv Hvl) as [Hv1 _].
  assert (Hg : g !! a = Some (gdir o)) by (unfold g; by rewrite lookup_fmap, Ho).
  eapply returns_bind; [apply (get_node_ok L E maps smaps g (tabs s) a o v al create H Hg O Hv Hvl Hal)|].
  intros [[x o'] p] (O' & Elen & H1 & F1 & T1 & Hx).
  assert (Eg' : gdir <$> <[a := o']> (objs s) = <[a := gdir o']> g) by (by rewrite fmap_insert).
  assert (HO' : forall b ob, <[a := o']> (objs s) !! b = Some ob -> obj_ok ob)
    by (intros b ob [[_ <-]|[_ Hb]]%lookup_insert_Some; [done|by apply (HO b)]).
  destruct x as [x|]; cycle 1.
  { apply returns_ok. exists smaps. split_and!; [split; [done|]; cbn; by rewrite Eg'|done|by exists o'|by left|done|done]. }
  destruct Hx as [Hx Hh]. set (g' := <[a := gdir o']> g) in *.
  assert (Hg' : g' !! a = Some (gdir o')) by apply lookup_insert_eq.
  pose proof (node_slot o' g' p a v x O' Hg' Hx Hh (node_entry _ _ _ _ _ _ _ _ _ H1 Hg' O' Hx)) as Hs.
  set (e := (sn_entry x.2, _)) in *. destruct (slot_value _ _ _ _ _ _ _ _ _ H1 Hs Hv1) as (W & HW & ->). cbn [res_bind].
  assert (Hcase : forall p2 smaps', sh_ok L E maps smaps' g' p2 -> sh_frames g (tabs s) p2 ->
     (smaps' = smaps \/ create = true /\ smaps !! (a, v) = None /\ exists q, ~ pg_owned (pages (tabs s)) q 1 /\
                        smaps' = <[(a, v) := q * PGSIZE + mapbits cpu]> smaps) ->
     returns (Ok (Some e, mk_shm (<[a := o']> (objs s)) p2)) (fun '(r, s') => exists smaps',
    shm_ok L E maps smaps' s' /\ sh_frames g (tabs s) (tabs s') /\
    (exists o', objs s' = <[a := o']> (objs s) /\ shm_len o' = shm_len o) /\
    (smaps' = smaps \/ create = true /\ smaps !! (a, v) = None /\ exists p, ~ pg_owned (pages (tabs s)) p 1 /\
                        smaps' = <[(a, v) := p * PGSIZE + mapbits cpu]> smaps) /\
    match r with
    | Some e => slot (set_dirs (gdir <$> objs s') (tabs s')) a v e
    | None => smaps' = smaps /\ smaps !! (a, v) = None
    end)).
  { intros p2 smaps' H2 F2 C2. apply returns_ok. exists smaps'. cbn [objs tabs]. unfold shm_ok. cbn [objs tabs]. rewrite Eg'.
    split_and!; [done|done|done|by exists o'|done|]. by eapply slot_dirs; [|exact Hs]. }
  destruct (smaps !! (a, v)) as [w|] eqn:Ew; cbn [default from_option id].
  - destruct (st_dom _ _ (so_struct _ _ _ _ _ _ H1) _ _ _ Ew) as [Hnz _]. rewrite (proj2 (Z.eqb_neq _ _) Hnz). cbn [andb res_bind].
    apply (Hcase p smaps); auto.
  - cbn [Z.eqb andb]. destruct create; [|cbn [res_bind]; apply (Hcase p smaps); auto].
    eapply returns_bind; [apply (new_entry_ok L E maps smaps g' p a v e H1 Hs Hv1 Ew)|]. intros p2 ([Ed2 W2] & K2 & H2).
    assert (F2 : sh_frames g (tabs s) p2).
    { destruct F1 as [Ed1 F1]. split; [congruence|]. intros q Hq. destruct (F1 q Hq) as [Q1 Q2]. split; [by apply K2|].
      intros Hnt. rewrite W2; [by apply Q2|]. intros Heq. destruct (T1 e.1 (slot_table _ _ _ _ Hs)) as [Ht|Ht]; [by rewrite <- Heq in Ht|].
      by rewrite <- Heq in Ht. }
    destruct H2 as [H2|(q & Hq & H2)]; [apply (Hcase p2 smaps); auto|]. apply (Hcase p2 _ H2 F2). right. split_and!; [done..|].
    exists q. split; [|done]. intros Hoq. apply Hq. by apply F1.
Qed.

(** *** [shmem_insert_entry] *)

(** An entry for a page that something else refers to already. *)
Definition can_enter E maps s (entry : Z) : Prop :=
  entry = 0 \/ exists p f, entry = p * PGSIZE + f /\ 0 <= f < PGSIZE /\ ptep_present f = true /\ ~ table s p /\ 0 < E p + cnt maps p.

Definition put smaps (k : Z * Z) (entry : Z) : gmap (Z * Z) Z := if decide (entry = 0) then delete k smaps else <[k := entry]> smaps.

Lemma wr_pte_ok e w W s : words s !! e.1 = Some W -> wr_pte e w s = Ok (set_words (<[e.1 := <[e.2 := w]> W]> (words s)) s).
Proof. intros HW. unfold wr_pte. by rewrite (fetch_ok _ _ _ HW). Qed.

Definition count_entry (entry : Z) (p : ptmem) : res ptmem :=
  if ptep_present entry then let* page := pte2page entry p in Ok (page_ref_inc page p)
  else if negb (ptep_invalid entry) then Panic
  else Ok p.

Lemma put_shared L E maps smaps g s a v e entry :
  sh_ok L E maps smaps g s -> slot (set_dirs g s) a v e -> 0 <= v < 2 ^ 20 -> smaps !! (a, v) = None -> can_enter E maps s entry ->
  returns (let* s := count_entry entry s in wr_pte e entry s) (fun s' =>
    sh_ok L E maps (put smaps (a, v) entry) g s' /\ spares e s s').
Proof.
  intros H Hs Hv Hn [->|(p & f & -> & Hf & Hp & Hnt & Hc)]; destruct (slot_value _ _ _ _ _ _ _ _ _ H Hs Hv) as (W & HW & _); unfold put.
  - cbn [count_entry ptep_present res_bind negb]. rewrite decide_True by done. change (count_entry 0 s) with (Ok s). cbn [res_bind].
    rewrite (wr_pte_ok e 0 W s HW). apply returns_ok. split; [|split; [done|]; intros q Hq; cbn; by rewrite lookup_insert_ne].
    pose proof (st_write smaps (set_dirs g s) a v e 0 W (so_struct _ _ _ _ _ _ H) Hs Hv HW) as S2. rewrite decide_True in S2 by done.
    rewrite delete_id in * by done. destruct H as [H1 H2 H3 H4 H5]. split; try done. apply pt_words; [done|].
    apply (H3 e.1). by eapply slot_table.
  - pose proof (so_pages _ _ _ _ _ _ H) as [_ C].
    assert (Ho : pg_owned (pages s) p 1) by (apply (ct_own _ _ _ _ C); pose proof (cnt_nonneg smaps p); lia).
    pose proof (pg_range _ p 1 (ct_pg _ _ _ _ C) ltac:(lia) Ho) as Hr.
    assert (Hnz : p * PGSIZE + f <> 0) by (apply present_nonzero; [lia|done|done]). rewrite decide_False by done.
    unfold count_entry. rewrite present_word, Hp, pte2page_ok by (done || lia). cbn [res_bind].
    rewrite (wr_pte_ok e _ W) by done. apply returns_ok. split; [|split; [done|]; intros q Hq; cbn; by rewrite lookup_insert_ne].
    apply (enter_shared L E maps smaps g s a v e _ p f); try done.
    + intros Ht. destruct (so_nodes _ _ _ _ _ _ H p Ht) as (_ & _ & Hz). pose proof (cnt_nonneg smaps p). lia.
    + pose proof (st_write smaps (set_dirs g s) a v e (p * PGSIZE + f) W (so_struct _ _ _ _ _ _ H) Hs Hv HW) as S2.
      by rewrite decide_False in S2.
Qed.

Lemma can_enter_dirs E maps s s' entry : dirs s' = dirs s -> can_enter E maps s entry -> can_enter E maps s' entry.
Proof.
  intros Ed [->|(p & f & He & Hf & Hp & Hnt & Hc)]; [by left|]. right. exists p, f. split_and!; try (done || lia).
  unfold table in *. by rewrite Ed.
Qed.

Lemma put_put smaps k w x : put (delete k (<[k := w]> smaps)) k x = put smaps k x /\ put (delete k smaps) k x = put smaps k x.
Proof. unfold put. rewrite delete_insert_eq. by destruct (decide (x = 0)); rewrite ?delete_delete_eq, ?insert_delete_eq. Qed.

Lemma insert_entry_ok L E maps smaps (s : shm) a o addr al entry :
  let v := addr / PGSIZE in
  shm_ok L E maps smaps s -> objs s !! a = Some o -> 0 <= addr < shm_len o -> (forall b, al = Some b -> b ∉ (shmn_list o).*1) ->
  can_enter E maps (tabs s) entry ->
  returns (shmem_insert_entry cpu al a addr entry s) (fun '(r, s') =>
    dirs (tabs s') = dirs (tabs s) /\
    ((r = 0 /\ shm_ok L E maps (put smaps (a, v) entry) s') \/
     (r = - E_NO_MEM /\ smaps !! (a, v) = None /\ shm_ok L E maps smaps s'))).
Proof.
  intros v Hok Ho Ha Hal Hc. unfold shmem_insert_entry.
  eapply returns_bind; [apply (get_entry_ok L E maps smaps s a o addr al true Hok Ho Ha Hal)|].
  fold v. intros [[e|] s1] (smaps1 & [HO1 H1] & [Ed1 _] & _ & Hs & He); cycle 1.
  { destruct He as [-> Hn]. apply returns_ok. split; [done|]. right. by split_and!. }
  set (g := gdir <$> objs s1) in *. destruct (node_bound o v (proj1 Hok a o Ho)) as [Hv _].
  { apply Z.div_pos; [lia|done]. }
  { pose proof (Z.mul_div_le addr PGSIZE ltac:(done)) as Hle. fold v in Hle. lia. }
  destruct (slot_value _ _ _ _ _ _ _ _ _ H1 He Hv) as (W & HW & ->). cbn [res_bind].
  assert (Hrm : returns (if negb (ptep_invalid (default 0 (smaps1 !! (a, v)))) then shmem_remove_entry_pte e (tabs s1) else Ok (tabs s1))
    (fun p => sh_ok L E maps (delete (a, v) smaps1) g p /\ dirs p = dirs (tabs s))).
  { destruct (smaps1 !! (a, v)) as [w|] eqn:Ew; cbn [default from_option id].
    - destruct (st_dom _ _ (so_struct _ _ _ _ _ _ H1) _ _ _ Ew) as [Hnz _]. unfold ptep_invalid. rewrite (proj2 (Z.eqb_neq _ _) Hnz). cbn [negb].
      eapply returns_mono; [by apply (remove_entry_ok L E maps smaps1 g (tabs s1) a v e)|]. intros p [H2 [Ed2 _]]. split; [done|congruence].
    - apply returns_ok. by rewrite delete_id. }
  eapply returns_bind; [exact Hrm|]. intros p [H2 Ed2]. fold (count_entry entry p). rewrite <- bind_assoc.
  eapply returns_bind; [apply (put_shared L E maps _ g p a v e entry H2)|].
  - by eapply slot_dirs; [|exact He].
  - done.
  - apply lookup_delete_eq.
  - by eapply can_enter_dirs.
  - intros p3 [H3 [Ed3 _]]. apply returns_ok. cbn [tabs objs]. split; [congruence|]. left. split; [done|]. split; [done|].
    enough (put (delete (a, v) smaps1) (a, v) entry = put smaps (a, v) entry) as <- by done.
    destruct Hs as [->|(_ & _ & q & _ & ->)]; [apply (put_put smaps (a, v) 0)|apply put_put].
Qed.

(** *** [shmem_destroy] *)

Definition others (a : Z) smaps : gmap (Z * Z) Z := filter (fun kv => kv.1.1 <> a) smaps.

Lemma node_section o x : obj_ok o -> x ∈ shmn_list o -> 0 <= section x < 4096.
Proof.
  intros O Hx. pose proof (oo_nodes _ O) as HF. rewrite Forall_forall in HF. destruct (HF x Hx) as [Hr _].
  unfold section. split; [apply Z.div_pos; [lia|done]|]. apply Z.div_lt_upper_bound; [done|]. unfold USERTOP, PTSIZE, PGSIZE, NPTEENTRY in *. lia.
Qed.

Lemma shmem_destroy_ok L E maps smaps (s : shm) a o :
  shm_ok L E maps smaps s -> objs s !! a = Some o ->
  returns (shmem_destroy a s) (fun s' : shm => shm_ok L E maps (others a smaps) s' /\ objs s' = delete a (objs s) /\
    dirs (tabs s') = dirs (tabs s)).
Proof.
  intros [HO H] Ho. pose proof (HO a o Ho) as O. unfold shmem_destroy. rewrite (fetch_ok _ _ _ Ho). cbn [res_bind].
  set (g := gdir <$> objs s) in *. assert (Hg : g !! a = Some (gdir o)) by (unfold g; by rewrite lookup_fmap, Ho).
  eapply returns_bind; [apply (destroy_nodes_ok L E maps a (shmn_list o) smaps g (tabs s) (gdir o) H Hg)|].
  - intros x Hx. split; [by apply gdir_word|]. by eapply node_section.
  - apply sections_nodup; apply O.
  - intros p (Ed & smaps' & g' & D' & H' & HD' & W1 & W2 & G & M). apply returns_ok. cbn [objs tabs]. split_and!; [|done|done].
    assert (Hz : forall i, word D' i = 0).
    { intros i. destruct (decide (i ∈ section <$> shmn_list o)) as [Hi|Hi]; [auto|]. rewrite W1 by done. unfold word. by rewrite gdir_none. }
    assert (Em : smaps' = others a smaps).
    { apply map_eq. intros [d v]. unfold others. destruct (decide (d = a)) as [->|Hd].
      - rewrite map_lookup_filter_None_2; [by apply (maps_absent smaps' (set_dirs g' p) a D' v (so_struct _ _ _ _ _ _ H'))|].
        right. intros w _. cbn. tauto.
      - rewrite M by done. symmetry. destruct (smaps !! (d, v)) as [w|] eqn:Ew.
        + by apply map_lookup_filter_Some_2.
        + apply map_lookup_filter_None_2. by left. }
    rewrite <- Em. split; cbn [objs tabs]; [by intros b ob [_ Hob]%lookup_delete_Some; apply (HO b)|].
    assert (Eg : gdir <$> delete a (objs s) = delete a g').
    { rewrite fmap_delete. apply map_eq. intros d. destruct (decide (d = a)) as [->|Hd]; [by rewrite !lookup_delete_eq|].
      rewrite !lookup_delete_ne by done. symmetry. by apply G. }
    rewrite Eg. by apply (drop_dir L E maps smaps' g' p a D').
Qed.

(** *** [shmem_create] *)

Lemma no_objects L E maps s : pt_ok L E maps s -> shm_ok L E maps ∅ (mk_shm ∅ s).
Proof.
  intros Hok. assert (Hnt : forall q, ~ table (set_dirs ∅ s) q) by (by intros q (d & D & i & [=] & _)).
  split; [by intros a o [=]|]. cbn [objs tabs]. rewrite fmap_empty. split.
  - by split.
  - eapply pt_ok_ext; [exact Hok|by auto|]. intros p. apply Z.add_0_r.
  - intros q Hq. by destruct (Hnt q).
  - apply Hok.
  - done.
Qed.

Lemma new_dir L E maps smaps g s a : sh_ok L E maps smaps g s -> g !! a = None -> sh_ok L E maps smaps (<[a := ∅]> g) s.
Proof.
  intros H Ha. pose proof (so_struct _ _ _ _ _ _ H) as S.
  assert (Hg : forall d D, <[a := ∅]> g !! d = Some D -> D = ∅ \/ g !! d = Some D) by (intros d D [[_ <-]|[_ ?]]%lookup_insert_Some; auto).
  assert (He : forall i q, word ∅ i <> pde q) by (intros i q Hi; change (word ∅ i) with 0 in Hi; unfold pde, PGSIZE in Hi; lia).
  assert (Htab : forall q, table (set_dirs (<[a := ∅]> g) s) q <-> table (set_dirs g s) q).
  { intros q. split; intros (d & D & i & HD & Hi).
    - apply Hg in HD as [->|HD]; [by destruct (He i q)|by exists d, D, i].
    - exists d, D, i. split; [|done]. cbn in *. rewrite lookup_insert_ne; [done|]. by intros ->; simplify_eq. }
  split.
  - split.
    + intros d D i HD. apply Hg in HD as [->|HD]; [by left|]. by apply (st_pde _ _ S d).
    + intros d D i d' D' i' q HD HD' Hi Hi'. apply Hg in HD as [->|HD]; [by destruct (He i q)|].
      apply Hg in HD' as [->|HD']; [by destruct (He i' q)|]. by apply (st_inj _ _ S d D i d' D' i' q).
    + intros d D v HD Hv. cbn in HD. apply lookup_insert_Some in HD as [[<- <-]|[_ HD]]; [|by apply (st_maps _ _ S)].
      destruct (smaps !! (a, v)) as [w|] eqn:Ew; [|done]. destruct (st_dom _ _ S _ _ _ Ew) as (_ & [D HD] & _). cbn in HD. by simplify_eq.
    + intros d v w Hw. destruct (st_dom _ _ S _ _ _ Hw) as (H1 & H2 & H3). split_and!; [done| |lia..]. apply lookup_insert_is_Some.
      destruct (decide (a = d)); auto.
  - eapply pt_ok_ext; [apply H| |done]. intros p _ [|Hp]; [by left; left|]. left; right. by apply Htab.
  - intros q Hq%Htab. by apply (so_nodes _ _ _ _ _ _ H).
  - apply H.
  - apply H.
Qed.

Lemma create_ok L E maps smaps (s : shm) a len : shm_ok L E maps smaps s -> objs s !! a = None -> 0 <= len <= USERTOP ->
  shm_ok L E maps smaps (shmem_create (Some a) len s).2 /\ objs (shmem_create (Some a) len s).2 = <[a := mk_shmem [] None len 0 1]> (objs s).
Proof.
  intros [HO H] Ha Hl. split; [|done]. split; cbn [shmem_create snd objs tabs].
  - intros b o [[_ <-]|[_ Hb]]%lookup_insert_Some; [|by apply (HO b)]. split; cbn; try done. constructor.
  - rewrite fmap_insert. change (gdir (mk_shmem [] None len 0 1)) with (∅ : gmap Z Z). apply new_dir; [done|]. by rewrite lookup_fmap, Ha.
Qed.

End Inv.

(** ** The properties *)

Section Properties.
Context (cpu : arm_cpu) {KERNBASE : Z} `{PA : PageAlloc KERNBASE}.

(** C14: [shmem_get_entry] implements the pages of a shared memory object: for an
    address whose page exists it returns the entry that holds it, whoever asks;
    otherwise, if asked to, it adds exactly one page, which was free, to the
    object (or none when memory runs out).  No other page of an object changes,
    no page is given back, and every reference count stays the number of
    entries and mappings of the page. *)
Theorem shmem_get_entry_spec L E maps smaps (s : shm) a o addr al create :
  let v := addr / PGSIZE in
  shm_ok L E maps smaps s -> objs s !! a = Some o -> 0 <= addr < shm_len o -> (forall b, al = Some b -> b ∉ (shmn_list o).*1) ->
  returns (shmem_get_entry cpu al a addr create s) (fun '(r, s') => exists smaps', shm_ok L E maps smaps' s' /\
    (forall q, pg_owned (pages (tabs s)) q 1 -> pg_owned (pages (tabs s')) q 1) /\
    match smaps !! (a, v) with
    | Some w => smaps' = smaps /\ exists e, r = Some e /\ rd_pte e (tabs s') = Ok w
    | None => smaps' = smaps \/
        create = true /\ exists e p, r = Some e /\ rd_pte e (tabs s') = Ok (p * PGSIZE + mapbits cpu) /\
          ~ pg_owned (pages (tabs s)) p 1 /\ smaps' = <[(a, v) := p * PGSIZE + mapbits cpu]> smaps
    end).
Proof.
  intros v Hok Ho Ha Hal. eapply returns_mono; [by apply (get_entry_ok cpu L E maps smaps s a o addr al create)|].
  fold v. intros [r s'] (smaps' & Hok' & [_ F] & _ & Hs & He). exists smaps'. split_and!; [done|by intros q Hq; apply F|].
  destruct (node_bound o v (proj1 Hok a o Ho)) as [Hv _].
  { apply Z.div_pos; [lia|done]. }
  { pose proof (Z.mul_div_le addr PGSIZE ltac:(done)) as Hle. fold v in Hle. lia. }
  destruct r as [e|].
  - destruct (slot_value _ _ _ _ _ _ _ _ _ (proj2 Hok') He Hv) as (W & _ & Er).
    destruct Hs as [->|(-> & Hn & p & Hp & ->)]; [destruct (smaps !! (a, v)) as [w|]; [|by left]; split; [done|]; by exists e|].
    rewrite Hn. right. split; [done|]. exists e, p. by rewrite lookup_insert_eq in Er.
  - destruct He as [-> ->]. by left.
Qed.

(** [shmem_insert_entry] replaces the page of an address by another one (or
    by none, for [shmem_remove_entry]): the old page loses a reference and is
    given back with its last one, the new one gains a reference; -E_NO_MEM is
    returned only where the object had no page, and then nothing changes. *)
Theorem shmem_insert_entry_spec L E maps smaps (s : shm) a o addr al entry :
  let v := addr / PGSIZE in
  shm_ok L E maps smaps s -> objs s !! a = Some o -> 0 <= addr < shm_len o -> (forall b, al = Some b -> b ∉ (shmn_list o).*1) ->
  can_enter E maps (tabs s) entry ->
  returns (shmem_insert_entry cpu al a addr entry s) (fun '(r, s') =>
    (r = 0 /\ shm_ok L E maps (if decide (entry = 0) then delete (a, v) smaps else <[(a, v) := entry]> smaps) s') \/
    (r = - E_NO_MEM /\ smaps !! (a, v) = None /\ shm_ok L E maps smaps s')).
Proof.
  intros v Hok Ho Ha Hal Hc. eapply returns_mono; [by apply (insert_entry_ok cpu L E maps smaps s a o addr al entry)|]. by intros [r s'] [_ H].
Qed.

(** C15: [shmem_destroy] gives back the whole object: its entries are dropped
    from the counts, a page nothing else refers to is free afterwards, and the
    other objects and all mappings keep their pages. *)
Theorem shmem_destroy_spec L E maps smaps (s : shm) a o :
  shm_ok L E maps smaps s -> objs s !! a = Some o ->
  returns (shmem_destroy a s) (fun s' => shm_ok L E maps (others a smaps) s' /\ objs s' = delete a (objs s) /\
    dirs (tabs s') = dirs (tabs s) /\
    forall k w p, smaps !! k = Some w -> p = PPN w -> ~ L p -> p ∉ PG_IO (tabs s') -> E p + cnt maps p + cnt (others a smaps) p = 0 ->
      ~ pg_owned (pages (tabs s')) p 1).
Proof.
  intros Hok Ho. eapply returns_mono_eq; [by apply (shmem_destroy_ok L E maps smaps s a o)|]. intros s' _ ([HO' H'] & Eo & Ed).
  split_and!; [by split|done|done|]. intros k w p Hw -> HL HI Hz Hown. destruct (shared_page _ _ _ _ _ _ _ _ (proj2 Hok) Hw) as (_ & _ & _ & Hnt & Hnn).
  destruct (ct_live _ _ _ _ (proj2 (so_pages _ _ _ _ _ _ H')) _ Hown) as [[|Ht]|[|[Ht|]]]; [done| |done| |lia].
  - destruct Ht as (d & D & i & HD & Hi). apply Hnn. exists d, D, i. split; [|done]. cbn in *. rewrite Eo, fmap_delete in HD. by apply lookup_delete_Some in HD as [_ ?].
  - apply Hnt. unfold table in *. by rewrite <- Ed.
Qed.

End Properties.

(** ** An object on the machine of [PageTable.demo_pt] *)

Definition demo_shm : shm (PA := pmm_PageAlloc 0x5000) :=
  (shmem_create (Some 7) 0x5000 (mk_shm (PA := pmm_PageAlloc 0x5000) ∅ demo_pt)).2.

Lemma demo_shm_ok : shm_ok demo_held (fun _ => 0) ∅ ∅ demo_shm.
Proof. by apply create_ok; [apply no_objects, demo_pt_ok|..]. Qed.

Lemma shmem_get_entry_spec_witness : exists r s', shmem_get_entry ARMV7 (Some 8) 7 0x1234 true demo_shm = Ok (r, s') /\
  exists smaps', shm_ok demo_held (fun _ => 0) ∅ smaps' s'.
Proof.
  destruct (shmem_get_entry_spec ARMV7 demo_held (fun _ => 0) ∅ ∅ demo_shm 7 (mk_shmem [] None 0x5000 0 1) 0x1234 (Some 8) true)
    as ([r s'] & E & smaps' & Hok & _); [apply demo_shm_ok|done|done| |].
  - intros b _ H. by apply not_elem_of_nil in H.
  - exists r, s'. split; [exact E|]. by exists smaps'.
Defined.

Lemma shmem_insert_entry_spec_witness : exists r s', shmem_insert_entry ARMV7 (Some 8) 7 0x1234 0 demo_shm = Ok (r, s') /\
  (r = 0 -> shm_ok demo_held (fun _ => 0) ∅ ∅ s').
Proof.
  destruct (shmem_insert_entry_spec ARMV7 demo_held (fun _ => 0) ∅ ∅ demo_shm 7 (mk_shmem [] None 0x5000 0 1) 0x1234 (Some 8) 0)
    as ([r s'] & E & H); [apply demo_shm_ok|done|done| |by left|].
  - intros b _ Hb. by apply not_elem_of_nil in Hb.
  - exists r, s'. split; [exact E|]. intros ->. destruct H as [[_ H]|[? _]]; [exact H|done].
Defined.

Lemma shmem_destroy_spec_witness : exists s', shmem_destroy 7 demo_shm = Ok s' /\ objs s' = ∅.
Proof.
  destruct (shmem_destroy_spec demo_held (fun _ => 0) ∅ ∅ demo_shm 7 (mk_shmem [] None 0x5000 0 1)) as (s' & E & _ & Eo & _);
    [apply demo_shm_ok|done|]. exists s'. split; [exact E|]. rewrite Eo. by vm_compute.
Defined.

(** Two users of the object see the same page, a removed entry is gone, and
    destroying the object gives all pages back. *)
Definition demo_share : res (bool * bool * Z * Z) :=
  let* (e1, s) := shmem_get_entry ARMV7 (Some 8) 7 0x1234 true demo_shm in
  let* w1 := rd_pte (default (0, 0) e1) (tabs s) in
  let* (e2, s) := shmem_get_entry ARMV7 None 7 0x1ffc false s in
  let* w2 := rd_pte (default (0, 0) e2) (tabs s) in
  let* (e3, s) := shmem_get_entry ARMV7 None 7 0x3000 true s in
  let* (r, s) := shmem_remove_entry ARMV7 None 7 0x3000 s in
  let* s := shmem_destroy 7 s in
  Ok (bool_decide (e1 = e2), bool_decide (w1 = w2 /\ w1 <> 0), r, buddy_nr_free_pages (buddy (pages (tabs s)))).

Example shared_memory_run : demo_share = Ok (true, true, 0, buddy_nr_free_pages demo_state).
Proof. by vm_compute. Qed.
