(* ===== verification/Uaccess.v ===== *)
(** * Uaccess: access to user memory and the lock of an address space
      (arch/arm/mm/vmm.c; [lock_mm] and friends of mm/vmm.c)

    The memory a process sees is a map from addresses to bytes; the address
    space of a process decides which of them the kernel may touch on its
    behalf.  Addresses that are not mapped fault, so the copies happen only
    after [user_mem_check]. *)
From Stdlib Require Import Sorted.
From S2P Require Import Prelude KState Sched Timer Resume Wait Sem Vma.

(** The address spaces and the memory of the processes, by process. *)
Record uctx := mk_u {
  mms : Z -> option mm_struct;    (* proc->mm; None is NULL *)
  mm_sems : Z -> Z;               (* &(mm->mm_sem) *)
  locked_by : Z -> Z;             (* mm->locked_by *)
  umem : Z -> Z -> Z              (* process, address, byte *)
}.

(** The extended kernel states that contain them. *)
Class HasU (E : Type) := { getu : E -> uctx; setu : uctx -> E -> E; getu_setu : forall u x, getu (setu u x) = u }.

#[export] Instance uctx_HasU : HasU uctx.
Proof. by refine {| getu u := u; setu u _ := u |}. Defined.

Definition set_mms (p : Z) (m : option mm_struct) (u : uctx) : uctx :=
  mk_u (<[p := m]> (mms u)) (mm_sems u) (locked_by u) (umem u).
Definition set_umem (p : Z) (f : Z -> Z) (u : uctx) : uctx :=
  mk_u (mms u) (mm_sems u) (locked_by u) (<[p := f]> (umem u)).
Definition set_locked (p v : Z) (u : uctx) : uctx :=
  mk_u (mms u) (mm_sems u) (<[p := v]> (locked_by u)) (umem u).

(** ** Bytes *)

(** [memcpy] from and to a memory. *)
Fixpoint read_bytes (f : Z -> Z) (a : Z) (n : nat) : list Z :=
  match n with
  | O => []
  | S n => f a :: read_bytes f (a + 1) n
  end.
Fixpoint write_bytes (f : Z -> Z) (a : Z) (bs : list Z) : Z -> Z :=
  match bs with
  | [] => f
  | b :: bs => write_bytes (<[a := b]> f) (a + 1) bs
  end.

(** Little-endian words. *)
Definition word_at (bs : list Z) (i : nat) : Z :=
  nth i bs 0 + 2 ^ 8 * nth (i + 1) bs 0 + 2 ^ 16 * nth (i + 2) bs 0 + 2 ^ 24 * nth (i + 3) bs 0.
Definition word_bytes (w : Z) : list Z :=
  [w mod 2 ^ 8; (w / 2 ^ 8) mod 2 ^ 8; (w / 2 ^ 16) mod 2 ^ 8; (w / 2 ^ 24) mod 2 ^ 8].

Section Copy.
Context (KERNBASE KERNTOP : Z).
Context {E : Type} `{HU : HasU E}.

(** [user_mem_check(mm, ...)] for the address space of process [p]. *)
Definition check_user (p addr len : Z) (write : bool) (s : sys E) : res (bool * sys E) :=
  let u := getu (ext s) in
  let* (b, m) := user_mem_check KERNBASE KERNTOP (mms u p) addr len write in
  Ok (b, mk_sys (ks s) (setu (set_mms p m u) (ext s))).

(** The result is the bytes read, or [None] when the function returns 0. *)
Definition copy_from_user (p src len : Z) (writable : bool) (s : sys E) : res (option (list Z) * sys E) :=
  let* (b, s) := check_user p src len writable s in
  if (b : bool) then Ok (Some (read_bytes (umem (getu (ext s)) p) src (Z.to_nat len)), s) else Ok (None, s).

Definition copy_to_user (p dst : Z) (bs : list Z) (s : sys E) : res (bool * sys E) :=
  let* (b, s) := check_user p dst (Z.of_nat (length bs)) true s in
  if (b : bool) then
    let u := getu (ext s) in
    Ok (true, mk_sys (ks s) (setu (set_umem p (write_bytes (umem u p) dst bs) u) (ext s)))
  else Ok (false, s).

(** [strnlen] on memory. *)
Fixpoint strnlen (f : Z -> Z) (a : Z) (n : nat) : nat :=
  match n with
  | O => O
  | S n => if f a =? 0 then O else S (strnlen f (a + 1) n)
  end.

(** The loop of [copy_string]; [dst] accumulates the bytes copied. *)
Fixpoint copy_string_loop (fuel : nat) (p src maxn part : Z) (dst : list Z) (s : sys E) :
    res (option (list Z) * sys E) :=
  match fuel with
  | O => Panic
  | S fuel =>
      let part := if maxn <? part then maxn else part in
      let* (b, s) := check_user p src part false s in
      if negb b then Ok (None, s) else
      let f := umem (getu (ext s)) p in
      let alen := strnlen f src (Z.to_nat part) in
      if Z.of_nat alen <? part then Ok (Some (dst ++ read_bytes f src (S alen)), s) else
      if part =? maxn then Ok (None, s) else
      copy_string_loop fuel p (u32 (src + part)) (maxn - part) PGSIZE (dst ++ read_bytes f src (Z.to_nat part)) s
  end.

Definition copy_string (p src maxn : Z) (s : sys E) : res (option (list Z) * sys E) :=
  let part := u32 (ROUNDDOWN (u32 (src + PGSIZE)) PGSIZE - src) in
  copy_string_loop (S (S (Z.to_nat (maxn / PGSIZE)))) p src maxn part [] s.

(** ** The lock *)

Context (C : sched_class).

(** [wait] is the stack slot of [down]. *)
Definition lock_mm (p wait : Z) : code (sys E) unit :=
  do s <- get;
  match mms (getu (ext s)) p with
  | None => ret tt
  | Some _ =>
      do_ down C (mm_sems (getu (ext s)) p) wait;
      do s <- get;
      do x <- lift (get_proc (current (ks s)) (ks s));
      modify (fun x' => setu (set_locked p (pid x) (getu x')) x')
  end.

Definition unlock_mm (p : Z) : code (sys E) unit :=
  do s <- get;
  match mms (getu (ext s)) p with
  | None => ret tt
  | Some _ =>
      do_ update (up C (mm_sems (getu (ext s)) p));
      modify (fun x' => setu (set_locked p 0 (getu x')) x')
  end.

Definition try_lock_mm (p : Z) : code (sys E) bool :=
  do s <- get;
  match mms (getu (ext s)) p with
  | None => ret true
  | Some _ =>
      do b <- atomic (try_down (mm_sems (getu (ext s)) p));
      if (b : bool) then
        do s <- get;
        do x <- lift (get_proc (current (ks s)) (ks s));
        do_ modify (fun x' => setu (set_locked p (pid x) (getu x')) x');
        ret true
      else ret false
  end.

End Copy.

(** ** Lemmas on bytes *)

Lemma length_read_bytes f a n : length (read_bytes f a n) = n.
Proof. revert a; induction n as [|n IH]; intros a; cbn; [done|]. by rewrite IH. Qed.

Lemma read_bytes_app f a n m : read_bytes f a (n + m) = read_bytes f a n ++ read_bytes f (a + Z.of_nat n) m.
Proof.
  revert a; induction n as [|n IH]; intros a; cbn [Nat.add read_bytes app].
  - by rewrite Z.add_0_r.
  - rewrite IH. do 3 f_equal. lia.
Qed.

Lemma lookup_read_bytes f a n i : (i < n)%nat -> read_bytes f a n !! i = Some (f (a + Z.of_nat i)).
Proof.
  revert a i; induction n as [|n IH]; intros a i Hi; [lia|]. cbn. destruct i as [|i]; cbn.
  - by rewrite Z.add_0_r.
  - rewrite IH by lia. do 2 f_equal. lia.
Qed.

Lemma write_bytes_out f a bs x : x < a \/ a + Z.of_nat (length bs) <= x -> write_bytes f a bs x = f x.
Proof.
  revert f a; induction bs as [|b bs IH]; intros f a H; cbn in *; [done|].
  rewrite IH by lia. rewrite fn_lookup_insert_ne by lia. done.
Qed.

Lemma read_write_bytes f a bs : read_bytes (write_bytes f a bs) a (length bs) = bs.
Proof.
  revert f a; induction bs as [|b bs IH]; intros f a; cbn; [done|]. f_equal; [|apply IH].
  rewrite write_bytes_out by lia. apply fn_lookup_insert.
Qed.

Lemma write_bytes_app f a bs cs :
  write_bytes f a (bs ++ cs) = write_bytes (write_bytes f a bs) (a + Z.of_nat (length bs)) cs.
Proof.
  revert f a; induction bs as [|b bs IH]; intros f a; cbn [app write_bytes length].
  - by rewrite Z.add_0_r.
  - rewrite IH. f_equal. lia.
Qed.

(** ** Strings from user space *)

Section CopyProofs.
Context (KERNBASE KERNTOP : Z).
Context {E : Type} `{HU : HasU E}.

Definition mm_ok (p : Z) (s : sys E) : Prop := forall m, mms (getu (ext s)) p = Some m -> mm_inv m.

Lemma check_user_ok p addr len write (s : sys E) :
  mm_ok p s -> 0 <= addr < 2 ^ 32 -> 0 <= len < 2 ^ 32 ->
  returns (check_user KERNBASE KERNTOP p addr len write s) (fun '(b, s') =>
    ks s' = ks s /\ umem (getu (ext s')) = umem (getu (ext s)) /\ mm_ok p s' /\
    (b = true -> 0 < len /\ addr + len < 2 ^ 32)).
Proof.
  intros Hm Ha Hl. unfold check_user, mm_ok in *.
  assert (Hw : addr < u32 (addr + len) -> 0 < len /\ addr + len < 2 ^ 32).
  { unfold u32. intros H. destruct (Z.lt_ge_cases (addr + len) (2 ^ 32)).
    - rewrite Z.mod_small in H by lia. lia.
    - rewrite <- (Z.mod_add _ (-1)) in H by lia. rewrite Z.mod_small in H by lia. lia. }
  destruct (mms (getu (ext s)) p) as [m|] eqn:Em.
  - unfold user_mem_check. destruct (USER_ACCESS addr (u32 (addr + len))) eqn:Ea; cbn [negb res_bind].
    + eapply returns_bind; [eapply returns_bind|].
      * apply (umc_loop_ok (S (S (length (mmap_list m)))) m); [by apply Hm|]. pose proof (above_max (mmap_list m) addr). lia.
      * intros [b m'] (I' & L' & _). apply (returns_ok (b, Some m') (fun '(b, o) => exists m', o = Some m' /\ mm_inv m')). eauto.
      * intros [b o] (m' & -> & I'). apply returns_ok. cbn. rewrite getu_setu. split_and!; auto.
        -- intros m0. cbn. rewrite fn_lookup_insert. by intros [= <-].
        -- intros _. apply USER_ACCESS_spec in Ea as (? & ? & ?). by apply Hw.
    + apply returns_ok. cbn. rewrite getu_setu. split_and!; auto; [|done].
      intros m0. cbn. rewrite fn_lookup_insert. intros [= <-]. by apply Hm.
  - cbn [user_mem_check res_bind]. apply returns_ok. cbn. rewrite getu_setu. split_and!; auto.
    + intros m0. cbn. rewrite fn_lookup_insert. done.
    + unfold KERN_ACCESS. rewrite !andb_true_iff. intros [[_ Hlt] _].
      apply Hw. lia.
Qed.

(** The exact answer for a process with an address space. *)
Lemma check_user_exact p addr len write m (s : sys E) :
  mms (getu (ext s)) p = Some m -> mm_inv m ->
  returns (check_user KERNBASE KERNTOP p addr len write s) (fun '(b, s') =>
    (exists m', s' = mk_sys (ks s) (setu (set_mms p (Some m') (getu (ext s))) (ext s)) /\
       mm_inv m' /\ mmap_list m' = mmap_list m) /\
    (b = true <-> USER_ACCESS addr (u32 (addr + len)) = true /\
                  forall x, addr <= x < u32 (addr + len) -> accessible m write x)).
Proof.
  intros Em I. unfold check_user. rewrite Em. eapply returns_bind; [by apply user_mem_check_ok|].
  intros [b o] ((m' & -> & I' & L') & Hb). apply returns_ok. split; [|done]. by exists m'.
Qed.

Lemma strnlen_spec f n : forall a,
  (strnlen f a n <= n)%nat /\ (forall i, (i < strnlen f a n)%nat -> f (a + Z.of_nat i) <> 0) /\
  ((strnlen f a n < n)%nat -> f (a + Z.of_nat (strnlen f a n)) = 0).
Proof.
  induction n as [|n IH]; intros a; cbn [strnlen]; [split_and!; intros; lia|].
  destruct (Z.eqb_spec (f a) 0) as [H0|H0].
  - split_and!; [lia|intros; lia|]. intros _. by rewrite Z.add_0_r.
  - destruct (IH (a + 1)) as (H1 & H2 & H3). split_and!; [lia| |].
    + intros [|i] Hi; [by rewrite Z.add_0_r|]. replace (a + Z.of_nat (S i)) with (a + 1 + Z.of_nat i) by lia. apply H2. lia.
    + intros Hlt. replace (a + Z.of_nat (S (strnlen f (a + 1) n))) with (a + 1 + Z.of_nat (strnlen f (a + 1) n)) by lia.
      apply H3. lia.
Qed.

(** [n] characters, none of them the terminator. *)
Definition no_nul (f : Z -> Z) (a : Z) (n : nat) : Prop := forall i, (i < n)%nat -> f (a + Z.of_nat i) <> 0.

Definition is_string (f : Z -> Z) (a maxn : Z) (bs : list Z) : Prop :=
  exists n, bs = read_bytes f a (S n) /\ no_nul f a n /\ f (a + Z.of_nat n) = 0 /\ Z.of_nat (S n) <= maxn.

Lemma copy_string_loop_ok f p src0 maxn0 fuel : forall k maxn part s,
  mm_ok p s -> umem (getu (ext s)) p = f -> no_nul f src0 k -> 0 <= src0 -> src0 + Z.of_nat k < 2 ^ 32 ->
  maxn0 = maxn + Z.of_nat k -> 0 < maxn -> maxn0 < 2 ^ 32 -> 0 < part <= PGSIZE ->
  (Z.to_nat (maxn / PGSIZE) + (if decide (part = PGSIZE) then 1 else 2) <= fuel)%nat ->
  returns (copy_string_loop KERNBASE KERNTOP fuel p (src0 + Z.of_nat k) maxn part (read_bytes f src0 k) s)
    (fun '(o, s') => ks s' = ks s /\ umem (getu (ext s')) = umem (getu (ext s)) /\
       match o with Some bs => is_string f src0 maxn0 bs | None => True end).
Proof.
  induction fuel as [|fuel IH]; intros k maxn part s Hm Hu Hk H0 Hsrc Emax Hpos Hmax Hpart Hf; [case_decide; lia|].
  cbn [copy_string_loop]. set (part' := if maxn <? part then maxn else part).
  assert (Hp' : 0 < part' <= maxn /\ part' <= part) by (unfold part'; destruct (Z.ltb_spec maxn part); lia).
  assert (HPG : PGSIZE = 4096) by done.
  eapply returns_bind; [apply check_user_ok; auto; lia|]. intros [b s1] (E1 & E2 & M1 & Hb).
  destruct b; cbn [negb]; [|by apply returns_ok]. destruct (Hb eq_refl) as [_ Hwrap].
  rewrite E2, Hu. destruct (strnlen_spec f (Z.to_nat part') (src0 + Z.of_nat k)) as (L1 & L2 & L3).
  set (alen := strnlen f (src0 + Z.of_nat k) (Z.to_nat part')) in *.
  assert (Hcat : forall n, no_nul f (src0 + Z.of_nat k) n -> no_nul f src0 (k + n)).
  { intros n Hn i Hi. destruct (Nat.lt_ge_cases i k); [by apply Hk|].
    replace (src0 + Z.of_nat i) with (src0 + Z.of_nat k + Z.of_nat (i - k)) by lia. apply Hn. lia. }
  destruct (Z.ltb_spec (Z.of_nat alen) part') as [Hfound|Hnone].
  - apply returns_ok. split_and!; auto. exists (k + alen)%nat. split_and!.
    + rewrite <- read_bytes_app. f_equal. lia.
    + by apply Hcat.
    + rewrite Nat2Z.inj_add, Z.add_assoc. apply L3. lia.
    + lia.
  - destruct (Z.eqb_spec part' maxn) as [Hend|Hmore]; [by apply returns_ok|].
    assert (Ep : part' = part) by (unfold part' in *; destruct (Z.ltb_spec maxn part); lia).
    rewrite u32_small by lia. replace (src0 + Z.of_nat k + part') with (src0 + Z.of_nat (k + Z.to_nat part')) by lia.
    rewrite <- read_bytes_app. eapply returns_mono; [apply IH; auto|].
    + by rewrite E2.
    + apply Hcat. intros i Hi. apply L2. lia.
    + lia.
    + lia.
    + lia.
    + unfold PGSIZE. lia.
    + rewrite decide_True by done. rewrite Ep in *. case_decide as Hd.
      * subst part. replace (maxn - PGSIZE) with (maxn + (-1) * PGSIZE) by lia. rewrite Z.div_add by (unfold PGSIZE; lia).
        assert (1 <= maxn / PGSIZE) by (apply Z.div_le_lower_bound; unfold PGSIZE in *; lia). lia.
      * assert ((maxn - part) / PGSIZE <= maxn / PGSIZE) by (apply Z.div_le_mono; unfold PGSIZE in *; lia).
        assert (0 <= (maxn - part) / PGSIZE) by (apply Z.div_pos; unfold PGSIZE in *; lia). lia.
    + intros [o s'] (F1 & F2 & F3). rewrite E1 in F1. rewrite E2 in F2. by split_and!.
Qed.

(** The copy succeeds when the terminator is in reach. *)
Lemma copy_string_loop_total f p src0 maxn0 l fuel : forall k maxn part s m bs,
  mms (getu (ext s)) p = Some m -> mm_inv m -> mmap_list m = l -> umem (getu (ext s)) p = f ->
  USERBASE <= src0 -> src0 + maxn0 <= USERTOP -> maxn0 = maxn + Z.of_nat k -> 0 < maxn -> 0 < part <= PGSIZE ->
  (forall x, src0 <= x < src0 + maxn0 -> accessible m false x) ->
  (exists n, (k <= n)%nat /\ Z.of_nat n < maxn0 /\ f (src0 + Z.of_nat n) = 0) ->
  (Z.to_nat (maxn / PGSIZE) + (if decide (part = PGSIZE) then 1 else 2) <= fuel)%nat ->
  returns (copy_string_loop KERNBASE KERNTOP fuel p (src0 + Z.of_nat k) maxn part bs s) (fun '(o, s') => is_Some o).
Proof.
  induction fuel as [|fuel IH]; intros k maxn part s m bs Em I El Hu Hlo Hhi Emax Hpos Hpart Hacc (n & Hk & Hn & Hz) Hf;
    [case_decide; lia|].
  cbn [copy_string_loop]. set (part' := if maxn <? part then maxn else part).
  assert (Hp' : 0 < part' <= maxn /\ part' <= part) by (unfold part'; destruct (Z.ltb_spec maxn part); lia).
  assert (HPG : PGSIZE = 4096) by done.
  unfold USERBASE, USERTOP in *.
  assert (Hw : u32 (src0 + Z.of_nat k + part') = src0 + Z.of_nat k + part') by (apply u32_small; lia).
  eapply returns_bind; [by apply (check_user_exact p _ _ _ m)|]. intros [b s1] ((m' & -> & I' & L') & Hb).
  assert (b = true) as ->.
  { apply Hb. rewrite Hw. split; [apply USER_ACCESS_spec; unfold USERBASE, USERTOP; lia|]. intros x Hx. apply Hacc. lia. }
  cbn [negb ext]. rewrite getu_setu. cbn [umem set_mms]. rewrite Hu.
  destruct (strnlen_spec f (Z.to_nat part') (src0 + Z.of_nat k)) as (L1 & L2 & L3).
  set (alen := strnlen f (src0 + Z.of_nat k) (Z.to_nat part')) in *.
  destruct (Z.ltb_spec (Z.of_nat alen) part') as [Hfound|Hnone]; [by apply returns_ok|].
  assert (Hnk : (k + Z.to_nat part' <= n)%nat).
  { destruct (Nat.lt_ge_cases n (k + Z.to_nat part')); [|done]. exfalso.
    apply (L2 (n - k)%nat); [lia|]. replace (src0 + Z.of_nat k + Z.of_nat (n - k)) with (src0 + Z.of_nat n) by lia. done. }
  destruct (Z.eqb_spec part' maxn) as [Hend|Hmore]; [lia|].
  assert (Ep : part' = part) by (unfold part' in *; destruct (Z.ltb_spec maxn part); lia).
  rewrite Hw. replace (src0 + Z.of_nat k + part') with (src0 + Z.of_nat (k + Z.to_nat part')) by lia.
  apply (IH (k + Z.to_nat part')%nat (maxn - part') PGSIZE _ m'); unfold USERBASE, USERTOP; cbn [ext]; rewrite ?getu_setu; try done.
  - cbn. apply fn_lookup_insert.
  - congruence.
  - lia.
  - lia.
  - intros x Hx. destruct (Hacc x Hx) as (y & Hy & Hy'). exists y. by rewrite L'.
  - by exists n.
  - rewrite decide_True by done. rewrite Ep in *. case_decide as Hd.
    + subst part. replace (maxn - PGSIZE) with (maxn + (-1) * PGSIZE) by lia. rewrite Z.div_add by (unfold PGSIZE; lia).
      assert (1 <= maxn / PGSIZE) by (apply Z.div_le_lower_bound; unfold PGSIZE in *; lia). lia.
    + assert ((maxn - part) / PGSIZE <= maxn / PGSIZE) by (apply Z.div_le_mono; unfold PGSIZE in *; lia).
      assert (0 <= (maxn - part) / PGSIZE) by (apply Z.div_pos; unfold PGSIZE in *; lia). lia.
Qed.

End CopyProofs.


(** *** Witness *)

Definition demo_u : uctx :=
  mk_u (fun _ => Some demo_mm) (fun _ => 800) (fun _ => 0)
    (fun _ a => if a <? 0x30800ffe then 0 else if a <? 0x30801002 then 65 else 0).


(** On that string the copy crosses a page and succeeds. *)
Example copy_string_runs :
  match copy_string 0 0x10000000 10 0x30800ffe 100 (mk_sys demo demo_u) with
  | Ok (Some bs, _) => bs = [65; 65; 65; 65; 0]
  | _ => False
  end.
Proof. by vm_compute. Qed.
