(* ===== verification/Pgfault.v ===== *)
(** * Pgfault: page faults (do_pgfault of mm/vmm.c and pgfault_handler of
      arch/arm/trap/trap.c)

    The build is the one without swapping (CONFIG_NO_SWAP, ARCH_ARM).  The
    address spaces and their locks are those of [Uaccess], the areas those of
    [Vma], the tables and the pages those of [PageTable] and the shared memory
    objects those of [Shmem]. *)
From S2P Require Import Prelude KState Sched Timer Resume Wait Sem Sleep Buddy Pmm Vma PageTable Shmem Uaccess.

Section Ops.
Context (C : sched_class) (cpu : arm_cpu) {KERNBASE : Z} `{PA : PageAlloc KERNBASE}.

(** The address spaces ([mm->pgdir] by process), the addresses of the
    semaphores of the shared memory objects, and the pages. *)
Record fctx := mk_f { fu : uctx; pgdirs : Z -> Z; shmem_sems : Z -> Z; mem : shm }.

Definition set_fu (u : uctx) (x : fctx) : fctx := mk_f u (pgdirs x) (shmem_sems x) (mem x).
Definition set_mem (m : shm) (x : fctx) : fctx := mk_f (fu x) (pgdirs x) (shmem_sems x) m.

#[export] Instance fctx_HasU : HasU fctx.
Proof. by refine {| getu := fu; setu := set_fu |}. Defined.

Definition on_mem {A} (f : shm -> res (A * shm)) : code (sys fctx) A :=
  fun s => let* (a, m) := f (mem (ext s)) in Ok (Done a (mk_sys (ks s) (set_mem m (ext s)))).
Definition on_tabs {A} (f : ptmem -> res (A * ptmem)) : code (sys fctx) A :=
  on_mem (fun m => let* (a, p) := f (tabs m) in Ok (a, mk_shm (objs m) p)).
Definition read_pte (e : ptep) : code (sys fctx) Z := do s <- get; lift (rd_pte e (tabs (mem (ext s)))).

(** The checks on the area [v] before the switch and in it. *)
Definition fault_allowed (v : vma_struct) (error_code addr : Z) : bool :=
  negb (has (vm_flags v) VM_STACK && (addr <? u32 (vm_start v + PGSIZE))) &&
  negb (has (vm_flags v) VM_IO) &&
  let c := Z.land error_code 3 in
  if c =? 1 then false
  else if c =? 0 then has (vm_flags v) (Z.lor VM_READ VM_EXEC)
  else has (vm_flags v) VM_WRITE.

Definition fault_perm (v : vma_struct) : Z :=
  let perm := Z.lor PTE_P PTE_U in if has (vm_flags v) VM_WRITE then Z.lor perm PTE_W else perm.

(** [memcpy(page2kva(to), page2kva(from), PGSIZE)] *)
Definition copy_page (to from : Z) (s : ptmem) : res ptmem :=
  let* _ := page2kva (pg_npage (pages s)) to in
  let* _ := page2kva (pg_npage (pages s)) from in
  Ok (set_words (partial_alter (fun _ => words s !! from) to (words s)) s).

(** The entry [pte] is there: copy on write.  The result of [page_insert] is
    not used. *)
Definition fault_cow (d : Z) (v : vma_struct) (error_code addr perm pte : Z) (s : ptmem) : res (Z * ptmem) :=
  let cow := Z.land (vm_flags v) (Z.lor VM_SHARE VM_WRITE) =? VM_WRITE in
  assert! has error_code 2 && negb (ptep_u_write cpu pte) && cow ;;
  let* (newpage, s) := if cow then alloc_page s else Ok (None, s) in
  assert! ptep_present pte ;;
  let* page := pte2page pte s in
  if cow && (1 <? page_ref page s) then
    match newpage with
    | None => Ok (- E_NO_MEM, s)
    | Some newpage =>
        let* s := copy_page newpage page s in
        let* (_, s) := page_insert cpu d newpage addr perm s in
        Ok (0, s)
    end
  else
    let* (_, s) := page_insert cpu d page addr perm s in
    let* s := match newpage with Some newpage => free_page newpage s | None => Ok s end in
    Ok (0, s).

(** The entry is not there and the area is shared.  [wait] is the stack slot of
    [down], [al] what [kmalloc] returns in [shmem_get_entry]. *)
Definition fault_shared (d : Z) (v : vma_struct) (addr perm wait : Z) (al : option Z) : code (sys fctx) Z :=
  do s <- get;
  do a <- lift (match shmem v with Some a => Ok a | None => Panic end);
  do_ down C (shmem_sems (ext s) a) wait;
  let shmem_addr := u32 (u32 (addr - vm_start v) + shmem_off v) in
  do sh_ptep <- on_mem (shmem_get_entry cpu al a shmem_addr true);
  do invalid <- match sh_ptep with None => ret true | Some e => do pte <- read_pte e; ret (ptep_invalid pte) end;
  do_ update (up C (shmem_sems (ext s) a));
  if (invalid : bool) then ret (- E_NO_MEM)
  else
    do pte <- match sh_ptep with None => lift Panic | Some e => read_pte e end;
    if ptep_present pte then
      do s <- get;
      do page <- lift (pa2page (pg_npage (pages (tabs (mem (ext s))))) pte);
      do _ <- on_tabs (page_insert cpu d page addr perm);
      ret 0
    else lift Panic.

(** The access to [addr] in the area [v] is allowed. *)
Definition fault_page (d : Z) (v : vma_struct) (error_code addr wait : Z) (al : option Z) : code (sys fctx) Z :=
  let perm := fault_perm v in
  let addr := ROUNDDOWN addr PGSIZE in
  do e <- on_tabs (get_pte d addr true);
  match e with
  | None => ret (- E_NO_MEM)
  | Some e =>
      do pte <- read_pte e;
      if ptep_invalid pte then
        if negb (has (vm_flags v) VM_SHARE) then
          do page <- on_tabs (pgdir_alloc_page cpu d addr perm);
          ret (match page with Some _ => 0 | None => - E_NO_MEM end)
        else fault_shared d v addr perm wait al
      else on_tabs (fault_cow d v error_code addr perm pte)
  end.

(** [do_pgfault] between taking and releasing the lock of the address space. *)
Definition handle_fault (p wait : Z) (al : option Z) (error_code addr : Z) : code (sys fctx) Z :=
  do s <- get;
  do m <- lift (match mms (fu (ext s)) p with Some m => Ok m | None => Panic end);
  do (vma, m) <- lift (find_vma m addr);
  do_ modify (fun x => set_fu (set_mms p (Some m) (fu x)) x);
  match vma with
  | None => ret (- E_INVAL)
  | Some a =>
      do v <- lift (vma_at a m);
      if addr <? vm_start v then ret (- E_INVAL)
      else if negb (fault_allowed v error_code addr) then ret (- E_INVAL)
      else fault_page (pgdirs (ext s) p) v error_code addr wait al
  end.

(** [p] is the process whose [mm] it is; [wait] and [wait2] are the stack slots
    of [lock_mm] and [lock_shmem]. *)
Definition do_pgfault (p wait wait2 : Z) (al : option Z) (error_code addr : Z) : code (sys fctx) Z :=
  do s <- get;
  match mms (fu (ext s)) p with
  | None => ret (- E_KILLED)
  | Some _ =>
      do locked <- try_lock_mm p;
      do need_unlock <-
        (if (locked : bool) then ret true
         else
           do s <- get;
           do c <- lift (get_proc (current (ks s)) (ks s));
           if locked_by (fu (ext s)) p =? pid c then ret false
           else do_ lock_mm C p wait; ret true);
      do r <- handle_fault p wait2 al error_code addr;
      do_ (if (need_unlock : bool) then unlock_mm C p else ret tt);
      ret r
  end.

(** The conversion of the ARM fault status [tf_err]: bit 11 is a write, and
    status bits [01xx] a translation fault. *)
Definition fault_error_code (tf_err : Z) : Z :=
  let error_code := if has tf_err (Z.shiftl 1 11) then 2 else 0 in
  if Z.land tf_err 0xC =? 0x4 then error_code else Z.lor error_code 1.

(** [pgfault_handler] after the boot-time checks ([check_mm_struct] is NULL):
    the fault is in the address space of the current process. *)
Definition pgfault_handler (wait wait2 : Z) (al : option Z) (tf_err far : Z) : code (sys fctx) Z :=
  do s <- get;
  do_pgfault (current (ks s)) wait wait2 al (fault_error_code tf_err) far.

End Ops.

(** ** The tables and the objects together *)

Section Tables.
Context (cpu : arm_cpu) {KERNBASE : Z} `{PA : PageAlloc KERNBASE}.
Implicit Types (s : ptmem) (maps smaps : gmap (Z * Z) Z) (g : gmap Z (gmap Z Z)) (E : Z -> Z) (L : Z -> Prop).

Lemma cnt_zero maps q : cnt maps q = 0 <-> forall k w, maps !! k = Some w -> PPN w <> q.
Proof.
  split.
  - intros H k w Hk Hq. pose proof (cnt_pos maps k w Hk) as Hp. rewrite Hq in Hp. lia.
  - intros H. unfold cnt. enough (filter (fun kv => PPN kv.2 = q) maps = ∅) as -> by done.
    apply map_empty. intros k. apply map_lookup_filter_None_2. right. intros w Hk. by apply H in Hk.
Qed.

Lemma cnt_add maps k w q : cnt maps q = 0 -> PPN w <> q -> cnt (<[k := w]> maps) q = 0.
Proof. rewrite !cnt_zero. intros H Hw k' w' [[_ <-]|[_ Hk]]%lookup_insert_Some; eauto. Qed.

Lemma cnt_switch maps k w p f : maps !! k = Some w -> PPN w <> p -> 0 <= f < PGSIZE -> cnt (<[k := p * PGSIZE + f]> maps) p = cnt maps p + 1.
Proof.
  intros Hk Hne Hf. rewrite <- insert_delete_eq, cnt_insert by apply lookup_delete_eq. rewrite (cnt_delete maps k w p Hk). unfold hit.
  rewrite PPN_word by done. rewrite Z.eqb_refl, (proj2 (Z.eqb_neq _ _) Hne). lia.
Qed.

(** An operation on the page tables that leaves the nodes alone. *)
Lemma sh_tabs L E maps maps' smaps g s s' :
  sh_ok L E maps smaps g s ->
  pt_ok (fun q => L q \/ table (set_dirs g s) q) (fun q => E q + cnt smaps q) maps' s' ->
  (forall q, table (set_dirs g s) q -> words s' !! q = words s !! q /\ pg_owned (pages s') q 1 /\ ~ table s' q /\ cnt maps' q = 0) ->
  sh_ok L E maps' smaps g s'.
Proof.
  intros H Hok Hn. split; [|exact Hok| |apply H|apply H].
  - eapply st_frame; [apply H|done|]. intros q W Ht HW. exists W. split; [|done]. cbn. rewrite (proj1 (Hn q Ht)). exact HW.
  - intros q Ht. destruct (Hn q Ht) as (_ & H1 & H2 & H3). destruct (so_nodes _ _ _ _ _ _ H q Ht) as (_ & _ & H4).
    pose proof (so_ext _ _ _ _ _ _ H q). pose proof (cnt_nonneg smaps q). pose proof (cnt_nonneg maps q). split_and!; [done|done|lia].
Qed.

Lemma node_counts L E maps smaps g s q : sh_ok L E maps smaps g s -> table (set_dirs g s) q ->
  pg_owned (pages s) q 1 /\ ~ table s q /\ cnt maps q = 0 /\ cnt smaps q = 0 /\ E q = 0.
Proof.
  intros H Ht. destruct (so_nodes _ _ _ _ _ _ H q Ht) as (H1 & H2 & H3).
  pose proof (so_ext _ _ _ _ _ _ H q). pose proof (cnt_nonneg smaps q). pose proof (cnt_nonneg maps q). split_and!; [done|done|lia..].
Qed.

(** A mapped page is neither a table nor a node. *)
Lemma mapped_page L E maps smaps g s k w : sh_ok L E maps smaps g s -> maps !! k = Some w ->
  pg_owned (pages s) (PPN w) 1 /\ 0 <= PPN w < pg_npage (pages s) /\ pg_npage (pages s) <= 2 ^ 20 /\ ~ table s (PPN w) /\
  ~ table (set_dirs g s) (PPN w).
Proof.
  intros H Hw. destruct (mapped_range _ _ _ _ _ _ (proj2 (so_pages _ _ _ _ _ _ H)) Hw) as (H1 & H2 & H3).
  pose proof (not_table _ _ _ _ _ _ (proj2 (so_pages _ _ _ _ _ _ H)) Hw). split_and!; [done|lia..|done|].
  intros Ht. destruct (node_counts _ _ _ _ _ _ _ H Ht) as (_ & _ & Hc & _). pose proof (cnt_pos maps k w Hw). lia.
Qed.

Lemma sh_get_pte L E maps smaps g s d v : sh_ok L E maps smaps g s -> is_Some (dirs s !! d) -> 0 <= v < 2 ^ 20 ->
  returns (get_pte d (v * PGSIZE) true s) (fun '(o, s') => sh_ok L E maps smaps g s' /\ grows s s' /\ PageTable.keeps s s' /\
    match o with Some e => slot s' d v e | None => True end).
Proof.
  intros H Hd Hv. eapply returns_mono; [apply get_pte_create; [apply H|done|done]|].
  intros [o s'] (Hok & G & K & Ho). split_and!; [|done..]. destruct K as [_ K]. apply (sh_tabs L E maps maps smaps g s s' H Hok).
  intros q Ht. destruct (node_counts _ _ _ _ _ _ _ H Ht) as (H1 & H2 & H3 & _). destruct (K q H1 H2) as (K1 & K2 & K3). by split_and!.
Qed.

Lemma sh_alloc_page L E maps smaps g s d v perm : sh_ok L E maps smaps g s -> is_Some (dirs s !! d) -> 0 <= v < 2 ^ 20 ->
  returns (pgdir_alloc_page cpu d (v * PGSIZE) perm s) (fun '(o, s') => frames maps s s' /\
    match o with
    | Some p => sh_ok L E (<[(d, v) := p * PGSIZE + hwbits cpu perm]> maps) smaps g s' /\ words s' !! p = Some ∅ /\
        ~ pg_owned (pages s) p 1 /\ E p + cnt smaps p + cnt maps p = 0
    | None => sh_ok L E maps smaps g s'
    end).
Proof.
  intros H Hd Hv. eapply returns_mono; [apply pgdir_alloc_page_ok; [apply H|done|done]|]. intros [[p|] s'] (_ & F & Hp); (split; [done|]).
  - destruct Hp as (Hc & He & Hok & Hw & Hno). split_and!; [|done|done|lia]. apply (sh_tabs L E maps _ smaps g s s' H Hok).
    intros q Ht. destruct (node_counts _ _ _ _ _ _ _ H Ht) as (H1 & H2 & H3 & _). destruct (F q H1 H2) as (K1 & K2 & K3). split_and!; [done|auto|done|].
    apply cnt_add; [done|]. rewrite PPN_word by apply hwbits_range. by intros ->.
  - apply (sh_tabs L E maps maps smaps g s s' H Hp).
    intros q Ht. destruct (node_counts _ _ _ _ _ _ _ H Ht) as (H1 & H2 & H3 & _). destruct (F q H1 H2) as (K1 & K2 & K3). split_and!; auto.
Qed.

Lemma sh_page_insert L E maps smaps g s d v e p perm :
  sh_ok L E maps smaps g s -> slot s d v e -> 0 <= v < 2 ^ 20 -> pg_owned (pages s) p 1 -> ~ table s p -> ~ table (set_dirs g s) p ->
  returns (page_insert cpu d p (v * PGSIZE) perm s) (fun '(r, s') => r = 0 /\ dirs s' = dirs s /\ frames maps s s' /\
    sh_ok L E (<[(d, v) := p * PGSIZE + hwbits cpu perm]> maps) smaps g s').
Proof.
  intros H Hs Hv Ho Hnt Hnn. eapply returns_mono; [apply (page_insert_slot cpu _ _ maps s d v e p perm (so_pages _ _ _ _ _ _ H) Hs Hv Ho Hnt)|].
  intros [r s'] (-> & Ed & F & Hok). split_and!; [done..|]. apply (sh_tabs L E maps _ smaps g s s' H Hok).
  intros q Ht. destruct (node_counts _ _ _ _ _ _ _ H Ht) as (H1 & H2 & H3 & _). destruct (F q H1 H2) as (K1 & K2 & K3). split_and!; [done|auto|done|].
  apply cnt_add; [done|]. rewrite PPN_word by apply hwbits_range. by intros ->.
Qed.

(** A page that was held and not used is given back. *)
Lemma sh_free_unused L E maps smaps g s p :
  sh_ok (held (Some p) L) E maps smaps g s -> pg_owned (pages s) p 1 -> ~ table s p -> ~ table (set_dirs g s) p ->
  E p + cnt smaps p + cnt maps p = 0 ->
  returns (free_page p s) (fun s' => sh_ok L E maps smaps g s' /\ dirs s' = dirs s /\ words s' = words s /\
    forall q, pg_owned (pages s) q 1 -> q <> p -> pg_owned (pages s') q 1).
Proof.
  intros H Ho Hnt Hnn Hz.
  eapply returns_mono; [apply (free_unused_ok (fun q => L q \/ table (set_dirs g s) q) (fun q => E q + cnt smaps q) maps s p); try done|].
  { eapply pt_ok_ext; [apply H| |done]. unfold held. tauto. }
  intros s' (Hok & Ed & Ew & K). split_and!; [|done..]. split; [|exact Hok| |apply H|apply H].
  - eapply st_frame; [apply H|done|]. intros q W _ HW. exists W. split; [|done]. cbn. by rewrite Ew.
  - intros q Ht. destruct (so_nodes _ _ _ _ _ _ H q Ht) as (H1 & H2 & H3). split_and!; [apply K; [done|by intros ->]| |done].
    unfold table in *. by rewrite Ed.
Qed.

(** Writing to a page that is neither a table nor a node. *)
Lemma sh_words L E maps smaps g s p w :
  sh_ok L E maps smaps g s -> ~ table s p -> ~ table (set_dirs g s) p -> (forall q, q <> p -> w !! q = words s !! q) ->
  sh_ok L E maps smaps g (set_words w s).
Proof.
  intros H Hnt Hnn Hw. split; [|split|apply H|apply H|apply H].
  - eapply st_frame; [apply H|done|]. intros q W Ht HW. exists W. split; [|done]. cbn. rewrite Hw; [done|]. by intros ->.
  - eapply st_frame; [apply H|done|]. intros q W Ht HW. exists W. split; [|done]. cbn. rewrite Hw; [done|]. by intros ->.
  - apply ct_words, H.
Qed.

(** *** Copy on write *)

Definition cow_area (v : vma_struct) : bool := Z.land (vm_flags v) (Z.lor VM_SHARE VM_WRITE) =? VM_WRITE.

Lemma cow_area_flags v : cow_area v = true -> has (vm_flags v) VM_SHARE = false /\ has (vm_flags v) VM_WRITE = true.
Proof.
  unfold cow_area, has. intros H%Z.eqb_eq. assert (Hb : forall n, Z.testbit (vm_flags v) n && Z.testbit (Z.lor VM_SHARE VM_WRITE) n = Z.testbit VM_WRITE n)
    by (intros n; by rewrite <- Z.land_spec, H). split.
  - apply negb_false_iff, Z.eqb_eq. apply Z.bits_inj'. intros n Hn. rewrite Z.land_spec, Z.bits_0.
    destruct (Z.testbit VM_SHARE n) eqn:Es; [|apply andb_false_r]. specialize (Hb n). rewrite Z.lor_spec, Es in Hb. cbn in Hb.
    rewrite Hb. destruct (Z.testbit VM_WRITE n) eqn:Ew; [|done].
    assert (Hx : Z.testbit (Z.land VM_SHARE VM_WRITE) n = true) by (by rewrite Z.land_spec, Es, Ew). by rewrite Z.bits_0 in Hx.
  - apply negb_true_iff, Z.eqb_neq. intros H0. specialize (Hb 1). assert (Hx : Z.testbit (Z.land (vm_flags v) VM_WRITE) 1 = true) by (by rewrite Z.land_spec, andb_true_r in *).
    by rewrite H0 in Hx.
Qed.

Lemma page_count L E maps smaps g s p : sh_ok L E maps smaps g s -> ~ table s p -> page_ref p s = E p + cnt smaps p + cnt maps p.
Proof. intros H Hnt. by rewrite (ct_cnt _ _ _ _ (proj2 (so_pages _ _ _ _ _ _ H)) p Hnt). Qed.

Lemma copy_page_ok p q s : p < pg_npage (pages s) -> q < pg_npage (pages s) -> 0 <= p -> 0 <= q -> pg_npage (pages s) <= 2 ^ 20 ->
  exists w, copy_page p q s = Ok (set_words w s) /\ w !! p = words s !! q /\ forall r, r <> p -> w !! r = words s !! r.
Proof.
  intros. unfold copy_page. rewrite !page2kva_ok by lia. cbn [res_bind]. eexists. split; [done|].
  split; [by rewrite lookup_partial_alter_eq|]. intros r Hr. by rewrite lookup_partial_alter_ne.
Qed.

Definition cow_result L E maps smaps g (d v w perm : Z) s (r : Z) s' : Prop :=
  let used q := pg_owned (pages s) q 1 /\ ~ table s q in
  (r = - E_NO_MEM /\ 1 < page_ref (PPN w) s /\ sh_ok L E maps smaps g s' /\ words s' = words s) \/
  (r = 0 /\ exists p, sh_ok L E (<[(d, v) := p * PGSIZE + hwbits cpu perm]> maps) smaps g s' /\
     (if decide (1 < page_ref (PPN w) s) then ~ pg_owned (pages s) p 1 else p = PPN w) /\
     page_ref p s' = 1 /\ words s' !! p = words s !! PPN w /\ forall q, used q -> words s' !! q = words s !! q).

Lemma cow_copy_ok L E maps smaps g s s1 d v e w perm np :
  sh_ok L E maps smaps g s -> slot s d v e -> maps !! (d, v) = Some w -> 0 <= v < 2 ^ 20 -> 1 < page_ref (PPN w) s ->
  sh_ok (held (Some np) L) E maps smaps g s1 -> dirs s1 = dirs s -> words s1 = words s ->
  (forall q, pg_owned (pages s) q 1 -> pg_owned (pages s1) q 1) ->
  ~ pg_owned (pages s) np 1 -> pg_owned (pages s1) np 1 -> ~ table s1 np -> ~ table (set_dirs g s1) np -> E np + cnt smaps np + cnt maps np = 0 ->
  returns (let* s := copy_page np (PPN w) s1 in let* (_, s) := page_insert cpu d np (v * PGSIZE) perm s in Ok (0, s))
    (fun '(r, s') => cow_result L E maps smaps g d v w perm s r s').
Proof.
  intros H Hs Hw Hv Hr H1 Ed Ew K Hno Ho Hnt Hnn Hz.
  destruct (mapped_page _ _ _ _ _ _ _ _ H1 Hw) as (M1 & M2 & M3 & M4 & M5).
  pose proof (pg_range _ np 1 (ct_pg _ _ _ _ (proj2 (so_pages _ _ _ _ _ _ H1))) ltac:(lia) Ho) as Hp.
  destruct (copy_page_ok np (PPN w) s1) as (wds & -> & W1 & W2); [lia..|]. cbn [res_bind].
  pose proof (sh_words _ E maps smaps g s1 np wds H1 Hnt Hnn W2) as H2.
  eapply returns_bind; [apply (sh_page_insert _ E maps smaps g _ d v e np perm H2 (slot_dirs _ _ _ _ _ Ed Hs) Hv Ho Hnt Hnn)|].
  intros [r s3] (-> & Ed3 & F3 & H3). apply returns_ok. right. split; [done|]. exists np.
  assert (Hpos : 0 < cnt (<[(d, v) := np * PGSIZE + hwbits cpu perm]> maps) np).
  { pose proof (cnt_pos _ (d, v) _ (lookup_insert_eq maps (d, v) (np * PGSIZE + hwbits cpu perm))) as Hc. by rewrite PPN_word in Hc by apply hwbits_range. }
  pose proof (so_ext _ _ _ _ _ _ H np) as HE. pose proof (cnt_nonneg smaps np) as Hsc. pose proof (cnt_nonneg maps np) as Hmc.
  assert (Hne : np <> PPN w).
  { intros ->. pose proof (cnt_pos maps _ _ Hw). lia. }
  split_and!.
  - eapply sh_held; [exact H3|]. intros q [= <-]. lia.
  - by rewrite decide_True.
  - assert (Hnt3 : ~ table s3 np) by (unfold table in *; by rewrite Ed3).
    rewrite (page_count _ _ _ _ _ _ _ H3 Hnt3), (cnt_switch maps (d, v) w) by (done || apply hwbits_range). lia.
  - destruct (F3 np Ho Hnt) as [-> _]. cbn. by rewrite W1, Ew.
  - intros q [Hq Hnq]. destruct (F3 q) as [-> _]; [by apply K|unfold table in *; cbn in *; by rewrite Ed|].
    cbn. rewrite W2, Ew by (by intros ->). done.
Qed.

Lemma cow_keep_ok L E maps smaps g s s1 d v e w perm o :
  sh_ok L E maps smaps g s -> slot s d v e -> maps !! (d, v) = Some w -> 0 <= v < 2 ^ 20 -> page_ref (PPN w) s = 1 ->
  sh_ok (held o L) E maps smaps g s1 -> dirs s1 = dirs s -> words s1 = words s ->
  (forall q, pg_owned (pages s) q 1 -> pg_owned (pages s1) q 1) ->
  match o with
  | Some np => ~ pg_owned (pages s) np 1 /\ pg_owned (pages s1) np 1 /\ ~ table s1 np /\ ~ table (set_dirs g s1) np /\ E np + cnt smaps np + cnt maps np = 0
  | None => True
  end ->
  returns (let* (_, s) := page_insert cpu d (PPN w) (v * PGSIZE) perm s1 in
           let* s := match o with Some newpage => free_page newpage s | None => Ok s end in Ok (0, s))
    (fun '(r, s') => cow_result L E maps smaps g d v w perm s r s').
Proof.
  intros H Hs Hw Hv Hr H1 Ed Ew K Hnp. destruct (mapped_page _ _ _ _ _ _ _ _ H1 Hw) as (M1 & M2 & M3 & M4 & M5).
  destruct (mapped_page _ _ _ _ _ _ _ _ H Hw) as (_ & _ & _ & N4 & _).
  eapply returns_bind; [apply (sh_page_insert _ E maps smaps g s1 d v e (PPN w) perm H1 (slot_dirs _ _ _ _ _ Ed Hs) Hv M1 M4 M5)|].
  intros [r s2] (-> & Ed2 & F2 & H2). set (maps' := <[(d, v) := PPN w * PGSIZE + hwbits cpu perm]> maps) in *.
  assert (Hcnt : forall q, cnt maps' q = cnt maps q) by (intros q; apply (cnt_replace maps (d, v) w); [done|apply PPN_word, hwbits_range]).
  assert (Hend : forall s', sh_ok L E maps' smaps g s' -> dirs s' = dirs s2 -> words s' = words s2 -> cow_result L E maps smaps g d v w perm s 0 s').
  { intros s' H' Ed' Ew'. right. split; [done|]. exists (PPN w). split_and!; [done|rewrite decide_False by lia; done| | |].
    - assert (Hnt : ~ table s' (PPN w)) by (unfold table in *; by rewrite Ed', Ed2).
      rewrite (page_count _ _ _ _ _ _ _ H' Hnt), Hcnt, <- Hr. symmetry. by apply (page_count L E maps smaps g).
    - rewrite Ew'. destruct (F2 (PPN w) M1 M4) as [-> _]. by rewrite Ew.
    - intros q [Hq Hnq]. rewrite Ew'. destruct (F2 q) as [-> _]; [by apply K|unfold table in *; by rewrite Ed|]. by rewrite Ew. }
  destruct o as [np|].
  - destruct Hnp as (Hno & Ho & Hnt & Hnn & Hz). destruct (F2 np Ho Hnt) as (_ & Hnt2 & Ho2).
    pose proof (so_ext _ _ _ _ _ _ H np) as HE. pose proof (cnt_nonneg smaps np) as Hsn. pose proof (cnt_nonneg maps np) as Hmn.
    eapply returns_bind; [apply (sh_free_unused L E maps' smaps g s2 np H2); [apply Ho2; lia|done|done|rewrite Hcnt; lia]|].
    intros s3 (H3 & Ed3 & Ew3 & _). apply returns_ok. by apply Hend.
  - apply returns_ok. apply Hend; [by apply (sh_held _ _ _ _ _ _ _ H2)|done|done].
Qed.

Lemma fault_cow_ok L E maps smaps g s d v e w perm vma error_code :
  sh_ok L E maps smaps g s -> slot s d v e -> maps !! (d, v) = Some w -> 0 <= v < 2 ^ 20 ->
  has error_code 2 = true -> ptep_u_write cpu w = false -> cow_area vma = true ->
  returns (fault_cow cpu d vma error_code (v * PGSIZE) perm w s) (fun '(r, s') => cow_result L E maps smaps g d v w perm s r s').
Proof.
  intros H Hs Hw Hv He Hro Hc. unfold fault_cow. fold (cow_area vma). rewrite He, Hro, Hc. cbn [negb andb assert res_bind].
  eapply returns_bind; [apply alloc_shared, H|]. intros [o s1] (H1 & Ed & Ew & K & Hp).
  destruct (mapped_page _ _ _ _ _ _ _ _ H1 Hw) as (M1 & M2 & M3 & M4 & M5). destruct (mapped_page _ _ _ _ _ _ _ _ H Hw) as (N1 & _ & _ & N4 & _).
  destruct (ct_ent _ _ _ _ (proj2 (so_pages _ _ _ _ _ _ H)) _ _ Hw) as (p & f & Ewf & Hf & Hpr).
  assert (Ep : PPN w = p) by (rewrite Ewf; by apply PPN_word). assert (Hpw : ptep_present w = true) by (by rewrite Ewf, present_word).
  rewrite Hpw. cbn [assert res_bind]. replace (pte2page w s1) with (Ok (PPN w) : res Z); cycle 1.
  { rewrite Ewf at 2. rewrite pte2page_ok, Ep by (done || lia). done. }
  cbn [res_bind].
  assert (Er : page_ref (PPN w) s1 = page_ref (PPN w) s).
  { rewrite (page_count _ _ _ _ _ _ _ H1 M4). symmetry. by apply (page_count L E maps smaps g). }
  rewrite Er. destruct (Z.ltb_spec 1 (page_ref (PPN w) s)) as [Hgt|Hle].
  - destruct o as [np|].
    + destruct Hp as (P1 & P2 & P3 & P4 & P5). by apply (cow_copy_ok L E maps smaps g s s1 d v e w perm np).
    + apply returns_ok. left. split_and!; [done|done|by apply (sh_held _ _ _ _ _ _ _ H1)|done].
  - apply (cow_keep_ok L E maps smaps g s s1 d v e w perm o); try done.
    pose proof (page_count L E maps smaps g s (PPN w) H N4). pose proof (cnt_pos maps _ _ Hw). pose proof (so_ext _ _ _ _ _ _ H (PPN w)).
    pose proof (cnt_nonneg smaps (PPN w)). lia.
Qed.

End Tables.

(** ** The handler *)

Section Handler.
Context (C : sched_class) `{OK : !SchedClassOk C} (cpu : arm_cpu) {KERNBASE : Z} `{PA : PageAlloc KERNBASE}.
Implicit Types (maps smaps : gmap (Z * Z) Z) (E : Z -> Z) (L : Z -> Prop).

Definition put_tabs (p : ptmem) (s : sys fctx) : sys fctx :=
  mk_sys (ks s) (set_mem (mk_shm (objs (mem (ext s))) p) (ext s)).

Lemma finishes_tabs {A} (f : ptmem -> res (A * ptmem)) (s : sys fctx) (P : A -> sys fctx -> Prop) :
  returns (f (tabs (mem (ext s)))) (fun ap => P ap.1 (put_tabs ap.2 s)) -> finishes (on_tabs f s) P.
Proof. intros ([a p] & Ef & H). exists a, (put_tabs p s). unfold on_tabs, on_mem. rewrite Ef. done. Qed.

Lemma bind_tabs {A B} (f : ptmem -> res (A * ptmem)) (K : A -> code (sys fctx) B) (s : sys fctx) Q :
  returns (f (tabs (mem (ext s)))) (fun '(a, p) => finishes (K a (put_tabs p s)) Q) -> finishes (bind (on_tabs f) K s) Q.
Proof. intros ([a p] & Ef & H). rewrite (bind_done _ _ _ a (put_tabs p s)); [done|]. unfold on_tabs, on_mem. by rewrite Ef. Qed.

(** What an operation does to the pages the tables do not consist of. *)
Definition contents_kept (p p' : ptmem) : Prop :=
  forall q, pg_owned (pages p) q 1 -> ~ table p q -> words p' !! q = words p !! q.

(** A fresh page with zeros, or no memory. *)
Definition zero_result L E maps smaps g (d v perm : Z) (p : ptmem) (r : Z) (p' : ptmem) : Prop :=
  contents_kept p p' /\
  ((r = 0 /\ exists q, ~ pg_owned (pages p) q 1 /\ sh_ok L E (<[(d, v) := q * PGSIZE + hwbits cpu perm]> maps) smaps g p' /\
     words p' !! q = Some ∅) \/
   (r = - E_NO_MEM /\ sh_ok L E maps smaps g p')).

(** A private writable copy, or no memory. *)
Definition copy_result L E maps smaps g (d v w perm : Z) (p : ptmem) (r : Z) (p' : ptmem) : Prop :=
  contents_kept p p' /\
  ((r = 0 /\ exists q, sh_ok L E (<[(d, v) := q * PGSIZE + hwbits cpu perm]> maps) smaps g p' /\
     page_ref q p' = 1 /\ words p' !! q = words p !! PPN w /\
     (if decide (1 < page_ref (PPN w) p) then ~ pg_owned (pages p) q 1 else q = PPN w)) \/
   (r = - E_NO_MEM /\ sh_ok L E maps smaps g p')).

Lemma read_pte_ok e (s : sys fctx) x {A} (K : Z -> code (sys fctx) A) : rd_pte e (tabs (mem (ext s))) = Ok x -> bind (read_pte e) K s = K x s.
Proof. intros H. unfold read_pte. unfold bind, get, lift. cbn. by rewrite H. Qed.

Lemma shm_put L E maps maps' smaps smaps' (m : shm) p : shm_ok L E maps smaps m -> sh_ok L E maps' smaps' (gdir <$> objs m) p ->
  shm_ok L E maps' smaps' (mk_shm (objs m) p).
Proof. intros [H _] H'. by split. Qed.

Lemma contents_trans (p1 p2 p3 : ptmem) : PageTable.keeps p1 p2 -> contents_kept p2 p3 -> contents_kept p1 p3.
Proof. intros [_ K] H q Hq Ht. destruct (K q Hq Ht) as (K1 & K2 & K3). by rewrite H, K3. Qed.

(** The first step of a fault: the entry exists, or there is no memory. *)
Lemma fault_entry L E maps smaps (s : sys fctx) d v (K : option ptep -> code (sys fctx) Z) Q :
  sh_ok L E maps smaps (gdir <$> objs (mem (ext s))) (tabs (mem (ext s))) -> is_Some (dirs (tabs (mem (ext s))) !! d) -> 0 <= v < 2 ^ 20 ->
  (forall p1, sh_ok L E maps smaps (gdir <$> objs (mem (ext s))) p1 -> PageTable.keeps (tabs (mem (ext s))) p1 -> is_Some (dirs p1 !! d) ->
     finishes (K None (put_tabs p1 s)) Q /\
     forall e, slot p1 d v e -> rd_pte e p1 = Ok (default 0 (maps !! (d, v))) -> finishes (K (Some e) (put_tabs p1 s)) Q) ->
  finishes (bind (on_tabs (get_pte d (v * PGSIZE) true)) K s) Q.
Proof.
  intros H Hd Hv HK. apply bind_tabs. eapply returns_mono; [apply (sh_get_pte L E maps smaps _ _ d v H Hd Hv)|].
  intros [o p1] (H1 & G & K1 & Ho). destruct (HK p1 H1 K1 (proj1 G d Hd)) as [HN HS].
  destruct o as [e|]; [|done]. apply HS; [done|]. by apply (slot_read _ _ _ _ _ _ _ (so_pages _ _ _ _ _ _ H1)).
Qed.

Lemma fault_page_private L E maps smaps (s : sys fctx) d vma error_code addr wait al :
  let v := addr / PGSIZE in
  let perm := fault_perm vma in
  let p := tabs (mem (ext s)) in
  let g := gdir <$> objs (mem (ext s)) in
  sh_ok L E maps smaps g p -> is_Some (dirs p !! d) -> 0 <= v < 2 ^ 20 -> has (vm_flags vma) VM_SHARE = false ->
  (forall w, maps !! (d, v) = Some w -> has error_code 2 = true /\ ptep_u_write cpu w = false /\ cow_area vma = true) ->
  finishes (fault_page C cpu d vma error_code addr wait al s) (fun r s' => exists p', s' = put_tabs p' s /\
    match maps !! (d, v) with
    | None => zero_result L E maps smaps g d v perm p r p'
    | Some w => copy_result L E maps smaps g d v w perm p r p'
    end).
Proof.
  intros v perm p g H Hd Hv Hsh Hw. unfold fault_page. rewrite rounddown_page. fold v perm.
  apply (fault_entry L E maps smaps s d v); [done..|]. intros p1 H1 K1 Hd1. split.
  { apply finishes_ret. exists p1. split; [done|].
    destruct (maps !! (d, v)) as [w|]; (split; [eapply contents_trans; [exact K1|]; by intros q|]); by right. }
  intros e Hs Er. rewrite (read_pte_ok e (put_tabs p1 s) _ _ Er). destruct (maps !! (d, v)) as [w|] eqn:Ew; cbn [default from_option id].
  - destruct (st_dom _ _ (proj1 (so_pages _ _ _ _ _ _ H1)) _ _ _ Ew) as [Hnz _]. unfold ptep_invalid. rewrite (proj2 (Z.eqb_neq _ _) Hnz).
    destruct (Hw w eq_refl) as (W1 & W2 & W3). apply finishes_tabs.
    eapply returns_mono; [apply (fault_cow_ok cpu L E maps smaps g p1 d v e w perm vma error_code H1 Hs Ew Hv W1 W2 W3)|].
    intros [r p2] HR. exists p2. split; [done|].
    destruct (mapped_page _ _ _ _ _ _ _ _ H Ew) as (M1 & _ & _ & M4 & _). destruct K1 as [K0 K1]. destruct (K1 _ M1 M4) as (K2 & K3 & K4).
    assert (Erf : page_ref (PPN w) p1 = page_ref (PPN w) p).
    { rewrite (page_count _ _ _ _ _ _ _ H1 K3). symmetry. by apply (page_count L E maps smaps g). }
    destruct HR as [(-> & _ & H2 & Ew2)|(-> & q & H2 & Hq & Hc & Hwq & F)].
    + split; [|by right]. intros q Hq Hnq. rewrite Ew2. by apply K1.
    + split; [intros q' Hq' Hnq'; destruct (K1 _ Hq' Hnq') as (A1 & A2 & A3); by rewrite F|]. left. split; [done|]. exists q.
      rewrite Erf in Hq. split_and!; [done|done|by rewrite Hwq|]. destruct (decide (1 < page_ref (PPN w) p)); [|done]. intros Hx. by apply Hq, K0.
  - cbn [ptep_invalid Z.eqb]. rewrite Hsh. cbn [negb]. apply bind_tabs.
    eapply returns_mono; [apply (sh_alloc_page cpu L E maps smaps g p1 d v perm H1 Hd1 Hv)|]. intros [o p2] [F Ho]. apply finishes_ret.
    exists p2. split; [done|]. split.
    + eapply contents_trans; [exact K1|]. intros q Hq Hnq. by apply F.
    + destruct o as [q|]; [left|by right]. split; [done|]. exists q. destruct Ho as (H2 & H3 & H4 & _). split_and!; [|done|done].
      intros Hx. by apply H4, (proj1 K1).
Qed.

(** *** The area *)

Definition with_mm (p : Z) (m : mm_struct) (s : sys fctx) : sys fctx := mk_sys (ks s) (set_fu (set_mms p (Some m) (fu (ext s))) (ext s)).

Lemma handle_found p m a v wait al error_code addr (s : sys fctx) :
  mms (fu (ext s)) p = Some m -> mm_inv m -> (a, v) ∈ mmap_list m -> vm_start v <= addr < vm_end v ->
  handle_fault C cpu p wait al error_code addr s =
    (if negb (fault_allowed v error_code addr) then ret (- E_INVAL)
     else fault_page C cpu (pgdirs (ext s) p) v error_code addr wait al) (with_mm p (set_cache (Some a) m) s).
Proof.
  intros Hm I Ha Hv. unfold handle_fault. rewrite bind_get, Hm, bind_lift, (find_vma_ok m addr I).
  rewrite (find_vma_list_hit 0 (mmap_list m) a v addr (mi_sorted _ I) Ha Hv), bind_lift.
  rewrite (bind_done _ _ _ tt (with_mm p (set_cache (Some a) m) s)) by done.
  rewrite (vma_at_ok a (set_cache (Some a) m) v (mi_nodup _ I) Ha), bind_lift. by rewrite (proj2 (Z.ltb_ge _ _)) by lia.
Qed.

Lemma handle_refused p m wait al error_code addr (s : sys fctx) :
  mms (fu (ext s)) p = Some m -> mm_inv m ->
  (forall a v, (a, v) ∈ mmap_list m -> vm_start v <= addr < vm_end v -> fault_allowed v error_code addr = false) ->
  finishes (handle_fault C cpu p wait al error_code addr s) (fun r s' => r = - E_INVAL /\ exists m', s' = with_mm p m' s).
Proof.
  intros Hm I Hn. unfold handle_fault. rewrite bind_get, Hm, bind_lift, (find_vma_ok m addr I), bind_lift.
  pose proof (find_vma_list_spec 0 (mmap_list m) addr (mi_sorted _ I)) as Hf.
  destruct (find_vma_list (mmap_list m) addr) as [a|]; cycle 1.
  { rewrite (bind_done _ _ _ tt (with_mm p m s)) by done. apply finishes_ret. eauto. }
  destruct Hf as (l1 & v & l2 & El & Hlt & _). rewrite (bind_done _ _ _ tt (with_mm p (set_cache (Some a) m) s)) by done.
  assert (Ha : (a, v) ∈ mmap_list m) by (rewrite El; apply elem_of_app; right; left).
  rewrite (vma_at_ok a (set_cache (Some a) m) v (mi_nodup _ I) Ha), bind_lift.
  destruct (Z.ltb_spec addr (vm_start v)); [apply finishes_ret; eauto|]. rewrite (Hn a v Ha) by lia. apply finishes_ret. eauto.
Qed.

(** *** The lock *)

(** The lock of the address space is free, or the current process has it. *)
Definition lock_ready (p : Z) (s : sys fctx) : Prop :=
  exists x c, procs (ks s) !! current (ks s) = Some c /\ sems (ks s) !! mm_sems (fu (ext s)) p = Some x /\ valid x = true /\
    (value x = 1 \/ (value x = 0 /\ locked_by (fu (ext s)) p = pid c)).

(** The same state except for the lock of [p]. *)
Definition only_lock (p : Z) (s s1 : sys fctx) : Prop :=
  mem (ext s1) = mem (ext s) /\ pgdirs (ext s1) = pgdirs (ext s) /\ shmem_sems (ext s1) = shmem_sems (ext s) /\
  mms (fu (ext s1)) = mms (fu (ext s)) /\ mm_sems (fu (ext s1)) = mm_sems (fu (ext s)) /\
  (forall a, a <> mm_sems (fu (ext s)) p -> sems (ks s1) !! a = sems (ks s) !! a).

(** What the handler leaves alone. *)
Definition handled (p : Z) (s1 s2 : sys fctx) : Prop :=
  ks s2 = ks s1 /\ is_Some (mms (fu (ext s2)) p) /\ mm_sems (fu (ext s2)) = mm_sems (fu (ext s1)).

Lemma put_sem_back sem x v k : sems k !! sem = Some x -> value x = v -> put_sem sem (with_value v x) k = k.
Proof. intros Hx <-. unfold put_sem. replace (with_value (value x) x) with x by (by destruct x). rewrite insert_id by done. by destruct k. Qed.

Lemma put_sem_twice sem x y k : put_sem sem y (put_sem sem x k) = put_sem sem y k.
Proof. unfold put_sem. cbn. by rewrite insert_insert_eq. Qed.

(** Taking and releasing the lock around the handler. *)
Lemma fault_locks p wait wait2 al error_code addr (s : sys fctx) m :
  sync_inv C (ks s) -> mms (fu (ext s)) p = Some m -> lock_ready p s ->
  exists (need : bool) s1, sync_inv C (ks s1) /\ only_lock p s s1 /\
    do_pgfault C cpu p wait wait2 al error_code addr s =
      bind (handle_fault C cpu p wait2 al error_code addr) (fun r => do_ (if need then unlock_mm C p else ret tt); ret r) s1 /\
    forall s2, handled p s1 s2 -> exists u, (if need then unlock_mm C p else ret tt) s2 = Ok (Done tt (mk_sys (ks s) u)) /\ mem u = mem (ext s2).
Proof.
  intros I Hm (x & c & Hc & Hx & Hv & Hlock). unfold do_pgfault. rewrite bind_get, Hm. set (sem := mm_sems (fu (ext s)) p) in *.
  destruct (smi_queue _ (sy_sem _ _ I) sem x Hx) as (l & Hl & Hlv). destruct Hlock as [H1|[H0 Hby]].
  - set (k1 := put_sem sem (with_value (value x - 1) x) (ks s)).
    set (s1 := mk_sys k1 (set_fu (set_locked p (pid c) (fu (ext s))) (ext s))).
    assert (Et : try_lock_mm p s = Ok (Done true s1)).
    { unfold try_lock_mm. rewrite bind_get. cbn [getu fctx_HasU]. rewrite Hm. unfold bind at 1, atomic, try_down. fold sem. rewrite (fetch_ok _ _ _ Hx).
      cbn [res_bind]. rewrite (proj2 (Z.ltb_lt 0 (value x))) by lia. cbn [res_bind run_bind]. rewrite bind_get. unfold get_proc. cbn [ks ext].
      fold k1. change (procs k1) with (procs (ks s)). change (current k1) with (current (ks s)). rewrite (fetch_ok _ _ _ Hc), bind_lift. done. }
    assert (I1 : sync_inv C k1) by (eapply sync_put_sem; [done|done|exact Hl|lia]). exists true, s1. split_and!; [done|..].
    { split_and!; try done. intros a Ha. cbn. by rewrite lookup_insert_ne. }
    { rewrite (bind_done _ _ _ _ _ Et), (bind_done _ _ _ true s1) by done. done. }
    intros s2 (Ek & [m2 Hm2] & Es). cbn [ks s1] in Ek.
    assert (Hq1 : wqs k1 !! sem_wq x = Some []) by (rewrite <- Hlv by lia; exact Hl).
    destruct (unlock_ok C k1 sem (with_value (value x - 1) x) I1 (lookup_insert_eq _ _ _) Hv Hq1) as [Eu _]; [cbn; lia|].
    exists (set_fu (set_locked p 0 (fu (ext s2))) (ext s2)). split; [|done].
    unfold unlock_mm. rewrite bind_get. cbn [getu fctx_HasU]. rewrite Hm2, Es. change (mm_sems (fu (ext s1)) p) with sem.
    unfold bind, update. rewrite Ek, Eu. cbn [res_bind run_bind]. unfold modify. cbn [ks ext]. unfold k1. rewrite put_sem_twice.
    change (with_value ?a (with_value ?b x)) with (with_value a x). rewrite (put_sem_back sem x); [done|done|cbn; lia].
  - assert (Et : try_lock_mm p s = Ok (Done false s)).
    { unfold try_lock_mm. rewrite bind_get. cbn [getu fctx_HasU]. rewrite Hm. unfold bind at 1, atomic, try_down. fold sem. rewrite (fetch_ok _ _ _ Hx).
      cbn [res_bind]. rewrite (proj2 (Z.ltb_ge 0 (value x))) by lia. cbn [res_bind run_bind]. by destruct s. }
    exists false, s. split_and!; [done|by split_and!| |].
    + rewrite (bind_done _ _ _ _ _ Et).
      by rewrite (bind_done _ _ _ false s); [|rewrite bind_get; unfold get_proc; by rewrite (fetch_ok _ _ _ Hc), bind_lift, Hby, Z.eqb_refl].
    + intros s2 (Ek & _). exists (ext s2). rewrite <- Ek. by destruct s2.
Qed.

Lemma do_pgfault_ok p wait wait2 al error_code addr (s : sys fctx) m (Q : Z -> shm -> Prop) :
  sync_inv C (ks s) -> mms (fu (ext s)) p = Some m -> lock_ready p s ->
  (forall s1, sync_inv C (ks s1) -> only_lock p s s1 ->
     finishes (handle_fault C cpu p wait2 al error_code addr s1) (fun r s2 => handled p s1 s2 /\ Q r (mem (ext s2)))) ->
  finishes (do_pgfault C cpu p wait wait2 al error_code addr s) (fun r s' => ks s' = ks s /\ Q r (mem (ext s'))).
Proof.
  intros I Hm Hl Hh. destruct (fault_locks p wait wait2 al error_code addr s m I Hm Hl) as (need & s1 & I1 & O1 & -> & Hu).
  eapply finishes_bind; [apply (Hh s1 I1 O1)|]. intros r s2 [H2 HQ]. destruct (Hu s2 H2) as (u & Eu & Em).
  rewrite (bind_done _ _ _ _ _ Eu). apply finishes_ret. cbn. by rewrite Em.
Qed.

(** *** Shared areas *)

Lemma bind_mem {A B} (f : shm -> res (A * shm)) (K : A -> code (sys fctx) B) (s : sys fctx) Q :
  returns (f (mem (ext s))) (fun '(a, m) => finishes (K a (mk_sys (ks s) (set_mem m (ext s)))) Q) -> finishes (bind (on_mem f) K s) Q.
Proof. intros ([a m] & Ef & H). rewrite (bind_done _ _ _ a (mk_sys (ks s) (set_mem m (ext s)))); [done|]. unfold on_mem. by rewrite Ef. Qed.

(** The page of the object is mapped; it was there or has been added. *)
Definition share_result L E maps smaps (d v a vs perm : Z) (m : shm) (r : Z) (m' : shm) : Prop :=
  (r = 0 /\ exists w smaps', smaps' !! (a, vs) = Some w /\
     (smaps' = smaps \/ smaps !! (a, vs) = None /\ exists q, ~ pg_owned (pages (tabs m)) q 1 /\
                         smaps' = <[(a, vs) := q * PGSIZE + mapbits cpu]> smaps) /\
     shm_ok L E (<[(d, v) := PPN w * PGSIZE + hwbits cpu perm]> maps) smaps' m') \/
  (r = - E_NO_MEM /\ smaps !! (a, vs) = None /\ shm_ok L E maps smaps m').

(** After [shmem_get_entry]: the page of the entry [w] is inserted. *)
Lemma fault_share_insert L E maps smaps (s : sys fctx) d v e perm a vs w (Q : Z -> sys fctx -> Prop) :
  shm_ok L E maps smaps (mem (ext s)) -> slot (tabs (mem (ext s))) d v e -> 0 <= v < 2 ^ 20 -> smaps !! (a, vs) = Some w ->
  (forall p', shm_ok L E (<[(d, v) := PPN w * PGSIZE + hwbits cpu perm]> maps) smaps (mem (ext (put_tabs p' s))) -> Q 0 (put_tabs p' s)) ->
  finishes ((if ptep_present w then
      do s <- get;
      do page <- lift (pa2page (pg_npage (pages (tabs (mem (ext s))))) w);
      do _ <- on_tabs (page_insert cpu d page (v * PGSIZE) perm);
      ret 0
    else lift Panic) s) Q.
Proof.
  intros Hok Hs Hv Hw HQ. destruct (shared_page _ _ _ _ _ _ _ _ (proj2 Hok) Hw) as (S1 & S2 & S3 & S4 & S5).
  destruct (so_ent _ _ _ _ _ _ (proj2 Hok) _ _ Hw) as (p & f & Ewf & Hf & Hp). assert (Hpw : ptep_present w = true) by (by rewrite Ewf, present_word).
  rewrite Hpw, bind_get. unfold pa2page. rewrite (proj2 (Z.leb_gt _ _)) by lia. rewrite bind_lift. apply bind_tabs.
  eapply returns_mono; [apply (sh_page_insert cpu L E maps smaps _ _ d v e (PPN w) perm (proj2 Hok) Hs Hv S1 S4 S5)|].
  intros [r p'] (_ & _ & _ & H'). apply finishes_ret. apply HQ. split; [apply Hok|exact H'].
Qed.

Lemma fault_shared_ok L E maps smaps (s : sys fctx) d v e vma perm wait al a o y :
  let so := u32 (u32 (v * PGSIZE - vm_start vma) + shmem_off vma) in
  sync_inv C (ks s) -> shm_ok L E maps smaps (mem (ext s)) -> slot (tabs (mem (ext s))) d v e -> 0 <= v < 2 ^ 20 ->
  shmem vma = Some a -> objs (mem (ext s)) !! a = Some o -> so < shm_len o -> (forall b, al = Some b -> b ∉ (shmn_list o).*1) ->
  sems (ks s) !! shmem_sems (ext s) a = Some y -> valid y = true -> value y = 1 ->
  finishes (fault_shared C cpu d vma (v * PGSIZE) perm wait al s) (fun r s' => ks s' = ks s /\ fu (ext s') = fu (ext s) /\
    share_result L E maps smaps d v a (so / PGSIZE) perm (mem (ext s)) r (mem (ext s'))).
Proof.
  intros so I Hok Hs Hv Ha Ho Hlen Hal Hy Hvy Hy1. unfold fault_shared. rewrite bind_get, Ha, bind_lift. fold so.
  set (sem := shmem_sems (ext s) a) in *. set (vs := so / PGSIZE). pose proof (u32_range (u32 (v * PGSIZE - vm_start vma) + shmem_off vma)) as Hso. fold so in Hso.
  match goal with |- finishes (bind _ ?K s) _ => destruct (lock_ok C sem y wait K s I Hy Hvy ltac:(lia)) as (Edn & I1 & Hq) end.
  rewrite Edn. clear Edn. set (k1 := put_sem sem (with_value (value y - 1) y) (ks s)) in *.
  apply bind_mem. cbn [ext]. eapply returns_mono; [apply (get_entry_ok cpu L E maps smaps (mem (ext s)) a o so al true Hok Ho ltac:(lia) Hal)|].
  fold vs. intros [r m'] (smaps' & Hok' & [Edd _] & _ & Hc & Hr). set (s1 := mk_sys k1 (set_mem m' (ext s))).
  assert (Eu : up C sem k1 = Ok (ks s)).
  { destruct (unlock_ok C k1 sem (with_value (value y - 1) y) I1 (lookup_insert_eq _ _ _) Hvy Hq ltac:(cbn; lia)) as [-> _].
    unfold k1. rewrite put_sem_twice. change (with_value ?a (with_value ?b y)) with (with_value a y). by rewrite put_sem_back by (done || cbn; lia). }
  assert (Hup : forall {B} (K : unit -> code (sys fctx) B), bind (update (up C sem)) K s1 = K tt (mk_sys (ks s) (set_mem m' (ext s)))).
  { intros B K. apply bind_done. unfold update, s1. cbn [ks]. by rewrite Eu. }
  assert (Hvs : 0 <= vs < 2 ^ 20).
  { destruct (node_bound o vs (proj1 Hok a o Ho)) as [? _]; [apply Z.div_pos; [lia|done]| |done].
    pose proof (Z.mul_div_le so PGSIZE ltac:(done)) as Hle. fold vs in Hle. lia. }
  destruct r as [se|]; cycle 1.
  { rewrite (bind_done _ _ _ true s1) by done. rewrite Hup. apply finishes_ret. split_and!; [done..|]. right. destruct Hr as [-> Hn]. done. }
  destruct (slot_value _ _ _ _ _ _ _ _ _ (proj2 Hok') Hr Hvs) as (W & _ & Er).
  rewrite (bind_done _ _ _ (ptep_invalid (default 0 (smaps' !! (a, vs)))) s1); [|by rewrite (read_pte_ok se s1 _ _ Er)].
  rewrite Hup. destruct (smaps' !! (a, vs)) as [w|] eqn:Ew; cbn [default from_option id] in *.
  - destruct (st_dom _ _ (so_struct _ _ _ _ _ _ (proj2 Hok')) _ _ _ Ew) as [Hnz _]. unfold ptep_invalid. rewrite (proj2 (Z.eqb_neq _ _) Hnz).
    rewrite (read_pte_ok se (mk_sys (ks s) (set_mem m' (ext s))) _ _ Er).
    apply (fault_share_insert L E maps smaps' _ d v e perm a vs w); [done|by eapply slot_dirs|done|done|].
    intros p' Hok2. split_and!; [done..|]. left. split; [done|]. exists w, smaps'. split_and!; [done| |done].
    destruct Hc as [->|(_ & Hn & Hq')]; auto.
  - apply finishes_ret. split_and!; [done..|]. right. destruct Hc as [->|(_ & _ & q & _ & ->)]; [done|]. by rewrite lookup_insert_eq in Ew.
Qed.

Lemma fault_page_shared L E maps smaps (s : sys fctx) d vma error_code addr wait al a o y :
  let v := addr / PGSIZE in
  let so := u32 (u32 (v * PGSIZE - vm_start vma) + shmem_off vma) in
  sync_inv C (ks s) -> shm_ok L E maps smaps (mem (ext s)) -> is_Some (dirs (tabs (mem (ext s))) !! d) -> 0 <= v < 2 ^ 20 ->
  maps !! (d, v) = None -> has (vm_flags vma) VM_SHARE = true ->
  shmem vma = Some a -> objs (mem (ext s)) !! a = Some o -> so < shm_len o -> (forall b, al = Some b -> b ∉ (shmn_list o).*1) ->
  sems (ks s) !! shmem_sems (ext s) a = Some y -> valid y = true -> value y = 1 ->
  finishes (fault_page C cpu d vma error_code addr wait al s) (fun r s' => ks s' = ks s /\ fu (ext s') = fu (ext s) /\
    (share_result L E maps smaps d v a (so / PGSIZE) (fault_perm vma) (mem (ext s)) r (mem (ext s')) \/
     r = - E_NO_MEM /\ shm_ok L E maps smaps (mem (ext s')))).
Proof.
  intros v so I Hok Hd Hv Hn Hsh Ha Ho Hlen Hal Hy Hvy Hy1. unfold fault_page. rewrite rounddown_page. fold v.
  apply (fault_entry L E maps smaps s d v); [apply Hok|done|done|]. intros p1 H1 K1 Hd1. split.
  { apply finishes_ret. split_and!; [done..|]. right. split; [done|]. split; [apply Hok|exact H1]. }
  intros e Hs Er. rewrite (read_pte_ok e (put_tabs p1 s) _ _ Er), Hn. cbn [default from_option id ptep_invalid Z.eqb]. rewrite Hsh. cbn [negb].
  eapply finishes_mono; [apply (fault_shared_ok L E maps smaps (put_tabs p1 s) d v e vma (fault_perm vma) wait al a o y); try done|].
  { split; [apply Hok|exact H1]. }
  intros r s' (Ek & Ef & HR). split_and!; [done..|]. left. destruct HR as [(-> & w & smaps' & Hw & Hc & Hok')|HR]; [left|by right].
  split; [done|]. exists w, smaps'. split_and!; [done| |done]. destruct Hc as [->|(Hn' & q & Hq & ->)]; [by left|]. right. split; [done|].
  exists q. split; [|done]. intros Hx. by apply Hq, (proj1 K1).
Qed.

End Handler.

(** ** The properties *)

Section Properties.
Context (C : sched_class) `{OK : !SchedClassOk C} (cpu : arm_cpu) {KERNBASE : Z} `{PA : PageAlloc KERNBASE}.

(** A state in which process [p] faults at [addr], in its area [(a, v)]. *)
Record faulting (L : Z -> Prop) (E : Z -> Z) (maps smaps : gmap (Z * Z) Z) (p : Z) (m : mm_struct) (a : Z) (v : vma_struct) (addr : Z)
    (s : sys fctx) : Prop := {
  fl_sync : sync_inv C (ks s);
  fl_mm : mms (fu (ext s)) p = Some m;
  fl_inv : mm_inv m;
  fl_user : user_mm m;
  fl_area : (a, v) ∈ mmap_list m /\ vm_start v <= addr < vm_end v;
  fl_mem : shm_ok L E maps smaps (mem (ext s));
  fl_dir : is_Some (dirs (tabs (mem (ext s))) !! pgdirs (ext s) p);
  fl_lock : lock_ready p s
}.

Lemma fault_range L E maps smaps p m a v addr s : faulting L E maps smaps p m a v addr s -> 0 <= addr / PGSIZE < 2 ^ 20.
Proof.
  intros F. destruct (fl_area _ _ _ _ _ _ _ _ _ _ F) as [Ha Hr]. pose proof (fl_user _ _ _ _ _ _ _ _ _ _ F) as U.
  unfold user_mm in U. rewrite Forall_forall in U. destruct (U _ Ha) as (U1 & U2 & _). cbn in U1, U2.
  unfold USERBASE, USERTOP, PGSIZE in *. split; [apply Z.div_pos; lia|]. apply Z.div_lt_upper_bound; lia.
Qed.

(** What an area permits: a read of a readable or executable area that is not
    there yet, or a write to a writable area; never in a device area or on the
    lowest page of a stack. *)
Definition permitted (v : vma_struct) (error_code addr : Z) : Prop :=
  ~ (has (vm_flags v) VM_STACK = true /\ addr < vm_start v + PGSIZE) /\ has (vm_flags v) VM_IO = false /\
  match Z.land error_code 3 with
  | 0 => has (vm_flags v) VM_READ = true \/ has (vm_flags v) VM_EXEC = true
  | 1 => False
  | _ => has (vm_flags v) VM_WRITE = true
  end.

Lemma has_either f a b : has f (Z.lor a b) = true <-> has f a = true \/ has f b = true.
Proof.
  unfold has. rewrite !negb_true_iff, !Z.eqb_neq, Z.land_lor_distr_r. rewrite Z.lor_eq_0_iff.
  destruct (Z.eq_dec (Z.land f a) 0), (Z.eq_dec (Z.land f b) 0); tauto.
Qed.

Lemma permitted_allowed v error_code addr : user_vma v -> vm_start v < vm_end v -> fault_allowed v error_code addr = true <-> permitted v error_code addr.
Proof.
  intros (U1 & U2 & _) Hlt. unfold fault_allowed, permitted.
  rewrite u32_small by (unfold USERBASE, USERTOP, PGSIZE in *; lia). rewrite !andb_true_iff, !negb_true_iff, andb_false_iff, Z.ltb_ge.
  assert (Hc : (if Z.land error_code 3 =? 1 then false else if Z.land error_code 3 =? 0 then has (vm_flags v) (Z.lor VM_READ VM_EXEC) else has (vm_flags v) VM_WRITE) = true
    <-> match Z.land error_code 3 with 0 => has (vm_flags v) VM_READ = true \/ has (vm_flags v) VM_EXEC = true | 1 => False | _ => has (vm_flags v) VM_WRITE = true end).
  { destruct (Z.land error_code 3) as [|[q|q|]|q]; cbn; [apply has_either|done..]. }
  rewrite Hc. destruct (has (vm_flags v) VM_STACK); rewrite <- ?Z.nlt_ge; intuition congruence.
Qed.

Lemma fault_allows L E maps smaps p m a v addr s error_code : faulting L E maps smaps p m a v addr s ->
  permitted v error_code addr -> fault_allowed v error_code addr = true.
Proof.
  intros F. destruct (fl_area _ _ _ _ _ _ _ _ _ _ F) as [Ha Hr]. pose proof (fl_user _ _ _ _ _ _ _ _ _ _ F) as U.
  unfold user_mm in U. rewrite Forall_forall in U. apply permitted_allowed; [exact (U _ Ha)|lia].
Qed.

(** The handler runs on the same tables, with the lock. *)
Lemma handler_entry L E maps smaps p m a v addr s wait wait2 al error_code (Q : Z -> shm -> Prop) :
  faulting L E maps smaps p m a v addr s -> permitted v error_code addr ->
  (forall s1 : sys fctx, sync_inv C (ks s1) -> mem (ext s1) = mem (ext s) -> shmem_sems (ext s1) = shmem_sems (ext s) ->
     (forall b, b <> mm_sems (fu (ext s)) p -> sems (ks s1) !! b = sems (ks s) !! b) ->
     finishes (fault_page C cpu (pgdirs (ext s) p) v error_code addr wait2 al s1)
       (fun r s2 => ks s2 = ks s1 /\ fu (ext s2) = fu (ext s1) /\ Q r (mem (ext s2)))) ->
  finishes (do_pgfault C cpu p wait wait2 al error_code addr s) (fun r s' => ks s' = ks s /\ Q r (mem (ext s'))).
Proof.
  intros F Hal%(fault_allows _ _ _ _ _ _ _ _ _ _ _ F) HQ. apply (do_pgfault_ok C cpu p wait wait2 al error_code addr s m Q); [apply F..|].
  intros s1 I1 (O1 & O2 & O3 & O4 & O5 & O6). destruct (fl_area _ _ _ _ _ _ _ _ _ _ F) as [Ha Hr].
  assert (Hm : mms (fu (ext s1)) p = Some m) by (rewrite O4; apply F).
  rewrite (handle_found C cpu p m a v) by (done || apply F). rewrite Hal, O2. cbn [negb].
  eapply finishes_mono; [apply HQ; try done|]. intros r s2 (Ek & Ef & HR). split; [|done]. split_and!; [done| |by rewrite Ef].
  rewrite Ef. cbn. rewrite fn_lookup_insert. by eexists.
Qed.

Lemma perm_rights v : has (fault_perm v) PTE_U = true /\ has (fault_perm v) PTE_W = has (vm_flags v) VM_WRITE.
Proof. unfold fault_perm. by destruct (has (vm_flags v) VM_WRITE). Qed.

Lemma entry_shows L E maps smaps (x : shm) d vp q v :
  shm_ok L E (<[(d, vp) := q * PGSIZE + hwbits cpu (fault_perm v)]> maps) smaps x -> shows cpu (tabs x) d vp q true (has (vm_flags v) VM_WRITE).
Proof.
  intros [_ H]. pose proof (shows_ok cpu _ _ _ _ d vp _ (so_pages _ _ _ _ _ _ H) (lookup_insert_eq _ _ _)) as Hs.
  pose proof (hwbits_range cpu (fault_perm v)) as Hr. destruct (rights_word cpu q _ Hr) as [E1 E2]. destruct (hwbits_rights cpu (fault_perm v)) as [E3 E4].
  destruct (perm_rights v) as [P1 P2]. by rewrite PPN_word, E1, E2, E3, E4, P1, P2 in Hs.
Qed.

(** Page [vp] of [d] shows a new page of zeros with the rights of the area, or
    there was no memory. *)
Definition gets_zero_page L E maps smaps (d vp : Z) (v : vma_struct) (x : shm) (r : Z) (x' : shm) : Prop :=
  contents_kept (tabs x) (tabs x') /\
  ((r = 0 /\ exists q, ~ pg_owned (pages (tabs x)) q 1 /\ words (tabs x') !! q = Some ∅ /\
      shows cpu (tabs x') d vp q true (has (vm_flags v) VM_WRITE) /\
      shm_ok L E (<[(d, vp) := q * PGSIZE + hwbits cpu (fault_perm v)]> maps) smaps x') \/
   (r = - E_NO_MEM /\ shm_ok L E maps smaps x')).

(** Page [vp] of [d] shows a page nothing else refers to, writable and with the
    contents of the page of [w], or there was no memory. *)
Definition gets_own_page L E maps smaps (d vp : Z) (v : vma_struct) (w : Z) (x : shm) (r : Z) (x' : shm) : Prop :=
  contents_kept (tabs x) (tabs x') /\
  ((r = 0 /\ exists q, page_ref q (tabs x') = 1 /\ words (tabs x') !! q = words (tabs x) !! PPN w /\
      (if decide (1 < page_ref (PPN w) (tabs x)) then ~ pg_owned (pages (tabs x)) q 1 else q = PPN w) /\
      shows cpu (tabs x') d vp q true true /\
      shm_ok L E (<[(d, vp) := q * PGSIZE + hwbits cpu (fault_perm v)]> maps) smaps x') \/
   (r = - E_NO_MEM /\ shm_ok L E maps smaps x')).

(** C13: demand paging: a permitted access to an address of a private area that
    has no page yet maps a page that was free and is all zeros, with the rights
    of the area, or returns -E_NO_MEM and maps nothing; the contents of every
    page in use, all other mappings and all reference counts are kept, and the
    lock of the address space is as before. *)
Theorem pgfault_zero_page L E maps smaps p m a v addr (s : sys fctx) wait wait2 al error_code :
  let d := pgdirs (ext s) p in
  let vp := addr / PGSIZE in
  faulting L E maps smaps p m a v addr s -> permitted v error_code addr -> has (vm_flags v) VM_SHARE = false ->
  maps !! (d, vp) = None ->
  finishes (do_pgfault C cpu p wait wait2 al error_code addr s) (fun r s' => ks s' = ks s /\
    gets_zero_page L E maps smaps d vp v (mem (ext s)) r (mem (ext s'))).
Proof.
  intros d vp F Hal Hsh Hn. pose proof (fault_range _ _ _ _ _ _ _ _ _ _ F) as Hv. pose proof (fl_mem _ _ _ _ _ _ _ _ _ _ F) as [HO H].
  apply (handler_entry L E maps smaps p m a v addr s wait wait2 al error_code
           (gets_zero_page L E maps smaps d vp v (mem (ext s))) F Hal).
  intros s1 I1 O1 _ _. pose proof (fl_dir _ _ _ _ _ _ _ _ _ _ F) as Hd.
  eapply finishes_mono; [apply (fault_page_private C cpu L E maps smaps s1 d v error_code addr wait2 al); rewrite ?O1; try done|].
  { intros w Hw. fold vp in Hw. congruence. }
  intros r s2 (p' & -> & HR). fold vp in HR. rewrite Hn, O1 in HR. destruct HR as [K HR]. split_and!; [done..|]. unfold put_tabs. cbn [ext mem set_mem]. rewrite O1. split; [exact K|].
  destruct HR as [(-> & q & Q1 & Q2 & Q3)|[-> H']]; [left|right; split; [done|by split]].
  assert (Hok : shm_ok L E (<[(d, vp) := q * PGSIZE + hwbits cpu (fault_perm v)]> maps) smaps (mk_shm (objs (mem (ext s))) p')) by by split.
  split; [done|]. exists q. split_and!; [done..| |done]. by apply (entry_shows _ _ _ _ _ _ _ _ _ Hok).
Qed.

(** C11: copy on write: a write to a page of a private writable area that is
    mapped read-only gives the process a page of its own (reference count 1),
    writable and with the same contents: the old page if nothing else refers to
    it, otherwise a page that was free, while the old page keeps its contents
    and its other users.  -E_NO_MEM changes no mapping. *)
Theorem pgfault_copy_on_write L E maps smaps p m a v addr (s : sys fctx) wait wait2 al error_code w :
  let d := pgdirs (ext s) p in
  let vp := addr / PGSIZE in
  faulting L E maps smaps p m a v addr s -> permitted v error_code addr -> has error_code 2 = true -> cow_area v = true ->
  maps !! (d, vp) = Some w -> ptep_u_write cpu w = false ->
  finishes (do_pgfault C cpu p wait wait2 al error_code addr s) (fun r s' => ks s' = ks s /\
    gets_own_page L E maps smaps d vp v w (mem (ext s)) r (mem (ext s'))).
Proof.
  intros d vp F Hal He Hc Hw Hro. pose proof (fault_range _ _ _ _ _ _ _ _ _ _ F) as Hv. pose proof (fl_mem _ _ _ _ _ _ _ _ _ _ F) as [HO H].
  destruct (cow_area_flags v Hc) as [Hsh Hwr].
  apply (handler_entry L E maps smaps p m a v addr s wait wait2 al error_code
           (gets_own_page L E maps smaps d vp v w (mem (ext s))) F Hal).
  intros s1 I1 O1 _ _. pose proof (fl_dir _ _ _ _ _ _ _ _ _ _ F) as Hd.
  eapply finishes_mono; [apply (fault_page_private C cpu L E maps smaps s1 d v error_code addr wait2 al); rewrite ?O1; try done|].
  { intros w' Hw'. fold vp in Hw'. assert (w' = w) as -> by congruence. done. }
  intros r s2 (p' & -> & HR). fold vp in HR. rewrite Hw, O1 in HR. destruct HR as [K HR]. split_and!; [done..|]. unfold put_tabs. cbn [ext mem set_mem]. rewrite O1. split; [exact K|].
  destruct HR as [(-> & q & Q1 & Q2 & Q3 & Q4)|[-> H']]; [left|right; split; [done|by split]].
  assert (Hok : shm_ok L E (<[(d, vp) := q * PGSIZE + hwbits cpu (fault_perm v)]> maps) smaps (mk_shm (objs (mem (ext s))) p')) by by split.
  split; [done|]. exists q. split_and!; [done..| |done]. pose proof (entry_shows _ _ _ _ _ _ _ _ _ Hok) as Hs. by rewrite Hwr in Hs.
Qed.

(** Page [vp] of [d] shows the page that page [vs] of the object [a] has, which
    may have been added for it, or there was no memory. *)
Definition gets_shared_page L E maps smaps (d vp a vs : Z) (v : vma_struct) (x : shm) (r : Z) (x' : shm) : Prop :=
  (r = 0 /\ exists w smaps', smaps' !! (a, vs) = Some w /\
     (smaps' = smaps \/ smaps !! (a, vs) = None /\ exists q, ~ pg_owned (pages (tabs x)) q 1 /\
                         smaps' = <[(a, vs) := q * PGSIZE + mapbits cpu]> smaps) /\
     shows cpu (tabs x') d vp (PPN w) true (has (vm_flags v) VM_WRITE) /\
     shm_ok L E (<[(d, vp) := PPN w * PGSIZE + hwbits cpu (fault_perm v)]> maps) smaps' x') \/
  (r = - E_NO_MEM /\ shm_ok L E maps smaps x').

(** C16: shared memory: a permitted access to an address of a shared area that
    has no page in the address space maps the page that the shared memory
    object has at the offset of the area, so all processes that map the object
    see the same page; if the object has none, a free page is added to it
    first.  The locks of the address space and of the object are as before. *)
Theorem pgfault_shared_page L E maps smaps p m a v addr (s : sys fctx) wait wait2 al error_code sh o y :
  let d := pgdirs (ext s) p in
  let vp := addr / PGSIZE in
  let off := u32 (u32 (vp * PGSIZE - vm_start v) + shmem_off v) in
  faulting L E maps smaps p m a v addr s -> permitted v error_code addr -> has (vm_flags v) VM_SHARE = true ->
  maps !! (d, vp) = None -> shmem v = Some sh -> objs (mem (ext s)) !! sh = Some o -> off < shm_len o ->
  (forall b, al = Some b -> b ∉ (shmn_list o).*1) ->
  shmem_sems (ext s) sh <> mm_sems (fu (ext s)) p -> sems (ks s) !! shmem_sems (ext s) sh = Some y -> valid y = true -> value y = 1 ->
  finishes (do_pgfault C cpu p wait wait2 al error_code addr s) (fun r s' => ks s' = ks s /\
    gets_shared_page L E maps smaps d vp sh (off / PGSIZE) v (mem (ext s)) r (mem (ext s'))).
Proof.
  intros d vp off F Hal Hsh Hn Hs Ho Hl Hf Hne Hy Hv1 Hv2. pose proof (fault_range _ _ _ _ _ _ _ _ _ _ F) as Hv.
  apply (handler_entry L E maps smaps p m a v addr s wait wait2 al error_code (gets_shared_page L E maps smaps d vp sh (off / PGSIZE) v (mem (ext s))) F Hal).
  intros s1 I1 O1 O2 O3. pose proof (fl_dir _ _ _ _ _ _ _ _ _ _ F) as Hd. pose proof (fl_mem _ _ _ _ _ _ _ _ _ _ F) as Hok.
  eapply finishes_mono; [apply (fault_page_shared C cpu L E maps smaps s1 d v error_code addr wait2 al sh o y); rewrite ?O1, ?O2; try done|].
  { by rewrite O3. }
  intros r s2 (Ek & Ef & HR). split_and!; [done..|]. rewrite O1 in HR. fold vp off in HR.
  destruct HR as [[(-> & w & smaps' & H1 & H2 & H3)|(-> & _ & H3)]|[-> H3]]; [left|right; by split..].
  split; [done|]. exists w, smaps'. split_and!; [done..| |done]. by apply (entry_shows _ _ _ _ _ _ _ _ _ H3).
Qed.

(** C29: faults that are errors: an address outside the areas, on the guard page
    of a stack, in a device area, or an access the area does not permit gives
    -E_INVAL and changes neither tables nor pages nor locks; a fault of a kernel
    thread gives -E_KILLED. *)
Theorem pgfault_refused p m addr (s : sys fctx) wait wait2 al error_code :
  sync_inv C (ks s) -> mms (fu (ext s)) p = Some m -> mm_inv m -> user_mm m -> lock_ready p s ->
  (forall a v, (a, v) ∈ mmap_list m -> vm_start v <= addr < vm_end v -> ~ permitted v error_code addr) ->
  finishes (do_pgfault C cpu p wait wait2 al error_code addr s) (fun r s' => ks s' = ks s /\ r = - E_INVAL /\ mem (ext s') = mem (ext s)) /\
  forall k, mms (fu (ext s)) k = None -> do_pgfault C cpu k wait wait2 al error_code addr s = Ok (Done (- E_KILLED) s).
Proof.
  intros I Hm Hi Hu Hl Hn. split.
  - apply (do_pgfault_ok C cpu p wait wait2 al error_code addr s m (fun r x => r = - E_INVAL /\ x = mem (ext s)) I Hm Hl).
    intros s1 I1 (O1 & O2 & O3 & O4 & O5 & O6). assert (Hm1 : mms (fu (ext s1)) p = Some m) by (by rewrite O4).
    eapply finishes_mono; [apply (handle_refused C cpu p m); [done|done|]|]. { intros a v Ha Hr. apply not_true_is_false. unfold user_mm in Hu. rewrite Forall_forall in Hu. rewrite permitted_allowed by (exact (Hu _ Ha) || lia). by apply (Hn a). }
    intros r s2 (-> & m' & ->). split; [|by rewrite <- O1].
    split_and!; [done| |done]. cbn. rewrite fn_lookup_insert. by eexists.
  - intros k Hk. unfold do_pgfault. by rewrite bind_get, Hk.
Qed.

(** C30: an unaligned store kills the kernel: the handler reports every fault that
    is no translation fault as a protection fault, also an alignment fault
    (status 1), so a store of a process to its own writable memory arrives as a
    write to a present page that is writable already, and the assertion of the
    copy-on-write branch stops the kernel. *)
Theorem alignment_fault_panics L E maps smaps m a v addr (s : sys fctx) wait wait2 al w :
  let p := current (ks s) in
  let d := pgdirs (ext s) p in
  let vp := addr / PGSIZE in
  faulting L E maps smaps p m a v addr s -> permitted v 3 addr ->
  maps !! (d, vp) = Some w -> ptep_u_write cpu w = true ->
  pgfault_handler C cpu wait wait2 al (Z.lor (Z.shiftl 1 11) 1) addr s = Panic.
Proof.
  intros p d vp F Hal%(fault_allows _ _ _ _ _ _ _ _ _ _ _ F) Hw Hwr. unfold pgfault_handler. rewrite bind_get. change (fault_error_code _) with 3. fold p.
  destruct (fault_locks C cpu p wait wait2 al 3 addr s m) as (need & s1 & I1 & (O1 & O2 & O3 & O4 & _) & -> & _); [apply F..|].
  destruct (fl_area _ _ _ _ _ _ _ _ _ _ F) as [Ha Hr]. pose proof (fault_range _ _ _ _ _ _ _ _ _ _ F) as Hv. fold vp in Hv.
  assert (Hm : mms (fu (ext s1)) p = Some m) by (rewrite O4; apply F). unfold bind at 1.
  rewrite (handle_found C cpu p m a v) by (done || apply F). rewrite Hal, O2. cbn [negb]. fold d.
  unfold fault_page. rewrite rounddown_page. fold vp. pose proof (fl_mem _ _ _ _ _ _ _ _ _ _ F) as [_ H].
  pose proof (so_pages _ _ _ _ _ _ H) as Hok. destruct (st_dom _ _ (proj1 Hok) _ _ _ Hw) as (Hnz & [D HD] & _).
  pose proof (st_maps _ _ (proj1 Hok) d D vp HD Hv) as Hpte. rewrite Hw in Hpte. cbn in Hpte.
  destruct (st_pde _ _ (proj1 Hok) d D (vp / NPTEENTRY) HD) as [H0|(q & W & _ & Hq & _)].
  { unfold pte_at in Hpte. rewrite H0 in Hpte. cbn in Hpte. congruence. }
  destruct (get_pte_found _ _ maps (tabs (mem (ext s))) d D vp q true Hok HD Hv Hq) as [Eg Hs].
  set (s2 := with_mm p _ s1). assert (Et : on_tabs (get_pte d (vp * PGSIZE) true) s2 = Ok (Done (Some (q, vp mod NPTEENTRY)) s2)).
  { unfold on_tabs, on_mem. change (mem (ext s2)) with (mem (ext s1)). rewrite O1, Eg. cbn. rewrite <- O1. unfold s2, with_mm. cbn. by destruct s1 as [? [? ? ? []]]. }
  rewrite (bind_done _ _ _ _ _ Et). pose proof (slot_read _ _ _ _ _ _ _ Hok Hs Hv) as Er. rewrite Hw in Er.
  rewrite (read_pte_ok (q, vp mod NPTEENTRY) s2 w); [|change (mem (ext s2)) with (mem (ext s1)); by rewrite O1].
  unfold ptep_invalid. rewrite (proj2 (Z.eqb_neq _ _) Hnz). unfold on_tabs, on_mem, fault_cow. rewrite Hwr. cbn [negb andb]. by rewrite andb_false_r.
Qed.

End Properties.

(** ** A faulting process on the machine of [PageTable.demo_pt]

    Process 10 has a private area, a stack and a shared area on object 7 of
    [Shmem.demo_shm]; semaphore 500 is the lock of its address space, 520 that
    of the object. *)

Definition demo_locks : kstate :=
  set_sems (<[500 := mk_sem 1 true 0 512]> {[520 := mk_sem 1 true 0 532]}) (set_wqs (<[512 := []]> {[532 := []]}) demo).

Lemma two_entries {A} (i j : Z) (x y : A) k z : (<[i := x]> {[j := y]} : gmap Z A) !! k = Some z -> (k = i /\ z = x) \/ (k = j /\ z = y).
Proof. intros [[<- <-]|[_ [<- <-]%lookup_singleton_Some]]%lookup_insert_Some; auto. Qed.

Lemma demo_locks_inv : sync_inv MLFQ_sched_class demo_locks.
Proof.
  assert (Hw : forall q l, wqs demo_locks !! q = Some l -> l = []) by (by intros q l [[_ ->]|[_ ->]]%two_entries).
  split.
  - apply (sched_inv_frame _ _ demo); try done. apply demo_MLFQ.
  - split; [intros q l ->%Hw; constructor|intros q l w Hl; apply Hw in Hl as ->; by intros H%not_elem_of_nil].
  - split; [split|]; [constructor|intros ? H%not_elem_of_nil; done|constructor|constructor].
  - split.
    + intros sem x [[_ ->]|[_ ->]]%two_entries; exists []; by split; [vm_compute|].
    + intros a b x y [[-> ->]|[-> ->]]%two_entries [[-> ->]|[-> ->]]%two_entries; done.
Qed.

Definition private_area : vma_struct := mk_vma 0x30001000 0x30003000 RW None 0.
Definition shared_area : vma_struct := mk_vma 0x40000000 0x40002000 (Z.lor VM_SHARE RW) (Some 7) 0x1000.

Ltac demo_permits := split_and!; [intros [H _]; by vm_compute in H|done|cbn; try left; done].

Definition stack_area : vma_struct := mk_vma 0x50000000 0x50004000 (Z.lor VM_STACK RW) None 0.
Definition fault_mm : mm_struct := mk_mm [(1, private_area); (2, shared_area); (3, stack_area)] None None 3 0.

Lemma fault_mm_inv : mm_inv fault_mm.
Proof. split; cbn; [by split_and!|apply (bool_decide_unpack _); by vm_compute|done|done|done]. Qed.

Lemma fault_mm_user : user_mm fault_mm.
Proof. repeat constructor; by vm_compute. Qed.

Definition fault_sys (x : shm (PA := pmm_PageAlloc 0x5000)) : sys fctx :=
  mk_sys demo_locks (mk_f (mk_u (fun _ => Some fault_mm) (fun _ => 500) (fun _ => 0) (fun _ _ => 0)) (fun _ => 1) (fun _ => 520) x).

Lemma demo_faulting maps smaps x a v addr :
  shm_ok demo_held (fun _ => 0) maps smaps x -> is_Some (dirs (tabs x) !! 1) -> (a, v) ∈ mmap_list fault_mm -> vm_start v <= addr < vm_end v ->
  faulting MLFQ_sched_class demo_held (fun _ => 0) maps smaps 10 fault_mm a v addr (fault_sys x).
Proof.
  intros Hok Hd Ha Hr. split; try done.
  - apply demo_locks_inv.
  - apply fault_mm_inv.
  - apply fault_mm_user.
  - exists (mk_sem 1 true 0 512), (demo_proc PROC_RUNNABLE 2 0 (Some 0%nat) 3). split_and!; [by vm_compute|by vm_compute|done|by left].
Qed.

(** Page 0x30001 of process 10 is mapped with the permissions [perm]. *)
Lemma demo_entry perm :
  fst (Buddy.run (None, demo_pt) (pgdir_alloc_page ARMV7 1 (0x30001 * PGSIZE) perm demo_pt)) = Some 5 ->
  exists s : ptmem (PA := pmm_PageAlloc 0x5000), shm_ok demo_held (fun _ => 0) (<[(1, 0x30001) := 5 * PGSIZE + hwbits ARMV7 perm]> ∅) ∅ (mk_shm ∅ s) /\ is_Some (dirs s !! 1).
Proof.
  intros Ho. destruct (pgdir_alloc_page_ok ARMV7 demo_held (fun _ => 0) ∅ demo_pt 1 0x30001 perm demo_pt_ok) as ([o s] & E & G & _ & H); [by eexists|lia|].
  rewrite E in Ho. cbn [Buddy.run fst] in Ho. subst o. exists s. split; [apply no_objects, H|]. apply (demo_dir s 1 G). by left.
Qed.

Lemma pgfault_zero_page_witness :
  finishes (do_pgfault MLFQ_sched_class ARMV7 10 601 602 None 2 0x30002004 (fault_sys demo_shm)) (fun r s' => r = 0 \/ r = - E_NO_MEM).
Proof.
  eapply finishes_mono; [apply (pgfault_zero_page MLFQ_sched_class ARMV7 demo_held (fun _ => 0) ∅ ∅ 10 fault_mm 1 private_area 0x30002004)|].
  - apply demo_faulting; [apply demo_shm_ok|by eexists|left|by vm_compute].
  - demo_permits.
  - done.
  - done.
  - intros r s' (_ & _ & [[-> _]|[-> _]]); auto.
Defined.

Lemma pgfault_copy_on_write_witness : exists x,
  finishes (do_pgfault MLFQ_sched_class ARMV7 10 601 602 None 3 0x30001004 (fault_sys x)) (fun r s' => r = 0 \/ r = - E_NO_MEM).
Proof.
  destruct (demo_entry 5 ltac:(by vm_compute)) as (s & Hok & Hd). exists (mk_shm ∅ s).
  eapply finishes_mono; [apply (pgfault_copy_on_write MLFQ_sched_class ARMV7 demo_held (fun _ => 0) _ ∅ 10 fault_mm 1 private_area 0x30001004
    (fault_sys (mk_shm ∅ s)) 601 602 None 3 (5 * PGSIZE + hwbits ARMV7 5) (demo_faulting _ _ _ 1 private_area 0x30001004 Hok Hd ltac:(left) ltac:(by vm_compute)))|].
  - demo_permits.
  - done.
  - done.
  - apply lookup_insert_eq.
  - by vm_compute.
  - intros r s' (_ & _ & [[-> _]|[-> _]]); auto.
Defined.

Lemma pgfault_shared_page_witness :
  finishes (do_pgfault MLFQ_sched_class ARMV7 10 601 602 (Some 8) 0 0x40001004 (fault_sys demo_shm)) (fun r s' => r = 0 \/ r = - E_NO_MEM).
Proof.
  eapply finishes_mono; [apply (pgfault_shared_page MLFQ_sched_class ARMV7 demo_held (fun _ => 0) ∅ ∅ 10 fault_mm 2 shared_area 0x40001004
    (fault_sys demo_shm) 601 602 (Some 8) 0 7 (mk_shmem [] None 0x5000 0 1) (mk_sem 1 true 0 532))|].
  - apply demo_faulting; [apply demo_shm_ok|by eexists|right; left|by vm_compute].
  - demo_permits.
  - done.
  - done.
  - done.
  - done.
  - by vm_compute.
  - intros b _ H. by apply not_elem_of_nil in H.
  - done.
  - by vm_compute.
  - done.
  - done.
  - intros r s' (_ & [[-> _]|[-> _]]); auto.
Defined.

Lemma pgfault_refused_witness :
  finishes (do_pgfault MLFQ_sched_class ARMV7 10 601 602 None 2 0x50000010 (fault_sys demo_shm)) (fun r s' => r = - E_INVAL).
Proof.
  eapply finishes_mono; [apply (pgfault_refused MLFQ_sched_class ARMV7 10 fault_mm 0x50000010 (fault_sys demo_shm) 601 602 None 2)|].
  - apply demo_locks_inv.
  - done.
  - apply fault_mm_inv.
  - apply fault_mm_user.
  - exact (fl_lock _ _ _ _ _ _ _ _ _ _ _ (demo_faulting _ _ demo_shm 1 private_area 0x30001000 demo_shm_ok ltac:(by eexists) ltac:(left) ltac:(by vm_compute))).
  - intros a v [[= -> ->]|[[= -> ->]|[[= -> ->]|[]%not_elem_of_nil]%elem_of_cons]%elem_of_cons]%elem_of_cons; cbn; [lia..|].
    intros _ [H _]. apply H. by split; [|vm_compute].
  - by intros r s' (_ & -> & _).
Defined.

Lemma alignment_fault_panics_witness : exists x, pgfault_handler MLFQ_sched_class ARMV7 601 602 None 0x801 0x30001002 (fault_sys x) = Panic.
Proof.
  destruct (demo_entry 7 ltac:(by vm_compute)) as (s & Hok & Hd). exists (mk_shm ∅ s).
  apply (alignment_fault_panics MLFQ_sched_class ARMV7 demo_held (fun _ => 0) _ ∅ fault_mm 1 private_area 0x30001002
    (fault_sys (mk_shm ∅ s)) 601 602 None (5 * PGSIZE + hwbits ARMV7 7) (demo_faulting _ _ _ 1 private_area 0x30001002 Hok Hd ltac:(left) ltac:(by vm_compute))).
  - demo_permits.
  - apply lookup_insert_eq.
  - by vm_compute.
Defined.

(** The process has written to its page 5 and forked; when it writes again it
    gets a copy of the page, and page 5 stays with the child. *)
Definition demo_cow : res (Z * option Z * option Z * bool * Z) :=
  let* (_, t) := pgdir_alloc_page ARMV7 1 (0x30001 * PGSIZE) 7 demo_pt in
  let* t := wr_pte (5, 3) 0xCAFE t in
  let* (_, t) := copy_range ARMV7 2 1 (0x30000 * PGSIZE) (0x30002 * PGSIZE) false t in
  let* out := do_pgfault MLFQ_sched_class ARMV7 10 601 602 None 3 0x30001004 (fault_sys (mk_shm ∅ t)) in
  match out with
  | Done r s =>
      let t' := tabs (mem (ext s)) in
      let* (p1, _, t') := get_page 1 (0x30001 * PGSIZE) t' in
      let* (p2, _, t') := get_page 2 (0x30001 * PGSIZE) t' in
      Ok (r, p1, p2, bool_decide (words t' !! default 0 p1 = words t' !! default 0 p2), page_ref 5 t')
  | Sleep _ _ => Panic
  end.

Example cow_run : exists p, demo_cow = Ok (0, Some p, Some 5, true, 1) /\ p <> 5.
Proof. eexists. split; [by vm_compute|done]. Qed.
