(* ===== verification/Procs.v ===== *)
(** * Procs: the table of processes (process/proc.c)

    Every process but the idle ones is on [proc_list], in the hash table by its
    pid, and linked with its siblings and parent through [cptr], [yptr] and
    [optr].  [get_pid] finds an unused pid; it remembers a window of pids
    above the last one that are known to be free. *)
From S2P Require Import Prelude.

Definition MAX_PROCESS : Z := 4096.
Definition MAX_PID : Z := MAX_PROCESS * 2.

(** [hash32] of glue-ucore/libs/hash.c *)
Definition GOLDEN_RATIO_PRIME_32 : Z := 0x9e370001.
Definition hash32 (val bits : Z) : Z := Z.shiftr (u32 (val * GOLDEN_RATIO_PRIME_32)) (32 - bits).

Definition HASH_SHIFT : Z := 10.
Definition HASH_LIST_SIZE : Z := Z.shiftl 1 HASH_SHIFT.
Definition pid_hashfn (x : Z) : Z := hash32 (u32 x) HASH_SHIFT.

(** ** Pids *)

(** The inner loop of [get_pid] over the pids of [proc_list].  The result is
    [last_pid], [next_safe] and whether [goto repeat] was taken. *)
Fixpoint pid_scan (l : list Z) (last_pid next_safe : Z) : Z * Z * bool :=
  match l with
  | [] => (last_pid, next_safe, false)
  | p :: l =>
      if p =? last_pid then
        let last_pid := last_pid + 1 in
        if next_safe <=? last_pid then
          (if MAX_PID <=? last_pid then 1 else last_pid, MAX_PID, true)
        else pid_scan l last_pid next_safe
      else if (last_pid <? p) && (p <? next_safe) then pid_scan l last_pid p
      else pid_scan l last_pid next_safe
  end.

(** From the label [repeat] on; one unit of [fuel] per [goto repeat]. *)
Fixpoint pid_repeat (fuel : nat) (l : list Z) (last_pid next_safe : Z) : res (Z * Z) :=
  match pid_scan l last_pid next_safe with
  | (last_pid, next_safe, false) => Ok (last_pid, next_safe)
  | (last_pid, next_safe, true) =>
      match fuel with
      | O => Panic
      | S fuel => pid_repeat fuel l last_pid next_safe
      end
  end.

(** [pids] are the pids of the processes on [proc_list]; the static variables
    are passed in and returned, the last pid being the result. *)
Definition get_pid (lcpu_count : Z) (pids : list Z) (next_safe last_pid : Z) : res (Z * Z) :=
  let fuel := Z.to_nat (2 * MAX_PID) in
  let last_pid := last_pid + 1 in
  if MAX_PID <=? last_pid then pid_repeat fuel pids lcpu_count MAX_PID
  else if next_safe <=? last_pid then pid_repeat fuel pids last_pid MAX_PID
  else Ok (last_pid, next_safe).

(** No pid of the list lies in the window [lo, hi). *)
Definition window_free (l : list Z) (lo hi : Z) : Prop := forall p, p ∈ l -> ~ (lo <= p < hi).

(** One scan: either the window behind the candidate is free, or the candidate
    has moved on to one that is not skipped over, or every pid from it on is
    taken. *)
Lemma pid_scan_ok l0 l : forall seen lp ns, l0 = seen ++ l -> window_free seen lp ns -> 1 <= lp < ns -> ns <= MAX_PID ->
  match pid_scan l lp ns with
  | (lp', ns', false) => lp <= lp' < ns' /\ ns' <= MAX_PID /\ window_free l0 lp' ns' /\ (forall p, lp <= p < lp' -> p ∈ l0)
  | (lp', ns', true) => ns' = MAX_PID /\
      ((lp < lp' < MAX_PID /\ forall p, lp <= p < lp' -> p ∈ l0) \/ (lp' = 1 /\ forall p, lp <= p < MAX_PID -> p ∈ l0))
  end.
Proof.
  induction l as [|p l IH]; intros seen lp ns El Hw Hlp Hns; cbn [pid_scan].
  - rewrite app_nil_r in El. subst. split_and!; try lia; done.
  - assert (Hp : p ∈ l0) by (subst l0; apply elem_of_app; right; left).
    assert (El' : l0 = (seen ++ [p]) ++ l) by (by rewrite <- app_assoc).
    destruct (Z.eqb_spec p lp) as [->|Hne].
    + destruct (Z.leb_spec ns (lp + 1)) as [Hle|Hgt].
      * destruct (Z.leb_spec MAX_PID (lp + 1)) as [Hm|Hm].
        -- split; [done|]. right. split; [done|]. intros q Hq. assert (q = lp) as -> by lia. done.
        -- split; [done|]. left. split; [lia|]. intros q Hq. assert (q = lp) as -> by lia. done.
      * assert (Hw' : window_free (seen ++ [lp]) (lp + 1) ns).
        { intros q [Hq|Hq%list_elem_of_singleton]%elem_of_app Hr; [apply (Hw q Hq); lia|lia]. }
        specialize (IH _ (lp + 1) ns El' Hw' ltac:(lia) Hns). destruct (pid_scan l (lp + 1) ns) as [[lp' ns'] []].
        -- destruct IH as (-> & [[H1 H2]|[-> H2]]); (split; [done|]); [left|right]; (split; [lia|]);
             intros q Hq; (destruct (Z.eq_dec q lp) as [->|]; [done|apply H2; lia]).
        -- destruct IH as (H1 & H2 & H3 & H4). split_and!; try lia; [done|].
           intros q Hq. destruct (Z.eq_dec q lp) as [->|]; [done|apply H4; lia].
    + destruct (Z.ltb_spec lp p), (Z.ltb_spec p ns); cbn [andb].
      1: assert (Hw' : window_free (seen ++ [p]) lp p) by
           (intros q [Hq|Hq%list_elem_of_singleton]%elem_of_app Hr; [apply (Hw q Hq); lia|lia]);
         exact (IH _ lp p El' Hw' ltac:(lia) ltac:(lia)).
      all: assert (Hw' : window_free (seen ++ [p]) lp ns) by
           (intros q [Hq|Hq%list_elem_of_singleton]%elem_of_app Hr; [apply (Hw q Hq); lia|lia]);
         exact (IH _ lp ns El' Hw' ltac:(lia) ltac:(lia)).
Qed.

(** With a free pid [f] at or above the candidate, the loop ends without
    passing it; the number of repetitions is at most the distance. *)
Lemma pid_repeat_below l f : f ∉ l -> f < MAX_PID -> forall fuel lp, 1 <= lp <= f -> (Z.to_nat (f - lp) < fuel)%nat ->
  returns (pid_repeat fuel l lp MAX_PID) (fun '(lp', ns') => lp <= lp' <= f /\ lp' < ns' /\ ns' <= MAX_PID /\ window_free l lp' ns').
Proof.
  intros Hf Hm. induction fuel as [|fuel IH]; intros lp Hlp Hfuel; [lia|]. cbn [pid_repeat].
  pose proof (pid_scan_ok l l [] lp MAX_PID eq_refl ltac:(intros p Hp%not_elem_of_nil; done) ltac:(lia) ltac:(lia)) as H.
  destruct (pid_scan l lp MAX_PID) as [[lp' ns'] []].
  - destruct H as (-> & [[H1 H2]|[-> H2]]).
    + assert (lp' <= f) by (destruct (Z.le_gt_cases lp' f); [done|destruct (Hf (H2 f ltac:(lia)))]).
      eapply returns_mono; [apply IH; lia|]. intros [a b] (? & ? & ? & ?). split_and!; try done; lia.
    + destruct (Hf (H2 f ltac:(lia))).
  - apply returns_ok. destruct H as (H1 & H2 & H3 & H4). split_and!; try done; try lia.
    destruct (Z.le_gt_cases lp' f); [done|destruct (Hf (H4 f ltac:(lia)))].
Qed.

(** Without one it wraps around to 1 once. *)
Lemma pid_repeat_wrap l f : f ∉ l -> 1 <= f < MAX_PID -> forall fuel lp, 1 <= lp < MAX_PID ->
  (Z.to_nat (MAX_PID - lp) + Z.to_nat MAX_PID <= fuel)%nat ->
  returns (pid_repeat fuel l lp MAX_PID) (fun '(lp', ns') => 1 <= lp' < ns' /\ ns' <= MAX_PID /\ window_free l lp' ns').
Proof.
  intros Hf Hr. induction fuel as [|fuel IH]; intros lp Hlp Hfuel; [lia|]. cbn [pid_repeat].
  pose proof (pid_scan_ok l l [] lp MAX_PID eq_refl ltac:(intros p Hp%not_elem_of_nil; done) ltac:(lia) ltac:(lia)) as H.
  destruct (pid_scan l lp MAX_PID) as [[lp' ns'] []].
  - destruct H as (-> & [[H1 H2]|[-> H2]]); [apply IH; lia|].
    eapply returns_mono; [apply (pid_repeat_below l f Hf ltac:(lia) fuel 1); lia|].
    intros [a b] (? & ? & ? & ?). split_and!; try done; lia.
  - apply returns_ok. destruct H as (H1 & H2 & H3 & H4). split_and!; try done; lia.
Qed.

(** There are more pids than processes. *)
Lemma free_pid_exists l : Z.of_nat (length l) <= MAX_PROCESS -> exists f, f ∉ l /\ 1 <= f < MAX_PID.
Proof.
  intros Hl. destruct (decide (Forall (fun f => f ∈ l) (seqZ 1 (MAX_PID - 1)))) as [Hall|Hno].
  - exfalso. assert (Hsub : seqZ 1 (MAX_PID - 1) ⊆+ l).
    { apply NoDup_submseteq; [apply NoDup_seqZ|]. by apply Forall_forall. }
    apply submseteq_length in Hsub. rewrite length_seqZ in Hsub. unfold MAX_PID, MAX_PROCESS in *. lia.
  - apply not_Forall_Exists in Hno; [|apply _]. apply Exists_exists in Hno as (f & Hf%elem_of_seqZ & Hn).
    exists f. split; [exact Hn|]. lia.
Qed.

Lemma get_pid_ok lcpu_count l next_safe last_pid :
  Z.of_nat (length l) <= MAX_PROCESS -> 1 <= lcpu_count < MAX_PID -> 0 <= last_pid -> next_safe <= MAX_PID ->
  window_free l (last_pid + 1) next_safe ->
  returns (get_pid lcpu_count l next_safe last_pid) (fun '(p, ns) =>
    1 <= p < ns /\ ns <= MAX_PID /\ p ∉ l /\
    forall l', (forall q, q ∈ l' -> q = p \/ q ∈ l) -> window_free l' (p + 1) ns).
Proof.
  intros Hl Hc H0 Hns Hw. destruct (free_pid_exists l Hl) as (f & Hf & Hfr).
  assert (Hend : forall p ns, 1 <= p < ns -> ns <= MAX_PID -> window_free l p ns ->
    1 <= p < ns /\ ns <= MAX_PID /\ p ∉ l /\ forall l', (forall q, q ∈ l' -> q = p \/ q ∈ l) -> window_free l' (p + 1) ns).
  { intros p ns Hp Hm Hfree. split_and!; try lia.
    - intros Hin. apply (Hfree p Hin). lia.
    - intros l' Hl' q Hq Hr. destruct (Hl' q Hq) as [->|Hq']; [lia|]. apply (Hfree q Hq'). lia. }
  unfold get_pid. destruct (Z.leb_spec MAX_PID (last_pid + 1)) as [Hm|Hm]; [|destruct (Z.leb_spec next_safe (last_pid + 1)) as [Hn|Hn]].
  - eapply returns_mono; [apply (pid_repeat_wrap l f Hf Hfr); [lia|unfold MAX_PID, MAX_PROCESS in *; lia]|].
    intros [p ns] (? & ? & ?). by apply Hend.
  - eapply returns_mono; [apply (pid_repeat_wrap l f Hf Hfr); [lia|unfold MAX_PID, MAX_PROCESS in *; lia]|].
    intros [p ns] (? & ? & ?). by apply Hend.
  - apply returns_ok. by apply Hend; [lia|lia|].
Qed.

(** C36: [get_pid] terminates and returns a pid no process on the list has, as
    long as there are at most [MAX_PROCESS] of them.  The window of free pids
    it remembers stays correct when the new process is added and when
    processes disappear, so the next call may rely on it. *)
Theorem get_pid_spec lcpu_count l next_safe last_pid :
  Z.of_nat (length l) <= MAX_PROCESS -> 1 <= lcpu_count < MAX_PID -> 0 <= last_pid -> next_safe <= MAX_PID ->
  window_free l (last_pid + 1) next_safe ->
  returns (get_pid lcpu_count l next_safe last_pid) (fun '(p, ns) =>
    1 <= p < ns /\ ns <= MAX_PID /\ p ∉ l /\
    forall l', (forall q, q ∈ l' -> q = p \/ q ∈ l) -> window_free l' (p + 1) ns).
Proof. by apply get_pid_ok. Qed.

(** ** The table *)

(** The fields of [struct proc_struct] that link processes. *)
Record pnode := mk_pnode { n_pid : Z; n_parent : Z; cptr : option Z; yptr : option Z; optr : option Z }.

Record ptab := mk_ptab {
  nodes : gmap Z pnode;            (* by address *)
  proc_list : list Z;
  hash_list : list (list Z);
  nr_process : Z;
  next_safe : Z;
  last_pid : Z }.

Definition with_nodes (m : gmap Z pnode) (t : ptab) : ptab := mk_ptab m (proc_list t) (hash_list t) (nr_process t) (next_safe t) (last_pid t).
Definition with_hash (h : list (list Z)) (t : ptab) : ptab := mk_ptab (nodes t) (proc_list t) h (nr_process t) (next_safe t) (last_pid t).
Definition with_procs (l : list Z) (n : Z) (t : ptab) : ptab := mk_ptab (nodes t) l (hash_list t) n (next_safe t) (last_pid t).
Definition with_pids (ns lp : Z) (t : ptab) : ptab := mk_ptab (nodes t) (proc_list t) (hash_list t) (nr_process t) ns lp.

Definition set_pid (v : Z) (x : pnode) := mk_pnode v (n_parent x) (cptr x) (yptr x) (optr x).
Definition set_cptr (v : option Z) (x : pnode) := mk_pnode (n_pid x) (n_parent x) v (yptr x) (optr x).
Definition set_yptr (v : option Z) (x : pnode) := mk_pnode (n_pid x) (n_parent x) (cptr x) v (optr x).
Definition set_optr (v : option Z) (x : pnode) := mk_pnode (n_pid x) (n_parent x) (cptr x) (yptr x) v.

(** [proc->field = ...] *)
Definition upd (a : Z) (f : pnode -> pnode) (t : ptab) : res ptab :=
  let* x := fetch (nodes t) a in Ok (with_nodes (<[a := f x]> (nodes t)) t).
(** The same through a pointer that may be NULL and is tested before. *)
Definition upd_opt (o : option Z) (f : pnode -> pnode) (t : ptab) : res ptab :=
  match o with Some a => upd a f t | None => Ok t end.

Definition set_links (proc : Z) (t : ptab) : res ptab :=
  let t := with_procs (proc :: proc_list t) (nr_process t) t in
  let* t := upd proc (set_yptr None) t in
  let* x := fetch (nodes t) proc in
  let* par := fetch (nodes t) (n_parent x) in
  let* t := upd proc (set_optr (cptr par)) t in
  let* t := upd_opt (cptr par) (set_yptr (Some proc)) t in
  let* t := upd (n_parent x) (set_cptr (Some proc)) t in
  Ok (with_procs (proc_list t) (s32 (nr_process t + 1)) t).

Definition remove_links (proc : Z) (t : ptab) : res ptab :=
  let t := with_procs (filter (fun a => a <> proc) (proc_list t)) (nr_process t) t in
  let* x := fetch (nodes t) proc in
  let* t := upd_opt (optr x) (set_yptr (yptr x)) t in
  let* t := match yptr x with
            | Some y => upd y (set_optr (optr x)) t
            | None => upd (n_parent x) (set_cptr (optr x)) t
            end in
  Ok (with_procs (proc_list t) (s32 (nr_process t - 1)) t).

Definition hash_proc (proc : Z) (t : ptab) : res ptab :=
  let* x := fetch (nodes t) proc in
  let i := Z.to_nat (pid_hashfn (n_pid x)) in
  match hash_list t !! i with
  | Some l => Ok (with_hash (<[i := proc :: l]> (hash_list t)) t)
  | None => Panic
  end.

Definition unhash_proc (proc : Z) (t : ptab) : ptab :=
  with_hash ((fun l => filter (fun a => a <> proc) l) <$> hash_list t) t.

(** The loop of [find_proc] over a hash chain. *)
Fixpoint find_chain (id : Z) (l : list Z) (t : ptab) : res (option Z) :=
  match l with
  | [] => Ok None
  | proc :: l =>
      let* x := fetch (nodes t) proc in
      if n_pid x =? id then Ok (Some proc) else find_chain id l t
  end.

(** [find_proc] *)
Definition lookup_proc (id : Z) (t : ptab) : res (option Z) :=
  if (0 <? id) && (id <? MAX_PID) then
    match hash_list t !! Z.to_nat (pid_hashfn id) with
    | Some l => find_chain id l t
    | None => Panic
    end
  else Ok None.

(** The pids of the processes on [proc_list]. *)
Definition pids_of (t : ptab) : list Z := (fun a => default 0 (n_pid <$> nodes t !! a)) <$> proc_list t.

(** The part of [do_fork] that enters the new process into the table. *)
Definition enter_proc (lcpu_count proc : Z) (t : ptab) : res (Z * ptab) :=
  let* (p, ns) := get_pid lcpu_count (pids_of t) (next_safe t) (last_pid t) in
  let* t := upd proc (set_pid p) (with_pids ns p t) in
  let* t := hash_proc proc t in
  let* t := set_links proc t in
  Ok (p, t).

(** The part of [do_wait] that takes a zombie out of it. *)
Definition leave_proc (proc : Z) (t : ptab) : res ptab := remove_links proc (unhash_proc proc t).

(** ** Families *)

(** The siblings [l], youngest first, are linked in both directions; [y] is
    the younger neighbour of the first. *)
Fixpoint sib_chain (m : gmap Z pnode) (par : Z) (y : option Z) (l : list Z) : Prop :=
  match l with
  | [] => True
  | c :: l => exists x, m !! c = Some x /\ n_parent x = par /\ yptr x = y /\ optr x = hd_error l /\ sib_chain m par (Some c) l
  end.

Definition family (m : gmap Z pnode) (par : Z) (l : list Z) : Prop :=
  NoDup l /\ par ∉ l /\ (exists x, m !! par = Some x /\ cptr x = hd_error l) /\ sib_chain m par None l.

(** A node changes in fields that do not concern the chain it is in. *)
Lemma sib_chain_insert m par a f l : forall y, a ∉ l -> sib_chain m par y l -> sib_chain (<[a := f]> m) par y l.
Proof.
  induction l as [|c l IH]; intros y Hn H; [done|]. apply not_elem_of_cons in Hn as [Hne Hn].
  destruct H as (x & Hx & Hp & Hy & Ho & Hc). exists x. rewrite lookup_insert_ne by done. split_and!; auto.
Qed.

(** Changing the younger neighbour of the first. *)
Lemma sib_chain_head m par y y' c l x : c ∉ l -> m !! c = Some x -> sib_chain m par y (c :: l) ->
  sib_chain (<[c := set_yptr y' x]> m) par y' (c :: l).
Proof.
  intros Hn Hx (x' & Hx' & Hp & Hy & Ho & Hc). assert (x' = x) as -> by congruence.
  exists (set_yptr y' x). rewrite lookup_insert_eq. split_and!; try done. by apply sib_chain_insert.
Qed.

(** Only links change: every node keeps its pid and its parent. *)
Definition same_ids (m m' : gmap Z pnode) : Prop :=
  forall a, (fun x => (n_pid x, n_parent x)) <$> m' !! a = (fun x => (n_pid x, n_parent x)) <$> m !! a.

Lemma same_ids_refl m : same_ids m m.
Proof. by intros a. Qed.

Lemma same_ids_insert m m' a x x' : same_ids m m' -> m' !! a = Some x -> n_pid x' = n_pid x -> n_parent x' = n_parent x ->
  same_ids m (<[a := x']> m').
Proof.
  intros H Hx Hp Hq b. destruct (decide (a = b)) as [->|Hne]; [|by rewrite lookup_insert_ne].
  rewrite lookup_insert_eq, <- H, Hx. cbn. by rewrite Hp, Hq.
Qed.

(** What happens outside the nodes. *)
Definition links_frame (m' : gmap Z pnode) (l : list Z) (n : Z) (t t' : ptab) : Prop :=
  t' = mk_ptab m' l (hash_list t) n (next_safe t) (last_pid t).

Lemma set_links_ok t proc par l x :
  nodes t !! proc = Some x -> n_parent x = par -> proc <> par -> proc ∉ l -> family (nodes t) par l ->
  exists m', set_links proc t = Ok (mk_ptab m' (proc :: proc_list t) (hash_list t) (s32 (nr_process t + 1)) (next_safe t) (last_pid t)) /\
    family m' par (proc :: l) /\ same_ids (nodes t) m' /\ (forall a, a <> proc -> a <> par -> a ∉ l -> m' !! a = nodes t !! a).
Proof.
  intros Hx Hpar Hne Hni (Hnd & Hpl & (xp & Hxp & Hcp) & Hc). unfold set_links, upd. cbn [nodes with_procs].
  rewrite (fetch_ok _ _ _ Hx). cbn [res_bind nodes with_nodes]. set (m1 := <[proc := set_yptr None x]> (nodes t)).
  assert (H1 : m1 !! proc = Some (set_yptr None x)) by apply lookup_insert_eq. rewrite (fetch_ok _ _ _ H1). cbn [res_bind n_parent set_yptr].
  rewrite Hpar. assert (H1p : m1 !! par = Some xp) by (unfold m1; by rewrite lookup_insert_ne).
  rewrite (fetch_ok _ _ _ H1p). cbn [res_bind]. rewrite Hcp.
  set (xn := set_optr (hd_error l) (set_yptr None x)). set (m2 := <[proc := xn]> m1).
  change (with_nodes m2 (with_nodes m1 ?u)) with (with_nodes m2 u).
  assert (H2p : m2 !! par = Some xp) by (unfold m2; by rewrite lookup_insert_ne).
  assert (H2 : m2 !! proc = Some xn) by apply lookup_insert_eq.
  assert (I2 : same_ids (nodes t) m2).
  { eapply same_ids_insert; [|exact H1|done|done]. eapply same_ids_insert; [apply same_ids_refl|exact Hx|done|done]. }
  assert (O2 : forall a, a <> proc -> m2 !! a = nodes t !! a) by (intros a Ha; unfold m2, m1; by rewrite !lookup_insert_ne by done).
  assert (C2 : sib_chain m2 par None l) by (unfold m2, m1; by apply sib_chain_insert, sib_chain_insert). clearbody m2.
  assert (Hmid : exists m3, upd_opt (hd_error l) (set_yptr (Some proc)) (with_nodes m2 (with_procs (proc :: proc_list t) (nr_process t) t)) =
      Ok (with_nodes m3 (with_procs (proc :: proc_list t) (nr_process t) t)) /\
    m3 !! par = Some xp /\ m3 !! proc = Some xn /\ same_ids (nodes t) m3 /\ sib_chain m3 par (Some proc) l /\
    (forall a, a <> proc -> a ∉ l -> m3 !! a = nodes t !! a)).
  { destruct l as [|c l]; cbn [hd_error upd_opt].
    - exists m2. split_and!; auto.
    - destruct C2 as (xc & Hxc & Hcc). apply not_elem_of_cons in Hni as [Hnc Hni]. apply not_elem_of_cons in Hpl as [Hpc Hpl].
      apply NoDup_cons in Hnd as [Hcl Hnd]. exists (<[c := set_yptr (Some proc) xc]> m2).
      unfold upd. cbn [nodes with_nodes]. rewrite (fetch_ok _ _ _ Hxc). split_and!; [done|by rewrite lookup_insert_ne|by rewrite lookup_insert_ne| | |].
      + eapply same_ids_insert; [exact I2|exact Hxc|done|done].
      + eapply (sib_chain_head _ _ None); [done|done|]. by exists xc.
      + intros a Ha [Hac Hal]%not_elem_of_cons. rewrite lookup_insert_ne by done. by apply O2. }
  destruct Hmid as (m3 & -> & H3p & H3 & I3 & C3 & O3). cbn [res_bind nodes with_nodes with_procs].
  rewrite (fetch_ok _ _ _ H3p). cbn [res_bind]. exists (<[par := set_cptr (Some proc) xp]> m3). split_and!; [done| | |].
  - split_and!.
    + by constructor.
    + by apply not_elem_of_cons.
    + exists (set_cptr (Some proc) xp). by rewrite lookup_insert_eq.
    + exists xn. rewrite lookup_insert_ne by done. split_and!; try done. by apply sib_chain_insert.
  - eapply same_ids_insert; [exact I3|exact H3p|done|done].
  - intros a Ha1 Ha2 Ha3. rewrite lookup_insert_ne by done. by apply O3.
Qed.

(** Taking a sibling out, on the side of the older ones. *)
Lemma unlink_old t par y p l2 x :
  nodes t !! p = Some x -> sib_chain (nodes t) par y (p :: l2) -> NoDup (p :: l2) ->
  exists m1, upd_opt (optr x) (set_yptr (yptr x)) t = Ok (with_nodes m1 t) /\ sib_chain m1 par y l2 /\
    (forall a, a ∉ l2 -> m1 !! a = nodes t !! a) /\ same_ids (nodes t) m1.
Proof.
  intros Hx (x' & Hx' & Hp & Hy & Ho & Hc) Hnd. assert (x' = x) as -> by congruence. rewrite Ho, Hy.
  apply NoDup_cons in Hnd as [_ Hnd]. destruct l2 as [|o l2]; cbn [hd_error upd_opt].
  - exists (nodes t). split_and!; try done. by destruct t.
  - apply NoDup_cons in Hnd as [Hni Hnd]. destruct Hc as (xo & Hxo & Hrest). unfold upd. rewrite (fetch_ok _ _ _ Hxo). cbn [res_bind].
    eexists. split; [reflexivity|]. split_and!.
    + eapply (sib_chain_head _ _ (Some p)); [done|done|]. by exists xo.
    + intros a [Ha _]%not_elem_of_cons. by rewrite lookup_insert_ne.
    + eapply same_ids_insert; [apply same_ids_refl|done|done|done].
Qed.

(** And on the side of the younger ones. *)
Lemma relink_young m m' par y0 p l2 x0 : m !! y0 = Some x0 -> m' !! y0 = Some (set_optr (hd_error l2) x0) ->
  sib_chain m' par (Some y0) l2 ->
  forall l1 y, (forall a, a ∈ l1 -> m' !! a = m !! a) -> sib_chain m par y (l1 ++ y0 :: p :: l2) -> sib_chain m' par y (l1 ++ y0 :: l2).
Proof.
  intros H0 H0' Hc. induction l1 as [|c l1 IH]; intros y Hsame; cbn [app sib_chain].
  - intros (x & Hx & Hp & Hy & _). assert (x = x0) as -> by congruence. eexists. split; [exact H0'|]. by split_and!.
  - intros (x & Hx & Hp & Hy & Ho & Hrest). exists x. rewrite Hsame by left. split_and!; try done.
    + rewrite Ho. by destruct l1.
    + apply IH; [|done]. intros a Ha. apply Hsame. by right.
Qed.

(** The node of a sibling, and the one before it. *)
Lemma sib_chain_node m par p l2 : forall l1 y, sib_chain m par y (l1 ++ p :: l2) ->
  exists x, m !! p = Some x /\ n_parent x = par /\ yptr x = (match last l1 with Some c => Some c | None => y end) /\
    optr x = hd_error l2 /\ sib_chain m par (yptr x) (p :: l2).
Proof.
  induction l1 as [|c l1 IH]; intros y; cbn [app sib_chain].
  - intros (x & Hx & Hp & Hy & Ho & Hc). exists x. split_and!; try done. exists x. by split_and!.
  - intros (x & _ & _ & _ & _ & Hc). destruct (IH _ Hc) as (z & ? & ? & Hz & ? & ?). exists z. split_and!; try done.
    rewrite Hz. rewrite last_cons. by destruct (last l1).
Qed.

Lemma remove_links_ok t proc par l1 l2 :
  family (nodes t) par (l1 ++ proc :: l2) ->
  exists m', remove_links proc t = Ok (mk_ptab m' (filter (fun a => a <> proc) (proc_list t)) (hash_list t) (s32 (nr_process t - 1))
      (next_safe t) (last_pid t)) /\
    family m' par (l1 ++ l2) /\ same_ids (nodes t) m' /\ (forall a, a <> par -> a ∉ l1 ++ l2 -> m' !! a = nodes t !! a).
Proof.
  intros (Hnd & Hpl & (xp & Hxp & Hcp) & Hc). destruct (sib_chain_node _ _ _ _ _ _ Hc) as (x & Hx & Hp & Hy & Ho & Hc2).
  apply NoDup_app in Hnd as (Hnd1 & Hdis & Hnd2). apply not_elem_of_app in Hpl as [Hpl1 [Hpp Hpl2]%not_elem_of_cons].
  pose proof Hnd2 as [Hp2 Hnd2']%NoDup_cons.
  unfold remove_links. cbn [nodes with_procs]. rewrite (fetch_ok _ _ _ Hx). cbn [res_bind].
  set (t0 := with_procs _ _ t). destruct (unlink_old t0 par (yptr x) proc l2 x Hx Hc2 Hnd2) as (m1 & -> & C1 & O1 & I1). cbn [res_bind].
  assert (Hin1 : forall a, a ∈ l1 -> a ∉ l2) by (intros a Ha Ha2; apply (Hdis a Ha); by right).
  assert (H1p : m1 !! par = Some xp) by (by rewrite O1). cbn [nodes t0 with_procs] in O1, I1.
  assert (Hnd' : NoDup (l1 ++ l2)).
  { apply NoDup_app. split_and!; [done| |done]. intros a Ha. by apply Hin1. }
  destruct l1 as [|y0 l1 _] using rev_ind.
  - rewrite Hy in *. cbn [app] in *. rewrite Hp. unfold upd. cbn [nodes with_nodes]. rewrite (fetch_ok _ _ _ H1p). cbn [res_bind].
    eexists. split; [reflexivity|]. cbn [nodes with_nodes]. split_and!.
    + split_and!; try done.
      * exists (set_cptr (optr x) xp). by rewrite lookup_insert_eq, Ho.
      * by apply sib_chain_insert.
    + eapply same_ids_insert; [exact I1|exact H1p|done|done].
    + intros a Ha1 Ha2. rewrite lookup_insert_ne by done. by apply O1.
  - rewrite last_snoc in Hy. rewrite Hy in *. rewrite <- !app_assoc in *. cbn [app] in *.
    destruct (sib_chain_node _ _ _ _ _ _ Hc) as (x0 & Hx0 & Hp0 & _).
    assert (Hy2 : y0 ∉ l2) by (apply Hin1, elem_of_app; right; left).
    assert (H1y : m1 !! y0 = Some x0) by (by rewrite O1).
    unfold upd. cbn [nodes with_nodes]. rewrite (fetch_ok _ _ _ H1y). cbn [res_bind]. rewrite Ho.
    apply NoDup_app in Hnd1 as (Hnd1 & Hy1 & _). apply not_elem_of_app in Hpl1 as [Hpl1 [Hpy _]%not_elem_of_cons].
    eexists. split; [reflexivity|]. cbn [nodes with_nodes]. split_and!.
    + split_and!.
      * done.
      * rewrite not_elem_of_app, not_elem_of_cons. done.
      * exists xp. rewrite lookup_insert_ne, H1p, Hcp by done. split; [done|]. by destruct l1.
      * eapply (relink_young (nodes t) _ par y0 proc l2 x0); [done|apply lookup_insert_eq|by apply sib_chain_insert| |exact Hc].
        intros a Ha. rewrite lookup_insert_ne by (intros <-; apply (Hy1 y0 Ha); left). apply O1, Hin1, elem_of_app. by left.
    + eapply same_ids_insert; [exact I1|exact H1y|done|done].
    + intros a Ha1 Ha2. apply not_elem_of_app in Ha2 as [Ha2 [Ha3 Ha4]%not_elem_of_cons]. rewrite lookup_insert_ne by done. by apply O1.
Qed.

(** ** The hash table *)

Record tab_inv (t : ptab) : Prop := {
  ti_nodup : NoDup (proc_list t);
  ti_node : forall a, a ∈ proc_list t -> exists x, nodes t !! a = Some x /\ 1 <= n_pid x < MAX_PID;
  ti_unique : forall a b x y, a ∈ proc_list t -> b ∈ proc_list t -> nodes t !! a = Some x -> nodes t !! b = Some y ->
    n_pid x = n_pid y -> a = b;
  ti_len : length (hash_list t) = Z.to_nat HASH_LIST_SIZE;
  ti_hash : forall i l a, hash_list t !! i = Some l ->
    (a ∈ l <-> a ∈ proc_list t /\ exists x, nodes t !! a = Some x /\ Z.to_nat (pid_hashfn (n_pid x)) = i);
  ti_window : window_free (pids_of t) (last_pid t + 1) (next_safe t);
  ti_bounds : 0 <= last_pid t /\ next_safe t <= MAX_PID }.

Lemma pid_hashfn_range x : 0 <= pid_hashfn x < HASH_LIST_SIZE.
Proof.
  unfold pid_hashfn, hash32. pose proof (u32_range (u32 x * GOLDEN_RATIO_PRIME_32)) as H. revert H.
  generalize (u32 (u32 x * GOLDEN_RATIO_PRIME_32)). intros z H. unfold HASH_LIST_SIZE, HASH_SHIFT.
  rewrite Z.shiftr_div_pow2 by lia. change (Z.shiftl 1 10) with 1024. change (2 ^ (32 - 10)) with 4194304.
  split; [apply Z.div_pos; lia|apply Z.div_lt_upper_bound; lia].
Qed.

Lemma bucket t x : tab_inv t -> exists l, hash_list t !! Z.to_nat (pid_hashfn x) = Some l.
Proof. intros I. apply lookup_lt_is_Some_2. rewrite (ti_len _ I). pose proof (pid_hashfn_range x). lia. Qed.

(** The process with a pid, as the list has it. *)
Definition has_pid (t : ptab) (id a : Z) : Prop := a ∈ proc_list t /\ exists x, nodes t !! a = Some x /\ n_pid x = id.

Lemma has_pid_unique t id a b : tab_inv t -> has_pid t id a -> has_pid t id b -> a = b.
Proof. intros I (Ha & x & Hx & Ex) (Hb & y & Hy & Ey). eapply (ti_unique _ I a b); eauto. congruence. Qed.

Lemma find_chain_ok t id l :
  (forall a, a ∈ l -> exists x, nodes t !! a = Some x) ->
  returns (find_chain id l t) (fun o =>
    match o with
    | Some a => a ∈ l /\ exists x, nodes t !! a = Some x /\ n_pid x = id
    | None => forall a x, a ∈ l -> nodes t !! a = Some x -> n_pid x <> id
    end).
Proof.
  induction l as [|c l IH]; intros Hl; cbn [find_chain].
  - apply returns_ok. intros a x Ha%not_elem_of_nil. done.
  - destruct (Hl c ltac:(left)) as (x & Hx). rewrite (fetch_ok _ _ _ Hx). cbn [res_bind].
    destruct (Z.eqb_spec (n_pid x) id) as [E|E].
    + apply returns_ok. split; [left|by exists x].
    + eapply returns_mono; [apply IH; intros a Ha; apply Hl; by right|]. intros [a|].
      * intros (Ha & H). split; [by right|done].
      * intros H a y [->|Ha]%elem_of_cons Hy; [congruence|by eapply H].
Qed.

(** [find_proc] finds the process that has the pid, if there is one. *)
Lemma lookup_proc_ok t id : tab_inv t ->
  returns (lookup_proc id t) (fun o => match o with Some a => has_pid t id a | None => forall a, ~ has_pid t id a end).
Proof.
  intros I. unfold lookup_proc. destruct (Z.ltb_spec 0 id) as [H0|H0], (Z.ltb_spec id MAX_PID) as [H1|H1]; cbn [andb].
  2-4: apply returns_ok; intros a (Ha & x & Hx & <-); destruct (ti_node _ I a Ha) as (y & Hy & Hr);
    assert (y = x) as -> by congruence; lia.
  destruct (bucket t id I) as (l & Hl). rewrite Hl. eapply returns_mono; [apply find_chain_ok|].
  - intros a Ha. apply (ti_hash _ I _ _ _ Hl) in Ha as (_ & x & Hx & _). by exists x.
  - intros [a|]; cbn.
    + intros (Ha & x & Hx & E). apply (ti_hash _ I _ _ _ Hl) in Ha as (Ha & _). split; [done|by exists x].
    + intros H a (Ha & x & Hx & E). apply (H a x); [|done|done]. apply (ti_hash _ I _ _ _ Hl). split; [done|]. exists x. by subst id.
Qed.

(** So two tables that agree on who has a pid agree on [find_proc]. *)
Lemma lookup_proc_same t t' id : tab_inv t -> tab_inv t' -> (forall a, has_pid t' id a <-> has_pid t id a) ->
  lookup_proc id t' = lookup_proc id t.
Proof.
  intros I I' H. destruct (lookup_proc_ok t id I) as (o & -> & Ho), (lookup_proc_ok t' id I') as (o' & -> & Ho').
  f_equal. destruct o as [a|], o' as [a'|]; try done.
  - f_equal. apply (has_pid_unique t' id); [done|done|by apply H].
  - destruct (Ho' a). by apply H.
  - destruct (Ho a'). by apply H.
Qed.

Lemma lookup_proc_some t id a : tab_inv t -> has_pid t id a -> lookup_proc id t = Ok (Some a).
Proof.
  intros I H. destruct (lookup_proc_ok t id I) as ([b|] & -> & Ho); [by rewrite (has_pid_unique t id a b)|by destruct (Ho a)].
Qed.

Lemma lookup_proc_none t id : tab_inv t -> (forall a, ~ has_pid t id a) -> lookup_proc id t = Ok None.
Proof. intros I H. destruct (lookup_proc_ok t id I) as ([b|] & -> & Ho); [by destruct (H b)|done]. Qed.

Lemma same_ids_node m m' a x : same_ids m m' -> m !! a = Some x -> exists x', m' !! a = Some x' /\ n_pid x' = n_pid x /\ n_parent x' = n_parent x.
Proof. intros H Hx. specialize (H a). rewrite Hx in H. destruct (m' !! a) as [x'|]; [|done]. cbn in H. injection H as H1 H2. eauto. Qed.

Lemma same_ids_sym m m' : same_ids m m' -> same_ids m' m.
Proof. intros H a. symmetry. apply H. Qed.

(** The invariant only looks at pids, not at links. *)
Lemma tab_inv_links t m' n : same_ids (nodes t) m' -> tab_inv t ->
  tab_inv (mk_ptab m' (proc_list t) (hash_list t) n (next_safe t) (last_pid t)).
Proof.
  intros S I. pose proof (same_ids_sym _ _ S) as S'. split; cbn [nodes proc_list hash_list next_safe last_pid].
  - apply I.
  - intros a Ha. destruct (ti_node _ I a Ha) as (x & Hx & Hr). destruct (same_ids_node _ _ _ _ S Hx) as (x' & Hx' & E & _).
    exists x'. by rewrite E.
  - intros a b x y Ha Hb Hx Hy E. destruct (same_ids_node _ _ _ _ S' Hx) as (x0 & Hx0 & E0 & _).
    destruct (same_ids_node _ _ _ _ S' Hy) as (y0 & Hy0 & F0 & _). apply (ti_unique _ I a b x0 y0); congruence.
  - apply I.
  - intros i l a Hl. rewrite (ti_hash _ I i l a Hl). split; intros (Ha & x & Hx & E); split; try done.
    + destruct (same_ids_node _ _ _ _ S Hx) as (x' & Hx' & F & _). exists x'. by rewrite F.
    + destruct (same_ids_node _ _ _ _ S' Hx) as (x' & Hx' & F & _). exists x'. by rewrite F.
  - assert (pids_of (mk_ptab m' (proc_list t) (hash_list t) n (next_safe t) (last_pid t)) = pids_of t) as ->; [|apply I].
    unfold pids_of. cbn [nodes proc_list]. apply list_fmap_ext. intros _ a _. specialize (S a).
    destruct (m' !! a), (nodes t !! a); cbn in *; congruence.
  - apply I.
Qed.

Lemma elem_of_pids t p : tab_inv t -> p ∈ pids_of t <-> exists a, has_pid t p a.
Proof.
  intros I. unfold pids_of. rewrite list_elem_of_fmap. split.
  - intros (a & -> & Ha). destruct (ti_node _ I a Ha) as (x & Hx & _). exists a. split; [done|]. exists x. by rewrite Hx.
  - intros (a & Ha & x & Hx & <-). exists a. by rewrite Hx.
Qed.

Section Add.
Context (t : ptab) (proc p ns n : Z) (x : pnode) (l : list Z).
Context (I : tab_inv t) (Hni : proc ∉ proc_list t) (Hp : 1 <= p < ns) (Hns : ns <= MAX_PID) (Hfree : p ∉ pids_of t).
Context (Hwin : forall l', (forall q, q ∈ l' -> q = p \/ q ∈ pids_of t) -> window_free l' (p + 1) ns).
Context (Hl : hash_list t !! Z.to_nat (pid_hashfn p) = Some l).

Let t' : ptab := mk_ptab (<[proc := set_pid p x]> (nodes t)) (proc :: proc_list t)
  (<[Z.to_nat (pid_hashfn p) := proc :: l]> (hash_list t)) n ns p.

Lemma old_node a : a ∈ proc_list t -> nodes t' !! a = nodes t !! a.
Proof. intros Ha. unfold t'. cbn. rewrite lookup_insert_ne; [done|]. intros ->. done. Qed.

Lemma old_pid a y : a ∈ proc_list t -> nodes t !! a = Some y -> n_pid y <> p.
Proof. intros Ha Hy E. apply Hfree, elem_of_pids; [done|]. exists a. split; [done|]. by exists y. Qed.

Lemma tab_inv_add : tab_inv t'.
Proof.
  assert (Hnew : nodes t' !! proc = Some (set_pid p x)) by apply lookup_insert_eq.
  split.
  - constructor; [done|apply I].
  - intros a [->|Ha]%elem_of_cons; [exists (set_pid p x); split; [done|cbn; lia]|]. rewrite old_node by done. by apply (ti_node _ I).
  - intros a b y z [->|Ha]%elem_of_cons [->|Hb]%elem_of_cons Hy Hz E; try done.
    + rewrite old_node in Hz by done. rewrite Hnew in Hy. injection Hy as <-. destruct (old_pid b z Hb Hz). by cbn in E.
    + rewrite old_node in Hy by done. rewrite Hnew in Hz. injection Hz as <-. destruct (old_pid a y Ha Hy). by cbn in E.
    + rewrite old_node in Hy, Hz by done. by apply (ti_unique _ I a b y z).
  - unfold t'; cbn [hash_list]. rewrite length_insert. apply I.
  - assert (Hold : forall i b a, hash_list t !! i = Some b -> a ∈ proc_list t ->
      (a ∈ b <-> exists y, nodes t' !! a = Some y /\ Z.to_nat (pid_hashfn (n_pid y)) = i)).
    { intros i b a Hb Ha. rewrite (ti_hash _ I i b a Hb), old_node by done.
      split; [by intros [_ H]|by intros H; split]. }
    assert (Hin : forall i b a, hash_list t !! i = Some b -> a ∈ b -> a ∈ proc_list t).
    { intros i b a Hb Ha. by apply (ti_hash _ I i b a Hb). }
    intros i b a. unfold t' at 1; cbn [hash_list]. intros [(<- & <- & _)|(Hne & Hb)]%list_lookup_insert_Some.
    + split.
      * intros [->|Ha]%elem_of_cons; [split; [left|]; by exists (set_pid p x)|].
        pose proof (Hin _ _ _ Hl Ha) as Hal. split; [by right|]. by apply (Hold _ _ _ Hl Hal).
      * intros ([->|Ha]%elem_of_cons & H); [left|right]. by apply (Hold _ _ _ Hl Ha).
    + split.
      * intros Ha. pose proof (Hin _ _ _ Hb Ha) as Hal. split; [by right|]. by apply (Hold _ _ _ Hb Hal).
      * intros ([->|Ha]%elem_of_cons & H).
        -- destruct H as (y & Hy & E). rewrite Hnew in Hy. injection Hy as <-. done.
        -- by apply (Hold _ _ _ Hb Ha).
  - apply Hwin. intros q. unfold pids_of at 1, t'. cbn [proc_list nodes]. rewrite fmap_cons, lookup_insert_eq.
    intros [->|Hq]%elem_of_cons; [by left|right]. revert Hq. unfold pids_of. rewrite !list_elem_of_fmap.
    intros (a & -> & Ha). exists a. split; [|done]. f_equal. f_equal. by apply old_node.
  - unfold t'; cbn [last_pid next_safe]. lia.
Qed.

Lemma add_has_pid id a : has_pid t' id a <-> (id = p /\ a = proc) \/ has_pid t id a.
Proof.
  assert (Hnew : nodes t' !! proc = Some (set_pid p x)) by apply lookup_insert_eq. split.
  - intros ([->|Ha]%elem_of_cons & y & Hy & E).
    + left. rewrite Hnew in Hy. injection Hy as <-. by cbn in E.
    + right. rewrite old_node in Hy by done. split; [done|by exists y].
  - intros [[-> ->]|(Ha & y & Hy & E)].
    + split; [left|by exists (set_pid p x)].
    + split; [by right|]. exists y. by rewrite old_node.
Qed.

End Add.

Lemma tab_inv_del t proc n : tab_inv t ->
  tab_inv (mk_ptab (nodes t) (filter (fun a => a <> proc) (proc_list t)) ((fun l => filter (fun a => a <> proc) l) <$> hash_list t)
    n (next_safe t) (last_pid t)).
Proof.
  intros I. split; cbn [nodes proc_list hash_list next_safe last_pid].
  - apply NoDup_filter, I.
  - intros a [_ Ha]%list_elem_of_filter. by apply (ti_node _ I).
  - intros a b x y [_ Ha]%list_elem_of_filter [_ Hb]%list_elem_of_filter. by apply (ti_unique _ I).
  - rewrite length_fmap. apply I.
  - intros i l a Hl. apply list_lookup_fmap_Some in Hl as (b & -> & Hb). rewrite !list_elem_of_filter, (ti_hash _ I i b a Hb). tauto.
  - intros q Hq. apply (ti_window _ I q). revert Hq. unfold pids_of; cbn [nodes proc_list]. rewrite !list_elem_of_fmap.
    intros (a & E & [_ Ha]%list_elem_of_filter). by exists a.
  - apply I.
Qed.

Lemma has_pid_links t t' id a : proc_list t' = proc_list t -> same_ids (nodes t) (nodes t') -> has_pid t' id a <-> has_pid t id a.
Proof.
  intros El S. unfold has_pid. rewrite El. pose proof (same_ids_sym _ _ S) as S'. split; intros (Ha & x & Hx & E); split; try done.
  - destruct (same_ids_node _ _ _ _ S' Hx) as (y & Hy & F & _). exists y. by rewrite F.
  - destruct (same_ids_node _ _ _ _ S Hx) as (y & Hy & F & _). exists y. by rewrite F.
Qed.

Lemma family_set_pid m proc p x par l : proc <> par -> proc ∉ l -> family m par l -> family (<[proc := set_pid p x]> m) par l.
Proof.
  intros Hne Hni (A & B & (y & Hy & Hc) & D). split_and!; try done; [|by apply sib_chain_insert].
  exists y. by rewrite lookup_insert_ne.
Qed.

Lemma enter_proc_ok lcpu_count t proc x l :
  tab_inv t -> Z.of_nat (length (proc_list t)) <= MAX_PROCESS -> 1 <= lcpu_count < MAX_PID ->
  nodes t !! proc = Some x -> proc ∉ proc_list t -> proc <> n_parent x -> proc ∉ l -> family (nodes t) (n_parent x) l ->
  returns (enter_proc lcpu_count proc t) (fun '(p, t') => tab_inv t' /\ 1 <= p < MAX_PID /\ lookup_proc p t = Ok None /\
    lookup_proc p t' = Ok (Some proc) /\ (forall id, id <> p -> lookup_proc id t' = lookup_proc id t) /\
    family (nodes t') (n_parent x) (proc :: l)).
Proof.
  intros I Hlen Hc Hx Hni Hpar Hl Hfam. unfold enter_proc. destruct (ti_bounds _ I) as [B1 B2].
  eapply returns_bind; [apply get_pid_ok; try done; [by unfold pids_of; rewrite length_fmap|apply I]|].
  intros [p ns] (Hp & Hns & Hfree & Hwin). unfold upd. cbn [nodes with_pids]. rewrite (fetch_ok _ _ _ Hx). cbn [res_bind].
  unfold hash_proc. cbn [nodes with_nodes]. rewrite (fetch_ok _ proc (set_pid p x)) by apply lookup_insert_eq.
  cbn [res_bind n_pid set_pid hash_list with_nodes with_pids]. destruct (bucket t p I) as (b & Hb). rewrite Hb. cbn [res_bind].
  set (t1 := with_hash _ _).
  destruct (set_links_ok t1 proc (n_parent x) l (set_pid p x)) as (m' & -> & F & S & _); try done.
  { apply lookup_insert_eq. } { by apply family_set_pid. }
  cbn [res_bind]. apply returns_ok. cbn [proc_list hash_list nr_process next_safe last_pid nodes t1 with_hash with_nodes with_pids] in *.
  pose proof (tab_inv_add t proc p ns (s32 (nr_process t + 1)) x b I Hni Hp Hns Hfree Hwin Hb) as I1.
  set (t2 := mk_ptab _ (proc :: proc_list t) _ (s32 (nr_process t + 1)) ns p) in I1.
  pose proof (tab_inv_links t2 m' (s32 (nr_process t + 1)) S I1) as I2. cbn [t2 proc_list hash_list next_safe last_pid] in I2.
  set (t3 := mk_ptab m' _ _ _ _ _) in I2 |- *.
  assert (Hhas : forall id a, has_pid t3 id a <-> (id = p /\ a = proc) \/ has_pid t id a).
  { intros id a. rewrite (has_pid_links t2 t3 id a eq_refl S). by apply add_has_pid. }
  split_and!; [done|lia|lia| | | |done].
  - apply lookup_proc_none; [done|]. intros a Ha. apply Hfree, elem_of_pids; [done|]. by exists a.
  - apply lookup_proc_some; [done|]. apply Hhas. by left.
  - intros id Hid. apply lookup_proc_same; [done|done|]. intros a. rewrite Hhas. tauto.
Qed.

Lemma leave_proc_ok t proc x l1 l2 :
  tab_inv t -> proc ∈ proc_list t -> nodes t !! proc = Some x -> family (nodes t) (n_parent x) (l1 ++ proc :: l2) ->
  returns (leave_proc proc t) (fun t' => tab_inv t' /\ lookup_proc (n_pid x) t' = Ok None /\
    (forall id, id <> n_pid x -> lookup_proc id t' = lookup_proc id t) /\ family (nodes t') (n_parent x) (l1 ++ l2)).
Proof.
  intros I Hin Hx Hfam. unfold leave_proc.
  destruct (remove_links_ok (unhash_proc proc t) proc (n_parent x) l1 l2 Hfam) as (m' & -> & F & S & _). apply returns_ok.
  cbn [proc_list hash_list nr_process next_safe last_pid nodes unhash_proc with_hash] in *.
  pose proof (tab_inv_del t proc (s32 (nr_process t - 1)) I) as I1. set (t1 := mk_ptab _ _ _ _ _ _) in I1.
  pose proof (tab_inv_links t1 m' (s32 (nr_process t - 1)) S I1) as I2. cbn [t1 proc_list hash_list next_safe last_pid] in I2.
  set (t2 := mk_ptab _ _ _ _ _ _) in I2 |- *.
  assert (Hhas : forall id a, has_pid t2 id a <-> a <> proc /\ has_pid t id a).
  { intros id a. rewrite (has_pid_links t1 t2 id a eq_refl S). unfold has_pid. cbn [t1 proc_list nodes]. rewrite list_elem_of_filter. tauto. }
  split_and!; [done| | |done].
  - apply lookup_proc_none; [done|]. intros a [Hne Ha]%Hhas. apply Hne, (has_pid_unique t (n_pid x)); [done|done|]. split; [done|by exists x].
  - intros id Hid. apply lookup_proc_same; [done|done|]. intros a. rewrite Hhas. split; [by intros [_ H]|]. intros H. split; [|done].
    intros ->. destruct H as (_ & y & Hy & <-). congruence.
Qed.

(** C37: The table of processes.  Entering a new process gives it a pid nobody
    has, under which [find_proc] finds it and nothing else changes, and makes
    it its parent's youngest child; taking a process out makes its pid unknown,
    leaves every other pid alone and closes the gap among its siblings.  Both
    keep the list, the hash table and the pids consistent. *)
Theorem proc_table_spec lcpu_count t proc x :
  tab_inv t -> nodes t !! proc = Some x ->
  (forall l, Z.of_nat (length (proc_list t)) <= MAX_PROCESS -> 1 <= lcpu_count < MAX_PID ->
     proc ∉ proc_list t -> proc <> n_parent x -> proc ∉ l -> family (nodes t) (n_parent x) l ->
     returns (enter_proc lcpu_count proc t) (fun '(p, t') => tab_inv t' /\ 1 <= p < MAX_PID /\ lookup_proc p t = Ok None /\
       lookup_proc p t' = Ok (Some proc) /\ (forall id, id <> p -> lookup_proc id t' = lookup_proc id t) /\
       family (nodes t') (n_parent x) (proc :: l))) /\
  (forall l1 l2, proc ∈ proc_list t -> family (nodes t) (n_parent x) (l1 ++ proc :: l2) ->
     returns (leave_proc proc t) (fun t' => tab_inv t' /\ lookup_proc (n_pid x) t' = Ok None /\
       (forall id, id <> n_pid x -> lookup_proc id t' = lookup_proc id t) /\ family (nodes t') (n_parent x) (l1 ++ l2))).
Proof. intros I Hx. split; intros; [by apply enter_proc_ok|by apply leave_proc_ok]. Qed.

(** *** Witnesses *)

(** Pids 1 and 2 are taken, 8191 was the last. *)
Lemma get_pid_spec_witness : returns (get_pid 1 [2; 1] 8192 8191) (fun '(p, ns) => p ∉ [2; 1]).
Proof.
  eapply returns_mono.
  - apply (get_pid_spec 1 [2; 1] 8192 8191); try (unfold MAX_PID, MAX_PROCESS; cbn; lia).
    intros p Hp Hr. apply elem_of_cons in Hp as [->|[->|Hp%not_elem_of_nil]%elem_of_cons]; lia || done.
  - intros [p ns] (_ & _ & H & _). exact H.
Defined.

Example get_pid_runs : get_pid 1 [2; 1] 8192 8191 = Ok (3, 8192).
Proof. vm_compute. reflexivity. Qed.

(** With two processors, the pid of the idle process of the second one can be
    handed out: the search wraps around to 1, not to [lcpu_count]. *)
Example get_pid_two_cpus : get_pid 2 [8191] 8191 8190 = Ok (1, 8191).
Proof. vm_compute. reflexivity. Qed.

(** Process 10 at pid 0 (idle), without children; process 11 is to be its child. *)
Definition demo_ptab : ptab :=
  mk_ptab {[10 := mk_pnode 0 0 None None None; 11 := mk_pnode 0 10 None None None]} [] (repeat [] 1024) 1 8192 8192.

Lemma demo_ptab_inv : tab_inv demo_ptab.
Proof.
  split; cbn [demo_ptab nodes proc_list hash_list next_safe last_pid].
  - constructor.
  - intros a Ha%not_elem_of_nil. done.
  - intros a b x y Ha%not_elem_of_nil. done.
  - by rewrite repeat_length.
  - intros i l a Hl. apply list_elem_of_lookup_2, list_elem_of_In, repeat_spec in Hl. subst l. split.
    + intros Ha%not_elem_of_nil. done.
    + intros [Ha%not_elem_of_nil _]. done.
  - intros p Hp%not_elem_of_nil. done.
  - unfold MAX_PID, MAX_PROCESS. lia.
Qed.

Lemma proc_table_spec_witness : returns (enter_proc 1 11 demo_ptab) (fun '(p, t') => lookup_proc p t' = Ok (Some 11)).
Proof.
  eapply returns_mono.
  - apply (proj1 (proc_table_spec 1 demo_ptab 11 (mk_pnode 0 10 None None None) demo_ptab_inv eq_refl) []);
      try (unfold MAX_PID, MAX_PROCESS; cbn; lia); try apply not_elem_of_nil.
    split_and!; [constructor|apply not_elem_of_nil| |done]. by eexists.
  - intros [p t'] (_ & _ & _ & H & _). exact H.
Defined.
