(* ===== verification/Event.v ===== *)
(** * Event: event boxes, a rendezvous between two processes (sync/event.c)

    A sender stores the event in its own box and waits on the queue of the
    receiver; the receiver takes the first sender off its queue. *)
From Stdlib Require Import Sorted.
From S2P Require Import Prelude KState Sched Timer Resume Wait Sem Vma Uaccess Procs.

Definition event_box_init (p : Z) (s : kstate) : res kstate :=
  let* x := get_proc p s in Ok (wait_queue_init (event_queue x) s).

(** [find_proc] of process/proc.c: the process with the given pid. *)
Definition find_proc (id : Z) (s : kstate) : option Z :=
  if (0 <? id) && (id <? MAX_PID) then
    fst <$> List.find (fun px => pid px.2 =? id) (map_to_list (procs s))
  else None.

Section Event.
Context (C : sched_class).
Context (KERNBASE KERNTOP : Z).
Context {E : Type} `{HU : HasU E}.
(** The processes that never receive events. *)
Context (initproc kswapd : Z).

(** [wait] is the stack slot [__wait]. *)
Definition send_event (p : Z) (timer : option Z) (wait : Z) : code (sys E) Z :=
  do s <- get;
  do x <- lift (get_proc p (ks s));
  do_ update (wait_current_set (event_queue x) wait WT_EVENT_SEND);
  do_ update (ipc_add_timer timer);
  do_ yield C;
  do_ update (ipc_del_timer timer);
  do_ update (wait_current_del (event_queue x) wait);
  do s <- get;
  do w <- lift (fetch (waits (ks s)) wait);
  ret (if negb (wakeup_flags w =? WT_EVENT_SEND) then wakeup_flags w else 0).

Definition ipc_event_send (timer wait : Z) (id ev timeout : Z) : code (sys E) Z :=
  do s <- get;
  match find_proc id (ks s) with
  | None => ret (- E_INVAL)
  | Some p =>
      do x <- lift (get_proc p (ks s));
      if decide (state x = PROC_ZOMBIE) then ret (- E_INVAL) else
      if bool_decide (p = current (ks s)) || bool_decide (p = idleproc (ks s)) ||
         bool_decide (p = initproc) || bool_decide (p = kswapd) then ret (- E_INVAL) else
      do_ (if wait_state x =? WT_EVENT_RECV then update (wakeup_proc C p) else ret tt);
      do_ update (fun k => upd_proc (current k) (set_event ev) k);
      do s <- get;
      let '(tm, saved_ticks, k) := ipc_timer_init timeout timer (ks s) in
      do_ update (fun _ => Ok k);
      do flags <- send_event p tm wait;
      if flags =? 0 then ret 0 else
      check flags =? WT_INTERRUPTED;
      do s <- get;
      ret (ipc_check_timeout timeout saved_ticks (ks s))
  end.

(** The second part of [recv_event]: the result is the pid and the event of the
    first sender. *)
Definition take_event (wq : Z) (s : kstate) : res (option (Z * Z) * kstate) :=
  let* wait := wait_queue_first wq s in
  match wait with
  | Some w =>
      let* wt := fetch (waits s) w in
      let* x := get_proc (wproc wt) s in
      let* s := wakeup_wait C wq w WT_EVENT_SEND true s in
      Ok (Some (pid x, event x), s)
  | None => Ok (None, s)
  end.

Definition recv_event (timer : option Z) : code (sys E) (option (Z * Z)) :=
  do s <- get;
  do c <- lift (get_proc (current (ks s)) (ks s));
  do empty <- lift (wait_queue_empty (event_queue c) (ks s));
  do_ (if (empty : bool) then
         do_ update (fun k => let* k := upd_proc (current k) (set_state PROC_SLEEPING) k in
                              upd_proc (current k) (set_wait_state WT_EVENT_RECV) k);
         do_ update (ipc_add_timer timer);
         do_ yield C;
         update (ipc_del_timer timer)
       else ret tt);
  atomic (take_event (event_queue c)).

(** [timer] and [wait] are stack slots; a null pointer is [None]. *)
Definition ipc_event_recv (timer wait : Z) (pid_store event_store : option Z) (timeout : Z) : code (sys E) Z :=
  match event_store with
  | None => ret (- E_INVAL)
  | Some ea =>
      do s <- get;
      let p := current (ks s) in
      do ok1 <- (match pid_store with
                 | Some pa => fun s => let* (b, s) := check_user KERNBASE KERNTOP p pa 4 true s in Ok (Done b s)
                 | None => ret true
                 end);
      if negb ok1 then ret (- E_INVAL) else
      do ok2 <- (fun s => let* (b, s) := check_user KERNBASE KERNTOP p ea 4 true s in Ok (Done b s));
      if negb ok2 then ret (- E_INVAL) else
      do s <- get;
      let '(tm, saved_ticks, k) := ipc_timer_init timeout timer (ks s) in
      do_ update (fun _ => Ok k);
      do r <- recv_event tm;
      match r with
      | Some (id, ev) =>
          do_ lock_mm C p wait;
          do r1 <- (match pid_store with
                    | Some pa => fun s => let* (b, s) := copy_to_user KERNBASE KERNTOP p pa (word_bytes id) s in Ok (Done b s)
                    | None => ret true
                    end);
          do r2 <- (if (r1 : bool) then
                      fun s => let* (b, s) := copy_to_user KERNBASE KERNTOP p ea (word_bytes ev) s in Ok (Done b s)
                    else ret false);
          do_ unlock_mm C p;
          ret (if (r2 : bool) then 0 else - E_INVAL)
      | None =>
          do s <- get;
          ret (ipc_check_timeout timeout saved_ticks (ks s))
      end
  end.

End Event.

(** ** Properties *)

(** Receiving with a sender waiting: the receiver does not block and gets the
    pid and the event of the sender that came first; that sender, and no other
    one, leaves the queue, is runnable, and finds in its [wait_t] the flags that
    make [send_event] return 0. *)
Theorem recv_event_spec (C : sched_class) (OK : SchedClassOk C) (E : Type) (s : sys E) timer c w l wt x :
  sync_inv C (ks s) -> procs (ks s) !! current (ks s) = Some c ->
  wqs (ks s) !! event_queue c = Some (w :: l) -> waits (ks s) !! w = Some wt -> procs (ks s) !! wproc wt = Some x ->
  (forall sem y, sems (ks s) !! sem = Some y -> sem_wq y <> event_queue c) ->
  finishes (recv_event C timer s) (fun r s' =>
    r = Some (pid x, event x) /\ ext s' = ext s /\ sync_inv C (ks s') /\
    wqs (ks s') = <[event_queue c := l]> (wqs (ks s)) /\
    waits (ks s') = <[w := mk_wait (wproc wt) WT_EVENT_SEND (event_queue c)]> (waits (ks s)) /\
    exists x', procs (ks s') !! wproc wt = Some x' /\ state x' = PROC_RUNNABLE).
Proof.
  intros [I W T M] Hc Hq Hw Hx Hsep. unfold recv_event. rewrite bind_get. unfold get_proc.
  rewrite (fetch_ok _ _ _ Hc), bind_lift. unfold wait_queue_empty. rewrite (fetch_ok _ _ _ Hq). cbn [res_bind].
  rewrite bind_lift, bool_decide_false by done. unfold bind; cbn [ret res_bind run_bind].
  apply finishes_atomic. unfold take_event, wait_queue_first. rewrite (fetch_ok _ _ _ Hq). cbn [res_bind hd_error].
  rewrite (fetch_ok _ _ _ Hw). cbn [res_bind]. unfold get_proc. rewrite (fetch_ok _ _ _ Hx). cbn [res_bind].
  eapply returns_bind; [apply (wakeup_wait_ok C (ks s) (event_queue c) w (w :: l) wt); auto; left|].
  intros s' (I' & W' & K). apply returns_ok. cbn [fst snd ext ks].
  pose proof (wakes_fields _ _ _ K) as (E1 & E2 & E3 & E4 & E5 & _).
  cbn [wqs waits sems timers timer_list released upd_wait set_waits set_wqs] in E1, E2, E3, E4, E5.
  rewrite filter_head_NoDup in E1 by exact (wi_nodup _ W _ _ Hq).
  split_and!; auto.
  - split; [done|done|by apply (timer_inv_frame (ks s))|]. split; rewrite E3; [|apply M]. intros sem y Hy.
    rewrite E1, lookup_insert_ne by (symmetry; by eapply Hsep). by apply (smi_queue _ M sem).
  - destruct K as [_ (y0 & y & _ & Hy & Hr & _)]. eauto.
Qed.

(** *** Witness: process 10 receives from process 13. *)
Definition demo_event : kstate :=
  set_wqs {[1002 := [600]]} (set_waits {[600 := mk_wait 13 WT_INTERRUPTED 1002]} demo).

Lemma demo_event_inv : sync_inv MLFQ_sched_class demo_event.
Proof.
  split.
  - apply (sched_inv_frame _ _ demo); try done. apply demo_MLFQ.
  - split; cbn [wqs waits demo_event set_wqs set_waits].
    + intros q l [<- <-]%lookup_singleton_Some. apply NoDup_singleton.
    + intros q l w [<- <-]%lookup_singleton_Some Hw%list_elem_of_singleton. subst w.
      eexists; split; [apply lookup_singleton_eq|]. split; [done|]. eexists; split; [reflexivity|]. by split.
  - split; [split|]; [constructor|intros ? H%not_elem_of_nil; done|constructor|constructor].
  - split; cbn; intros; done.
Qed.

Lemma recv_event_spec_witness :
  finishes (recv_event MLFQ_sched_class None (mk_sys demo_event tt)) (fun r s' => r = Some (5, 0)).
Proof.
  eapply finishes_mono.
  - apply (recv_event_spec MLFQ_sched_class MLFQ_class_ok unit (mk_sys demo_event tt) None
      (demo_proc PROC_RUNNABLE 2 0 (Some 0%nat) 3) 600 [] (mk_wait 13 WT_INTERRUPTED 1002)
      (demo_proc PROC_SLEEPING 5 WT_SIGNAL (Some 0%nat) 0)); try done. apply demo_event_inv.
  - by intros r s' [-> _].
Defined.
