(* ===== verification/Mbox.v ===== *)
(** * Mbox: message boxes (sync/mbox.c)

    A message box is a bounded queue of messages.  Senders wait while it is
    full, receivers while it is empty, and closing it wakes both.  The boxes
    live in pages that are allocated on demand; a closed box is on
    [free_mbox_list]. *)
From Stdlib Require Import Sorted.
From S2P Require Import Prelude KState Sched Timer Resume Wait Sem Sleep Vma Uaccess.

(** ** Data *)

(** A message: the data behind [struct msg_msg], then the chain of segments,
    each with its address. *)
Record msg_msg := mk_msg { m_pid : Z; m_bytes : Z; m_data : list Z; m_segs : list (Z * list Z) }.

Inductive mbox_state := CLOSED | OPENED | CLOSING.

#[export] Instance mbox_state_eq_dec : EqDecision mbox_state.
Proof. solve_decision. Defined.

(** [struct msg_mbox]; [mb_msgs] are the messages on [msg_link]. *)
Record msg_mbox := mk_mbox {
  mb_id : Z; mb_inuse : Z; mb_state : mbox_state; max_slots : Z; slots : Z; mb_msgs : list Z }.

(** [sizeof(struct msg_mbox)], [sizeof(struct msg_msg)] and the offsets of the
    two wait queues. *)
Definition sizeof_mbox : Z := 44.
Definition sizeof_msg : Z := 20.
Definition senders (mbox : Z) : Z := mbox + 28.
Definition receivers (mbox : Z) : Z := mbox + 36.

Definition MAX_MBOX_NUM : Z := 8192.
Definition MBOX_P_PAGE : Z := PGSIZE / sizeof_mbox.
Definition MAX_MBOX_PAGES : Z := (MAX_MBOX_NUM + MBOX_P_PAGE - 1) / MBOX_P_PAGE.
Definition MAX_MSG_DATALEN : Z := 512 - sizeof_msg.
Definition MAX_MSG_SLOTS : Z := 0x1000.
Definition MAX_MSG_BYTES : Z := 0x10000.

(** The state of this component, beside the address spaces. *)
Record mbox_ext := mk_me {
  mu : uctx;
  mboxes : gmap Z msg_mbox;         (* the boxes, by address *)
  mbox_map : list (option Z);       (* mbox_map[MAX_MBOX_PAGES] *)
  free_mbox_list : list Z;
  msgs : gmap Z msg_msg             (* the messages, by address *)
}.

#[export] Instance mbox_HasU : HasU mbox_ext.
Proof.
  by refine {| getu := mu; setu u x := mk_me u (mboxes x) (mbox_map x) (free_mbox_list x) (msgs x) |}.
Defined.

Notation "'msys'" := (sys mbox_ext).

Definition set_mboxes (m : gmap Z msg_mbox) (x : mbox_ext) : mbox_ext := mk_me (mu x) m (mbox_map x) (free_mbox_list x) (msgs x).
Definition set_free_list (l : list Z) (x : mbox_ext) : mbox_ext := mk_me (mu x) (mboxes x) (mbox_map x) l (msgs x).
Definition set_map (l : list (option Z)) (x : mbox_ext) : mbox_ext := mk_me (mu x) (mboxes x) l (free_mbox_list x) (msgs x).
Definition set_msgs (m : gmap Z msg_msg) (x : mbox_ext) : mbox_ext := mk_me (mu x) (mboxes x) (mbox_map x) (free_mbox_list x) m.

Definition with_ext (f : mbox_ext -> mbox_ext) (s : msys) : msys := mk_sys (ks s) (f (ext s)).
Definition with_ks (f : kstate -> res kstate) (s : msys) : res msys := let* k := f (ks s) in Ok (mk_sys k (ext s)).

Definition get_box (mbox : Z) (s : msys) : res msg_mbox := fetch (mboxes (ext s)) mbox.
Definition put_box (mbox : Z) (b : msg_mbox) (s : msys) : msys := with_ext (set_mboxes (<[mbox := b]> (mboxes (ext s)))) s.
Definition upd_box (mbox : Z) (f : msg_mbox -> msg_mbox) (s : msys) : res msys :=
  let* b := get_box mbox s in Ok (put_box mbox (f b) s).
Definition set_st (st : mbox_state) (b : msg_mbox) : msg_mbox :=
  mk_mbox (mb_id b) (mb_inuse b) st (max_slots b) (slots b) (mb_msgs b).
Definition add_inuse (d : Z) (b : msg_mbox) : msg_mbox :=
  mk_mbox (mb_id b) (s32 (mb_inuse b + d)) (mb_state b) (max_slots b) (slots b) (mb_msgs b).
Definition set_slots (n : Z) (l : list Z) (b : msg_mbox) : msg_mbox :=
  mk_mbox (mb_id b) (mb_inuse b) (mb_state b) (max_slots b) n l.

(** A function on the whole state, as code. *)
Definition step {A} (f : msys -> res (A * msys)) : code msys A := fun s => let* (a, s) := f s in Ok (Done a s).
Definition step_ (f : msys -> res msys) : code msys unit := fun s => let* s := f s in Ok (Done tt s).

(** ** Boxes *)

Definition mbox_init (sem_mbox_map : Z) (s : msys) : msys :=
  mk_sys (sem_init sem_mbox_map 1 (ks s))
    (set_free_list [] (set_map (repeat None (Z.to_nat MAX_MBOX_PAGES)) (ext s))).

(** [None] is NULL. *)
Definition get_mbox (id : Z) (s : msys) : res (option Z) :=
  if (0 <=? id) && (id <? MAX_MBOX_NUM) then
    let i := id / MBOX_P_PAGE in
    let j := id mod MBOX_P_PAGE in
    match mbox_map (ext s) !! Z.to_nat i with
    | Some (Some page) =>
        let mbox := page + sizeof_mbox * j in
        let* b := get_box mbox s in
        Ok (if decide (mb_state b = OPENED) then Some mbox else None)
    | Some None => Ok None
    | None => Panic
    end
  else Ok None.

Definition mbox_free (mbox : Z) (s : msys) : res msys :=
  let* b := get_box mbox s in
  assert! bool_decide (mb_state b = CLOSING) && (mb_inuse b =? 0) ;;
  assert! bool_decide (mb_msgs b = []) ;;
  let* e1 := wait_queue_empty (senders mbox) (ks s) in
  assert! e1 ;;
  let* e2 := wait_queue_empty (receivers mbox) (ks s) in
  assert! e2 ;;
  let s := put_box mbox (mk_mbox (mb_id b) (mb_inuse b) CLOSED 0 0 (mb_msgs b)) s in
  Ok (with_ext (fun x => set_free_list (free_mbox_list x ++ [mbox]) x) s).

Section Mbox.
Context (C : sched_class).
Context (KERNBASE KERNTOP : Z).
Context (sem_mbox_map : Z).     (* the address of the semaphore *)
(** What a block of memory holds that [kmalloc] returned: it is not cleared. *)
Context (junk : Z -> nat -> list Z).

Definition add_msg (mbox msg : Z) (append : bool) (s : msys) : res msys :=
  let* b := get_box mbox s in
  assert! bool_decide (mb_state b = OPENED) ;;
  let l := if append then mb_msgs b ++ [msg] else msg :: mb_msgs b in
  let s := put_box mbox (set_slots (u32 (slots b + 1)) l b) s in
  with_ks (wakeup_first C (receivers mbox) WT_MBOX_RECV true) s.

(** The result is the return value and [*msg_store]. *)
Definition pick_msg (mbox max_bytes : Z) (s : msys) : res (Z * option Z * msys) :=
  let* b := get_box mbox s in
  assert! bool_decide (mb_state b = OPENED) && (0 <? slots b) ;;
  match mb_msgs b with
  | [] => Panic
  | msg :: l =>
      let* m := fetch (msgs (ext s)) msg in
      if max_bytes <? m_bytes m then Ok (- E_TOO_BIG, None, s) else
      let s := put_box mbox (set_slots (u32 (slots b - 1)) l b) s in
      let* s := with_ks (wakeup_first C (senders mbox) WT_MBOX_SEND true) s in
      Ok (0, Some msg, s)
  end.

(** [for (i = 0; i < MAX_MBOX_PAGES; i ++) if (mbox_map[i] == NULL) break;] *)
Fixpoint first_null (l : list (option Z)) : nat :=
  match l with
  | [] => O
  | None :: _ => O
  | Some _ :: l => S (first_null l)
  end.

(** The loop that sets up the boxes of a new page. *)
Fixpoint init_page (cnt : nat) (id mbox : Z) (s : msys) : msys :=
  match cnt with
  | O => s
  | S cnt =>
      let s := put_box mbox (mk_mbox id 0 CLOSED 0 0 []) s in
      let s := mk_sys (wait_queue_init (receivers mbox) (wait_queue_init (senders mbox) (ks s))) (ext s) in
      let s := with_ext (fun x => set_free_list (free_mbox_list x ++ [mbox]) x) s in
      init_page cnt (id + 1) (mbox + sizeof_mbox) s
  end.

(** [page] is the address of the page [alloc_page] returned. *)
Definition new_mbox (page : option Z) (maxs : Z) (s : msys) : res (option Z * msys) :=
  let open (s : msys) :=
    match free_mbox_list (ext s) with
    | [] => Panic
    | mbox :: l =>
        let s := with_ext (set_free_list l) s in
        let* b := get_box mbox s in
        Ok (Some mbox, put_box mbox (mk_mbox (mb_id b) (mb_inuse b) OPENED maxs (slots b) []) s)
    end in
  match free_mbox_list (ext s) with
  | [] =>
      let i := first_null (mbox_map (ext s)) in
      if Z.of_nat i =? MAX_MBOX_PAGES then Ok (None, s) else
      match page with
      | Some a =>
          let s := with_ext (fun x => set_map (<[i := Some a]> (mbox_map x)) x) s in
          open (init_page (Z.to_nat MBOX_P_PAGE) (Z.of_nat i * MBOX_P_PAGE) a s)
      | None => Ok (None, s)
      end
  | _ => open s
  end.

Definition ipc_mbox_init (page : option Z) (wait maxs : Z) : code msys Z :=
  if (maxs =? 0) || (MAX_MSG_SLOTS <? maxs) then ret (- E_INVAL) else
  do_ down C sem_mbox_map wait;
  do r <- step (fun s =>
    let* (o, s) := new_mbox page maxs s in
    match o with
    | Some mbox => let* b := get_box mbox s in Ok (mb_id b, s)
    | None => Ok (- E_NO_MEM, s)
    end);
  do_ update (up C sem_mbox_map);
  ret r.

(** ** Messages *)

(** [kfree] of the message and of its segments. *)
Definition free_msg (msg : Z) (s : msys) : res msys :=
  let* _ := fetch (msgs (ext s)) msg in
  Ok (with_ext (fun x => set_msgs (delete msg (msgs x)) x) s).

(** [copy_from_user] into a block of the kernel; its result is not looked at. *)
Definition fill (p dst src alen : Z) (s : msys) : res (list Z * msys) :=
  let* (o, s) := copy_from_user KERNBASE KERNTOP p src alen false s in
  Ok (default (junk dst (Z.to_nat alen)) o, s).

(** The loop of [load_msg]: [allocs] are the results of [kmalloc]; the result
    [None] is [goto failed]. *)
Fixpoint load_segs (allocs : list (option Z)) (fuel : nat) (p src len : Z) (s : msys) :
    res (option (list (Z * list Z)) * msys) :=
  if 0 <? len then
    match fuel with
    | O => Panic
    | S fuel =>
        let alen := if MAX_MSG_DATALEN <? len then MAX_MSG_DATALEN else len in
        match default None (hd_error allocs) with
        | None => Ok (None, s)
        | Some seg =>
            let* (bs, s) := fill p seg src alen s in
            let* (o, s) := load_segs (tail allocs) fuel p (u32 (src + alen)) (len - alen) s in
            Ok ((fun l => (seg, bs) :: l) <$> o, s)
        end
    end
  else Ok (Some [], s).

Definition load_msg (allocs : list (option Z)) (src len : Z) (s : msys) : res (option Z * msys) :=
  let p := current (ks s) in
  let alen := if MAX_MSG_DATALEN <? len then MAX_MSG_DATALEN else len in
  match default None (hd_error allocs) with
  | None => Ok (None, s)
  | Some msg =>
      let* (bs, s) := fill p msg src alen s in
      let* (o, s) := load_segs (tail allocs) (Z.to_nat len) p (u32 (src + alen)) (len - alen) s in
      match o with
      | None => Ok (None, s)      (* failed: free_msg(msg) *)
      | Some segs =>
          let* x := get_proc p (ks s) in
          Ok (Some msg, with_ext (fun x' => set_msgs (<[msg := mk_msg (pid x) len bs segs]> (msgs x')) x') s)
      end
  end.

(** [copy_to_user] of the first [alen] bytes of a block. *)
Definition drain (p dst : Z) (bs : list Z) (alen : Z) (s : msys) : res msys :=
  let* (_, s) := copy_to_user KERNBASE KERNTOP p dst (take (Z.to_nat alen) bs) s in Ok s.

Fixpoint store_segs (segs : list (Z * list Z)) (fuel : nat) (p dst len : Z) (s : msys) : res msys :=
  if 0 <? len then
    match fuel with
    | O => Panic
    | S fuel =>
        let alen := if MAX_MSG_DATALEN <? len then MAX_MSG_DATALEN else len in
        match segs with
        | [] => Panic                       (* assert(seg != NULL) *)
        | (_, bs) :: segs =>
            let* s := drain p dst bs alen s in
            store_segs segs fuel p (u32 (dst + alen)) (len - alen) s
        end
    end
  else Ok s.

Definition store_msg (msg dst : Z) (s : msys) : res msys :=
  let p := current (ks s) in
  let* m := fetch (msgs (ext s)) msg in
  let len := m_bytes m in
  let alen := if MAX_MSG_DATALEN <? len then MAX_MSG_DATALEN else len in
  let* s := drain p dst (m_data m) alen s in
  store_segs (m_segs m) (Z.to_nat len) p (u32 (dst + alen)) (len - alen) s.

(** ** Sending and receiving *)

(** The common end of [send_msg] and [recv_msg]: [nz] is [ret != 0]. *)
Definition leave (mbox : Z) (nz : bool) (s : msys) : res msys :=
  let* s := upd_box mbox (add_inuse (-1)) s in
  let* b := get_box mbox s in
  if negb (bool_decide (mb_state b = OPENED)) then
    assert! nz && bool_decide (mb_state b = CLOSING) ;;
    if mb_inuse b =? 0 then mbox_free mbox s else Ok s
  else Ok s.

(** The loop [while (mbox->max_slots <= mbox->slots)]: one unit of [fuel] per
    turn, a turn is one wakeup.  The result is [None] when the loop ends, and
    [Some ret] at [goto out]. *)
Fixpoint send_wait (fuel : nat) (mbox : Z) (timer : option Z) (wait : Z) : code msys (option Z) :=
  do s <- get;
  do b <- lift (get_box mbox s);
  if max_slots b <=? slots b then
    match fuel with
    | O => lift Panic
    | S fuel =>
        check bool_decide (mb_state b = OPENED);
        do_ update (wait_current_set (senders mbox) wait WT_MBOX_SEND);
        do_ update (ipc_add_timer timer);
        do_ yield C;
        do_ update (ipc_del_timer timer);
        do_ update (wait_current_del (senders mbox) wait);
        do s <- get;
        do b <- lift (get_box mbox s);
        do w <- lift (fetch (waits (ks s)) wait);
        if negb (bool_decide (mb_state b = OPENED)) || negb (wakeup_flags w =? WT_MBOX_SEND) then
          ret (Some (if wakeup_flags w =? WT_MBOX_SEND then WT_INTERRUPTED else wakeup_flags w))
        else send_wait fuel mbox timer wait
    end
  else ret None.

Definition send_msg (fuel : nat) (mbox msg : Z) (timer : option Z) (wait : Z) : code msys Z :=
  do_ step_ (upd_box mbox (add_inuse 1));
  do o <- send_wait fuel mbox timer wait;
  do r <- (match o with
           | Some r => ret r
           | None =>
               do s <- get;
               do b <- lift (get_box mbox s);
               check bool_decide (mb_state b = OPENED) && (slots b <? max_slots b);
               do_ step_ (add_msg mbox msg true);
               ret 0
           end);
  do_ step_ (leave mbox (negb (r =? 0)));
  ret r.

Definition mboxbuf_len (bs : list Z) : Z := word_at bs 4.
Definition mboxbuf_size (bs : list Z) : Z := word_at bs 8.
Definition mboxbuf_data (bs : list Z) : Z := word_at bs 12.

(** [timer] and [wait] are stack slots, [allocs] what [kmalloc] returns. *)
Definition ipc_mbox_send (allocs : list (option Z)) (fuel : nat) (timer wait id buf timeout : Z) : code msys Z :=
  do o <- step (fun s => let* o := get_mbox id s in Ok (o, s));
  match o with
  | None => ret (- E_INVAL)
  | Some _ =>
      do s <- get;
      let p := current (ks s) in
      do_ lock_mm C p wait;
      do r <- step (fun s =>
        let* (o, s) := copy_from_user KERNBASE KERNTOP p buf 16 false s in
        match o with
        | None => Ok (inl (- E_INVAL), s)
        | Some bs =>
            let len := mboxbuf_len bs in
            if (0 <? len) && (len <=? MAX_MSG_BYTES) then
              let* (b, s) := check_user KERNBASE KERNTOP p (mboxbuf_data bs) len false s in
              if (b : bool) then
                let* (m, s) := load_msg allocs (mboxbuf_data bs) len s in
                match m with
                | Some msg => Ok (inr msg, s)
                | None => Ok (inl (- E_NO_MEM), s)
                end
              else Ok (inl (- E_INVAL), s)
            else Ok (inl (- E_INVAL), s)
        end);
      do_ unlock_mm C p;
      match r with
      | inl e => ret e
      | inr msg =>
          do o <- step (fun s => let* o := get_mbox id s in Ok (o, s));
          match o with
          | None => do_ step_ (free_msg msg); ret (- E_INVAL)
          | Some mbox =>
              do s <- get;
              let '(tm, saved_ticks, k) := ipc_timer_init timeout timer (ks s) in
              do_ update (fun _ => Ok k);
              do flags <- send_msg fuel mbox msg tm wait;
              if flags =? 0 then ret 0 else
              check flags =? WT_INTERRUPTED;
              do s <- get;
              do_ step_ (free_msg msg);
              ret (ipc_check_timeout timeout saved_ticks (ks s))
          end
      end
  end.

(** [true] when the loop ended, [false] at [goto out]. *)
Fixpoint recv_wait (fuel : nat) (mbox : Z) (timer : option Z) (wait : Z) : code msys bool :=
  do s <- get;
  do b <- lift (get_box mbox s);
  if slots b =? 0 then
    match fuel with
    | O => lift Panic
    | S fuel =>
        check bool_decide (mb_state b = OPENED);
        do_ update (wait_current_set (receivers mbox) wait WT_MBOX_RECV);
        do_ update (ipc_add_timer timer);
        do_ yield C;
        do_ update (ipc_del_timer timer);
        do_ update (wait_current_del (receivers mbox) wait);
        do s <- get;
        do b <- lift (get_box mbox s);
        do w <- lift (fetch (waits (ks s)) wait);
        if negb (bool_decide (mb_state b = OPENED)) || negb (wakeup_flags w =? WT_MBOX_RECV) then ret false
        else recv_wait fuel mbox timer wait
    end
  else ret true.

(** The result is the return value and [*msg_store]. *)
Definition recv_msg (fuel : nat) (mbox max_bytes : Z) (timer : option Z) (wait : Z) : code msys (Z * option Z) :=
  do_ step_ (upd_box mbox (add_inuse 1));
  do ok <- recv_wait fuel mbox timer wait;
  do r <- (if (ok : bool) then
             do s <- get;
             do b <- lift (get_box mbox s);
             check bool_decide (mb_state b = OPENED) && (0 <? slots b);
             check negb (bool_decide (mb_msgs b = []));
             do r <- step (fun s => let* (r, o, s) := pick_msg mbox max_bytes s in Ok ((r, o), s));
             do_ (if negb (r.1 =? 0) then update (wakeup_first C (receivers mbox) WT_MBOX_RECV true) else ret tt);
             ret r
           else ret (-1, None));
  do_ step_ (leave mbox (negb (r.1 =? 0)));
  ret r.

(** [struct mboxbuf] with the fields the receiver fills in. *)
Definition mboxbuf_reply (bs : list Z) (len from : Z) : list Z :=
  word_bytes from ++ word_bytes len ++ drop 8 bs.

Definition ipc_mbox_recv (fuel : nat) (timer wait id buf timeout : Z) : code msys Z :=
  do o <- step (fun s => let* o := get_mbox id s in Ok (o, s));
  match o with
  | None => ret (- E_INVAL)
  | Some _ =>
      do s <- get;
      let p := current (ks s) in
      do_ lock_mm C p wait;
      do r <- step (fun s =>
        let* (o, s) := copy_from_user KERNBASE KERNTOP p buf 16 true s in
        match o with
        | None => Ok (None, s)
        | Some bs =>
            if 0 <? mboxbuf_size bs then
              let* (b, s) := check_user KERNBASE KERNTOP p (mboxbuf_data bs) (mboxbuf_size bs) true s in
              Ok (if (b : bool) then Some bs else None, s)
            else Ok (None, s)
        end);
      do_ unlock_mm C p;
      do o <- step (fun s => let* o := get_mbox id s in Ok (o, s));
      match r, o with
      | Some bs, Some mbox =>
          do s <- get;
          let '(tm, saved_ticks, k) := ipc_timer_init timeout timer (ks s) in
          do_ update (fun _ => Ok k);
          do ro <- recv_msg fuel mbox (mboxbuf_size bs) tm wait;
          match ro with
          | (0, Some msg) =>
              do_ lock_mm C p wait;
              do e <- step (fun s =>
                let* m := fetch (msgs (ext s)) msg in
                let* (b, s) := copy_to_user KERNBASE KERNTOP p buf (mboxbuf_reply bs (m_bytes m) (m_pid m)) s in
                if (b : bool) then
                  let* (b, s) := check_user KERNBASE KERNTOP p (mboxbuf_data bs) (m_bytes m) true s in
                  if (b : bool) then let* s := store_msg msg (mboxbuf_data bs) s in Ok (0, s)
                  else Ok (- E_INVAL, s)
                else Ok (- E_INVAL, s));
              do_ unlock_mm C p;
              if negb (e =? 0) then
                do o <- step (fun s => let* o := get_mbox id s in Ok (o, s));
                match o with
                | Some mbox => do_ step_ (add_msg mbox msg false); ret e
                | None => do_ step_ (free_msg msg); ret e
                end
              else
                do_ step_ (free_msg msg); ret e
          | (r, _) =>
              if r =? -1 then
                do s <- get;
                ret (ipc_check_timeout timeout saved_ticks (ks s))
              else ret r
          end
      | _, _ => ret (- E_INVAL)
      end
  end.

(** ** Closing *)

(** [while ((le = list_next(list)) != list) { list_del(le); free_msg(...); }] *)
Fixpoint drop_msgs (mbox : Z) (l : list Z) (s : msys) : res msys :=
  match l with
  | [] => Ok s
  | msg :: l =>
      let* s := upd_box mbox (fun b => set_slots (slots b) l b) s in
      let* s := free_msg msg s in
      drop_msgs mbox l s
  end.

Definition ipc_mbox_free (id : Z) (s : msys) : res (Z * msys) :=
  let* o := get_mbox id s in
  match o with
  | None => Ok (- E_INVAL, s)
  | Some mbox =>
      let* s := upd_box mbox (set_st CLOSING) s in
      let* b := get_box mbox s in
      let* s := drop_msgs mbox (mb_msgs b) s in
      let* s := with_ks (wakeup_queue C (senders mbox) WT_INTERRUPTED true) s in
      let* s := with_ks (wakeup_queue C (receivers mbox) WT_INTERRUPTED true) s in
      let* b := get_box mbox s in
      let* s := if mb_inuse b =? 0 then mbox_free mbox s else Ok s in
      Ok (0, s)
  end.

Definition ipc_mbox_info (wait id info : Z) : code msys Z :=
  do o <- step (fun s => let* o := get_mbox id s in Ok (o, s));
  match o with
  | None => ret (- E_INVAL)
  | Some mbox =>
      do s <- get;
      do b <- lift (get_box mbox s);
      do e1 <- lift (wait_queue_empty (senders mbox) (ks s));
      do e2 <- lift (wait_queue_empty (receivers mbox) (ks s));
      let bw (b : bool) := word_bytes (if b then 1 else 0) in
      let bytes := word_bytes (slots b) ++ word_bytes (max_slots b) ++ bw (negb (mb_inuse b =? 0)) ++
                   bw (negb e1) ++ bw (negb e2) in
      let p := current (ks s) in
      do_ lock_mm C p wait;
      do ok <- step (fun s => let* (b, s) := copy_to_user KERNBASE KERNTOP p info bytes s in Ok (b, s));
      do_ unlock_mm C p;
      ret (if (ok : bool) then 0 else - E_INVAL)
  end.

(** [for (j = 0; j < MBOX_P_PAGE; ...) if (mbox->state != CLOSED) break;] *)
Fixpoint all_closed (cnt : nat) (mbox : Z) (s : msys) : res bool :=
  match cnt with
  | O => Ok true
  | S cnt =>
      let* b := get_box mbox s in
      if bool_decide (mb_state b = CLOSED) then all_closed cnt (mbox + sizeof_mbox) s else Ok false
  end.

(** Unlinking the boxes of a page; the page is given back, so they are gone. *)
Fixpoint drop_boxes (cnt : nat) (mbox : Z) (x : mbox_ext) : mbox_ext :=
  match cnt with
  | O => x
  | S cnt =>
      drop_boxes cnt (mbox + sizeof_mbox)
        (set_mboxes (delete mbox (mboxes x)) (set_free_list (filter (fun b => b <> mbox) (free_mbox_list x)) x))
  end.

Fixpoint cleanup_pages (cnt i : nat) (s : msys) : res msys :=
  match cnt with
  | O => Ok s
  | S cnt =>
      match mbox_map (ext s) !! i with
      | None => Panic
      | Some None => cleanup_pages cnt (S i) s
      | Some (Some page) =>
          let* closed := all_closed (Z.to_nat MBOX_P_PAGE) page s in
          if closed then
            let s := with_ext (drop_boxes (Z.to_nat MBOX_P_PAGE) page) s in
            cleanup_pages cnt (S i) (with_ext (fun x => set_map (<[i := None]> (mbox_map x)) x) s)
          else cleanup_pages cnt (S i) s
      end
  end.

Definition mbox_cleanup (s : msys) : res msys := cleanup_pages (Z.to_nat MAX_MBOX_PAGES) 0 s.

End Mbox.

(** ** Messages in and out of user memory *)

(** The data of a message of [len] bytes, block by block. *)
Fixpoint chunked (len : Z) (l : list (list Z)) : Prop :=
  match l with
  | [] => len <= 0
  | bs :: l => 0 < len /\ Z.of_nat (length bs) = Z.min MAX_MSG_DATALEN len /\ chunked (len - Z.min MAX_MSG_DATALEN len) l
  end.

Definition blocks_of (m : msg_msg) : list (list Z) := m_data m :: (m_segs m).*2.

(** [p] may read (or write) the buffer. *)
Definition user_buf (p : Z) (write : bool) (a len : Z) (s : msys) : Prop :=
  exists m, mms (mu (ext s)) p = Some m /\ mm_inv m /\ USERBASE <= a /\ a + len <= USERTOP /\
    forall x, a <= x < a + len -> accessible m write x.

(** The states differ in the cache of the address space of [p] only. *)
Record same_mm (p : Z) (s s' : msys) : Prop := {
  sm_ks : ks s' = ks s;
  sm_boxes : mboxes (ext s') = mboxes (ext s) /\ mbox_map (ext s') = mbox_map (ext s) /\
    free_mbox_list (ext s') = free_mbox_list (ext s) /\ msgs (ext s') = msgs (ext s);
  sm_mem : umem (mu (ext s')) = umem (mu (ext s));
  sm_other : forall q, q <> p -> mms (mu (ext s')) q = mms (mu (ext s)) q;
  sm_mm : forall m, mms (mu (ext s)) p = Some m ->
    exists m', mms (mu (ext s')) p = Some m' /\ (mm_inv m -> mm_inv m') /\ mmap_list m' = mmap_list m }.

Lemma alen_min len : (if MAX_MSG_DATALEN <? len then MAX_MSG_DATALEN else len) = Z.min MAX_MSG_DATALEN len.
Proof. destruct (Z.ltb_spec MAX_MSG_DATALEN len); lia. Qed.

Lemma min_pos len : 0 < len -> 0 < Z.min MAX_MSG_DATALEN len <= len.
Proof. unfold MAX_MSG_DATALEN, sizeof_msg. lia. Qed.

Lemma user_buf_sub p w a len b n s :
  user_buf p w a len s -> a <= b -> b + n <= a + len -> user_buf p w b n s.
Proof. intros (m & Hm & I & Hl & Hh & Ha) Hb Hn. exists m. split_and!; [done..|lia|lia|]. intros x Hx. apply Ha. lia. Qed.

Section SameMm.
Context (p : Z).

Lemma same_mm_refl s : same_mm p s s.
Proof. split; auto. intros m Hm. by exists m. Qed.

Lemma same_mm_trans s1 s2 s3 : same_mm p s1 s2 -> same_mm p s2 s3 -> same_mm p s1 s3.
Proof.
  intros [A1 (B1 & B2 & B3 & B4) D1 E1 F1] [A2 (G1 & G2 & G3 & G4) D2 E2 F2]. split.
  - congruence.
  - split_and!; congruence.
  - congruence.
  - intros q Hq. by rewrite E2, E1.
  - intros m Hm. destruct (F1 m Hm) as (m1 & Hm1 & I1 & L1). destruct (F2 m1 Hm1) as (m2 & Hm2 & I2 & L2).
    exists m2. split_and!; [done|auto|congruence].
Qed.

Lemma user_buf_same w a len s s' : same_mm p s s' -> user_buf p w a len s -> user_buf p w a len s'.
Proof.
  intros S (m & Hm & I & Hl & Hh & Ha). destruct (sm_mm _ _ _ S m Hm) as (m' & Hm' & I' & L').
  exists m'. split_and!; auto. intros x Hx. destruct (Ha x Hx) as (y & Hy & Hy'). exists y. by rewrite L'.
Qed.

Context (KERNBASE KERNTOP : Z).

(** A check of a buffer the process may use succeeds. *)
Lemma check_buf w a len s :
  user_buf p w a len s -> 0 < len ->
  exists s', check_user KERNBASE KERNTOP p a len w s = Ok (true, s') /\ same_mm p s s'.
Proof.
  intros (m & Hm & I & Hl & Hh & Ha) Hn. unfold USERBASE, USERTOP in *.
  assert (Hw : u32 (a + len) = a + len) by (apply u32_small; lia).
  destruct (check_user_exact (HU := mbox_HasU) KERNBASE KERNTOP p a len w m s Hm I) as ([b s'] & E & (m' & -> & I' & L') & Hb).
  rewrite Hw in Hb. assert (b = true) as ->.
  { apply Hb. split; [apply USER_ACCESS_spec; unfold USERBASE, USERTOP; lia|done]. }
  eexists; split; [exact E|]. split; cbn; auto.
  - intros q Hq. by rewrite fn_lookup_insert_ne by done.
  - intros m0 Hm0. rewrite fn_lookup_insert. exists m'. assert (m0 = m) as -> by congruence. by split_and!.
Qed.

Lemma copy_from_buf a len s :
  user_buf p false a len s -> 0 < len ->
  exists s', copy_from_user KERNBASE KERNTOP p a len false s =
    Ok (Some (read_bytes (umem (mu (ext s)) p) a (Z.to_nat len)), s') /\ same_mm p s s'.
Proof.
  intros Hb Hn. destruct (check_buf false a len s Hb Hn) as (s' & E & S). exists s'. split; [|done].
  unfold copy_from_user. rewrite E. cbn [res_bind].
  change (@getu _ mbox_HasU (ext s')) with (mu (ext s')). by rewrite (sm_mem _ _ _ S).
Qed.

(** Writing [bs] at [a] in the memory of [p]. *)
Record wrote (a : Z) (bs : list Z) (s s' : msys) : Prop := {
  wr_ks : ks s' = ks s;
  wr_boxes : mboxes (ext s') = mboxes (ext s) /\ mbox_map (ext s') = mbox_map (ext s) /\
    free_mbox_list (ext s') = free_mbox_list (ext s) /\ msgs (ext s') = msgs (ext s);
  wr_mem : umem (mu (ext s')) p = write_bytes (umem (mu (ext s)) p) a bs;
  wr_other : forall q, q <> p -> umem (mu (ext s')) q = umem (mu (ext s)) q;
  wr_buf : forall w b n, user_buf p w b n s -> user_buf p w b n s' }.

Lemma copy_to_buf a bs s :
  user_buf p true a (Z.of_nat (length bs)) s -> bs <> [] ->
  exists s', copy_to_user KERNBASE KERNTOP p a bs s = Ok (true, s') /\ wrote a bs s s'.
Proof.
  intros Hb Hne. destruct (check_buf true a (Z.of_nat (length bs)) s Hb) as (s' & E & S).
  { destruct bs; [done|cbn; lia]. }
  eexists. unfold copy_to_user. rewrite E. cbn [res_bind]. split; [reflexivity|]. destruct S as [A B D F G] eqn:ES.
  destruct B as (B1 & B2 & B3 & B4). split; cbn.
  - done.
  - done.
  - rewrite fn_lookup_insert. by rewrite D.
  - intros q Hq. rewrite fn_lookup_insert_ne by done. by rewrite D.
  - intros w b n Hu. apply (user_buf_same w b n s s') in Hu; [|done].
    destruct Hu as (m & Hm & ?). by exists m.
Qed.

Lemma wrote_trans a bs cs s1 s2 s3 :
  wrote a bs s1 s2 -> wrote (a + Z.of_nat (length bs)) cs s2 s3 -> wrote a (bs ++ cs) s1 s3.
Proof.
  intros [A1 (B1 & B2 & B3 & B4) D1 E1 F1] [A2 (G1 & G2 & G3 & G4) D2 E2 F2]. split.
  - congruence.
  - split_and!; congruence.
  - by rewrite D2, D1, write_bytes_app.
  - intros q Hq. by rewrite E2, E1.
  - auto.
Qed.

End SameMm.

Section RoundTrip.
Context (KERNBASE KERNTOP : Z) (junk : Z -> nat -> list Z).

(** [kmalloc] succeeds for the first [n] requests. *)
Definition supplied (n : nat) (allocs : list (option Z)) : Prop :=
  forall i, (i < n)%nat -> exists a, allocs !! i = Some (Some a).

(** The number of blocks of [len] bytes. *)
Definition nblocks (len : Z) : nat := Z.to_nat ((len + MAX_MSG_DATALEN - 1) / MAX_MSG_DATALEN).

Lemma nblocks_pos len : 0 < len -> nblocks len = S (nblocks (len - Z.min MAX_MSG_DATALEN len)).
Proof.
  unfold nblocks, MAX_MSG_DATALEN, sizeof_msg. change (512 - 20) with 492. intros H.
  destruct (Z.le_gt_cases len 492).
  - replace (len - Z.min 492 len) with 0 by lia. cbn.
    assert ((len + 492 - 1) / 492 = 1) as -> by (symmetry; apply Z.div_unique with (r := len - 1); lia). done.
  - replace (len - Z.min 492 len) with (len - 492) by lia.
    replace (len - 492 + 492 - 1) with (len - 1) by lia.
    replace (len + 492 - 1) with (len - 1 + 1 * 492) by lia. rewrite Z.div_add by lia.
    assert (0 <= (len - 1) / 492) by (apply Z.div_pos; lia). lia.
Qed.

Lemma supplied_cons n allocs : supplied (S n) allocs -> exists a, default None (hd_error allocs) = Some a /\ supplied n (tail allocs).
Proof.
  intros H. destruct (H 0%nat ltac:(lia)) as (a & Ha). exists a. destruct allocs as [|o allocs]; [done|]. cbn in *. injection Ha as ->.
  split; [done|]. intros i Hi. apply (H (S i)). lia.
Qed.

Lemma read_split f a len n : 0 <= n <= len ->
  read_bytes f a (Z.to_nat len) = read_bytes f a (Z.to_nat n) ++ read_bytes f (a + n) (Z.to_nat (len - n)).
Proof.
  intros H. replace (Z.to_nat len) with (Z.to_nat n + Z.to_nat (len - n))%nat by lia.
  rewrite read_bytes_app. do 2 f_equal. lia.
Qed.

Lemma fill_ok p dst src alen s :
  user_buf p false src alen s -> 0 < alen ->
  exists s', fill KERNBASE KERNTOP junk p dst src alen s =
    Ok (read_bytes (umem (mu (ext s)) p) src (Z.to_nat alen), s') /\ same_mm p s s'.
Proof.
  intros Hb Hn. destruct (copy_from_buf p KERNBASE KERNTOP src alen s Hb Hn) as (s' & E & S).
  exists s'. unfold fill. rewrite E. done.
Qed.

Lemma load_segs_ok p fuel : forall allocs src len s,
  user_buf p false src len s -> 0 <= len <= Z.of_nat fuel -> supplied (nblocks len) allocs ->
  exists segs s', load_segs KERNBASE KERNTOP junk allocs fuel p src len s = Ok (Some segs, s') /\ same_mm p s s' /\
    concat segs.*2 = read_bytes (umem (mu (ext s)) p) src (Z.to_nat len) /\ chunked len segs.*2.
Proof.
  induction fuel as [|fuel IH]; intros allocs src len s Hb Hf Hs; cbn [load_segs].
  - destruct (Z.ltb_spec 0 len); [lia|]. exists [], s. replace len with 0 by lia. split_and!; [done|apply same_mm_refl|done|cbn; lia].
  - destruct (Z.ltb_spec 0 len) as [Hl|Hl].
    2:{ exists [], s. replace len with 0 by lia. split_and!; [done|apply same_mm_refl|done|cbn; lia]. }
    rewrite alen_min. pose proof (min_pos len Hl) as Hm. set (n := Z.min MAX_MSG_DATALEN len) in *.
    rewrite nblocks_pos in Hs by done. fold n in Hs. apply supplied_cons in Hs as (seg & -> & Hs).
    destruct (fill_ok p seg src n s) as (s1 & E1 & S1); [by eapply user_buf_sub; [done|lia..]|lia|]. rewrite E1. cbn [res_bind].
    assert (Hw : u32 (src + n) = src + n).
    { destruct Hb as (m & _ & _ & H1 & H2 & _). unfold USERBASE, USERTOP in *. apply u32_small. lia. }
    rewrite Hw. destruct (IH (tail allocs) (src + n) (len - n) s1) as (segs & s2 & E2 & S2 & Ec & Hc); [|lia|done|].
    { eapply user_buf_same; [done|]. eapply user_buf_sub; [done|lia..]. }
    rewrite E2. cbn [res_bind fmap option_fmap option_map]. exists ((seg, read_bytes (umem (mu (ext s)) p) src (Z.to_nat n)) :: segs), s2.
    split_and!; [done|by eapply same_mm_trans| |].
    + cbn. rewrite Ec, (sm_mem _ _ _ S1). by rewrite <- read_split by lia.
    + cbn. rewrite length_read_bytes. fold n. split_and!; [done|lia|done].
Qed.

Lemma load_msg_ok allocs src len s x :
  user_buf (current (ks s)) false src len s -> 0 < len -> supplied (nblocks len) allocs ->
  procs (ks s) !! current (ks s) = Some x ->
  exists msg m s1, load_msg KERNBASE KERNTOP junk allocs src len s =
      Ok (Some msg, with_ext (fun y => set_msgs (<[msg := m]> (msgs y)) y) s1) /\
    same_mm (current (ks s)) s s1 /\ m_bytes m = len /\ m_pid m = pid x /\ chunked len (blocks_of m) /\
    concat (blocks_of m) = read_bytes (umem (mu (ext s)) (current (ks s))) src (Z.to_nat len).
Proof.
  intros Hb Hl Hs Hx. unfold load_msg. rewrite alen_min. pose proof (min_pos len Hl) as Hm.
  set (p := current (ks s)) in *. set (n := Z.min MAX_MSG_DATALEN len) in *.
  rewrite nblocks_pos in Hs by done. fold n in Hs. apply supplied_cons in Hs as (msg & -> & Hs).
  destruct (fill_ok p msg src n s) as (s1 & E1 & S1); [by eapply user_buf_sub; [done|lia..]|lia|]. rewrite E1. cbn [res_bind].
  assert (Hw : u32 (src + n) = src + n).
  { destruct Hb as (m & _ & _ & H1 & H2 & _). unfold USERBASE, USERTOP in *. apply u32_small. lia. }
  rewrite Hw. destruct (load_segs_ok p (Z.to_nat len) (tail allocs) (src + n) (len - n) s1) as (segs & s2 & E2 & S2 & Ec & Hc);
    [|lia|done|].
  { eapply user_buf_same; [done|]. eapply user_buf_sub; [done|lia..]. }
  rewrite E2. cbn [res_bind]. pose proof (same_mm_trans _ _ _ _ S1 S2) as S3. unfold get_proc.
  rewrite (sm_ks _ _ _ S3). fold p in Hx. rewrite (fetch_ok _ _ _ Hx). cbn [res_bind].
  eexists msg, _, s2. split; [reflexivity|]. split_and!; [done..| |].
  - cbn. rewrite length_read_bytes. fold n. split_and!; [done|lia|done].
  - cbn. rewrite Ec, (sm_mem _ _ _ S1). by rewrite <- read_split by lia.
Qed.

Lemma drain_ok p dst bs alen s :
  Z.of_nat (length bs) = alen -> 0 < alen -> user_buf p true dst alen s ->
  exists s', drain KERNBASE KERNTOP p dst bs alen s = Ok s' /\ wrote p dst bs s s'.
Proof.
  intros Hl Hn Hb. unfold drain. rewrite firstn_all2 by lia.
  destruct (copy_to_buf p KERNBASE KERNTOP dst bs s) as (s' & E & W); [by rewrite Hl|by intros ->; cbn in Hl; lia|].
  exists s'. by rewrite E.
Qed.

Lemma wrote_nil p a s : wrote p a [] s s.
Proof. split; auto. Qed.

Lemma store_segs_ok p fuel : forall segs dst len s,
  user_buf p true dst len s -> 0 <= len <= Z.of_nat fuel -> chunked len segs.*2 ->
  exists s', store_segs KERNBASE KERNTOP segs fuel p dst len s = Ok s' /\ wrote p dst (concat segs.*2) s s'.
Proof.
  induction fuel as [|fuel IH]; intros [|[seg bs] segs] dst len s Hb Hf Hc; cbn [store_segs]; cbn in Hc.
  - destruct (Z.ltb_spec 0 len); [lia|]. exists s. split; [done|apply wrote_nil].
  - lia.
  - destruct (Z.ltb_spec 0 len); [lia|]. exists s. split; [done|apply wrote_nil].
  - destruct Hc as (Hl & Hn & Hc). rewrite (proj2 (Z.ltb_lt 0 len) Hl). rewrite alen_min.
    pose proof (min_pos len Hl) as Hm. set (n := Z.min MAX_MSG_DATALEN len) in *.
    destruct (drain_ok p dst bs n s) as (s1 & E1 & W1); [done|lia|by eapply user_buf_sub; [done|lia..]|]. rewrite E1. cbn [res_bind].
    assert (Hw : u32 (dst + n) = dst + n).
    { destruct Hb as (m & _ & _ & H1 & H2 & _). unfold USERBASE, USERTOP in *. apply u32_small. lia. }
    rewrite Hw. destruct (IH segs (dst + n) (len - n) s1) as (s2 & E2 & W2); [|lia|done|].
    { apply (wr_buf _ _ _ _ _ W1). eapply user_buf_sub; [done|lia..]. }
    exists s2. split; [done|]. cbn. eapply wrote_trans; [done|]. by rewrite Hn.
Qed.

Lemma store_msg_ok msg m dst s :
  msgs (ext s) !! msg = Some m -> 0 < m_bytes m -> chunked (m_bytes m) (blocks_of m) ->
  user_buf (current (ks s)) true dst (m_bytes m) s ->
  exists s', store_msg KERNBASE KERNTOP msg dst s = Ok s' /\ wrote (current (ks s)) dst (concat (blocks_of m)) s s'.
Proof.
  intros Hm Hl (_ & Hn & Hc) Hb. unfold store_msg. rewrite (fetch_ok _ _ _ Hm). cbn [res_bind]. rewrite alen_min.
  pose proof (min_pos (m_bytes m) Hl) as Hmin. set (n := Z.min MAX_MSG_DATALEN (m_bytes m)) in *. set (p := current (ks s)) in *.
  destruct (drain_ok p dst (m_data m) n s) as (s1 & E1 & W1); [done|lia|by eapply user_buf_sub; [done|lia..]|]. rewrite E1. cbn [res_bind].
  assert (Hw : u32 (dst + n) = dst + n).
  { destruct Hb as (m' & _ & _ & H1 & H2 & _). unfold USERBASE, USERTOP in *. apply u32_small. lia. }
  rewrite Hw. destruct (store_segs_ok p (Z.to_nat (m_bytes m)) (m_segs m) (dst + n) (m_bytes m - n) s1) as (s2 & E2 & W2); [|lia|done|].
  { apply (wr_buf _ _ _ _ _ W1). eapply user_buf_sub; [done|lia..]. }
  exists s2. split; [done|]. cbn. eapply wrote_trans; [done|]. by rewrite Hn.
Qed.

Lemma chunked_length l : forall len, 0 <= len -> chunked len l -> Z.of_nat (length (concat l)) = len.
Proof.
  induction l as [|bs l IH]; intros len H0 Hc; cbn in *; [lia|]. destruct Hc as (Hl & Hn & Hc).
  rewrite length_app. pose proof (min_pos len Hl). rewrite Nat2Z.inj_add, Hn, (IH (len - Z.min MAX_MSG_DATALEN len) ltac:(lia) Hc). lia.
Qed.

End RoundTrip.

(** ** Boxes *)

Section Boxes.
Context (C : sched_class) `{OK : !SchedClassOk C}.

Lemma get_box_ok mbox b s : mboxes (ext s) !! mbox = Some b -> get_box mbox s = Ok b.
Proof. intros H. by apply fetch_ok. Qed.

Lemma put_box_get mbox b s : mboxes (ext (put_box mbox b s)) !! mbox = Some b.
Proof. apply lookup_insert_eq. Qed.

Lemma put_put_box mbox b b' s : put_box mbox b' (put_box mbox b s) = put_box mbox b' s.
Proof. unfold put_box, with_ext, set_mboxes; cbn. by rewrite insert_insert_eq. Qed.

(** A message box in use by fewer than [2 ^ 31 - 1] processes. *)
Definition box_ok (b : msg_mbox) : Prop :=
  0 <= slots b < 2 ^ 32 - 1 /\ 0 <= max_slots b < 2 ^ 32 /\ 0 <= mb_inuse b < 2 ^ 31 - 1.

Lemma inuse_round b : 0 <= mb_inuse b < 2 ^ 31 - 1 ->
  s32 (s32 (mb_inuse b + 1) + -1) = mb_inuse b.
Proof. intros H. rewrite (s32_small (mb_inuse b + 1)) by lia. rewrite s32_small by lia. lia. Qed.

(** The part of [send_msg] behind the loop. *)
Lemma send_tail_ok mbox msg b lr (s : msys) :
  sync_inv C (ks s) -> mboxes (ext s) !! mbox = Some b -> mb_state b = OPENED -> 0 <= slots b -> slots b < max_slots b < 2 ^ 32 ->
  wqs (ks s) !! receivers mbox = Some lr -> no_sem (receivers mbox) (ks s) ->
  exists k, add_msg C mbox msg true s = Ok (mk_sys k (ext (put_box mbox (set_slots (slots b + 1) (mb_msgs b ++ [msg]) b) s))) /\
    roused C (receivers mbox) WT_MBOX_RECV lr (ks s) k.
Proof.
  intros I Hb Hst H0 Hsl Hq Hsep. unfold add_msg. rewrite (get_box_ok _ b) by done. cbn [res_bind].
  rewrite bool_decide_true by done. cbn [assert res_bind]. rewrite u32_small by lia. unfold with_ks. cbn [ks put_box with_ext].
  destruct (wakeup_first_ok C (ks s) (receivers mbox) lr WT_MBOX_RECV I Hq Hsep) as (k & E & R).
  exists k. rewrite E. by split.
Qed.

Lemma leave_open mbox b nz s :
  mboxes (ext s) !! mbox = Some b -> mb_state b = OPENED ->
  leave mbox nz s = Ok (put_box mbox (add_inuse (-1) b) s).
Proof.
  intros Hb Hst. unfold leave, upd_box. rewrite (get_box_ok _ b) by done. cbn [res_bind].
  rewrite (get_box_ok _ (add_inuse (-1) b)) by apply put_box_get. cbn [res_bind mb_state add_inuse].
  by rewrite bool_decide_true by done.
Qed.

(** The state of box [mbox] after it has been given back. *)
Definition box_freed (mbox : Z) (b : msg_mbox) (s s' : msys) : Prop :=
  ext s' = set_free_list (free_mbox_list (ext s) ++ [mbox])
    (set_mboxes (<[mbox := mk_mbox (mb_id b) 0 CLOSED 0 0 []]> (mboxes (ext s))) (ext s)).

Lemma mbox_free_ok mbox b s :
  mboxes (ext s) !! mbox = Some b -> mb_state b = CLOSING -> mb_inuse b = 0 -> mb_msgs b = [] ->
  wqs (ks s) !! senders mbox = Some [] -> wqs (ks s) !! receivers mbox = Some [] ->
  exists s', mbox_free mbox s = Ok s' /\ ks s' = ks s /\ box_freed mbox b s s'.
Proof.
  intros Hb Hst Hi Hm Hs Hr. unfold mbox_free. rewrite (get_box_ok _ b) by done. cbn [res_bind].
  rewrite Hst, Hi, Hm. cbn [bool_decide_true assert res_bind]. rewrite !bool_decide_true by done. cbn [assert res_bind andb Z.eqb].
  unfold wait_queue_empty. rewrite (fetch_ok _ _ _ Hs), (fetch_ok _ _ _ Hr). cbn [res_bind]. rewrite bool_decide_true by done.
  cbn [assert res_bind]. eexists. split; [reflexivity|]. split; [done|]. done.
Qed.

Lemma leave_last mbox b s :
  mboxes (ext s) !! mbox = Some b -> mb_state b = CLOSING -> mb_inuse b = 1 -> mb_msgs b = [] ->
  wqs (ks s) !! senders mbox = Some [] -> wqs (ks s) !! receivers mbox = Some [] ->
  exists s', leave mbox true s = Ok s' /\ ks s' = ks s /\ box_freed mbox b s s'.
Proof.
  intros Hb Hst Hi Hm Hs Hr. unfold leave, upd_box. rewrite (get_box_ok _ b) by done. cbn [res_bind].
  rewrite (get_box_ok _ (add_inuse (-1) b)) by apply put_box_get. cbn [res_bind mb_state add_inuse].
  rewrite Hst. rewrite bool_decide_false by done. cbn [negb]. rewrite bool_decide_true by done. cbn [andb assert res_bind].
  change (mb_inuse (add_inuse (-1) b)) with (s32 (mb_inuse b + -1)). rewrite Hi. change (s32 (1 + -1)) with 0. cbn [Z.eqb].
  destruct (mbox_free_ok mbox (add_inuse (-1) b) (put_box mbox (add_inuse (-1) b) s)) as (s' & E & K & F); try done.
  - apply put_box_get.
  - cbn. by rewrite Hi.
  - exists s'. split; [done|]. split; [done|]. unfold box_freed in *. rewrite F. cbn.
    unfold set_mboxes, set_free_list; cbn. by rewrite insert_insert_eq.
Qed.

End Boxes.

(** ** Running the code *)

Lemma bind_step_ {A} (f : msys -> res msys) (K : unit -> code msys A) s s' :
  f s = Ok s' -> bind (step_ f) K s = K tt s'.
Proof. unfold bind, step_. by intros ->. Qed.

Lemma bind_step {A B} (f : msys -> res (A * msys)) (K : A -> code msys B) s a s' :
  f s = Ok (a, s') -> bind (step f) K s = K a s'.
Proof. unfold bind, step. by intros ->. Qed.

Section Steps.
Context (C : sched_class) `{OK : !SchedClassOk C}.

Lemma upd_box_ok mbox f b s : mboxes (ext s) !! mbox = Some b -> upd_box mbox f s = Ok (put_box mbox (f b) s).
Proof. intros H. unfold upd_box. by rewrite (get_box_ok _ b). Qed.

Lemma ext_put_box mbox b s k : mk_sys k (ext (put_box mbox b s)) = put_box mbox b (mk_sys k (ext s)).
Proof. done. Qed.

(** [send_msg] behind the loop, box [b] having room. *)
Lemma send_room_tail mbox msg b lr (s : msys) :
  sync_inv C (ks s) -> mboxes (ext s) !! mbox = Some b -> mb_state b = OPENED -> 0 <= slots b -> slots b < max_slots b < 2 ^ 32 ->
  wqs (ks s) !! receivers mbox = Some lr -> no_sem (receivers mbox) (ks s) ->
  finishes
    ((do r <- (do s <- get;
               do b <- lift (get_box mbox s);
               check bool_decide (mb_state b = OPENED) && (slots b <? max_slots b);
               do_ step_ (add_msg C mbox msg true);
               ret 0);
      do_ step_ (leave mbox (negb (r =? 0)));
      ret r) s)
    (fun r s' => r = 0 /\ roused C (receivers mbox) WT_MBOX_RECV lr (ks s) (ks s') /\
       ext s' = ext (put_box mbox (add_inuse (-1) (set_slots (slots b + 1) (mb_msgs b ++ [msg]) b)) s)).
Proof.
  intros I Hb Hst H0 Hsl Hq Hsep.
  destruct (send_tail_ok C mbox msg b lr s I Hb Hst H0 Hsl Hq Hsep) as (k & E & R).
  unfold bind at 1. rewrite bind_get. rewrite (get_box_ok _ _ _ Hb), bind_lift.
  rewrite bind_check by (rewrite Hst, bool_decide_true by done; cbn; lia).
  rewrite (bind_step_ _ _ _ _ E). cbn [ret res_bind run_bind].
  rewrite (bind_step_ _ _ _ (put_box mbox (add_inuse (-1) (set_slots (slots b + 1) (mb_msgs b ++ [msg]) b)) (mk_sys k (ext s)))).
  - apply finishes_ret. by split_and!.
  - rewrite ext_put_box. rewrite (leave_open mbox (set_slots (slots b + 1) (mb_msgs b ++ [msg]) b)).
    + by rewrite put_put_box.
    + apply put_box_get.
    + done.
Qed.

Lemma send_now_ok fuel mbox msg b lr timer wait (s : msys) :
  sync_inv C (ks s) -> mboxes (ext s) !! mbox = Some b -> mb_state b = OPENED -> box_ok b -> slots b < max_slots b ->
  wqs (ks s) !! receivers mbox = Some lr -> no_sem (receivers mbox) (ks s) ->
  finishes (send_msg C fuel mbox msg timer wait s) (fun r s' =>
    r = 0 /\ roused C (receivers mbox) WT_MBOX_RECV lr (ks s) (ks s') /\
    ext s' = ext (put_box mbox (set_slots (slots b + 1) (mb_msgs b ++ [msg]) b) s)).
Proof.
  intros I Hb Hst (H0 & H1 & H2) Hsl Hq Hsep. unfold send_msg.
  rewrite (bind_step_ _ _ _ _ (upd_box_ok mbox _ b s Hb)). set (s1 := put_box _ _ s).
  assert (Hb1 : mboxes (ext s1) !! mbox = Some (add_inuse 1 b)) by apply put_box_get.
  rewrite (bind_done _ _ _ None s1).
  - eapply finishes_mono; [apply (send_room_tail mbox msg (add_inuse 1 b) lr s1); auto; cbn; lia|].
    intros r s' (-> & R & E). split_and!; [done|done|]. rewrite E. unfold s1. rewrite put_put_box. do 3 f_equal.
    unfold add_inuse, set_slots; cbn. by rewrite inuse_round.
  - assert (Hlt : (max_slots (add_inuse 1 b) <=? slots (add_inuse 1 b)) = false) by (cbn; lia).
    destruct fuel; cbn [send_wait]; rewrite bind_get, (get_box_ok _ _ _ Hb1), bind_lift, Hlt; done.
Qed.

(** Receiving from a box that holds a message. *)
Lemma recv_now_ok fuel mbox max_bytes msg m l b ls timer wait (s : msys) :
  sync_inv C (ks s) -> mboxes (ext s) !! mbox = Some b -> mb_state b = OPENED -> box_ok b -> 0 < slots b ->
  mb_msgs b = msg :: l -> msgs (ext s) !! msg = Some m -> m_bytes m <= max_bytes ->
  wqs (ks s) !! senders mbox = Some ls -> no_sem (senders mbox) (ks s) ->
  finishes (recv_msg C fuel mbox max_bytes timer wait s) (fun r s' =>
    r = (0, Some msg) /\ roused C (senders mbox) WT_MBOX_SEND ls (ks s) (ks s') /\
    ext s' = ext (put_box mbox (set_slots (slots b - 1) l b) s)).
Proof.
  intros I Hb Hst (H0 & H1 & H2) Hpos Hl Hm Hle Hq Hsep. unfold recv_msg.
  rewrite (bind_step_ _ _ _ _ (upd_box_ok mbox _ b s Hb)). set (s1 := put_box _ _ s).
  assert (Hb1 : mboxes (ext s1) !! mbox = Some (add_inuse 1 b)) by apply put_box_get.
  rewrite (bind_done _ _ _ true s1).
  2:{ assert (Hlt : (slots (add_inuse 1 b) =? 0) = false) by (cbn; lia).
      destruct fuel; cbn [recv_wait]; rewrite bind_get, (get_box_ok _ _ _ Hb1), bind_lift, Hlt; done. }
  destruct (wakeup_first_ok C (ks s1) (senders mbox) ls WT_MBOX_SEND I Hq Hsep) as (k & E & R).
  assert (Hpick : pick_msg C mbox max_bytes s1 =
    Ok (0, Some msg, mk_sys k (ext (put_box mbox (set_slots (slots b - 1) l (add_inuse 1 b)) s1)))).
  { unfold pick_msg. rewrite (get_box_ok _ _ _ Hb1). cbn [res_bind mb_state add_inuse slots mb_msgs].
    rewrite bool_decide_true by done. rewrite (proj2 (Z.ltb_lt 0 (slots b)) Hpos). cbn [andb assert res_bind]. rewrite Hl.
    change (msgs (ext s1)) with (msgs (ext s)). rewrite (fetch_ok _ _ _ Hm). cbn [res_bind].
    destruct (Z.ltb_spec max_bytes (m_bytes m)); [lia|]. rewrite u32_small by lia. unfold with_ks. cbn [ks put_box with_ext].
    change (ks s) with (ks s1). rewrite E. done. }
  unfold bind at 1. rewrite bind_get, (get_box_ok _ _ _ Hb1), bind_lift.
  rewrite bind_check by (cbn; rewrite Hst, bool_decide_true by done; cbn; lia).
  rewrite bind_check by (cbn; rewrite Hl; by rewrite bool_decide_false).
  rewrite (bind_step _ _ _ (0, Some msg) (mk_sys k (ext (put_box mbox (set_slots (slots b - 1) l (add_inuse 1 b)) s1))))
    by (by rewrite Hpick).
  cbn [fst Z.eqb negb]. rewrite bind_ret. cbn [ret res_bind run_bind].
  rewrite (bind_step_ _ _ _ (put_box mbox (add_inuse (-1) (set_slots (slots b - 1) l (add_inuse 1 b))) (mk_sys k (ext s1)))).
  - apply finishes_ret. split_and!; [done|done|]. unfold s1. rewrite ext_put_box || idtac.
    unfold put_box, with_ext, set_mboxes; cbn. rewrite insert_insert_eq. do 2 f_equal.
    unfold add_inuse, set_slots; cbn. by rewrite inuse_round.
  - rewrite ext_put_box, (leave_open mbox (set_slots (slots b - 1) l (add_inuse 1 b))).
    + by rewrite put_put_box.
    + apply put_box_get.
    + done.
Qed.

End Steps.

Section Block.
Context (C : sched_class) `{OK : !SchedClassOk C}.

(** What a sender that waited for room does when it runs again in [s']. *)
Definition send_resumed (mbox msg w : Z) (s' : msys) (r : res (run msys Z)) : Prop :=
  forall wt b, sync_inv C (ks s') -> waits (ks s') !! w = Some wt -> wait_queue wt = senders mbox ->
    mboxes (ext s') !! mbox = Some b -> 0 < mb_inuse b < 2 ^ 31 ->
    no_sem (receivers mbox) (ks s') -> forall ls lr, wqs (ks s') !! senders mbox = Some ls -> wqs (ks s') !! receivers mbox = Some lr ->
    let ls' := filter (fun y => y <> w) ls in let lr' := filter (fun y => y <> w) lr in
    (* woken by a receiver, there is room: the message is appended *)
    (mb_state b = OPENED -> wakeup_flags wt = WT_MBOX_SEND -> 0 <= slots b < max_slots b -> max_slots b < 2 ^ 32 ->
       finishes r (fun v s2 => v = 0 /\
         ext s2 = ext (put_box mbox (add_inuse (-1) (set_slots (slots b + 1) (mb_msgs b ++ [msg]) b)) s') /\
         linked w (ks s2) = false /\ wqs (ks s2) !! receivers mbox = Some (tail lr'))) /\
    (* woken by its timer or a signal: the message is not sent *)
    (mb_state b = OPENED -> wakeup_flags wt <> WT_MBOX_SEND ->
       finishes r (fun v s2 => v = wakeup_flags wt /\ ext s2 = ext (put_box mbox (add_inuse (-1) b) s') /\
         linked w (ks s2) = false)) /\
    (* the box was closed and this is its last user: the box is given back *)
    (mb_state b = CLOSING -> mb_inuse b = 1 -> mb_msgs b = [] -> ls' = [] -> lr' = [] -> wakeup_flags wt <> 0 ->
       finishes r (fun v s2 => v <> 0 /\ box_freed mbox b s' s2 /\ linked w (ks s2) = false)).

Lemma send_wait_end (mbox w : Z) (timer : option Z) fuel (b : msg_mbox) s2 :
  mboxes (ext s2) !! mbox = Some b -> slots b < max_slots b -> send_wait C fuel mbox timer w s2 = Ok (Done None s2).
Proof.
  intros Hb Hs. assert (E : (max_slots b <=? slots b) = false) by lia.
  destruct fuel; cbn [send_wait]; by rewrite bind_get, (get_box_ok _ _ _ Hb), bind_lift, E.
Qed.

Lemma send_block_ok fuel mbox msg b ls timer w c (s : msys) :
  sync_inv C (ks s) -> mboxes (ext s) !! mbox = Some b -> mb_state b = OPENED -> max_slots b <= slots b ->
  wqs (ks s) !! senders mbox = Some ls -> no_sem (senders mbox) (ks s) -> linked w (ks s) = false ->
  timer_ready timer (ks s) -> procs (ks s) !! current (ks s) = Some c -> lcpu_count (ks s) <= pid c ->
  current (ks s) <> idleproc (ks s) ->
  blocks (send_msg C (S fuel) mbox msg timer w s)
    (fun s1 => asleep C (senders mbox) w WT_MBOX_SEND ls (ks s) (ks s1) /\ ext s1 = ext (put_box mbox (add_inuse 1 b) s))
    (send_resumed mbox msg w).
Proof.
  intros I Hb Hst Hfull Hq Hsep Hw Ht Hc Hp Hid. unfold send_msg.
  rewrite (bind_step_ _ _ _ _ (upd_box_ok mbox _ b s Hb)). set (s1 := put_box _ _ s).
  assert (Hb1 : mboxes (ext s1) !! mbox = Some (add_inuse 1 b)) by apply put_box_get.
  eapply blocks_then.
  - cbn [send_wait]. rewrite bind_get, (get_box_ok _ _ _ Hb1), bind_lift.
    assert (E : (max_slots (add_inuse 1 b) <=? slots (add_inuse 1 b)) = true) by (cbn; lia). rewrite E.
    rewrite bind_check by (cbn; rewrite Hst; by apply bool_decide_true).
    eapply (sleep_ok C _ (senders mbox) w WT_MBOX_SEND timer ls c s1); done.
  - intros s' r Hr wt b' I' Hw' Eq Hb' Hi Hsr ls' lr' Hls Hlr. destruct (Hr wt I' Hw' Eq) as (s2 & -> & A).
    destruct A as (I2 & L2 & A2 & M2 & P2 & E2 & Q2).
    assert (Hb2 : mboxes (ext s2) !! mbox = Some b') by (by rewrite E2).
    assert (Hw2 : waits (ks s2) !! w = Some wt) by (by rewrite A2).
    rewrite bind_get, (get_box_ok _ _ _ Hb2), bind_lift, (fetch_ok _ _ _ Hw2), bind_lift. split_and!.
    + intros Hop Hfl Hroom Hmax. rewrite Hop, Hfl. rewrite bool_decide_true by done. rewrite Z.eqb_refl. cbn [negb orb].
      rewrite (send_wait_end mbox w timer fuel b' s2 Hb2) by lia. cbn [res_bind run_bind].
      eapply finishes_mono; [apply (send_room_tail C mbox msg b' (filter (fun y => y <> w) lr') s2); auto; [lia|lia|]|].
      { intros sem x Hs. apply (Hsr sem x). by rewrite <- M2. }
      intros v s3 (-> & R & E3). destruct R as (I3 & S3 & Q3 & _). split_and!; [done| | |].
      * rewrite E3. unfold put_box, with_ext, set_mboxes; cbn. by rewrite E2.
      * eapply linked_wqs; [|exact L2]. rewrite Q3. intros q l [[<- <-]|[Hne Hl]]%lookup_insert_Some; [|eauto].
        eexists; split; [by apply Q2|]. intros x Hx. destruct (filter _ _) as [|y l0]; [done|by right].
      * by rewrite Q3, lookup_insert_eq.
    + intros Hop Hfl. rewrite Hop. rewrite bool_decide_true by done. rewrite (proj2 (Z.eqb_neq _ _) Hfl). cbn [negb orb].
      cbn [ret res_bind run_bind]. rewrite bind_ret.
      rewrite (bind_step_ _ _ _ _ (leave_open mbox b' _ s2 Hb2 Hop)). apply finishes_ret. split_and!; [done| |done].
      unfold put_box, with_ext, set_mboxes; cbn. by rewrite E2.
    + intros Hcl Hone Hm Hls' Hlr' Hnz. rewrite Hcl. rewrite bool_decide_false by done. cbn [negb orb].
      set (v := if wakeup_flags wt =? WT_MBOX_SEND then WT_INTERRUPTED else wakeup_flags wt).
      assert (Hv : v <> 0) by (unfold v; destruct (_ =? _); done).
      cbn [ret res_bind run_bind]. rewrite bind_ret. rewrite (proj2 (Z.eqb_neq _ _) Hv). cbn [negb].
      destruct (leave_last mbox b' s2) as (s3 & E3 & K3 & F3); try done.
      { rewrite <- Hls'. by apply Q2. } { rewrite <- Hlr'. by apply Q2. }
      rewrite (bind_step_ _ _ _ _ E3). apply finishes_ret. split_and!; [done| |by rewrite K3].
      unfold box_freed in *. by rewrite F3, E2.
Qed.

End Block.

(** ** Closing a box *)

Section Close.
Context (C : sched_class) `{OK : !SchedClassOk C}.

Lemma drop_msgs_ok mbox l : forall b s,
  mboxes (ext s) !! mbox = Some b -> mb_msgs b = l -> NoDup l -> (forall msg, msg ∈ l -> is_Some (msgs (ext s) !! msg)) ->
  exists s', drop_msgs mbox l s = Ok s' /\ ks s' = ks s /\
    mboxes (ext s') = <[mbox := set_slots (slots b) [] b]> (mboxes (ext s)) /\ mu (ext s') = mu (ext s) /\
    mbox_map (ext s') = mbox_map (ext s) /\ free_mbox_list (ext s') = free_mbox_list (ext s) /\
    (forall msg, msgs (ext s') !! msg = if decide (msg ∈ l) then None else msgs (ext s) !! msg).
Proof.
  induction l as [|msg l IH]; intros b s Hb Hl Hnd Hin; cbn [drop_msgs].
  - exists s. split_and!; try done. rewrite insert_id; [done|]. rewrite Hb. destruct b; cbn in *. by subst.
  - apply NoDup_cons in Hnd as [Hni Hnd]. rewrite (upd_box_ok _ _ b) by done. cbn [res_bind]. unfold free_msg. cbn [ext put_box with_ext set_mboxes msgs].
    destruct (Hin msg ltac:(by left)) as (m & Hm). rewrite (fetch_ok _ _ _ Hm). cbn [res_bind].
    set (s1 := with_ext _ _).
    destruct (IH (set_slots (slots b) l b) s1) as (s' & E & K & B & U & Mp & F & G).
    + apply lookup_insert_eq.
    + done.
    + done.
    + intros x Hx. cbn. rewrite lookup_delete_ne by (intros ->; done). apply Hin. by right.
    + exists s'. rewrite E. split_and!; try done.
      * rewrite B. cbn. by rewrite insert_insert_eq.
      * intros x. rewrite G. cbn. destruct (decide (x = msg)) as [->|Hne].
        -- rewrite decide_False by done. rewrite decide_True by (by left). by rewrite lookup_delete_eq.
        -- rewrite lookup_delete_ne by done.
           destruct (decide (x ∈ l)), (decide (x ∈ msg :: l)) as [H|H]; try done.
           ++ exfalso. apply H. by right.
           ++ exfalso. apply elem_of_cons in H as [?|?]; done.
Qed.

(** What closing leaves behind. *)
Record closed (mbox : Z) (b : msg_mbox) (ls lr : list Z) (s s' : msys) : Prop := {
  cl_sync : sync_inv C (ks s');
  cl_queues : wqs (ks s') = <[receivers mbox := []]> (<[senders mbox := []]> (wqs (ks s)));
  cl_woken : forall v x, v ∈ ls ++ lr -> waits (ks s) !! v = Some x ->
    exists q y, waits (ks s') !! v = Some (mk_wait (wproc x) WT_INTERRUPTED q) /\
      procs (ks s') !! wproc x = Some y /\ state y = PROC_RUNNABLE;
  cl_msgs : forall msg, msgs (ext s') !! msg = if decide (msg ∈ mb_msgs b) then None else msgs (ext s) !! msg;
  cl_box : if mb_inuse b =? 0
    then mboxes (ext s') = <[mbox := mk_mbox (mb_id b) 0 CLOSED 0 0 []]> (mboxes (ext s)) /\
         free_mbox_list (ext s') = free_mbox_list (ext s) ++ [mbox]
    else mboxes (ext s') = <[mbox := mk_mbox (mb_id b) (mb_inuse b) CLOSING (max_slots b) (slots b) []]> (mboxes (ext s)) /\
         free_mbox_list (ext s') = free_mbox_list (ext s);
  cl_map : mbox_map (ext s') = mbox_map (ext s) }.

Lemma senders_receivers mbox : senders mbox <> receivers mbox.
Proof. unfold senders, receivers. lia. Qed.

Lemma ipc_mbox_free_ok id mbox b ls lr s :
  sync_inv C (ks s) -> get_mbox id s = Ok (Some mbox) -> mboxes (ext s) !! mbox = Some b -> NoDup (mb_msgs b) ->
  (forall msg, msg ∈ mb_msgs b -> is_Some (msgs (ext s) !! msg)) ->
  wqs (ks s) !! senders mbox = Some ls -> wqs (ks s) !! receivers mbox = Some lr ->
  no_sem (senders mbox) (ks s) -> no_sem (receivers mbox) (ks s) ->
  returns (ipc_mbox_free C id s) (fun '(r, s') => r = 0 /\ closed mbox b ls lr s s').
Proof.
  intros I Hg Hb Hnd Hin Hls Hlr Ns Nr. pose proof (senders_receivers mbox) as Hne.
  unfold ipc_mbox_free. rewrite Hg. cbn [res_bind].
  rewrite (upd_box_ok _ _ b) by done. cbn [res_bind]. rewrite (get_box_ok _ (set_st CLOSING b)) by apply put_box_get. cbn [res_bind].
  destruct (drop_msgs_ok mbox (mb_msgs (set_st CLOSING b)) (set_st CLOSING b) (put_box mbox (set_st CLOSING b) s))
    as (s1 & E1 & K1 & B1 & U1 & M1 & F1 & G1); [apply put_box_get|done|done|done|].
  rewrite E1. cbn [res_bind]. cbn [ks put_box with_ext] in K1. cbn [mboxes ext put_box with_ext set_mboxes] in B1. rewrite insert_insert_eq in B1.
  unfold with_ks at 1. rewrite K1.
  destruct (wakeup_all_ok C (ks s) (senders mbox) ls WT_INTERRUPTED I Hls Ns) as (k2 & E2 & I2 & S2 & Q2 & W2 & R2 & G2 & _).
  rewrite E2. cbn [res_bind]. unfold with_ks at 1. cbn [ks].
  destruct (wakeup_all_ok C k2 (receivers mbox) lr WT_INTERRUPTED) as (k3 & E3 & I3 & S3 & Q3 & W3 & R3 & G3 & _).
  { done. } { by rewrite Q2, lookup_insert_ne. } { intros sem x Hs. apply (Nr sem x). by rewrite <- S2. }
  rewrite E3. cbn [res_bind]. cbn [ext].
  set (s3 := mk_sys k3 (ext s1)).
  assert (Hb3 : mboxes (ext s3) !! mbox = Some (mk_mbox (mb_id b) (mb_inuse b) CLOSING (max_slots b) (slots b) [])).
  { unfold s3. cbn [ext]. rewrite B1. apply lookup_insert_eq. }
  rewrite (get_box_ok _ _ _ Hb3). cbn [res_bind mb_inuse].
  assert (Hwoken : forall v x, v ∈ ls ++ lr -> waits (ks s) !! v = Some x ->
    exists q y, waits k3 !! v = Some (mk_wait (wproc x) WT_INTERRUPTED q) /\ procs k3 !! wproc x = Some y /\ state y = PROC_RUNNABLE).
  { intros v x Hv Hx. destruct (decide (v ∈ lr)) as [Hr|Hr].
    - assert (exists x2, waits k2 !! v = Some x2 /\ wproc x2 = wproc x) as (x2 & Hx2 & <-).
      { destruct (decide (v ∈ ls)) as [Hs|Hs]; [destruct (G2 v x Hs Hx) as [? _]; eauto|eauto]. }
      destruct (G3 v x2 Hr Hx2) as (? & y & ? & ?). eauto.
    - apply elem_of_app in Hv as [Hs|?]; [|done]. destruct (G2 v x Hs Hx) as (Hx2 & y & Hy & Hyr).
      destruct (R3 _ y Hy Hyr) as (y' & ? & ?). exists (senders mbox), y'. split_and!; [by apply W3|done|done]. }
  assert (Hq : wqs k3 = <[receivers mbox := []]> (<[senders mbox := []]> (wqs (ks s)))) by (by rewrite Q3, Q2).
  assert (Hcase : exists s', (if mb_inuse b =? 0 then mbox_free mbox s3 else Ok s3) = Ok s' /\ closed mbox b ls lr s s').
  { destruct (Z.eqb_spec (mb_inuse b) 0) as [H0|H0].
    - destruct (mbox_free_ok mbox _ s3 Hb3) as (s' & E & K & F); [done|done|done| | |].
      { cbn [ks s3]. by rewrite Hq, lookup_insert_ne, lookup_insert_eq by done. }
      { cbn [ks s3]. by rewrite Hq, lookup_insert_eq. }
      unfold box_freed in F. cbn in F. exists s'. split; [done|].
      split; rewrite ?K, ?F; cbn; try done. by rewrite (proj2 (Z.eqb_eq _ _) H0), B1, insert_insert_eq, F1.
    - exists s3. split; [done|]. split; cbn; try done. by rewrite (proj2 (Z.eqb_neq _ _) H0). }
  destruct Hcase as (s' & -> & Hcl). cbn [res_bind]. apply returns_ok. done.
Qed.

Lemma closed_get_mbox id mbox b ls lr s s' :
  get_mbox id s = Ok (Some mbox) -> closed mbox b ls lr s s' -> get_mbox id s' = Ok None.
Proof.
  intros Hg Hcl. unfold get_mbox in *. rewrite (cl_map _ _ _ _ _ _ Hcl). destruct (_ && _); [|done].
  destruct (mbox_map (ext s) !! _) as [[page|]|]; try done. apply bind_ok in Hg as (b0 & E0 & E).
  destruct (decide (mb_state b0 = OPENED)); [|done]. injection E as E. rewrite E in *.
  pose proof (cl_box _ _ _ _ _ _ Hcl) as Hbox.
  assert (exists b', mboxes (ext s') !! mbox = Some b' /\ mb_state b' <> OPENED) as (b' & Hb' & Hno).
  { destruct (mb_inuse b =? 0); destruct Hbox as [-> _]; rewrite lookup_insert_eq; eauto. }
  rewrite (get_box_ok _ _ _ Hb'). cbn [res_bind]. by rewrite decide_False.
Qed.

End Close.

(** ** The table of boxes *)

(** Box [j] of page [i] has the number [i * MBOX_P_PAGE + j]; the boxes on the
    free list are closed boxes of the pages. *)
Record boxes_inv (s : msys) : Prop := {
  bi_len : length (mbox_map (ext s)) = Z.to_nat MAX_MBOX_PAGES;
  bi_page : forall i page j, mbox_map (ext s) !! i = Some (Some page) -> 0 <= j < MBOX_P_PAGE ->
    exists b, mboxes (ext s) !! (page + sizeof_mbox * j) = Some b /\ mb_id b = Z.of_nat i * MBOX_P_PAGE + j;
  bi_free : forall mbox, mbox ∈ free_mbox_list (ext s) -> exists i page j,
    mbox_map (ext s) !! i = Some (Some page) /\ 0 <= j < MBOX_P_PAGE /\ mbox = page + sizeof_mbox * j;
  bi_closed : forall mbox b, mbox ∈ free_mbox_list (ext s) -> mboxes (ext s) !! mbox = Some b -> mb_state b = CLOSED;
  bi_nodup : NoDup (free_mbox_list (ext s)) }.

(** Page [a] is none of the pages of the table, and not a part of one. *)
Definition fresh_page (a : Z) (s : msys) : Prop :=
  forall i page, mbox_map (ext s) !! i = Some (Some page) -> page + PGSIZE <= a \/ a + PGSIZE <= page.

Lemma box_inj (a b i j : Z) : a + sizeof_mbox * i = a + sizeof_mbox * j -> i = j.
Proof. unfold sizeof_mbox. lia. Qed.

Lemma box_in_page a j : 0 <= j < MBOX_P_PAGE -> a <= a + sizeof_mbox * j < a + PGSIZE.
Proof. unfold MBOX_P_PAGE, sizeof_mbox, PGSIZE. change (4096 / 44) with 93. lia. Qed.

Lemma first_null_lookup l : (first_null l < length l)%nat -> l !! first_null l = Some None.
Proof. induction l as [|[x|] l IH]; cbn; [lia|intros H; apply IH; lia|done]. Qed.

Lemma first_null_le l : (first_null l <= length l)%nat.
Proof. induction l as [|[x|] l IH]; cbn; lia. Qed.

Lemma first_null_full l i : first_null l = length l -> l !! i <> Some None.
Proof. revert i; induction l as [|[x|] l IH]; intros [|i]; cbn; try done. intros [= E]. by apply IH. Qed.

(** The addresses of [cnt] boxes from [mbox] on. *)
Definition box_addrs (cnt : nat) (mbox : Z) : list Z := (fun j => mbox + sizeof_mbox * Z.of_nat j) <$> seq 0 cnt.

Lemma box_addrs_S cnt mbox : box_addrs (S cnt) mbox = mbox :: box_addrs cnt (mbox + sizeof_mbox).
Proof.
  unfold box_addrs. cbn [seq]. rewrite fmap_cons. f_equal; [lia|]. rewrite <- seq_shift, <- list_fmap_compose.
  apply list_fmap_ext. intros _ j _. cbn. lia.
Qed.

Lemma elem_of_box_addrs x cnt mbox : x ∈ box_addrs cnt mbox <-> exists j, 0 <= j < Z.of_nat cnt /\ x = mbox + sizeof_mbox * j.
Proof.
  unfold box_addrs. rewrite list_elem_of_fmap. split.
  - intros (j & -> & Hj%elem_of_seq). exists (Z.of_nat j). lia.
  - intros (j & Hj & ->). exists (Z.to_nat j). rewrite elem_of_seq, Z2Nat.id by lia. split; [done|lia].
Qed.

Lemma NoDup_box_addrs cnt mbox : NoDup (box_addrs cnt mbox).
Proof. apply NoDup_fmap_2; [intros i j H; unfold sizeof_mbox in H; lia|apply NoDup_seq]. Qed.

Lemma init_page_ok cnt : forall id mbox s,
  let s' := init_page cnt id mbox s in
  mbox_map (ext s') = mbox_map (ext s) /\ free_mbox_list (ext s') = free_mbox_list (ext s) ++ box_addrs cnt mbox /\
  (forall j, 0 <= j < Z.of_nat cnt -> mboxes (ext s') !! (mbox + sizeof_mbox * j) = Some (mk_mbox (id + j) 0 CLOSED 0 0 [])) /\
  (forall x, x ∉ box_addrs cnt mbox -> mboxes (ext s') !! x = mboxes (ext s) !! x).
Proof.
  induction cnt as [|cnt IH]; intros id mbox s; cbn [init_page].
  - split_and!; [done|by rewrite app_nil_r|lia|done].
  - set (s1 := with_ext _ _). specialize (IH (id + 1) (mbox + sizeof_mbox) s1). cbv zeta in IH.
    destruct IH as (M & F & B & O). rewrite box_addrs_S. split_and!.
    + by rewrite M.
    + rewrite F. cbn. by rewrite <- app_assoc.
    + intros j Hj. destruct (decide (j = 0)) as [->|Hne].
      * replace (mbox + sizeof_mbox * 0) with mbox by lia. rewrite O.
        -- cbn. rewrite lookup_insert_eq. do 2 f_equal. lia.
        -- rewrite elem_of_box_addrs. unfold sizeof_mbox. intros (i & Hi & E). lia.
      * specialize (B (j - 1) ltac:(lia)). replace (mbox + sizeof_mbox * j) with (mbox + sizeof_mbox + sizeof_mbox * (j - 1)) by lia.
        rewrite B. do 2 f_equal. lia.
    + intros x [Hx Hx']%not_elem_of_cons. rewrite O by done. cbn. by rewrite lookup_insert_ne.
Qed.

Lemma box_id_div i j : 0 <= j < MBOX_P_PAGE ->
  (Z.of_nat i * MBOX_P_PAGE + j) / MBOX_P_PAGE = Z.of_nat i /\ (Z.of_nat i * MBOX_P_PAGE + j) mod MBOX_P_PAGE = j.
Proof.
  intros H. assert (0 < MBOX_P_PAGE) by done. rewrite Z.add_comm, Z.div_add, Z.mod_add by lia.
  rewrite Z.div_small, Z.mod_small by lia. lia.
Qed.

(** Looking a box up by its number. *)
Lemma get_mbox_id s i page j b :
  mbox_map (ext s) !! i = Some (Some page) -> 0 <= j < MBOX_P_PAGE -> mboxes (ext s) !! (page + sizeof_mbox * j) = Some b ->
  mb_id b = Z.of_nat i * MBOX_P_PAGE + j -> mb_state b = OPENED ->
  get_mbox (mb_id b) s = Ok (if mb_id b <? MAX_MBOX_NUM then Some (page + sizeof_mbox * j) else None).
Proof.
  intros Hp Hj Hb Hid Hst. unfold get_mbox. assert (0 < MBOX_P_PAGE) by done.
  rewrite (proj2 (Z.leb_le 0 (mb_id b))) by nia. cbn [andb]. destruct (mb_id b <? MAX_MBOX_NUM); [|done].
  rewrite Hid. destruct (box_id_div i j Hj) as [-> ->]. rewrite Nat2Z.id, Hp, (get_box_ok _ _ _ Hb). cbn [res_bind].
  by rewrite decide_True.
Qed.

(** Taking the first box of the free list. *)
Lemma open_box_ok s mbox l maxs :
  boxes_inv s -> free_mbox_list (ext s) = mbox :: l ->
  exists b, get_box mbox (with_ext (set_free_list l) s) = Ok b /\
    let b' := mk_mbox (mb_id b) (mb_inuse b) OPENED maxs (slots b) [] in
    let s' := put_box mbox b' (with_ext (set_free_list l) s) in
    boxes_inv s' /\ mbox ∉ free_mbox_list (ext s') /\
    get_mbox (mb_id b') s' = Ok (if mb_id b' <? MAX_MBOX_NUM then Some mbox else None).
Proof.
  intros I Hf. destruct (bi_free _ I mbox) as (i & page & j & Hp & Hj & ->); [rewrite Hf; left|].
  destruct (bi_page _ I i page j Hp Hj) as (b & Hb & Hid). pose proof (bi_nodup _ I) as Hnd. rewrite Hf in Hnd.
  apply NoDup_cons in Hnd as [Hni Hnd].
  exists b. split; [by apply fetch_ok|]. split_and!.
  - split; cbn [ext mboxes mbox_map free_mbox_list put_box with_ext set_mboxes set_free_list].
    + apply I.
    + intros i' page' j' Hp' Hj'. destruct (decide (page + sizeof_mbox * j = page' + sizeof_mbox * j')) as [E|E].
      * rewrite <- E, lookup_insert_eq. eexists; split; [done|]. cbn.
        destruct (bi_page _ I i' page' j' Hp' Hj') as (b2 & Hb2 & <-). rewrite <- E in Hb2. congruence.
      * rewrite lookup_insert_ne by done. by apply (bi_page _ I).
    + intros x Hx. apply (bi_free _ I). rewrite Hf. by right.
    + intros x y Hx. rewrite lookup_insert_ne by (intros <-; done). apply (bi_closed _ I). rewrite Hf. by right.
    + done.
  - done.
  - eapply get_mbox_id; [done|done|apply lookup_insert_eq|done|done].
Qed.

Lemma new_page_inv s a i :
  boxes_inv s -> free_mbox_list (ext s) = [] -> mbox_map (ext s) !! i = Some None -> fresh_page a s ->
  boxes_inv (init_page (Z.to_nat MBOX_P_PAGE) (Z.of_nat i * MBOX_P_PAGE) a
    (with_ext (fun x => set_map (<[i := Some a]> (mbox_map x)) x) s)).
Proof.
  intros I Hf Hi Ha. set (s1 := with_ext _ _).
  destruct (init_page_ok (Z.to_nat MBOX_P_PAGE) (Z.of_nat i * MBOX_P_PAGE) a s1) as (M & F & B & O).
  rewrite Z2Nat.id in B by done. set (s' := init_page _ _ _ _) in *. clearbody s'.
  assert (Hlt : (i < length (mbox_map (ext s)))%nat) by (by apply lookup_lt_Some in Hi).
  assert (M' : mbox_map (ext s') = <[i := Some a]> (mbox_map (ext s))) by exact M.
  assert (Mi : mbox_map (ext s') !! i = Some (Some a)) by (rewrite M'; by apply list_lookup_insert_eq).
  assert (Mo : forall i' page, mbox_map (ext s') !! i' = Some (Some page) -> i' <> i -> mbox_map (ext s) !! i' = Some (Some page)).
  { intros i' page H Hne. rewrite M', list_lookup_insert_ne in H by done. done. }
  assert (F' : free_mbox_list (ext s') = box_addrs (Z.to_nat MBOX_P_PAGE) a) by (rewrite F; cbn [ext s1 with_ext free_mbox_list set_map]; by rewrite Hf).
  split.
  - rewrite M', length_insert. apply I.
  - intros i' page j Hp Hj. destruct (decide (i' = i)) as [->|Hne].
    + rewrite Mi in Hp. injection Hp as <-. eexists; split; [by apply B|]. done.
    + apply Mo in Hp; [|done]. rewrite O; [by apply (bi_page _ I)|].
      rewrite elem_of_box_addrs, Z2Nat.id by done. intros (k & Hk & E).
      pose proof (box_in_page page j Hj). pose proof (box_in_page a k Hk). destruct (Ha _ _ Hp); lia.
  - intros x. rewrite F', elem_of_box_addrs, Z2Nat.id by done. intros (j & Hj & ->). by exists i, a, j.
  - intros x b. rewrite F', elem_of_box_addrs, Z2Nat.id by done. intros (j & Hj & ->). rewrite B by done. by intros [= <-].
  - rewrite F'. apply NoDup_box_addrs.
Qed.

Lemma new_page_free s a i : free_mbox_list (ext s) = [] ->
  free_mbox_list (ext (init_page (Z.to_nat MBOX_P_PAGE) (Z.of_nat i * MBOX_P_PAGE) a
    (with_ext (fun x => set_map (<[i := Some a]> (mbox_map x)) x) s))) =
  a :: box_addrs 92 (a + sizeof_mbox).
Proof.
  intros Hf. destruct (init_page_ok (Z.to_nat MBOX_P_PAGE) (Z.of_nat i * MBOX_P_PAGE) a
    (with_ext (fun x => set_map (<[i := Some a]> (mbox_map x)) x) s)) as (_ & -> & _).
  cbn [ext with_ext free_mbox_list set_map]. rewrite Hf. change (Z.to_nat MBOX_P_PAGE) with 93%nat. apply box_addrs_S.
Qed.

(** ** What the component promises *)

Section Theorems.
Context (C : sched_class) `{OK : !SchedClassOk C}.

(** The first message is too long for the buffer: it stays, and another
    receiver gets a try. *)
Lemma recv_big_ok fuel mbox max_bytes msg m l b lr timer wait (s : msys) :
  sync_inv C (ks s) -> mboxes (ext s) !! mbox = Some b -> mb_state b = OPENED -> box_ok b -> 0 < slots b ->
  mb_msgs b = msg :: l -> msgs (ext s) !! msg = Some m -> max_bytes < m_bytes m ->
  wqs (ks s) !! receivers mbox = Some lr -> no_sem (receivers mbox) (ks s) ->
  finishes (recv_msg C fuel mbox max_bytes timer wait s) (fun r s' =>
    r = (- E_TOO_BIG, None) /\ roused C (receivers mbox) WT_MBOX_RECV lr (ks s) (ks s') /\
    ext s' = ext (put_box mbox b s)).
Proof.
  intros I Hb Hst (H0 & H1 & H2) Hpos Hl Hm Hgt Hq Hsep. unfold recv_msg.
  rewrite (bind_step_ _ _ _ _ (upd_box_ok mbox _ b s Hb)). set (s1 := put_box _ _ s).
  assert (Hb1 : mboxes (ext s1) !! mbox = Some (add_inuse 1 b)) by apply put_box_get.
  rewrite (bind_done _ _ _ true s1).
  2:{ assert (Hlt : (slots (add_inuse 1 b) =? 0) = false) by (cbn; lia).
      destruct fuel; cbn [recv_wait]; rewrite bind_get, (get_box_ok _ _ _ Hb1), bind_lift, Hlt; done. }
  destruct (wakeup_first_ok C (ks s1) (receivers mbox) lr WT_MBOX_RECV I Hq Hsep) as (k & E & R).
  assert (Hpick : pick_msg C mbox max_bytes s1 = Ok (- E_TOO_BIG, None, s1)).
  { unfold pick_msg. rewrite (get_box_ok _ _ _ Hb1). cbn [res_bind mb_state add_inuse slots mb_msgs].
    rewrite bool_decide_true by done. rewrite (proj2 (Z.ltb_lt 0 (slots b)) Hpos). cbn [andb assert res_bind]. rewrite Hl.
    change (msgs (ext s1)) with (msgs (ext s)). rewrite (fetch_ok _ _ _ Hm). cbn [res_bind].
    destruct (Z.ltb_spec max_bytes (m_bytes m)); [done|lia]. }
  unfold bind at 1. rewrite bind_get, (get_box_ok _ _ _ Hb1), bind_lift.
  rewrite bind_check by (cbn; rewrite Hst, bool_decide_true by done; cbn; lia).
  rewrite bind_check by (cbn; rewrite Hl; by rewrite bool_decide_false).
  rewrite (bind_step _ _ _ (- E_TOO_BIG, None) s1) by (by rewrite Hpick).
  change (negb ((- E_TOO_BIG, @None Z).1 =? 0)) with true. cbv iota.
  rewrite (bind_done _ _ _ tt (mk_sys k (ext s1))) by (unfold update; by rewrite E).
  cbn [ret res_bind run_bind].
  rewrite (bind_step_ _ _ _ _ (leave_open mbox (add_inuse 1 b) _ (mk_sys k (ext s1)) Hb1 Hst)).
  apply finishes_ret. split_and!; [done|done|]. unfold s1, put_box, with_ext, set_mboxes; cbn. rewrite insert_insert_eq.
  do 2 f_equal. pose proof (inuse_round b H2) as Hr. destruct b; unfold add_inuse; cbn in *. by rewrite Hr.
Qed.

(** The box is open and holds the queue [q]; it takes [cap] messages. *)
Definition holds (mbox : Z) (q : list Z) (cap : Z) (s : msys) : Prop :=
  sync_inv C (ks s) /\
  (exists b, mboxes (ext s) !! mbox = Some b /\ mb_state b = OPENED /\ mb_msgs b = q /\
     slots b = Z.of_nat (length q) /\ max_slots b = cap /\ 0 <= mb_inuse b < 2 ^ 31 - 1) /\
  (exists ls lr, wqs (ks s) !! senders mbox = Some ls /\ wqs (ks s) !! receivers mbox = Some lr) /\
  no_sem (senders mbox) (ks s) /\ no_sem (receivers mbox) (ks s).

Lemma holds_roused mbox q' cap b' qq flags l (s s' : msys) :
  (exists ls lr, wqs (ks s) !! senders mbox = Some ls /\ wqs (ks s) !! receivers mbox = Some lr) ->
  no_sem (senders mbox) (ks s) -> no_sem (receivers mbox) (ks s) ->
  roused C qq flags l (ks s) (ks s') -> ext s' = ext (put_box mbox b' s) ->
  mb_state b' = OPENED -> mb_msgs b' = q' -> slots b' = Z.of_nat (length q') -> max_slots b' = cap ->
  0 <= mb_inuse b' < 2 ^ 31 - 1 -> holds mbox q' cap s'.
Proof.
  intros (ls & lr & Hls & Hlr) Ns Nr (I & S & Q & _) E H1 H2 H3 H4 H5. split_and!.
  - done.
  - exists b'. rewrite E. split_and!; auto; try lia. apply put_box_get.
  - rewrite Q. destruct (decide (qq = senders mbox)) as [->|Ha].
    + exists (tail l), lr. rewrite lookup_insert_eq, lookup_insert_ne by apply senders_receivers. done.
    + rewrite lookup_insert_ne by done. destruct (decide (qq = receivers mbox)) as [->|Hb].
      * exists ls, (tail l). rewrite lookup_insert_eq. done.
      * exists ls, lr. rewrite lookup_insert_ne by done. done.
  - intros sem x Hx. apply (Ns sem). by rewrite <- S.
  - intros sem x Hx. apply (Nr sem). by rewrite <- S.
Qed.

End Theorems.


(** C35: A message arrives as it was sent, whatever its length: the bytes
    [load_msg] takes from the sender's buffer, over as many segments as the
    length asks for, are the bytes [store_msg] leaves in the receiver's buffer,
    and nothing else of any memory changes. *)
Theorem mbox_msg_roundtrip KERNBASE KERNTOP junk allocs src len x (s : msys) :
  user_buf (current (ks s)) false src len s -> 0 < len -> supplied (nblocks len) allocs ->
  procs (ks s) !! current (ks s) = Some x ->
  returns (load_msg KERNBASE KERNTOP junk allocs src len s) (fun '(o, s1) =>
    exists msg m, o = Some msg /\ msgs (ext s1) !! msg = Some m /\ m_bytes m = len /\ m_pid m = pid x /\
      umem (mu (ext s1)) = umem (mu (ext s)) /\
      forall t dst, msgs (ext t) !! msg = Some m -> user_buf (current (ks t)) true dst len t ->
        returns (store_msg KERNBASE KERNTOP msg dst t) (fun t' =>
          read_bytes (umem (mu (ext t')) (current (ks t))) dst (Z.to_nat len) =
            read_bytes (umem (mu (ext s)) (current (ks s))) src (Z.to_nat len) /\
          (forall a, a < dst \/ dst + len <= a -> umem (mu (ext t')) (current (ks t)) a = umem (mu (ext t)) (current (ks t)) a) /\
          (forall p, p <> current (ks t) -> umem (mu (ext t')) p = umem (mu (ext t)) p))).
Proof.
  intros Hb Hl Hs Hx. destruct (load_msg_ok KERNBASE KERNTOP junk allocs src len s x Hb Hl Hs Hx)
    as (msg & m & s1 & -> & S & Hm & Hp & Hc & Hbytes). apply returns_ok.
  exists msg, m. split_and!; [done|apply lookup_insert_eq|done|done|cbn; apply S|].
  intros t dst Ht Hd. subst len. destruct (store_msg_ok KERNBASE KERNTOP msg m dst t Ht Hl Hc Hd) as (t' & -> & W).
  apply returns_ok. pose proof (chunked_length _ _ (Z.lt_le_incl _ _ Hl) Hc) as Hlen.
  rewrite (wr_mem _ _ _ _ _ W), <- Hbytes. split_and!.
  - rewrite <- Hlen, Nat2Z.id. apply read_write_bytes.
  - intros a Ha. apply write_bytes_out. lia.
  - apply W.
Qed.

(** Sending to a full box queues the sender behind the others and puts it
    to sleep, the box counting it as a user.  When it runs again it sends if a
    receiver made room, reports the wakeup flags if a timer or signal ended the
    wait, and, as the last user of a box closed meanwhile, gives the box back. *)
Theorem mbox_send_blocks (C : sched_class) (OK : SchedClassOk C) fuel mbox msg b ls timer w c (s : msys) :
  sync_inv C (ks s) -> mboxes (ext s) !! mbox = Some b -> mb_state b = OPENED -> max_slots b <= slots b ->
  wqs (ks s) !! senders mbox = Some ls -> no_sem (senders mbox) (ks s) -> linked w (ks s) = false ->
  timer_ready timer (ks s) -> procs (ks s) !! current (ks s) = Some c -> lcpu_count (ks s) <= pid c ->
  current (ks s) <> idleproc (ks s) ->
  blocks (send_msg C (S fuel) mbox msg timer w s)
    (fun s1 => asleep C (senders mbox) w WT_MBOX_SEND ls (ks s) (ks s1) /\ ext s1 = ext (put_box mbox (add_inuse 1 b) s))
    (send_resumed C mbox msg w).
Proof. by apply send_block_ok. Qed.

(** Closing a box succeeds: every process that waits on it is made
    runnable with the flag for an interrupted wait and its queues are empty,
    its messages are freed and no others, the number stops being valid, and the
    box goes to the free list exactly when no process is inside. *)
Theorem mbox_free_spec (C : sched_class) (OK : SchedClassOk C) id mbox b ls lr (s : msys) :
  sync_inv C (ks s) -> get_mbox id s = Ok (Some mbox) -> mboxes (ext s) !! mbox = Some b -> NoDup (mb_msgs b) ->
  (forall msg, msg ∈ mb_msgs b -> is_Some (msgs (ext s) !! msg)) ->
  wqs (ks s) !! senders mbox = Some ls -> wqs (ks s) !! receivers mbox = Some lr ->
  no_sem (senders mbox) (ks s) -> no_sem (receivers mbox) (ks s) ->
  returns (ipc_mbox_free C id s) (fun '(r, s') => r = 0 /\ closed C mbox b ls lr s s' /\ get_mbox id s' = Ok None).
Proof.
  intros I Hg Hb Hnd Hm Hs Hr Ns Nr. eapply returns_mono; [by apply (ipc_mbox_free_ok C id mbox b ls lr)|].
  intros [r s'] [-> Hcl]. split_and!; [done|done|by eapply closed_get_mbox].
Qed.

(** [new_mbox] keeps the table of boxes well formed; it returns a box that
    was closed, now open, empty and off the free list, and NULL only when there
    is no free box and no page to take more from.  The box is found again under
    its number exactly when the number is below [MAX_MBOX_NUM]: the last page
    has boxes whose numbers are not, and those are opened but never found. *)
Theorem new_mbox_spec page maxs (s : msys) :
  boxes_inv s -> (forall a, page = Some a -> fresh_page a s) ->
  returns (new_mbox page maxs s) (fun '(o, s') => boxes_inv s' /\
    match o with
    | Some mbox => exists b, mboxes (ext s') !! mbox = Some b /\ mb_state b = OPENED /\ max_slots b = maxs /\ mb_msgs b = [] /\
        mbox ∉ free_mbox_list (ext s') /\
        get_mbox (mb_id b) s' = Ok (if mb_id b <? MAX_MBOX_NUM then Some mbox else None)
    | None => s' = s /\ free_mbox_list (ext s) = [] /\
        (page = None \/ forall i, mbox_map (ext s) !! i <> Some None)
    end).
Proof.
  intros I Hp.
  assert (Hopen : forall s, boxes_inv s -> forall mbox l, free_mbox_list (ext s) = mbox :: l ->
    returns (let s := with_ext (set_free_list l) s in
             let* b := get_box mbox s in
             Ok (Some mbox, put_box mbox (mk_mbox (mb_id b) (mb_inuse b) OPENED maxs (slots b) []) s))
      (fun '(o, s') => boxes_inv s' /\ exists mbox b, o = Some mbox /\ mboxes (ext s') !! mbox = Some b /\
        mb_state b = OPENED /\ max_slots b = maxs /\ mb_msgs b = [] /\ mbox ∉ free_mbox_list (ext s') /\
        get_mbox (mb_id b) s' = Ok (if mb_id b <? MAX_MBOX_NUM then Some mbox else None))).
  { clear. intros s I mbox l Hf. destruct (open_box_ok s mbox l maxs I Hf) as (b & E & I' & Hni & Hg).
    cbv zeta. rewrite E. cbn [res_bind]. apply returns_ok. split; [done|].
    eexists mbox, _. split_and!; [done|apply put_box_get|done..]. }
  unfold new_mbox. destruct (free_mbox_list (ext s)) as [|mbox l] eqn:Hf.
  2:{ eapply returns_mono; [by apply Hopen|]. intros [o s'] (I' & mbox' & b & -> & H). split; [done|]. by exists b. }
  pose proof (first_null_le (mbox_map (ext s))) as Hle. pose proof (first_null_lookup (mbox_map (ext s))) as Hlk.
  assert (Hmax : MAX_MBOX_PAGES = 89) by reflexivity. rewrite (bi_len _ I) in Hle, Hlk. destruct (Z.eqb_spec (Z.of_nat (first_null (mbox_map (ext s)))) MAX_MBOX_PAGES) as [E|E].
  - apply returns_ok. split_and!; [done|done|done|]. right. intros i. apply first_null_full. rewrite (bi_len _ I). lia.
  - destruct page as [a|]; [|apply returns_ok; split_and!; auto].
    assert (I' := new_page_inv s a _ I Hf (Hlk ltac:(lia)) (Hp a eq_refl)).
    pose proof (new_page_free s a (first_null (mbox_map (ext s))) Hf) as Hf1.
    set (s1 := init_page _ _ _ _) in *. clearbody s1. rewrite Hf1.
    eapply returns_mono; [by apply Hopen|]. intros [o s'] (I2 & mbox' & b & -> & H). split; [done|]. by exists b.
Qed.

(** *** Witnesses *)

(** Box 1000, the first of a page at 1000, with nobody waiting. *)
Definition demo_box (q : list Z) : msg_mbox := mk_mbox 0 0 OPENED 2 (Z.of_nat (length q)) q.
Definition demo_msgs : gmap Z msg_msg := {[ 700 := mk_msg 2 3 [1; 2; 3] []; 701 := mk_msg 2 4 [4; 5; 6; 7] [] ]}.
Definition demo_mbox (q : list Z) : msys :=
  mk_sys (set_wqs {[1028 := []; 1036 := []]} demo)
    (mk_me demo_u {[1000 := demo_box q]} (Some 1000 :: repeat None 88) [] demo_msgs).

Lemma demo_mbox_inv q : sync_inv MLFQ_sched_class (ks (demo_mbox q)).
Proof.
  split.
  - apply (sched_inv_frame _ _ demo); try done. apply demo_MLFQ.
  - split; cbn [wqs waits demo_mbox ks set_wqs].
    + intros w l [[_ <-]|[_ [_ <-]%lookup_singleton_Some]]%lookup_insert_Some; constructor.
    + intros w l x [[_ <-]|[_ [_ <-]%lookup_singleton_Some]]%lookup_insert_Some Hx%not_elem_of_nil; done.
  - split; [split|]; [constructor|intros ? H%not_elem_of_nil; done|constructor|constructor].
  - split; [intros sem x Hx|intros a b x y Hx]; cbn in Hx; by rewrite lookup_empty in Hx.
Qed.

Lemma demo_no_sem w q : no_sem w (ks (demo_mbox q)).
Proof. intros sem x Hx. cbn in Hx. by rewrite lookup_empty in Hx. Qed.


(** Five hundred bytes take two blocks. *)
Lemma mbox_msg_roundtrip_witness :
  returns (load_msg 0 0x10000000 (fun _ n => repeat 0 n) [Some 900; Some 901] 0x30800000 500 (demo_mbox [])) (fun '(o, s1) =>
    exists msg m, o = Some msg /\ msgs (ext s1) !! msg = Some m /\ m_bytes m = 500).
Proof.
  eapply returns_mono.
  - apply (mbox_msg_roundtrip 0 0x10000000 (fun _ n => repeat 0 n) [Some 900; Some 901] 0x30800000 500
      (demo_proc PROC_RUNNABLE 2 0 (Some 0%nat) 3) (demo_mbox [])); [|done| |done].
    + exists demo_mm. split_and!; [done|apply demo_mm_inv|done|done|]. intros x Hx.
      exists (1, mk_vma 0x30800000 0x30802000 RW None 0). split; [left|]. split; [unfold inside; cbn; lia|]. by split.
    + change (nblocks 500) with 2%nat. intros [|[|i]] Hi; [by eexists|by eexists|lia].
  - intros [o s1] (msg & m & H1 & H2 & H3 & _). eauto.
Defined.

Lemma mbox_send_blocks_witness :
  blocks (send_msg MLFQ_sched_class 1 1000 701 None 601 (demo_mbox [700; 700]))
    (fun s1 => wqs (ks s1) !! 1028 = Some [601]) (fun _ _ => True).
Proof.
  destruct (mbox_send_blocks MLFQ_sched_class MLFQ_class_ok 0 1000 701 (demo_box [700; 700]) [] None 601
    (demo_proc PROC_RUNNABLE 2 0 (Some 0%nat) 3) (demo_mbox [700; 700])) as (s1 & k & E & [A _] & _); try done.
  - apply demo_mbox_inv.
  - exists s1, k. split_and!; [done| |done]. destruct A as (_ & _ & -> & _). done.
Defined.

Lemma mbox_free_spec_witness :
  returns (ipc_mbox_free MLFQ_sched_class 0 (demo_mbox [700])) (fun '(r, s') => r = 0 /\ get_mbox 0 s' = Ok None).
Proof.
  eapply returns_mono.
  - apply (mbox_free_spec MLFQ_sched_class MLFQ_class_ok 0 1000 (demo_box [700]) [] [] (demo_mbox [700])); try done.
    + apply demo_mbox_inv.
    + apply NoDup_singleton.
    + intros msg ->%list_elem_of_singleton. by eexists.
  - intros [r s'] (H & _ & H'). done.
Defined.

(** A table without pages. *)
Definition demo_table : msys := mbox_init 500 (demo_mbox []).

Lemma new_mbox_spec_witness : returns (new_mbox (Some 0x8000) 4 demo_table) (fun '(o, s') => boxes_inv s').
Proof.
  eapply returns_mono.
  - apply (new_mbox_spec (Some 0x8000) 4 demo_table).
    + split; cbn [demo_table mbox_init ext set_free_list set_map mbox_map free_mbox_list].
      * apply repeat_length.
      * intros i page j Hp. by apply list_elem_of_lookup_2, list_elem_of_In, repeat_spec in Hp.
      * intros x Hx%not_elem_of_nil. done.
      * intros x b Hx%not_elem_of_nil. done.
      * constructor.
    + intros a [= <-] i page Hp. by apply list_elem_of_lookup_2, list_elem_of_In, repeat_spec in Hp.
  - intros [o s'] [I _]. exact I.
Defined.

(** Box 16 of the last page has the number 8200: it is opened, and not found. *)
Example mbox_lost :
  let a := 0x8000 + 44 * 16 in
  let s := mk_sys demo (mk_me demo_u {[a := mk_mbox 8200 0 CLOSED 0 0 []]} (repeat None 88 ++ [Some 0x8000]) [a] ∅) in
  match new_mbox None 4 s with
  | Ok (Some mbox, s') => mbox = a /\ get_mbox 8200 s' = Ok None
  | _ => False
  end.
Proof. by vm_compute. Qed.
