(* ===== verification/Bitmap.v ===== *)
(** * Bitmap: the map of free blocks of the simple file system (fs/sfs/bitmap.c)

    A bitmap has one bit per block, 1 when the block is free.  The bits behind
    the last block in the last word are 0, so that they are never handed out. *)
From S2P Require Import Prelude.

Definition WORD_BITS : Z := 32.

(** [struct bitmap]; [words] is the array [map]. *)
Record bitmap := mk_bitmap { nbits : Z; nwords : Z; words : list Z }.

(** [(1 << offset)] *)
Definition mask (offset : Z) : Z := u32 (Z.shiftl 1 offset).

(** [for (; overbits < WORD_BITS; overbits ++) bitmap->map[ix] ^= (1 << overbits);] *)
Fixpoint clear_over (fuel : nat) (overbits : Z) (w : Z) : Z :=
  match fuel with
  | O => w
  | S fuel => if overbits <? WORD_BITS then clear_over fuel (overbits + 1) (Z.lxor w (mask overbits)) else w
  end.

(** [k1], [k2]: whether the two calls of [kmalloc] succeed. *)
Definition bitmap_create (k1 k2 : bool) (n : Z) : res (option bitmap) :=
  assert! negb (n =? 0) && (n <? u32 (n + WORD_BITS)) ;;
  if negb k1 then Ok None else
  let nw := u32 (u32 (n + WORD_BITS) - 1) / WORD_BITS in
  if negb k2 then Ok None else
  let m := repeat 0xFFFFFFFF (Z.to_nat nw) in
  if negb (n =? u32 (nw * WORD_BITS)) then
    let ix := u32 (nw - 1) in
    let overbits := u32 (n - u32 (ix * WORD_BITS)) in
    assert! n / WORD_BITS =? ix ;;
    assert! (0 <? overbits) && (overbits <? WORD_BITS) ;;
    match m !! Z.to_nat ix with
    | None => Panic
    | Some w => Ok (Some (mk_bitmap n nw (<[Z.to_nat ix := clear_over (Z.to_nat WORD_BITS) overbits w]> m)))
    end
  else Ok (Some (mk_bitmap n nw m)).

(** The loop over [offset]: [fuel] offsets are left. *)
Fixpoint find_bit (fuel : nat) (offset w : Z) : option Z :=
  match fuel with
  | O => None
  | S fuel => if negb (Z.land w (mask offset) =? 0) then Some offset else find_bit fuel (offset + 1) w
  end.

(** The loop over [ix]: [cnt] words are left.  The result is the index stored
    and the new array. *)
Fixpoint alloc_loop (cnt : nat) (ix : nat) (m : list Z) : res (option (Z * list Z)) :=
  match cnt with
  | O => Ok None
  | S cnt =>
      match m !! ix with
      | None => Panic
      | Some w =>
          if negb (w =? 0) then
            match find_bit (Z.to_nat WORD_BITS) 0 w with
            | Some offset => Ok (Some (u32 (u32 (Z.of_nat ix * WORD_BITS) + offset), <[ix := Z.lxor w (mask offset)]> m))
            | None => Panic          (* assert(0) *)
            end
          else alloc_loop cnt (S ix) m
      end
  end.

(** The return value, [*index_store] and the bitmap. *)
Definition bitmap_alloc (b : bitmap) : res (Z * option Z * bitmap) :=
  let* o := alloc_loop (Z.to_nat (nwords b)) 0 (words b) in
  match o with
  | Some (index, m) => Ok (0, Some index, mk_bitmap (nbits b) (nwords b) m)
  | None => Ok (- E_NO_MEM, None, b)
  end.

(** The number of the word, its value and the mask. *)
Definition bitmap_translate (b : bitmap) (index : Z) : res (nat * Z * Z) :=
  assert! index <? nbits b ;;
  let ix := Z.to_nat (index / WORD_BITS) in
  match words b !! ix with
  | Some w => Ok (ix, w, mask (index mod WORD_BITS))
  | None => Panic
  end.

Definition bitmap_test (b : bitmap) (index : Z) : res bool :=
  let* (_, w, msk) := bitmap_translate b index in
  Ok (negb (Z.land w msk =? 0)).

Definition bitmap_free (b : bitmap) (index : Z) : res bitmap :=
  let* (ix, w, msk) := bitmap_translate b index in
  assert! Z.land w msk =? 0 ;;
  Ok (mk_bitmap (nbits b) (nwords b) (<[ix := Z.lor w msk]> (words b))).

(** [len_store] and the data. *)
Definition bitmap_getdata (b : bitmap) : Z * list Z := (u32 (4 * nwords b), words b).

(** ** Bits *)

(** Bit [i] of the array. *)
Definition bit_at (m : list Z) (i : Z) : bool :=
  Z.testbit (default 0 (m !! Z.to_nat (i / WORD_BITS))) (i mod WORD_BITS).

(** The blocks a bitmap has free. *)
Definition is_free (b : bitmap) (i : Z) : Prop := 0 <= i < nbits b /\ bit_at (words b) i = true.

Record bitmap_ok (b : bitmap) : Prop := {
  bo_range : 0 < nbits b < 2 ^ 32 - WORD_BITS + 1;
  bo_nwords : (nwords b - 1) * WORD_BITS < nbits b <= nwords b * WORD_BITS;
  bo_length : Z.of_nat (length (words b)) = nwords b;
  bo_tail : forall i, nbits b <= i -> bit_at (words b) i = false;
  bo_words : Forall (fun w => 0 <= w < 2 ^ 32) (words b) }.

Lemma mask_pow2 o : 0 <= o < WORD_BITS -> mask o = 2 ^ o.
Proof.
  unfold WORD_BITS. intros H. unfold mask. rewrite Z.shiftl_1_l. apply u32_small. split; [lia|].
  apply Z.pow_lt_mono_r; lia.
Qed.

Lemma land_mask w o : 0 <= o < WORD_BITS -> negb (Z.land w (mask o) =? 0) = Z.testbit w o.
Proof.
  intros H. rewrite mask_pow2 by done. destruct (Z.testbit w o) eqn:E.
  - apply negb_true_iff, Z.eqb_neq. intros H0.
    assert (Z.testbit (Z.land w (2 ^ o)) o = false) as H1 by (by rewrite H0, Z.bits_0).
    rewrite Z.land_spec, E, Z.pow2_bits_true in H1 by lia. done.
  - apply negb_false_iff, Z.eqb_eq, Z.bits_inj'. intros j Hj. rewrite Z.land_spec, Z.bits_0, Z.pow2_bits_eqb by lia.
    destruct (Z.eqb_spec o j) as [->|]; [by rewrite E|apply andb_false_r].
Qed.

Lemma lxor_mask w o j : 0 <= o < WORD_BITS -> Z.testbit (Z.lxor w (mask o)) j = xorb (Z.testbit w j) (o =? j).
Proof. intros H. by rewrite mask_pow2, Z.lxor_spec, Z.pow2_bits_eqb by lia. Qed.

Lemma lor_mask w o j : 0 <= o < WORD_BITS -> Z.testbit (Z.lor w (mask o)) j = Z.testbit w j || (o =? j).
Proof. intros H. by rewrite mask_pow2, Z.lor_spec, Z.pow2_bits_eqb by lia. Qed.

(** A word keeps its width under the two updates. *)
Lemma word_range w : 0 <= w -> (forall j, 32 <= j -> Z.testbit w j = false) -> 0 <= w < 2 ^ 32.
Proof.
  intros H0 H. split; [done|]. destruct (Z.eq_dec w 0) as [->|Hne]; [lia|].
  apply Z.log2_lt_pow2; [lia|]. destruct (Z.lt_ge_cases (Z.log2 w) 32) as [|Hge]; [done|].
  specialize (H _ Hge). rewrite Z.bit_log2 in H by lia. done.
Qed.

Lemma word_high w j : 0 <= w < 2 ^ 32 -> 32 <= j -> Z.testbit w j = false.
Proof.
  intros H Hj. rewrite <- (Z.mod_small w (2 ^ 32)) by lia. apply Z.mod_pow2_bits_high. lia.
Qed.

Lemma lxor_range w o : 0 <= o < WORD_BITS -> 0 <= w < 2 ^ 32 -> 0 <= Z.lxor w (mask o) < 2 ^ 32.
Proof.
  intros Ho Hw. apply word_range.
  - rewrite mask_pow2 by done. apply Z.lxor_nonneg. split; intros _; [apply Z.pow_nonneg; lia|lia].
  - intros j Hj. rewrite lxor_mask, word_high by done. unfold WORD_BITS in Ho. by destruct (Z.eqb_spec o j); [lia|].
Qed.

Lemma lor_range w o : 0 <= o < WORD_BITS -> 0 <= w < 2 ^ 32 -> 0 <= Z.lor w (mask o) < 2 ^ 32.
Proof.
  intros Ho Hw. apply word_range.
  - rewrite mask_pow2 by done. apply Z.lor_nonneg. split; [lia|apply Z.pow_nonneg; lia].
  - intros j Hj. rewrite lor_mask, word_high by done. unfold WORD_BITS in Ho. by destruct (Z.eqb_spec o j); [lia|].
Qed.

Lemma index_split ix o : 0 <= o < WORD_BITS -> 0 <= ix ->
  (ix * WORD_BITS + o) / WORD_BITS = ix /\ (ix * WORD_BITS + o) mod WORD_BITS = o.
Proof.
  intros H Hi. rewrite (Z.add_comm _ o), Z.div_add, Z.mod_add by (unfold WORD_BITS; lia).
  rewrite Z.div_small, Z.mod_small by done. lia.
Qed.

(** Replacing one word by one that differs at one offset. *)
Lemma bit_at_insert m ix w w' o f i :
  m !! ix = Some w -> 0 <= o < WORD_BITS -> 0 <= i ->
  (forall j, Z.testbit w' j = if o =? j then f else Z.testbit w j) ->
  bit_at (<[ix := w']> m) i = if i =? Z.of_nat ix * WORD_BITS + o then f else bit_at m i.
Proof.
  intros Hw Ho Hi Hf. unfold bit_at. pose proof (Z.div_mod i WORD_BITS ltac:(done)) as Hdm.
  assert (Hm : 0 <= i mod WORD_BITS < WORD_BITS) by (apply Z.mod_pos_bound; done).
  assert (Hd : 0 <= i / WORD_BITS) by (apply Z.div_pos; [done|reflexivity]).
  destruct (decide (ix = Z.to_nat (i / WORD_BITS))) as [->|Hne].
  - rewrite list_lookup_insert_eq by (by eapply lookup_lt_Some). rewrite Hw. cbn [default]. rewrite Hf.
    change (id w') with w'. change (id w) with w. rewrite Z2Nat.id by done.
    destruct (Z.eqb_spec o (i mod WORD_BITS)) as [Eo|E], (Z.eqb_spec i (i / WORD_BITS * WORD_BITS + o)) as [E'|E'];
      try done; exfalso; unfold WORD_BITS in *; lia.
  - rewrite list_lookup_insert_ne by done. destruct (Z.eqb_spec i (Z.of_nat ix * WORD_BITS + o)) as [->|E]; [|done].
    exfalso. apply Hne. destruct (index_split (Z.of_nat ix) o Ho ltac:(lia)) as [-> _]. by rewrite Nat2Z.id.
Qed.

(** ** The operations *)

Lemma find_bit_ok fuel : forall offset w, 0 <= offset -> offset + Z.of_nat fuel <= WORD_BITS ->
  match find_bit fuel offset w with
  | Some o => offset <= o < offset + Z.of_nat fuel /\ Z.testbit w o = true /\ forall j, offset <= j < o -> Z.testbit w j = false
  | None => forall j, offset <= j < offset + Z.of_nat fuel -> Z.testbit w j = false
  end.
Proof.
  induction fuel as [|fuel IH]; intros offset w H0 H1; cbn [find_bit]; [intros; lia|].
  rewrite land_mask by lia. destruct (Z.testbit w offset) eqn:E.
  - split_and!; [lia|lia|done|intros; lia].
  - specialize (IH (offset + 1) w ltac:(lia) ltac:(lia)). destruct (find_bit fuel (offset + 1) w) as [o|].
    + destruct IH as (A & B & D). split_and!; [lia|lia|done|]. intros j Hj.
      destruct (Z.eq_dec j offset) as [->|]; [done|apply D; lia].
    + intros j Hj. destruct (Z.eq_dec j offset) as [->|]; [done|apply IH; lia].
Qed.

(** A word that is not 0 has a bit: [assert(0)] is not reached. *)
Lemma find_bit_some w : 0 <= w < 2 ^ 32 -> w <> 0 -> exists o, find_bit (Z.to_nat WORD_BITS) 0 w = Some o /\
  0 <= o < WORD_BITS /\ Z.testbit w o = true /\ forall j, 0 <= j < o -> Z.testbit w j = false.
Proof.
  intros Hw Hne. pose proof (find_bit_ok (Z.to_nat WORD_BITS) 0 w ltac:(lia) ltac:(unfold WORD_BITS; lia)) as H.
  destruct (find_bit _ _ _) as [o|].
  - exists o. destruct H as (A & B & D). change (Z.of_nat (Z.to_nat WORD_BITS)) with WORD_BITS in A. split_and!; [done|lia|lia|done|done].
  - exfalso. apply Hne, Z.bits_inj'. intros j Hj. rewrite Z.bits_0. destruct (Z.lt_ge_cases j 32) as [Hlt|Hge].
    + apply H. unfold WORD_BITS. lia.
    + by apply word_high.
Qed.

Lemma bit_at_word m ix w o : m !! ix = Some w -> 0 <= o < WORD_BITS -> bit_at m (Z.of_nat ix * WORD_BITS + o) = Z.testbit w o.
Proof.
  intros Hm Ho. unfold bit_at. destruct (index_split (Z.of_nat ix) o Ho ltac:(lia)) as [-> ->]. by rewrite Nat2Z.id, Hm.
Qed.

(** What allocating in the array does. *)
Definition alloc_post (m : list Z) (o : option (Z * list Z)) : Prop :=
  match o with
  | Some (i, m') => 0 <= i < Z.of_nat (length m) * WORD_BITS /\ bit_at m i = true /\ (forall j, 0 <= j < i -> bit_at m j = false) /\
      length m' = length m /\ Forall (fun w => 0 <= w < 2 ^ 32) m' /\
      forall j, 0 <= j -> bit_at m' j = if j =? i then false else bit_at m j
  | None => forall j, 0 <= j < Z.of_nat (length m) * WORD_BITS -> bit_at m j = false
  end.

Lemma alloc_loop_ok m : Forall (fun w => 0 <= w < 2 ^ 32) m -> Z.of_nat (length m) * WORD_BITS <= 2 ^ 32 ->
  forall cnt ix, (ix + cnt = length m)%nat -> (forall j, 0 <= j < Z.of_nat ix * WORD_BITS -> bit_at m j = false) ->
  returns (alloc_loop cnt ix m) (alloc_post m).
Proof.
  intros Hm Hlen. induction cnt as [|cnt IH]; intros ix Hix Hlow; cbn [alloc_loop].
  - apply returns_ok. intros j Hj. apply Hlow. lia.
  - destruct (lookup_lt_is_Some_2 m ix ltac:(lia)) as (w & Hw). rewrite Hw.
    assert (Hr : 0 <= w < 2 ^ 32) by (by eapply Forall_lookup_1 in Hm).
    destruct (Z.eqb_spec w 0) as [->|Hne]; cbn [negb].
    + apply IH; [lia|]. intros j Hj. destruct (Z.lt_ge_cases j (Z.of_nat ix * WORD_BITS)) as [|Hge]; [apply Hlow; lia|].
      replace j with (Z.of_nat ix * WORD_BITS + (j - Z.of_nat ix * WORD_BITS)) by lia.
      rewrite (bit_at_word m ix 0) by (unfold WORD_BITS in *; done || lia). apply Z.bits_0.
    + destruct (find_bit_some w Hr Hne) as (o & -> & Ho & Hb & Hfirst). apply returns_ok.
      assert (Hmax : Z.of_nat ix * WORD_BITS + o < Z.of_nat (length m) * WORD_BITS) by (unfold WORD_BITS in *; lia).
      rewrite u32_add_l, u32_small by (unfold WORD_BITS in *; lia). split_and!.
      * unfold WORD_BITS in *; lia.
      * done.
      * by rewrite (bit_at_word m ix w).
      * intros j Hj. destruct (Z.lt_ge_cases j (Z.of_nat ix * WORD_BITS)) as [|Hge]; [apply Hlow; lia|].
        replace j with (Z.of_nat ix * WORD_BITS + (j - Z.of_nat ix * WORD_BITS)) by lia.
        rewrite (bit_at_word m ix w) by (done || lia). apply Hfirst. lia.
      * apply length_insert.
      * apply Forall_insert; [done|]. by apply lxor_range.
      * intros j Hj. apply (bit_at_insert m ix w); [done..|]. intros k. rewrite lxor_mask by done.
        destruct (Z.eqb_spec o k) as [->|]; [by rewrite Hb|apply xorb_false_r].
Qed.

Lemma bitmap_ok_len b : bitmap_ok b -> Z.of_nat (length (words b)) * WORD_BITS <= 2 ^ 32.
Proof. intros [A B D _ _]. unfold WORD_BITS in *. lia. Qed.

(** C39: [bitmap_alloc] hands out the lowest free block, always below the
    number of blocks, and marks exactly that one used; it reports that there is
    no space exactly when every block is in use.  The bitmap stays well formed,
    and the assertion behind the scan of a word is never reached. *)
Theorem bitmap_alloc_spec b :
  bitmap_ok b ->
  returns (bitmap_alloc b) (fun '(r, o, b') => bitmap_ok b' /\ nbits b' = nbits b /\
    match o with
    | Some i => r = 0 /\ is_free b i /\ (forall j, j < i -> ~ is_free b j) /\ (forall j, is_free b' j <-> is_free b j /\ j <> i)
    | None => r = - E_NO_MEM /\ b' = b /\ forall j, ~ is_free b j
    end).
Proof.
  intros I. pose proof (bitmap_ok_len b I) as Hlen. destruct I as [R N L T W]. unfold bitmap_alloc.
  destruct (alloc_loop_ok (words b) W Hlen (Z.to_nat (nwords b)) 0) as (o & -> & P).
  { lia. } { intros j Hj. lia. }
  cbn [res_bind]. destruct o as [[i m']|]; apply returns_ok.
  - destruct P as (Hi & Hb & Hlow & Hlen' & W' & Hbits).
    assert (Hin : i < nbits b).
    { destruct (Z.lt_ge_cases i (nbits b)) as [|Hge]; [done|]. rewrite T in Hb by done. done. }
    split_and!; try done.
    + split; cbn [nbits nwords words]; try done; [by rewrite Hlen'|]. intros j Hj. rewrite Hbits by lia.
      destruct (j =? i); [done|by apply T].
    + split; [lia|done].
    + intros j Hj [Hr Hf]. rewrite Hlow in Hf by lia. done.
    + intros j. unfold is_free; cbn [nbits words]. split.
      * intros [Hr Hf]. rewrite Hbits in Hf by lia. destruct (Z.eqb_spec j i); [done|]. auto.
      * intros [[Hr Hf] Hne]. rewrite Hbits by lia. destruct (Z.eqb_spec j i); [done|]. auto.
  - split_and!; try done. intros j [Hr Hf]. rewrite P in Hf by lia. done.
Qed.

(** Reading the word of a block. *)
Lemma bitmap_translate_ok b i : bitmap_ok b -> 0 <= i ->
  if i <? nbits b then exists ix w, bitmap_translate b i = Ok (ix, w, mask (i mod WORD_BITS)) /\
      words b !! ix = Some w /\ i = Z.of_nat ix * WORD_BITS + i mod WORD_BITS /\ Z.testbit w (i mod WORD_BITS) = bit_at (words b) i
  else bitmap_translate b i = Panic.
Proof.
  intros [R N L T W] H0. unfold bitmap_translate. destruct (Z.ltb_spec i (nbits b)) as [Hlt|Hge]; [|done]. cbn [assert res_bind].
  assert (Hix : (Z.to_nat (i / WORD_BITS) < length (words b))%nat).
  { assert (i / WORD_BITS < nwords b) by (apply Z.div_lt_upper_bound; unfold WORD_BITS in *; lia).
    assert (0 <= i / WORD_BITS) by (apply Z.div_pos; unfold WORD_BITS; lia). lia. }
  destruct (lookup_lt_is_Some_2 _ _ Hix) as (w & Hw). rewrite Hw. eexists _, w. split_and!; [done|done| |].
  - rewrite Z2Nat.id by (apply Z.div_pos; unfold WORD_BITS; lia). pose proof (Z.div_mod i WORD_BITS ltac:(done)). lia.
  - unfold bit_at. by rewrite Hw.
Qed.

(** [bitmap_free] makes exactly the given block free again and keeps the
    bitmap well formed; freeing a block that is free already, or one behind the
    end, is caught by an assertion.  [bitmap_test] reads the bit. *)
Theorem bitmap_free_spec b i :
  bitmap_ok b -> 0 <= i ->
  (i < nbits b -> bitmap_test b i = Ok (bit_at (words b) i)) /\
  (i < nbits b -> ~ is_free b i -> returns (bitmap_free b i) (fun b' => bitmap_ok b' /\ nbits b' = nbits b /\
     forall j, is_free b' j <-> is_free b j \/ j = i)) /\
  (nbits b <= i \/ is_free b i -> bitmap_free b i = Panic).
Proof.
  intros I H0. pose proof (bitmap_translate_ok b i I H0) as Ht. unfold bitmap_test, bitmap_free.
  assert (Ho : 0 <= i mod WORD_BITS < WORD_BITS) by (by apply Z.mod_pos_bound).
  destruct (Z.ltb_spec i (nbits b)) as [Hlt|Hge].
  2:{ rewrite Ht. split_and!; [lia|lia|done]. }
  destruct Ht as (ix & w & -> & Hw & Ei & Hb). cbn [res_bind].
  pose proof (land_mask w (i mod WORD_BITS) Ho) as Hland. rewrite Hb in Hland. split_and!.
  - intros _. by rewrite Hland.
  - intros _ Hnf. assert (Hbf : bit_at (words b) i = false).
    { destruct (bit_at (words b) i) eqn:E; [|done]. by destruct Hnf. }
    rewrite Hbf in Hland. apply negb_false_iff in Hland. rewrite Hland. cbn [assert res_bind]. apply returns_ok.
    destruct I as [R N L T W].
    assert (Hbits : forall j, 0 <= j -> bit_at (<[ix := Z.lor w (mask (i mod WORD_BITS))]> (words b)) j =
                      if j =? i then true else bit_at (words b) j).
    { intros j Hj. rewrite Ei at 2. apply (bit_at_insert (words b) ix w); try done.
      intros k. rewrite lor_mask by done. destruct (_ =? k); [apply orb_true_r|apply orb_false_r]. }
    split_and!; [|done|].
    + split; cbn [nbits nwords words]; try done; [by rewrite length_insert| |].
      * intros j Hj. rewrite Hbits by lia. destruct (Z.eqb_spec j i); [lia|by apply T].
      * apply Forall_insert; [done|]. apply lor_range; [done|]. by eapply Forall_lookup_1 in W.
    + intros j. unfold is_free; cbn [nbits words]. split.
      * intros [Hr Hf]. rewrite Hbits in Hf by lia. destruct (Z.eqb_spec j i); auto.
      * intros [[Hr Hf]| ->]; [split; [done|]; rewrite Hbits by lia; by destruct (j =? i)|].
        split; [lia|]. rewrite Hbits by lia. by rewrite Z.eqb_refl.
  - intros [Hge|[_ Hf]]; [lia|]. rewrite Hf in Hland. apply negb_true_iff in Hland. by rewrite Hland.
Qed.

Lemma clear_over_bits fuel : forall ob w j, 0 <= ob -> WORD_BITS - ob <= Z.of_nat fuel ->
  Z.testbit (clear_over fuel ob w) j = if (ob <=? j) && (j <? WORD_BITS) then negb (Z.testbit w j) else Z.testbit w j.
Proof.
  induction fuel as [|fuel IH]; intros ob w j H0 Hf; cbn [clear_over].
  - destruct (Z.leb_spec ob j), (Z.ltb_spec j WORD_BITS); cbn [andb]; try done. lia.
  - destruct (Z.ltb_spec ob WORD_BITS) as [Hlt|Hge].
    + rewrite IH by lia. rewrite lxor_mask by lia.
      destruct (Z.leb_spec (ob + 1) j), (Z.leb_spec ob j), (Z.ltb_spec j WORD_BITS), (Z.eqb_spec ob j); cbn [andb]; try lia;
        by destruct (Z.testbit w j).
    + destruct (Z.leb_spec ob j), (Z.ltb_spec j WORD_BITS); cbn [andb]; try done. lia.
Qed.

Lemma clear_over_range fuel : forall ob w, 0 <= ob -> 0 <= w < 2 ^ 32 -> 0 <= clear_over fuel ob w < 2 ^ 32.
Proof.
  induction fuel as [|fuel IH]; intros ob w H0 Hw; cbn [clear_over]; [done|].
  destruct (Z.ltb_spec ob WORD_BITS); [|done]. apply IH; [lia|]. by apply lxor_range.
Qed.

(** All blocks of a fresh array are free. *)
Lemma bit_at_full n i : 0 <= i < Z.of_nat n * WORD_BITS -> bit_at (repeat 0xFFFFFFFF n) i = true.
Proof.
  intros Hi. unfold bit_at.
  assert (H : repeat 0xFFFFFFFF n !! Z.to_nat (i / WORD_BITS) = Some 0xFFFFFFFF).
  { assert (0 <= i / WORD_BITS < Z.of_nat n).
    { split; [apply Z.div_pos; unfold WORD_BITS; lia|apply Z.div_lt_upper_bound; unfold WORD_BITS in *; lia]. }
    destruct (lookup_lt_is_Some_2 (repeat 0xFFFFFFFF n) (Z.to_nat (i / WORD_BITS))) as (x & Hx); [rewrite repeat_length; lia|].
    rewrite Hx. apply list_elem_of_lookup_2, list_elem_of_In, repeat_spec in Hx. by subst. }
  rewrite H. cbn [default]. change (id 0xFFFFFFFF) with (Z.ones 32). apply Z.ones_spec_low.
  unfold WORD_BITS. apply Z.mod_pos_bound. lia.
Qed.

Lemma bit_at_beyond m i : Z.of_nat (length m) * WORD_BITS <= i -> bit_at m i = false.
Proof.
  intros Hi. unfold bit_at. rewrite lookup_ge_None_2; [apply Z.bits_0|].
  assert (Z.of_nat (length m) <= i / WORD_BITS) by (apply Z.div_le_lower_bound; unfold WORD_BITS in *; lia). lia.
Qed.

Lemma Forall_full n : Forall (fun w => 0 <= w < 2 ^ 32) (repeat 0xFFFFFFFF n).
Proof. apply Forall_forall. intros x Hx%list_elem_of_In%repeat_spec. subst. lia. Qed.

(** The last word of a bitmap that does not fill it. *)
Lemma last_word_ok n nw : 0 < n < 2 ^ 32 - WORD_BITS -> (nw - 1) * WORD_BITS < n < nw * WORD_BITS ->
  let m := repeat 0xFFFFFFFF (Z.to_nat nw) in
  let b := mk_bitmap n nw (<[Z.to_nat (nw - 1) := clear_over (Z.to_nat WORD_BITS) (n - (nw - 1) * WORD_BITS) 0xFFFFFFFF]> m) in
  bitmap_ok b /\ forall i, 0 <= i < n -> is_free b i.
Proof.
  intros Hn Hnw m b. assert (Hpos : 1 <= nw) by (unfold WORD_BITS in *; lia).
  assert (Hlen : length m = Z.to_nat nw) by apply repeat_length.
  assert (Hix : m !! Z.to_nat (nw - 1) = Some 0xFFFFFFFF).
  { destruct (lookup_lt_is_Some_2 m (Z.to_nat (nw - 1))) as (x & Hx); [lia|]. rewrite Hx.
    apply list_elem_of_lookup_2, list_elem_of_In, repeat_spec in Hx. by subst. }
  assert (Hob : 0 < n - (nw - 1) * WORD_BITS < WORD_BITS) by (unfold WORD_BITS in *; lia).
  assert (Hbits : forall i, 0 <= i -> bit_at (words b) i = (i <? n)).
  { intros i Hi. destruct (Z.lt_ge_cases i (Z.of_nat (length m) * WORD_BITS)) as [Hin|Hout].
    2:{ rewrite bit_at_beyond by (unfold b; cbn [words]; rewrite length_insert; lia). unfold WORD_BITS in *. destruct (Z.ltb_spec i n); [lia|done]. }
    destruct (Z.lt_ge_cases i ((nw - 1) * WORD_BITS)) as [Hlow|Hhigh].
    - unfold b; cbn [words]. unfold bit_at. rewrite list_lookup_insert_ne.
      + change (bit_at m i = (i <? n)). unfold m. rewrite bit_at_full by lia. destruct (Z.ltb_spec i n); [done|lia].
      + assert (i / WORD_BITS < nw - 1) by (apply Z.div_lt_upper_bound; unfold WORD_BITS in *; lia). pose proof (Z.div_pos i WORD_BITS ltac:(lia) ltac:(done)). lia.
    - assert (Ei : i = Z.of_nat (Z.to_nat (nw - 1)) * WORD_BITS + (i - (nw - 1) * WORD_BITS)) by (rewrite Z2Nat.id by lia; lia).
      rewrite Ei at 1. unfold b; cbn [words].
      rewrite (bit_at_word _ _ (clear_over (Z.to_nat WORD_BITS) (n - (nw - 1) * WORD_BITS) 0xFFFFFFFF));
        [|by apply list_lookup_insert_eq; lia|unfold WORD_BITS in *; lia].
      rewrite clear_over_bits by (unfold WORD_BITS in *; lia).
      change 0xFFFFFFFF with (Z.ones 32). rewrite Z.ones_spec_low by (unfold WORD_BITS in *; lia).
      destruct (Z.leb_spec (n - (nw - 1) * WORD_BITS) (i - (nw - 1) * WORD_BITS)),
        (Z.ltb_spec (i - (nw - 1) * WORD_BITS) WORD_BITS), (Z.ltb_spec i n);
        cbn; try done; unfold WORD_BITS in *; lia. }
  split.
  - split; unfold b; cbn [nbits nwords words].
    + lia.
    + lia.
    + rewrite length_insert. lia.
    + intros i Hi. change (bit_at (words b) i = false). rewrite Hbits by lia. destruct (Z.ltb_spec i n); [lia|done].
    + apply Forall_insert; [apply Forall_full|]. apply clear_over_range; lia.
  - intros i Hi. split; [done|]. rewrite Hbits by lia. destruct (Z.ltb_spec i n); [done|lia].
Qed.


(** *** Witnesses *)

Definition demo_bitmap : bitmap := mk_bitmap 40 2 [0xFFFFFFF0; 0xFF].

Lemma demo_bitmap_ok : bitmap_ok demo_bitmap.
Proof.
  destruct (bitmap_create true true 40) as [[b|]|] eqn:E; [|done..].
  split; cbn [nbits nwords words demo_bitmap]; try (unfold WORD_BITS; cbn; lia); [|repeat constructor; lia].
  intros i Hi. destruct (Z.lt_ge_cases i 64) as [Hlt|Hge]; [|apply bit_at_beyond; unfold WORD_BITS; cbn; lia].
  unfold bit_at, WORD_BITS. replace (i / 32) with 1 by (apply Z.div_unique with (i - 32); lia).
  change (Z.testbit (Z.ones 8) (i mod 32) = false). apply Z.ones_spec_high.
  replace (i mod 32) with (i - 32) by (apply Z.mod_unique with 1; lia). lia.
Qed.

Lemma bitmap_alloc_spec_witness : returns (bitmap_alloc demo_bitmap) (fun '(r, o, b') => bitmap_ok b' /\ nbits b' = 40).
Proof.
  eapply returns_mono; [apply (bitmap_alloc_spec demo_bitmap), demo_bitmap_ok|]. intros [[r o] b'] (A & B & _). done.
Defined.

Lemma bitmap_free_spec_witness : returns (bitmap_free demo_bitmap 3) (fun b' => bitmap_ok b') /\ bitmap_free demo_bitmap 5 = Panic.
Proof.
  split.
  - eapply returns_mono; [apply (bitmap_free_spec demo_bitmap 3); [apply demo_bitmap_ok|lia|cbn; lia|]|].
    + intros [_ H]. by vm_compute in H.
    + by intros b' [I _].
  - apply (bitmap_free_spec demo_bitmap 5); [apply demo_bitmap_ok|lia|]. right. split; [cbn; lia|done].
Defined.

