(* ===== verification/Pipe.v ===== *)
(** * Pipe: the buffer of a pipe (fs/pipe/pipe_state.c)

    A pipe is a ring buffer with a read and a write position that only grow,
    a lock, and a queue each for readers and writers that wait.  Writers of
    more than fits wait for readers in the middle of the write. *)
From S2P Require Import Prelude KState Sched Timer Resume Wait Sem Sleep.

(** ** Data *)

(** [struct pipe_state]; the semaphore and the two wait queues are in the
    kernel state, at their offsets in the structure. *)
Record pipe_state := mk_pipe { p_rpos : Z; p_wpos : Z; pbuf : list Z; isclosed : bool; ref_count : Z }.

Definition sizeof_pipe_state : Z := 56.
Definition pipe_sem (p : Z) : Z := p + 20.
Definition reader_queue (p : Z) : Z := p + 40.
Definition writer_queue (p : Z) : Z := p + 48.
Definition PIPE_BUFSIZE : Z := PGSIZE - sizeof_pipe_state.

(** The state of this component: the pipes by address. *)
Notation "'psys'" := (sys (gmap Z pipe_state)).

Definition put_pipe (p : Z) (st : pipe_state) (s : psys) : psys := mk_sys (ks s) (<[p := st]> (ext s)).

Definition set_rpos (n : Z) (st : pipe_state) : pipe_state := mk_pipe n (p_wpos st) (pbuf st) (isclosed st) (ref_count st).
Definition set_wbuf (n : Z) (l : list Z) (st : pipe_state) : pipe_state := mk_pipe (p_rpos st) n l (isclosed st) (ref_count st).
Definition set_ref (n : Z) (st : pipe_state) : pipe_state := mk_pipe (p_rpos st) (p_wpos st) (pbuf st) (isclosed st) n.
Definition set_closed (st : pipe_state) : pipe_state := mk_pipe (p_rpos st) (p_wpos st) (pbuf st) true (ref_count st).

(** [a] is what [kmalloc] returns, [junk] what the block holds. *)
Definition pipe_state_create (a : option Z) (junk : list Z) (s : psys) : option Z * psys :=
  match a with
  | Some p =>
      let k := sem_init (pipe_sem p) 1 (ks s) in
      let k := wait_queue_init (reader_queue p) k in
      let k := wait_queue_init (writer_queue p) k in
      (Some p, mk_sys k (<[p := mk_pipe 0 0 junk false 1]> (ext s)))
  | None => (None, s)
  end.

Definition is_empty (st : pipe_state) : bool := p_rpos st =? p_wpos st.

(** The difference is an [off_t]; the comparison is one of [size_t]. *)
Definition is_full (st : pipe_state) : bool := PIPE_BUFSIZE <=? u32 (s32 (p_wpos st - p_rpos st)).

(** [pos % PIPE_BUFSIZE], again in [size_t] *)
Definition slot (pos : Z) : nat := Z.to_nat (u32 pos mod PIPE_BUFSIZE).

Definition pipe_state_size (p : Z) (write : bool) (s : psys) : res Z :=
  let* st := fetch (ext s) p in
  let size := u32 (s32 (p_wpos st - p_rpos st)) in
  Ok (if write then (if isclosed st then 0 else u32 (PIPE_BUFSIZE - size)) else size).

Definition pipe_state_acquire (p : Z) (s : psys) : res psys :=
  let* st := fetch (ext s) p in
  assert! 0 <? ref_count st ;;
  Ok (put_pipe p (set_ref (s32 (ref_count st + 1)) st) s).

Definition pipe_state_release (p : Z) (s : psys) : res psys :=
  let* st := fetch (ext s) p in
  assert! 0 <? ref_count st ;;
  let n := s32 (ref_count st - 1) in
  if n =? 0 then
    let* e1 := wait_queue_empty (reader_queue p) (ks s) in
    assert! e1 ;;
    let* e2 := wait_queue_empty (writer_queue p) (ks s) in
    assert! e2 ;;
    Ok (mk_sys (ks s) (delete p (ext s)))         (* kfree(state) *)
  else Ok (put_pipe p (set_ref n st) s).

(** [for (; ret < n && !is_empty(state); ret ++, state->p_rpos ++)]: [cnt] is
    [n - ret]; the bytes stored in the buffer are the result. *)
Fixpoint read_loop (cnt : nat) (st : pipe_state) : res (list Z * pipe_state) :=
  match cnt with
  | O => Ok ([], st)
  | S cnt =>
      if is_empty st then Ok ([], st) else
      match pbuf st !! slot (p_rpos st) with
      | None => Panic
      | Some b =>
          let* (l, st) := read_loop cnt (set_rpos (s32 (p_rpos st + 1)) st) in
          Ok (b :: l, st)
      end
  end.

(** [for (step = 0; ret < n; ret ++, step ++, state->p_wpos ++)] up to its end
    or to the test [is_full]: the bytes that are left are the result. *)
Fixpoint write_loop (data : list Z) (st : pipe_state) : res (list Z * pipe_state) :=
  match data with
  | [] => Ok ([], st)
  | b :: rest =>
      if is_full st then Ok (data, st) else
      match pbuf st !! slot (p_wpos st) with
      | None => Panic
      | Some _ => write_loop rest (set_wbuf (s32 (p_wpos st + 1)) (<[slot (p_wpos st) := b]> (pbuf st)) st)
      end
  end.

Section Pipe.
Context (C : sched_class).

Definition lock_state (p w : Z) : code psys unit := down C (pipe_sem p) w.
Definition unlock_state (p : Z) : code psys unit := update (up C (pipe_sem p)).

(** [w] is the stack slot [__wait]. *)
Definition pipe_state_wait (q w : Z) : code psys bool :=
  do_ update (wait_current_set q w WT_PIPE);
  do_ yield C;
  do_ update (wait_current_del q w);
  do s <- get;
  do wt <- lift (fetch (waits (ks s)) w);
  ret (wakeup_flags wt =? WT_PIPE).

Definition pipe_state_wakeup (q : Z) (k : kstate) : res kstate :=
  let* e := wait_queue_empty q k in
  if negb e then wakeup_queue C q WT_PIPE true k else Ok k.

Definition wait_reader (p w : Z) : code psys bool := pipe_state_wait (writer_queue p) w.
Definition wait_writer (p w : Z) : code psys bool := pipe_state_wait (reader_queue p) w.
Definition wakeup_reader (p : Z) : code psys unit := update (pipe_state_wakeup (reader_queue p)).
Definition wakeup_writer (p : Z) : code psys unit := update (pipe_state_wakeup (writer_queue p)).

Definition pipe_state_close (p : Z) (s : psys) : res psys :=
  let* st := fetch (ext s) p in
  assert! 0 <? ref_count st ;;
  let s := put_pipe p (set_closed st) s in
  let* k := pipe_state_wakeup (reader_queue p) (ks s) in
  let* k := pipe_state_wakeup (writer_queue p) k in
  Ok (mk_sys k (ext s)).

(** One round of [pipe_state_read], [again] being [goto try_again].  The result
    are the bytes read; the C function returns their number. *)
Definition read_round (again : code psys (list Z)) (p : Z) (n : nat) (wl w : Z) : code psys (list Z) :=
  do_ lock_state p wl;
  do s <- get;
  do st <- lift (fetch (ext s) p);
  if is_empty st then
    if isclosed st then do_ unlock_state p; ret []
    else
      do_ unlock_state p;
      do ok <- wait_writer p w;
      if negb ok then ret [] else again
  else
    do r <- lift (read_loop n st);
    do_ modify (<[p := r.2]>);
    do_ (if negb (length r.1 =? 0)%nat then wakeup_writer p else ret tt);
    do_ unlock_state p;
    ret r.1.

(** One unit of [fuel] per [goto try_again], that is per wakeup. *)
Fixpoint pipe_state_read (fuel : nat) (p : Z) (n : nat) (wl w : Z) : code psys (list Z) :=
  read_round (match fuel with O => lift Panic | S fuel => pipe_state_read fuel p n wl w end) p n wl w.

(** One round of [pipe_state_write]: [ret] is [cnt] on entry, [data] the bytes
    from there on; [again] gets both for the next round. *)
Definition write_round (again : list Z -> nat -> code psys nat) (p : Z) (data : list Z) (cnt : nat) (wl w : Z) : code psys nat :=
  do_ lock_state p wl;
  do s <- get;
  do st <- lift (fetch (ext s) p);
  if isclosed st then do_ unlock_state p; ret cnt
  else
    do r <- lift (write_loop data st);
    do_ modify (<[p := r.2]>);
    let step := (length data - length r.1)%nat in
    match r.1 with
    | _ :: _ =>
        do_ wakeup_reader p;
        do_ unlock_state p;
        do ok <- wait_reader p w;
        if negb ok then ret (cnt + step)%nat else again r.1 (cnt + step)%nat
    | [] =>
        do_ (if negb (step =? 0)%nat then wakeup_reader p else ret tt);
        do_ unlock_state p;
        ret (cnt + step)%nat
    end.

Fixpoint pipe_state_write (fuel : nat) (p : Z) (data : list Z) (cnt : nat) (wl w : Z) : code psys nat :=
  write_round (fun data cnt => match fuel with O => lift Panic | S fuel => pipe_state_write fuel p data cnt wl w end)
    p data cnt wl w.

End Pipe.

(** ** The bytes in a pipe *)

Record pipe_ok (st : pipe_state) : Prop := {
  pk_pos : 0 <= p_rpos st <= p_wpos st;
  pk_wpos : p_wpos st < 2 ^ 31;
  pk_size : p_wpos st - p_rpos st <= PIPE_BUFSIZE;
  pk_len : Z.of_nat (length (pbuf st)) = PIPE_BUFSIZE }.

(** The bytes between the positions, oldest first. *)
Fixpoint window (cnt : nat) (pos : Z) (l : list Z) : list Z :=
  match cnt with
  | O => []
  | S cnt => default 0 (l !! slot pos) :: window cnt (pos + 1) l
  end.
Definition stream (st : pipe_state) : list Z := window (Z.to_nat (p_wpos st - p_rpos st)) (p_rpos st) (pbuf st).

Lemma length_window cnt : forall pos l, length (window cnt pos l) = cnt.
Proof. induction cnt; intros; cbn; [done|]. by rewrite IHcnt. Qed.

Lemma length_stream st : pipe_ok st -> Z.of_nat (length (stream st)) = p_wpos st - p_rpos st.
Proof. intros [H _ _ _]. unfold stream. rewrite length_window. lia. Qed.

Lemma window_snoc cnt : forall pos l, window (S cnt) pos l = window cnt pos l ++ [default 0 (l !! slot (pos + Z.of_nat cnt))].
Proof.
  induction cnt as [|cnt IH]; intros pos l.
  - cbn [window app]. do 4 f_equal. lia.
  - change (window (S (S cnt)) pos l) with (default 0 (l !! slot pos) :: window (S cnt) (pos + 1) l). rewrite IH.
    cbn [window app]. do 6 f_equal. lia.
Qed.

Lemma slot_lt pos : (slot pos < Z.to_nat PIPE_BUFSIZE)%nat.
Proof. unfold slot. pose proof (Z.mod_pos_bound (u32 pos) PIPE_BUFSIZE ltac:(done)). lia. Qed.

(** Two positions less than a buffer apart have different slots. *)
Lemma slot_ne a b : 0 <= a < b -> b < 2 ^ 31 -> b - a < PIPE_BUFSIZE -> slot a <> slot b.
Proof.
  intros Hab Hb Hd E. unfold slot in E. rewrite !u32_small in E by lia.
  assert (Hm : a mod PIPE_BUFSIZE = b mod PIPE_BUFSIZE).
  { pose proof (Z.mod_pos_bound a PIPE_BUFSIZE ltac:(done)). pose proof (Z.mod_pos_bound b PIPE_BUFSIZE ltac:(done)). lia. }
  assert (Hz : (b - a) mod PIPE_BUFSIZE = 0) by (rewrite Zminus_mod, Hm, Z.sub_diag; done).
  rewrite Z.mod_small in Hz by lia. lia.
Qed.

Lemma window_insert cnt : forall pos l b x, 0 <= pos -> pos + Z.of_nat cnt <= b -> b < 2 ^ 31 -> b - pos < PIPE_BUFSIZE ->
  window cnt pos (<[slot b := x]> l) = window cnt pos l.
Proof.
  induction cnt as [|cnt IH]; intros pos l b x H0 H1 H2 H3; cbn [window]; [done|].
  rewrite list_lookup_insert_ne by (apply not_eq_sym, slot_ne; lia). f_equal. apply IH; lia.
Qed.

Lemma is_empty_ok st : pipe_ok st -> is_empty st = bool_decide (stream st = []).
Proof.
  intros I. pose proof (length_stream st I) as Hl. unfold is_empty. destruct (Z.eqb_spec (p_rpos st) (p_wpos st)) as [E|E].
  - rewrite bool_decide_true; [done|]. apply length_zero_iff_nil. lia.
  - rewrite bool_decide_false; [done|]. intros H. rewrite H in Hl. destruct I as [[? ?] _ _ _]. cbn in Hl. lia.
Qed.

Lemma is_full_ok st : pipe_ok st -> is_full st = (PIPE_BUFSIZE <=? Z.of_nat (length (stream st))).
Proof.
  intros I. rewrite length_stream by done. destruct I as [H1 H2 H3 _]. unfold is_full.
  rewrite s32_small by lia. rewrite u32_small by lia. done.
Qed.

Lemma stream_cons st : pipe_ok st -> stream st <> [] ->
  exists b, pbuf st !! slot (p_rpos st) = Some b /\ stream st = b :: stream (set_rpos (p_rpos st + 1) st) /\
    pipe_ok (set_rpos (p_rpos st + 1) st).
Proof.
  intros I Hne. pose proof (length_stream st I) as Hl. pose proof I as [H1 H2 H3 H4].
  assert (Hlt : p_rpos st < p_wpos st) by (destruct (stream st); [done|cbn in Hl; lia]).
  destruct (lookup_lt_is_Some_2 (pbuf st) (slot (p_rpos st))) as (b & Hb); [pose proof (slot_lt (p_rpos st)); lia|].
  exists b. split_and!; [done| |split; cbn; lia]. unfold stream. cbn [p_wpos p_rpos pbuf set_rpos].
  replace (Z.to_nat (p_wpos st - p_rpos st)) with (S (Z.to_nat (p_wpos st - (p_rpos st + 1)))) by lia.
  cbn [window]. by rewrite Hb.
Qed.

Lemma stream_snoc st b : pipe_ok st -> Z.of_nat (length (stream st)) < PIPE_BUFSIZE -> p_wpos st + 1 < 2 ^ 31 ->
  let st' := set_wbuf (p_wpos st + 1) (<[slot (p_wpos st) := b]> (pbuf st)) st in
  is_Some (pbuf st !! slot (p_wpos st)) /\ stream st' = stream st ++ [b] /\ pipe_ok st'.
Proof.
  intros I Hl Hw st'. rewrite length_stream in Hl by done. pose proof I as [H1 H2 H3 H4].
  assert (Hs : (slot (p_wpos st) < length (pbuf st))%nat) by (pose proof (slot_lt (p_wpos st)); lia).
  split_and!.
  - by apply lookup_lt_is_Some_2.
  - unfold stream, st'. cbn [p_wpos p_rpos pbuf set_wbuf].
    replace (Z.to_nat (p_wpos st + 1 - p_rpos st)) with (S (Z.to_nat (p_wpos st - p_rpos st))) by lia.
    rewrite window_snoc, window_insert by lia. f_equal. f_equal.
    replace (p_rpos st + Z.of_nat (Z.to_nat (p_wpos st - p_rpos st))) with (p_wpos st) by lia.
    by rewrite list_lookup_insert_eq.
  - split; cbn [st' p_wpos p_rpos pbuf set_wbuf]; rewrite ?length_insert; lia.
Qed.

(** The part of the state the loops do not touch. *)
Definition same_pipe (st st' : pipe_state) : Prop := isclosed st' = isclosed st /\ ref_count st' = ref_count st.

Lemma read_loop_ok cnt : forall st, pipe_ok st ->
  exists st', read_loop cnt st = Ok (take cnt (stream st), st') /\ stream st' = drop cnt (stream st) /\ pipe_ok st' /\
    same_pipe st st' /\ p_wpos st' = p_wpos st.
Proof.
  induction cnt as [|cnt IH]; intros st I; cbn [read_loop].
  - exists st. by split_and!.
  - rewrite is_empty_ok by done. case_bool_decide as He.
    + exists st. rewrite He. by split_and!.
    + destruct (stream_cons st I He) as (b & -> & Hs & I'). pose proof I as [H1 H2 H3 H4]. pose proof (pk_pos _ I') as H5. cbn in H5.
      rewrite s32_small by lia. destruct (IH _ I') as (st' & -> & Hd & I2 & Hsame & Hw). cbn [res_bind].
      exists st'. rewrite Hs. by split_and!.
Qed.

Lemma write_loop_ok data : forall st, pipe_ok st -> p_wpos st + Z.of_nat (length data) < 2 ^ 31 ->
  let room := (Z.to_nat PIPE_BUFSIZE - length (stream st))%nat in
  exists st', write_loop data st = Ok (drop room data, st') /\ stream st' = stream st ++ take room data /\ pipe_ok st' /\
    same_pipe st st' /\ p_rpos st' = p_rpos st.
Proof.
  induction data as [|b data IH]; intros st I Hw room; cbn [write_loop].
  - exists st. rewrite drop_nil, take_nil, app_nil_r. by split_and!.
  - rewrite is_full_ok by done. destruct (Z.leb_spec PIPE_BUFSIZE (Z.of_nat (length (stream st)))) as [Hf|Hf].
    + exists st. replace room with 0%nat by lia. cbn [drop take]. rewrite app_nil_r. by split_and!.
    + cbn [length] in Hw. destruct (stream_snoc st b I Hf ltac:(lia)) as ((x & ->) & Hs & I').
      pose proof I as [H1 H2 H3 H4]. rewrite s32_small by lia.
      destruct (IH _ I') as (st' & E & Hs' & I2 & Hsame & Hr); [cbn; lia|]. exists st'. rewrite E, Hs', Hs.
      rewrite !length_app. cbn [length].
      replace room with (S (Z.to_nat PIPE_BUFSIZE - (length (stream st) + 1)))%nat by lia. cbn [drop take].
      rewrite <- app_assoc. by split_and!.
Qed.

(** ** The operations *)

Section Ops.
Context (C : sched_class) `{OK : !SchedClassOk C}.

(** Pipe [p] is in the state [st] and its lock has the value [v]; nobody waits
    for the lock. *)
Record pipe_at (v p : Z) (st : pipe_state) (s : psys) : Prop := {
  pa_sync : sync_inv C (ks s);
  pa_pipe : ext s !! p = Some st;
  pa_ok : pipe_ok st;
  pa_lock : exists cnt, sems (ks s) !! pipe_sem p = Some (mk_sem v true cnt (p + 32));
  pa_lockq : wqs (ks s) !! (p + 32) = Some [];
  pa_rq : is_Some (wqs (ks s) !! reader_queue p);
  pa_wq : is_Some (wqs (ks s) !! writer_queue p);
  pa_nr : no_sem (reader_queue p) (ks s);
  pa_nw : no_sem (writer_queue p) (ks s) }.

(** Nobody has joined a queue, and the same process runs. *)
Definition calm (s s' : psys) : Prop :=
  same_cpu (ks s) (ks s') /\
  forall q l, wqs (ks s') !! q = Some l -> exists l0, wqs (ks s) !! q = Some l0 /\ forall x, x ∈ l -> x ∈ l0.

Lemma calm_trans s1 s2 s3 : calm s1 s2 -> calm s2 s3 -> calm s1 s3.
Proof.
  intros [A1 B1] [A2 B2]. split; [by eapply same_cpu_trans|]. intros q l Hq. destruct (B2 q l Hq) as (l0 & Hl0 & H0).
  destruct (B1 q l0 Hl0) as (l1 & Hl1 & H1). eauto.
Qed.

Lemma same_cpu_refl s : same_cpu s s.
Proof. by split_and!. Qed.

Lemma calm_same s s' : wqs (ks s') = wqs (ks s) -> same_cpu (ks s) (ks s') -> calm s s'.
Proof. intros E H. split; [done|]. rewrite E. eauto. Qed.

Lemma no_sem_put q sem x v s : sems s !! sem = Some x -> no_sem q s -> no_sem q (put_sem sem (with_value v x) s).
Proof.
  intros Hx Hn a y Hy. cbn in Hy. apply lookup_insert_Some in Hy as [[<- <-]|[_ Hy]]; [exact (Hn _ _ Hx)|by eapply Hn].
Qed.

Lemma pipe_at_put v p st st' s : pipe_at v p st s -> pipe_ok st' -> pipe_at v p st' (put_pipe p st' s).
Proof. intros [] H. split; auto. apply lookup_insert_eq. Qed.

Lemma lock_state_ok {A} p st w (K : unit -> code psys A) s : pipe_at 1 p st s ->
  exists s', bind (lock_state C p w) K s = K tt s' /\ pipe_at 0 p st s' /\ ext s' = ext s /\ calm s s' /\ wqs (ks s') = wqs (ks s).
Proof.
  intros [I Hp Ho (cnt & Hl) Hq Hr Hw Nr Nw]. unfold lock_state.
  destruct (lock_ok C (pipe_sem p) _ w K s I Hl ltac:(done) ltac:(cbn; lia)) as (E & I' & _).
  eexists. split; [exact E|]. split_and!; [|done|by apply calm_same|done].
  split; auto; try (by apply no_sem_put). exists cnt. apply lookup_insert_eq.
Qed.

Lemma unlock_state_ok p st s : pipe_at 0 p st s ->
  exists s', unlock_state C p s = Ok (Done tt s') /\ pipe_at 1 p st s' /\ ext s' = ext s /\ calm s s' /\ wqs (ks s') = wqs (ks s).
Proof.
  intros [I Hp Ho (cnt & Hl) Hq Hr Hw Nr Nw].
  destruct (unlock_ok C (ks s) (pipe_sem p) _ I Hl ltac:(done) Hq ltac:(cbn; lia)) as [E I'].
  eexists. unfold unlock_state, update. rewrite E. cbn [res_bind]. split; [done|]. split_and!; [|done|by apply calm_same|done].
  split; auto; try (by apply no_sem_put). exists cnt. apply lookup_insert_eq.
Qed.

(** [pipe_state_wakeup] empties the queue; whoever waited can run. *)
Lemma pipe_wakeup_ok v p st q l s : pipe_at v p st s -> q = reader_queue p \/ q = writer_queue p -> wqs (ks s) !! q = Some l ->
  exists s', update (pipe_state_wakeup C q) s = Ok (Done tt s') /\ pipe_at v p st s' /\ ext s' = ext s /\ calm s s' /\
    wqs (ks s') = <[q := []]> (wqs (ks s)) /\
    forall w x, w ∈ l -> waits (ks s) !! w = Some x -> exists y, procs (ks s') !! wproc x = Some y /\ state y = PROC_RUNNABLE.
Proof.
  intros [I Hp Ho (cnt & Hl) Hlq Hr Hw Nr Nw] Hq El. unfold update, pipe_state_wakeup, wait_queue_empty.
  rewrite (fetch_ok _ _ _ El). cbn [res_bind].
  assert (Hn : no_sem q (ks s)) by (by destruct Hq as [->| ->]).
  destruct (wakeup_all_ok C (ks s) q l WT_PIPE I El Hn) as (k & E & I' & S & Q & _ & _ & G & Hcpu).
  assert (Hk : (if negb (bool_decide (l = [])) then wakeup_queue C q WT_PIPE true (ks s) else Ok (ks s)) = Ok k).
  { case_bool_decide as Hne; [|done]. subst l. cbn [negb].
    unfold wakeup_queue, wait_queue_first in E. rewrite (fetch_ok _ _ _ El) in E. exact E. }
  rewrite Hk. cbn [res_bind]. eexists. split; [reflexivity|]. cbn [ks ext].
  assert (Hlq' : p + 32 <> q) by (destruct Hq as [->| ->]; unfold reader_queue, writer_queue; lia).
  split_and!; try done.
  - split; cbn [ks ext]; rewrite ?Q, ?S; auto.
    + exists cnt. done.
    + by rewrite lookup_insert_ne by done.
    + destruct (decide (q = reader_queue p)) as [->|]; [rewrite lookup_insert_eq; eauto|by rewrite lookup_insert_ne].
    + destruct (decide (q = writer_queue p)) as [->|]; [rewrite lookup_insert_eq; eauto|by rewrite lookup_insert_ne].
    + intros a x. rewrite S. apply Nr.
    + intros a x. rewrite S. apply Nw.
  - split; [done|]. cbn [ks]. rewrite Q. intros q' l' [[<- <-]|[_ H]]%lookup_insert_Some; [|eauto].
    exists l. split; [done|]. intros x Hx%not_elem_of_nil. done.
  - intros w x Hwl Hx. destruct (G w x Hwl Hx) as [_ H]. exact H.
Qed.

(** The pipe is now in the state [st'], everything else about pipes is as it
    was. *)
Definition pipe_left (p : Z) (st' : pipe_state) (s s' : psys) : Prop := pipe_at 1 p st' s' /\ ext s' = <[p := st']> (ext s).

Lemma pipe_left_id p st s s' : pipe_at 1 p st s -> pipe_at 1 p st s' -> ext s' = ext s -> pipe_left p st s s'.
Proof. intros H H' E. split; [done|]. rewrite E, insert_id; [done|]. apply H. Qed.

Lemma modify_put {A} p st (K : unit -> code psys A) s : bind (modify (<[p := st]>)) K s = K tt (put_pipe p st s).
Proof. done. Qed.

(** The end of a round: waking the other side if [b], and giving the lock back. *)
Lemma wake_unlock_ok {A} (b : bool) p st q (K : code psys A) s :
  pipe_at 0 p st s -> q = reader_queue p \/ q = writer_queue p ->
  exists s', (do_ (if b then update (pipe_state_wakeup C q) else ret tt); do_ unlock_state C p; K) s = K s' /\
    pipe_at 1 p st s' /\ ext s' = ext s /\ calm s s' /\ wqs (ks s') = if b then <[q := []]> (wqs (ks s)) else wqs (ks s).
Proof.
  intros P Hq. destruct b.
  - assert (is_Some (wqs (ks s) !! q)) as (l & Hl) by (destruct Hq as [->| ->]; apply P).
    destruct (pipe_wakeup_ok 0 p st q l s P Hq Hl) as (s3 & E3 & P3 & X3 & C3 & Q3 & _).
    rewrite (bind_done _ _ _ _ _ E3). destruct (unlock_state_ok p st s3 P3) as (s4 & E4 & P4 & X4 & C4 & Q4).
    rewrite (bind_done _ _ _ _ _ E4). exists s4. split_and!; [done|done|congruence|by eapply calm_trans|congruence].
  - rewrite bind_ret. destruct (unlock_state_ok p st s P) as (s4 & E4 & P4 & X4 & C4 & Q4).
    rewrite (bind_done _ _ _ _ _ E4). by exists s4.
Qed.

Lemma read_some_ok again p n wl w st s :
  pipe_at 1 p st s -> stream st <> [] ->
  finishes (read_round C again p n wl w s) (fun l s' => l = take n (stream st) /\
    exists st', pipe_left p st' s s' /\ stream st' = drop n (stream st) /\ same_pipe st st' /\
      (n <> 0%nat -> wqs (ks s') !! writer_queue p = Some [])).
Proof.
  intros P Hne. unfold read_round.
  match goal with |- finishes (bind _ ?K _) _ => destruct (lock_state_ok p st wl K s P) as (s1 & -> & P1 & E1 & _) end.
  rewrite bind_get, (fetch_ok _ _ _ (pa_pipe _ _ _ _ P1)), bind_lift, is_empty_ok by apply P1.
  rewrite bool_decide_false by done.
  destruct (read_loop_ok n st (pa_ok _ _ _ _ P1)) as (st' & -> & Hs & I' & Hsame & _). rewrite bind_lift, modify_put. cbn [fst snd].
  pose proof (pipe_at_put _ _ _ st' _ P1 I') as P2. set (s2 := put_pipe p st' s1) in *.
  assert (E2 : ext s2 = <[p := st']> (ext s)) by (by rewrite <- E1). clearbody s2.
  match goal with |- context [bind (if ?b then _ else _) _ _] =>
    destruct (wake_unlock_ok b p st' (writer_queue p) (ret (take n (stream st))) s2 P2 (or_intror eq_refl)) as (s3 & E3 & P3 & X3 & _ & Q3) end.
  unfold wakeup_writer. rewrite E3. apply finishes_ret. split; [done|]. exists st'. split_and!; try done.
  - by split; [|rewrite X3].
  - intros Hn. rewrite Q3. destruct n; [done|]. destruct (stream st); [done|]. cbn. apply lookup_insert_eq.
Qed.

Lemma read_closed_ok again p n wl w st s :
  pipe_at 1 p st s -> stream st = [] -> isclosed st = true ->
  finishes (read_round C again p n wl w s) (fun l s' => l = [] /\ pipe_left p st s s').
Proof.
  intros P He Hc. unfold read_round.
  match goal with |- finishes (bind _ ?K _) _ => destruct (lock_state_ok p st wl K s P) as (s1 & -> & P1 & E1 & _) end.
  rewrite bind_get, (fetch_ok _ _ _ (pa_pipe _ _ _ _ P1)), bind_lift, is_empty_ok by apply P1.
  rewrite bool_decide_true, Hc by done. destruct (unlock_state_ok p st s1 P1) as (s2 & E2 & P2 & X2 & _).
  rewrite (bind_done _ _ _ _ _ E2). apply finishes_ret. split; [done|]. apply (pipe_left_id p st); [done|done|by rewrite X2].
Qed.

Lemma write_closed_ok again p data cnt wl w st s :
  pipe_at 1 p st s -> isclosed st = true ->
  finishes (write_round C again p data cnt wl w s) (fun r s' => r = cnt /\ pipe_left p st s s').
Proof.
  intros P Hc. unfold write_round.
  match goal with |- finishes (bind _ ?K _) _ => destruct (lock_state_ok p st wl K s P) as (s1 & -> & P1 & E1 & _) end.
  rewrite bind_get, (fetch_ok _ _ _ (pa_pipe _ _ _ _ P1)), bind_lift, Hc. destruct (unlock_state_ok p st s1 P1) as (s2 & E2 & P2 & X2 & _).
  rewrite (bind_done _ _ _ _ _ E2). apply finishes_ret. split; [done|]. apply (pipe_left_id p st); [done|done|by rewrite X2].
Qed.

Lemma write_room_ok again p data cnt wl w st s :
  pipe_at 1 p st s -> isclosed st = false -> p_wpos st + Z.of_nat (length data) < 2 ^ 31 ->
  Z.of_nat (length (stream st) + length data) <= PIPE_BUFSIZE ->
  finishes (write_round C again p data cnt wl w s) (fun r s' => r = (cnt + length data)%nat /\
    exists st', pipe_left p st' s s' /\ stream st' = stream st ++ data /\ same_pipe st st' /\
      (data <> [] -> wqs (ks s') !! reader_queue p = Some [])).
Proof.
  intros P Hc Hw Hfit. unfold write_round.
  match goal with |- finishes (bind _ ?K _) _ => destruct (lock_state_ok p st wl K s P) as (s1 & -> & P1 & E1 & _) end.
  rewrite bind_get, (fetch_ok _ _ _ (pa_pipe _ _ _ _ P1)), bind_lift, Hc.
  destruct (write_loop_ok data st (pa_ok _ _ _ _ P1) Hw) as (st' & -> & Hs & I' & Hsame & _).
  rewrite drop_ge by lia. rewrite take_ge in Hs by lia. rewrite bind_lift, modify_put. cbn [fst snd length].
  pose proof (pipe_at_put _ _ _ st' _ P1 I') as P2. set (s2 := put_pipe p st' s1) in *.
  assert (E2 : ext s2 = <[p := st']> (ext s)) by (by rewrite <- E1). clearbody s2. rewrite Nat.sub_0_r.
  match goal with |- context [bind (if ?b then _ else _) _ _] =>
    destruct (wake_unlock_ok b p st' (reader_queue p) (ret (cnt + length data)%nat) s2 P2 (or_introl eq_refl)) as (s3 & E3 & P3 & X3 & _ & Q3) end.
  unfold wakeup_reader. rewrite E3. apply finishes_ret. split; [done|]. exists st'. split_and!; try done.
  - by split; [|rewrite X3].
  - intros Hn. rewrite Q3. destruct data; [done|]. cbn. apply lookup_insert_eq.
Qed.

(** Sleeping on a queue of the pipe. *)
Lemma pipe_wait_ok p st q w l c s :
  pipe_at 1 p st s -> q = reader_queue p \/ q = writer_queue p -> wqs (ks s) !! q = Some l -> linked w (ks s) = false ->
  procs (ks s) !! current (ks s) = Some c -> lcpu_count (ks s) <= pid c -> current (ks s) <> idleproc (ks s) ->
  blocks (pipe_state_wait C q w s) (fun s1 => asleep C q w WT_PIPE l (ks s) (ks s1) /\ ext s1 = ext s)
    (fun s' r => forall wt, sync_inv C (ks s') -> waits (ks s') !! w = Some wt -> wait_queue wt = q ->
       exists s2, awake C w s' s2 /\ r = Ok (Done (wakeup_flags wt =? WT_PIPE) s2)).
Proof.
  intros P Hq Hl Hw Hc Hp Hid. unfold pipe_state_wait.
  assert (Hn : no_sem q (ks s)) by (destruct Hq as [->| ->]; apply P).
  destruct (nap_ok C (do s <- get; do wt <- lift (fetch (waits (ks s)) w); ret (wakeup_flags wt =? WT_PIPE))
    q w WT_PIPE l c s (pa_sync _ _ _ _ P) Hw Hl Hn Hc Hp Hid) as (s1 & k & E & H1 & H2).
  exists s1, k. split_and!; [exact E|apply H1|apply H1|]. intros s' wt I' Hw' Hq'.
  destruct (H2 s' wt I' Hw' Hq') as (s2 & -> & A). exists s2. split; [done|]. rewrite bind_get.
  destruct A as (_ & _ & Ew & _). rewrite Ew, (fetch_ok _ _ _ Hw'), bind_lift. done.
Qed.

(** The process may sleep. *)
Definition may_sleep (w : Z) (s : psys) : Prop :=
  linked w (ks s) = false /\ current (ks s) <> idleproc (ks s) /\
  exists c, procs (ks s) !! current (ks s) = Some c /\ lcpu_count (ks s) <= pid c.

Lemma may_sleep_calm w s s' : calm s s' -> may_sleep w s -> may_sleep w s'.
Proof.
  intros [(A & B & D & P) Q] (Hl & Hi & c & Hc & Hp). split_and!; [by eapply linked_wqs|congruence|].
  specialize (P (current (ks s))). rewrite Hc in P. rewrite A. destruct (procs (ks s') !! current (ks s)) as [c'|]; [|done].
  exists c'. split; [done|]. cbn in P. injection P as P. lia.
Qed.

(** What the process does when it runs again. *)
Definition resumed {A} (w q : Z) (again : code psys A) (a : A) (s' : psys) (r : res (run psys A)) : Prop :=
  forall wt, sync_inv C (ks s') -> waits (ks s') !! w = Some wt -> wait_queue wt = q ->
    exists s2, awake C w s' s2 /\ r = if wakeup_flags wt =? WT_PIPE then again s2 else Ok (Done a s2).

Lemma wait_then_ok {A} p st q w l s0 (again : code psys A) a :
  pipe_at 1 p st s0 -> q = reader_queue p \/ q = writer_queue p -> wqs (ks s0) !! q = Some l -> may_sleep w s0 ->
  blocks ((do ok <- pipe_state_wait C q w; if negb ok then ret a else again) s0)
    (fun s1 => asleep C q w WT_PIPE l (ks s0) (ks s1) /\ ext s1 = ext s0) (resumed w q again a).
Proof.
  intros P Hq Hl (Hw & Hid & c & Hc & Hp). eapply blocks_then; [by apply (pipe_wait_ok p st q w l c s0)|].
  intros s' r H wt I' Hw' Hq'. destruct (H wt I' Hw' Hq') as (s2 & A2 & ->). exists s2. split; [done|]. cbn [res_bind run_bind].
  by destruct (_ =? _).
Qed.

Lemma reader_writer p : reader_queue p <> writer_queue p.
Proof. unfold reader_queue, writer_queue. lia. Qed.

Lemma write_full_ok again p data cnt wl w st lw s :
  pipe_at 1 p st s -> isclosed st = false -> p_wpos st + Z.of_nat (length data) < 2 ^ 31 ->
  PIPE_BUFSIZE < Z.of_nat (length (stream st) + length data) -> wqs (ks s) !! writer_queue p = Some lw -> may_sleep w s ->
  let room := (Z.to_nat PIPE_BUFSIZE - length (stream st))%nat in
  blocks (write_round C again p data cnt wl w s)
    (fun s1 => exists st' s0, pipe_left p st' s s0 /\ stream st' = stream st ++ take room data /\ same_pipe st st' /\
       wqs (ks s0) !! reader_queue p = Some [] /\ asleep C (writer_queue p) w WT_PIPE lw (ks s0) (ks s1) /\ ext s1 = ext s0)
    (resumed w (writer_queue p) (again (drop room data) (cnt + room)%nat) (cnt + room)%nat).
Proof.
  intros P Hc Hw Hfull Hlw Hms room. unfold write_round.
  match goal with |- blocks (bind _ ?K _) _ _ => destruct (lock_state_ok p st wl K s P) as (s1 & -> & P1 & E1 & C1 & Q1) end.
  rewrite bind_get, (fetch_ok _ _ _ (pa_pipe _ _ _ _ P1)), bind_lift, Hc.
  destruct (write_loop_ok data st (pa_ok _ _ _ _ P1) Hw) as (st' & -> & Hs & I' & Hsame & _). fold room in Hs |- *.
  assert (Hroom : (room < length data)%nat).
  { pose proof (length_stream st (pa_ok _ _ _ _ P)). pose proof (pk_size _ (pa_ok _ _ _ _ P)). lia. }
  rewrite bind_lift, modify_put. cbn [fst snd]. rewrite length_drop. replace (length data - (length data - room))%nat with room by lia.
  destruct (drop room data) as [|d rest] eqn:Ed; [apply (f_equal length) in Ed; rewrite length_drop in Ed; cbn in Ed; lia|].
  pose proof (pipe_at_put _ _ _ st' _ P1 I') as P2. set (s2 := put_pipe p st' s1) in *.
  assert (E2 : ext s2 = <[p := st']> (ext s)) by (by rewrite <- E1).
  assert (C2 : calm s s2) by (split; apply C1).
  assert (Q2 : wqs (ks s2) !! writer_queue p = Some lw) by (by rewrite <- Hlw, <- Q1). clearbody s2.
  destruct (wake_unlock_ok true p st' (reader_queue p)
    (do ok <- wait_reader C p w; if negb ok then ret (cnt + room)%nat else again (d :: rest) (cnt + room)%nat) s2 P2 (or_introl eq_refl))
    as (s3 & E3 & P3 & X3 & C3 & Q3).
  unfold wakeup_reader. rewrite E3.
  destruct (wait_then_ok p st' (writer_queue p) w lw s3 (again (d :: rest) (cnt + room)%nat) (cnt + room)%nat P3 (or_intror eq_refl))
    as (s4 & k & E4 & [A4 X4] & R4).
  { by rewrite Q3, lookup_insert_ne by apply reader_writer. } { eapply may_sleep_calm; [|done]. by eapply calm_trans. }
  exists s4, k. split_and!; [done| |done]. exists st', s3. split_and!; try done; try apply Hsame.
  - split; [done|by rewrite X3].
  - by rewrite Q3, lookup_insert_eq.
Qed.

Lemma read_empty_ok again p n wl w st lr s :
  pipe_at 1 p st s -> isclosed st = false -> stream st = [] -> wqs (ks s) !! reader_queue p = Some lr -> may_sleep w s ->
  blocks (read_round C again p n wl w s)
    (fun s1 => exists s0, pipe_left p st s s0 /\ asleep C (reader_queue p) w WT_PIPE lr (ks s0) (ks s1) /\ ext s1 = ext s0)
    (resumed w (reader_queue p) again []).
Proof.
  intros P Hc He Hlr Hms. unfold read_round.
  match goal with |- blocks (bind _ ?K _) _ _ => destruct (lock_state_ok p st wl K s P) as (s1 & -> & P1 & E1 & C1 & Q1) end.
  rewrite bind_get, (fetch_ok _ _ _ (pa_pipe _ _ _ _ P1)), bind_lift, is_empty_ok, Hc by apply P1. rewrite bool_decide_true by done.
  destruct (unlock_state_ok p st s1 P1) as (s2 & E2 & P2 & X2 & C2 & Q2). rewrite (bind_done _ _ _ _ _ E2).
  destruct (wait_then_ok p st (reader_queue p) w lr s2 again [] P2 (or_introl eq_refl)) as (s4 & k & E4 & [A4 X4] & R4).
  { by rewrite Q2, Q1. } { eapply may_sleep_calm; [|done]. by eapply calm_trans. }
  exists s4, k. split_and!; [done| |done]. exists s2. split_and!; [|done|done]. apply (pipe_left_id p st); [done|done|by rewrite X2].
Qed.

End Ops.

(** ** What a pipe promises *)


(** Writing more than fits puts as much as fits into the pipe, wakes the
    readers, gives the lock back and sleeps behind the other writers; woken by
    a reader the writer goes on with the rest, woken otherwise it returns the
    number of bytes it has written.  Reading from an empty open pipe sleeps
    behind the other readers with the lock free. *)
Theorem pipe_blocks (C : sched_class) (OK : SchedClassOk C) fuel p n data cnt wl w st lr lw s :
  pipe_at C 1 p st s -> isclosed st = false -> wqs (ks s) !! reader_queue p = Some lr -> wqs (ks s) !! writer_queue p = Some lw ->
  may_sleep w s ->
  (p_wpos st + Z.of_nat (length data) < 2 ^ 31 -> PIPE_BUFSIZE < Z.of_nat (length (stream st) + length data) ->
   let room := (Z.to_nat PIPE_BUFSIZE - length (stream st))%nat in
   blocks (pipe_state_write C (S fuel) p data cnt wl w s)
     (fun s1 => exists st' s0, pipe_left C p st' s s0 /\ stream st' = stream st ++ take room data /\ same_pipe st st' /\
        wqs (ks s0) !! reader_queue p = Some [] /\ asleep C (writer_queue p) w WT_PIPE lw (ks s0) (ks s1) /\ ext s1 = ext s0)
     (resumed C w (writer_queue p) (pipe_state_write C fuel p (drop room data) (cnt + room) wl w) (cnt + room)%nat)) /\
  (stream st = [] ->
   blocks (pipe_state_read C (S fuel) p n wl w s)
     (fun s1 => exists s0, pipe_left C p st s s0 /\ asleep C (reader_queue p) w WT_PIPE lr (ks s0) (ks s1) /\ ext s1 = ext s0)
     (resumed C w (reader_queue p) (pipe_state_read C fuel p n wl w) [])).
Proof.
  intros P Hc Hr Hw Hm. split.
  - intros Hb Hf room.
    exact (write_full_ok C (fun data cnt => pipe_state_write C fuel p data cnt wl w) p data cnt wl w st lw s P Hc Hb Hf Hw Hm).
  - intros He. exact (read_empty_ok C (pipe_state_read C fuel p n wl w) p n wl w st lr s P Hc He Hr Hm).
Qed.

(** Writing [data] and reading it back, as a test. *)
Definition loses_first (data : list Z) (st : pipe_state) : bool :=
  match write_loop data st with
  | Ok ([], st1) =>
      match read_loop (length data) st1 with
      | Ok (l, st2) => (length l =? length data)%nat && is_empty st2 && negb (hd 0 l =? hd 0 data)
      | Panic => false
      end
  | _ => false
  end.

Lemma loses_first_ok data st : loses_first data st = true ->
  returns (write_loop data st) (fun '(rest, st1) => rest = [] /\
    returns (read_loop (length data) st1) (fun '(l, st2) => length l = length data /\ is_empty st2 = true /\ l <> data)).
Proof.
  unfold loses_first. destruct (write_loop data st) as [[[|] st1]|]; try done. intros H. apply returns_ok. split; [done|].
  destruct (read_loop (length data) st1) as [[l st2]|]; [|done]. apply returns_ok.
  apply andb_true_iff in H as [[Hl He]%andb_true_iff Hh]. split_and!; [by apply Nat.eqb_eq|done|].
  intros ->. by rewrite Z.eqb_refl in Hh.
Qed.

(** The positions are 32 bits wide and the size of the buffer does not
    divide [2 ^ 32]: when the positions wrap around, two bytes of the buffer
    share a slot.  A pipe through which [2 ^ 32 - 1] bytes have passed has both
    positions at -1; it takes a full buffer of bytes, none of the tests
    objects, and reading them back does not give the bytes written. *)
Theorem pipe_wrap_loses :
  let data := 1 :: repeat 0 (Z.to_nat PIPE_BUFSIZE - 1) in
  let st := mk_pipe (s32 (2 ^ 32 - 1)) (s32 (2 ^ 32 - 1)) (repeat 0 (Z.to_nat PIPE_BUFSIZE)) false 1 in
  returns (write_loop data st) (fun '(rest, st1) => rest = [] /\
    returns (read_loop (length data) st1) (fun '(l, st2) => length l = length data /\ is_empty st2 = true /\ l <> data)).
Proof. apply loses_first_ok. vm_compute. reflexivity. Qed.

(** *** Witnesses *)

Definition demo_pipe (st : pipe_state) : psys :=
  mk_sys (set_sems {[2020 := mk_sem 1 true 0 2032]} (set_wqs {[2032 := []; 2040 := []; 2048 := []]} demo)) {[2000 := st]}.

Lemma demo_pipe_at st : pipe_ok st -> pipe_at MLFQ_sched_class 1 2000 st (demo_pipe st).
Proof.
  intros H. split; try done.
  - split.
    + apply (sched_inv_frame _ _ demo); try done. apply demo_MLFQ.
    + split; cbn [wqs waits demo_pipe ks set_wqs set_sems].
      * intros q l Hq. assert (l = []) as ->; [|constructor].
        apply lookup_insert_Some in Hq as [[_ <-]|[_ Hq]]; [done|].
        apply lookup_insert_Some in Hq as [[_ <-]|[_ [_ <-]%lookup_singleton_Some]]; done.
      * intros q l x Hq Hx. assert (l = []) as ->; [|by apply not_elem_of_nil in Hx].
        apply lookup_insert_Some in Hq as [[_ <-]|[_ Hq]]; [done|].
        apply lookup_insert_Some in Hq as [[_ <-]|[_ [_ <-]%lookup_singleton_Some]]; done.
    + split; [split|]; [constructor|intros ? Hx%not_elem_of_nil; done|constructor|constructor].
    + split; cbn [sems demo_pipe ks set_sems].
      * intros sem x [<- <-]%lookup_singleton_Some. exists []. by split.
      * intros a b x y [<- _]%lookup_singleton_Some [<- _]%lookup_singleton_Some; done.
  - by exists 0.
  - intros sem x Hx. cbn [sems ks demo_pipe set_sems] in Hx. apply lookup_singleton_Some in Hx as [<- <-]. done.
  - intros sem x Hx. cbn [sems ks demo_pipe set_sems] in Hx. apply lookup_singleton_Some in Hx as [<- <-]. done.
Qed.

Definition demo_st (n : nat) : pipe_state := mk_pipe 0 (Z.of_nat n) (repeat 7 4040) false 1.

Lemma demo_st_ok n : (n <= 4040)%nat -> pipe_ok (demo_st n).
Proof. intros H. split; cbn [demo_st p_rpos p_wpos pbuf]; unfold PIPE_BUFSIZE, PGSIZE, sizeof_pipe_state; rewrite ?repeat_length; lia. Qed.


Lemma pipe_blocks_witness :
  blocks (pipe_state_read MLFQ_sched_class 1 2000 2 601 602 (demo_pipe (demo_st 0)))
    (fun s1 => wqs (ks s1) !! 2040 = Some [602]) (fun _ _ => True).
Proof.
  destruct (proj2 (pipe_blocks MLFQ_sched_class MLFQ_class_ok 0 2000 2 [] 0 601 602 (demo_st 0) [] [] (demo_pipe (demo_st 0))
    (demo_pipe_at _ (demo_st_ok 0 ltac:(lia))) eq_refl eq_refl eq_refl
    ltac:(split_and!; [done|done|by eexists])) eq_refl) as (s1 & k & E & (s0 & _ & A & _) & _).
  exists s1, k. split_and!; [done| |done]. destruct A as (_ & _ & -> & _). apply lookup_insert_eq.
Defined.
