(* ===== verification/Iobuf.v ===== *)
(** * Iobuf: transfer buffers of the file systems (fs/iobuf.c)

    An [iobuf] describes what is left of a buffer in memory; the file systems
    move data to it or from it piece by piece. *)
From S2P Require Import Prelude Uaccess.

(** [struct iobuf] *)
Record iobuf := mk_iob { io_base : Z; io_offset : Z; io_len : Z; io_resid : Z }.

Definition iobuf_init (base len offset : Z) : iobuf := mk_iob base offset len len.

Definition iobuf_used (iob : iobuf) : Z := u32 (io_len iob - io_resid iob).

Definition iobuf_skip (iob : iobuf) (n : Z) : res iobuf :=
  assert! n <=? io_resid iob ;;
  Ok (mk_iob (u32 (io_base iob + n)) (s32 (io_offset iob + n)) (io_len iob) (io_resid iob - n)).

(** The memory is a function from addresses to bytes; [memmove] reads all of
    the source before it writes. *)
Definition memmove (dst src n : Z) (m : Z -> Z) : Z -> Z := write_bytes m dst (read_bytes m src (Z.to_nat n)).
Definition memset (dst c n : Z) (m : Z -> Z) : Z -> Z := write_bytes m dst (repeat c (Z.to_nat n)).

(** The return value, [*copiedp], the buffer and the memory. *)
Definition iobuf_move (iob : iobuf) (data len : Z) (m2b : bool) (m : Z -> Z) : res (Z * Z * iobuf * (Z -> Z)) :=
  let alen := if len <? io_resid iob then len else io_resid iob in
  if 0 <? alen then
    let (src, dst) := if m2b then (data, io_base iob) else (io_base iob, data) in
    let m := memmove dst src alen m in
    let* iob := iobuf_skip iob alen in
    let len := len - alen in
    Ok (if len =? 0 then 0 else - E_NO_MEM, alen, iob, m)
  else Ok (if len =? 0 then 0 else - E_NO_MEM, alen, iob, m).

Definition iobuf_move_zeros (iob : iobuf) (len : Z) (m : Z -> Z) : res (Z * Z * iobuf * (Z -> Z)) :=
  let alen := if len <? io_resid iob then len else io_resid iob in
  if 0 <? alen then
    let m := memset (io_base iob) 0 alen m in
    let* iob := iobuf_skip iob alen in
    let len := len - alen in
    Ok (if len =? 0 then 0 else - E_NO_MEM, alen, iob, m)
  else Ok (if len =? 0 then 0 else - E_NO_MEM, alen, iob, m).

(** The buffer lies in the address space and its offset does not overflow. *)
Record iob_ok (iob : iobuf) : Prop := {
  iok_resid : 0 <= io_resid iob <= io_len iob;
  iok_len : io_len iob < 2 ^ 32;
  iok_base : 0 <= io_base iob /\ io_base iob + io_resid iob < 2 ^ 32;
  iok_offset : - 2 ^ 31 <= io_offset iob /\ io_offset iob + io_resid iob < 2 ^ 31 }.

(** The buffer after [n] bytes. *)
Definition advanced (n : Z) (iob iob' : iobuf) : Prop :=
  iob' = mk_iob (io_base iob + n) (io_offset iob + n) (io_len iob) (io_resid iob - n) /\ iob_ok iob' /\
  iobuf_used iob' = iobuf_used iob + n.

Lemma iobuf_skip_ok iob n : iob_ok iob -> 0 <= n ->
  if n <=? io_resid iob then exists iob', iobuf_skip iob n = Ok iob' /\ advanced n iob iob' else iobuf_skip iob n = Panic.
Proof.
  intros [H1 H2 H3 H4] Hn. unfold iobuf_skip. destruct (Z.leb_spec n (io_resid iob)); [|done]. cbn [assert res_bind].
  rewrite u32_small, s32_small by lia. eexists. split; [reflexivity|]. split_and!; [done|split; cbn; lia|].
  unfold iobuf_used. cbn. rewrite !u32_small by lia. lia.
Qed.

Lemma min_ltb a b : (if b <? a then b else a) = Z.min a b.
Proof. destruct (Z.ltb_spec b a); lia. Qed.

Lemma advanced_0 iob : iob_ok iob -> advanced 0 iob iob.
Proof. intros H. split_and!; [|done|lia]. destruct iob; cbn. f_equal; lia. Qed.

(** The bytes [a, a + n) are [bs], the others are those of [m]. *)
Definition only_at (a : Z) (bs : list Z) (m m' : Z -> Z) : Prop :=
  read_bytes m' a (length bs) = bs /\ forall x, x < a \/ a + Z.of_nat (length bs) <= x -> m' x = m x.

Lemma only_at_write m a bs : only_at a bs m (write_bytes m a bs).
Proof. split; [apply read_write_bytes|]. intros x Hx. by apply write_bytes_out. Qed.

(** Moving data through a transfer buffer copies the smaller of the length
    and what is left of the buffer, never a byte more, between the buffer's
    current position and the data, and advances base, offset and residue by
    exactly that; the call reports whether all of it was moved.  The buffer
    stays well formed, so the assertion in [iobuf_skip] cannot fail. *)
Theorem iobuf_move_spec iob data len m2b m :
  iob_ok iob -> 0 <= len < 2 ^ 32 ->
  let n := Z.min (io_resid iob) len in
  let (src, dst) := if m2b : bool then (data, io_base iob) else (io_base iob, data) in
  returns (iobuf_move iob data len m2b m) (fun '(r, copied, iob', m') =>
    copied = n /\ r = (if len <=? io_resid iob then 0 else - E_NO_MEM) /\ advanced n iob iob' /\
    only_at dst (read_bytes m src (Z.to_nat n)) m m') /\
  returns (iobuf_move_zeros iob len m) (fun '(r, copied, iob', m') =>
    copied = n /\ r = (if len <=? io_resid iob then 0 else - E_NO_MEM) /\ advanced n iob iob' /\
    only_at (io_base iob) (repeat 0 (Z.to_nat n)) m m').
Proof.
  intros I Hlen n. pose proof I as [H1 H2 H3 H4].
  assert (Hr : (if len - n =? 0 then 0 else - E_NO_MEM) = (if len <=? io_resid iob then 0 else - E_NO_MEM)).
  { destruct (Z.eqb_spec (len - n) 0), (Z.leb_spec len (io_resid iob)); try done; lia. }
  pose proof (iobuf_skip_ok iob n I ltac:(lia)) as Hs. rewrite (proj2 (Z.leb_le n (io_resid iob))) in Hs by lia.
  destruct Hs as (iob' & Es & Ha). unfold iobuf_move, iobuf_move_zeros. rewrite min_ltb. fold n. rewrite Es. cbn [res_bind].
  destruct (Z.ltb_spec 0 n) as [Hp|Hz].
  - destruct m2b; split; apply returns_ok; (split_and!; [done|done|done|apply only_at_write]).
  - assert (n = 0) as E0 by lia. rewrite E0 in *. rewrite Z.sub_0_r in Hr.
    destruct m2b; split; apply returns_ok; (split_and!; [done|done|by apply advanced_0|split; [done|by intros]]).
Qed.

(** *** Witness *)

Lemma iobuf_move_spec_witness :
  returns (iobuf_move (iobuf_init 0x8000 10 0) 0x9000 4 true (fun _ => 7)) (fun '(r, copied, iob', m') => copied = 4).
Proof.
  eapply returns_mono; [apply (iobuf_move_spec (iobuf_init 0x8000 10 0) 0x9000 4 true (fun _ => 7)); [split; cbn; lia|lia]|].
  intros [[[r copied] iob'] m'] [-> _]. done.
Defined.
