(* ===== verification/File.v ===== *)
(** * File: open files (fs/file.c, fs/fs.c, fs/vfs/inode.c, [vfs_open] and
      [vfs_close] of fs/vfs/vfsfile.c)

    A process has a table of open files; an entry refers to an inode, whose
    counts say how many references it has and how often it is open.  The file
    systems below are the class [Vnodes]: a table of operations for each inode
    ([struct inode_ops]), path lookup and pipes.  Their operations may sleep,
    so they are resumptions; while one runs, the count of the entry keeps it
    from being freed. *)
From S2P Require Import Prelude KState Sched Resume Sleep Uaccess Iobuf.

(** [FS_STRUCT_BUFSIZE / sizeof(struct file)]: [struct fs_struct] has 32 bytes,
    [struct file] 28. *)
Definition FS_STRUCT_NENTRY : Z := (2 * PGSIZE - 32) / 28.
Definition MAX_INODE_COUNT : Z := 0x10000.
Definition NO_FD : Z := - 0x9527.

Definition O_ACCMODE : Z := 3.
Definition O_RDONLY : Z := 0.
Definition O_WRONLY : Z := 1.
Definition O_RDWR : Z := 2.
Definition O_CREAT : Z := 0x40.
Definition O_EXCL : Z := 0x80.
Definition O_TRUNC : Z := 0x200.
Definition O_APPEND : Z := 0x400.
Definition LSEEK_SET : Z := 0.
Definition LSEEK_CUR : Z := 1.
Definition LSEEK_END : Z := 2.

Inductive file_status := FD_NONE | FD_INIT | FD_OPENED | FD_CLOSED.

#[export] Instance file_status_eq_dec : EqDecision file_status.
Proof. solve_decision. Defined.

(** [struct file] *)
Record file := mk_file {
  status : file_status;
  readable : bool;
  writable : bool;
  fd : Z;
  pos : Z;
  node : option Z;
  fopen_count : Z }.

Definition set_status v f := mk_file v (readable f) (writable f) (fd f) (pos f) (node f) (fopen_count f).
Definition set_rights r w f := mk_file (status f) r w (fd f) (pos f) (node f) (fopen_count f).
Definition set_pos v f := mk_file (status f) (readable f) (writable f) (fd f) v (node f) (fopen_count f).
Definition set_node v f := mk_file (status f) (readable f) (writable f) (fd f) (pos f) v (fopen_count f).
Definition set_count v f := mk_file (status f) (readable f) (writable f) (fd f) (pos f) (node f) v.

(** [struct fs_struct], without its semaphore, and the counts of
    [struct inode]. *)
Record fs_struct := mk_fs { pwd : option Z; filemap : list file; fs_count : Z }.
Record inode := mk_inode { ref_count : Z; open_count : Z }.

Record fsys (FS : Type) := mk_fsys {
  tables : gmap Z fs_struct;
  inodes : gmap Z inode;
  under : FS }.
Arguments mk_fsys {FS}.
Arguments tables {FS}.
Arguments inodes {FS}.
Arguments under {FS}.

(** [struct inode_ops], and the entry points of a Linux device. *)
Record inode_ops (FS : Type) := mk_ops {
  op_open : Z -> code (fsys FS) Z;
  op_close : code (fsys FS) Z;
  op_read : iobuf -> code (fsys FS) (Z * iobuf);
  op_write : iobuf -> code (fsys FS) (Z * iobuf);
  op_fstat : code (fsys FS) (Z * Z);
  op_fsync : code (fsys FS) Z;
  op_getdirentry : iobuf -> code (fsys FS) (Z * iobuf);
  op_reclaim : code (fsys FS) Z;
  op_tryseek : Z -> code (fsys FS) Z;
  op_truncate : Z -> code (fsys FS) Z;
  op_create : list Z -> bool -> code (fsys FS) (Z * Z);
  op_mkdir : list Z -> code (fsys FS) Z;
  op_link : list Z -> Z -> code (fsys FS) Z;
  op_rename : list Z -> Z -> list Z -> code (fsys FS) Z;
  op_symlink : list Z -> list Z -> code (fsys FS) Z;
  op_readlink : iobuf -> code (fsys FS) (Z * iobuf);
  op_unlink : list Z -> code (fsys FS) Z;
  is_device : bool;
  linux_device : bool;
  d_linux_read : Z -> Z -> Z -> code (fsys FS) Z;
  d_linux_write : Z -> Z -> Z -> code (fsys FS) Z;
  d_linux_ioctl : Z -> Z -> code (fsys FS) Z;
  d_linux_mmap : Z -> Z -> Z -> Z -> Z -> code (fsys FS) Z }.
Arguments op_open {FS}. Arguments op_close {FS}. Arguments op_read {FS}. Arguments op_write {FS}.
Arguments op_fstat {FS}. Arguments op_fsync {FS}. Arguments op_getdirentry {FS}. Arguments op_reclaim {FS}.
Arguments op_tryseek {FS}. Arguments op_truncate {FS}. Arguments op_create {FS}. Arguments op_mkdir {FS}. Arguments op_link {FS}. Arguments op_rename {FS}.
Arguments op_symlink {FS}. Arguments op_readlink {FS}. Arguments op_unlink {FS}. Arguments linux_device {FS}.
Arguments d_linux_read {FS}. Arguments d_linux_write {FS}. Arguments d_linux_ioctl {FS}. Arguments d_linux_mmap {FS}. Arguments is_device {FS}.

Class Vnodes := {
  FS : Type;
  in_ops : Z -> inode_ops FS;
  in_fs : Z -> option Z;
  vfs_lookup : list Z -> code (fsys FS) (Z * Z);
  vfs_lookup_parent : list Z -> code (fsys FS) (Z * Z * list Z);
  pipe_open : code (fsys FS) (Z * Z * Z) }.

Section Ops.
Context `{VN : Vnodes}.
Notation M := (code (fsys FS)).

Definition upd (f : fsys FS -> res (fsys FS)) : M unit := fun s => let* s := f s in Ok (Done tt s).
Definition ask {A} (f : fsys FS -> res A) : M A := fun s => let* a := f s in Ok (Done a s).

(** ** Inodes (fs/vfs/inode.c) *)

Definition get_inode (n : Z) : M inode := ask (fun s => fetch (inodes s) n).
Definition put_inode (n : Z) (x : inode) : M unit :=
  upd (fun s => Ok (mk_fsys (tables s) (<[n := x]> (inodes s)) (under s))).

Definition inode_check (n : Z) : M unit :=
  do x <- get_inode n;
  check (open_count x <=? ref_count x) && (0 <=? open_count x);
  check (ref_count x <? MAX_INODE_COUNT) && (open_count x <? MAX_INODE_COUNT);
  ret tt.

(** [__vop_op] *)
Definition vop {A} (n : Z) (op : inode_ops FS -> M A) : M A := do_ inode_check n; op (in_ops n).

Definition inode_ref_inc (n : Z) : M Z :=
  do x <- get_inode n;
  do_ put_inode n (mk_inode (ref_count x + 1) (open_count x));
  ret (ref_count x + 1).

Definition inode_open_inc (n : Z) : M Z :=
  do x <- get_inode n;
  do_ put_inode n (mk_inode (ref_count x) (open_count x + 1));
  ret (open_count x + 1).

Definition inode_ref_dec (n : Z) : M Z :=
  do x <- get_inode n;
  check 0 <? ref_count x;
  do_ put_inode n (mk_inode (ref_count x - 1) (open_count x));
  if ref_count x - 1 =? 0 then do _ <- vop n op_reclaim; ret (ref_count x - 1)
  else ret (ref_count x - 1).

Definition inode_open_dec (n : Z) : M Z :=
  do x <- get_inode n;
  check 0 <? open_count x;
  do_ put_inode n (mk_inode (ref_count x) (open_count x - 1));
  if open_count x - 1 =? 0 then do _ <- vop n op_close; ret (open_count x - 1)
  else ret (open_count x - 1).

Definition inode_kill (n : Z) : M unit :=
  do x <- get_inode n;
  check ref_count x =? 0;
  check open_count x =? 0;
  upd (fun s => Ok (mk_fsys (tables s) (delete n (inodes s)) (under s))).

(** ** [vfs_open] and [vfs_close] (fs/vfs/vfsfile.c) *)

Definition has_flag (flags bit : Z) : bool := negb (Z.land flags bit =? 0).

(** The return value and, if it is 0, the inode. *)
Definition vfs_open (path : list Z) (open_flags : Z) : M (Z * Z) :=
  let acc := Z.land open_flags O_ACCMODE in
  let can_write := (acc =? O_WRONLY) || (acc =? O_RDWR) in
  if negb (acc =? O_RDONLY) && negb can_write then ret (- E_INVAL, 0)
  else if has_flag open_flags O_TRUNC && negb can_write then ret (- E_INVAL, 0)
  else
    do (r, n) <-
      (if has_flag open_flags O_CREAT then
         do (r, dir, name) <- vfs_lookup_parent path;
         if negb (r =? 0) then ret (r, 0)
         else
           do (r, n) <- vop dir (fun o => op_create o name (has_flag open_flags O_EXCL));
           do _ <- inode_ref_dec dir;
           ret (r, n)
       else vfs_lookup path);
    if negb (r =? 0) then ret (r, 0)
    else
      do r <- vop n (fun o => op_open o open_flags);
      if negb (r =? 0) then do _ <- inode_ref_dec n; ret (r, 0)
      else
        do _ <- inode_open_inc n;
        if has_flag open_flags O_TRUNC then
          do r <- vop n (fun o => op_truncate o 0);
          if negb (r =? 0) then do _ <- inode_open_dec n; do _ <- inode_ref_dec n; ret (r, 0)
          else ret (0, n)
        else ret (0, n).

Definition vfs_close (n : Z) : M Z :=
  do _ <- inode_open_dec n;
  do _ <- inode_ref_dec n;
  ret 0.

(** The operations on names: the directory is looked up, and the reference to
    it is given back after the operation. *)
Definition in_dir (path : list Z) (op : Z -> list Z -> M Z) : M Z :=
  do (r, dir, name) <- vfs_lookup_parent path;
  if negb (r =? 0) then ret r
  else
    do r <- op dir name;
    do _ <- inode_ref_dec dir;
    ret r.

Definition vfs_unlink (path : list Z) : M Z := in_dir path (fun dir name => vop dir (fun o => op_unlink o name)).
Definition vfs_symlink (old_path new_path : list Z) : M Z :=
  in_dir new_path (fun dir name => vop dir (fun o => op_symlink o name old_path)).
Definition vfs_mkdir (path : list Z) : M Z := in_dir path (fun dir name => vop dir (fun o => op_mkdir o name)).

(** [a->in_fs == NULL || a->in_fs != b->in_fs] *)
Definition other_fs (a b : Z) : bool := bool_decide (in_fs a = None \/ in_fs a <> in_fs b).

Definition vfs_rename (old_path new_path : list Z) : M Z :=
  do (r, old_dir, old_name) <- vfs_lookup_parent old_path;
  if negb (r =? 0) then ret r
  else
    do (r, new_dir, new_name) <- vfs_lookup_parent new_path;
    if negb (r =? 0) then do _ <- inode_ref_dec old_dir; ret r
    else
      do r <- (if other_fs old_dir new_dir then ret (- E_XDEV)
               else vop old_dir (fun o => op_rename o old_name new_dir new_name));
      do _ <- inode_ref_dec old_dir;
      do _ <- inode_ref_dec new_dir;
      ret r.

Definition vfs_link (old_path new_path : list Z) : M Z :=
  do (r, old_node) <- vfs_lookup old_path;
  if negb (r =? 0) then ret r
  else
    do (r, new_dir, new_name) <- vfs_lookup_parent new_path;
    if negb (r =? 0) then do _ <- inode_ref_dec old_node; ret r
    else
      do r <- (if other_fs old_node new_dir then ret (- E_XDEV)
               else vop new_dir (fun o => op_link o new_name old_node));
      do _ <- inode_ref_dec old_node;
      do _ <- inode_ref_dec new_dir;
      ret r.

Definition vfs_readlink (path : list Z) (iob : iobuf) : M (Z * iobuf) :=
  do (r, n) <- vfs_lookup path;
  if negb (r =? 0) then ret (r, iob)
  else
    do (r, iob) <- vop n (fun o => op_readlink o iob);
    do _ <- inode_ref_dec n;
    ret (r, iob).

(** ** The table of open files (fs/file.c)

    [t] is the [fs_struct] of the current process, an entry is its index. *)

Definition table_of (t : Z) : M fs_struct := ask (fun s => fetch (tables s) t).
Definition put_table (t : Z) (x : fs_struct) : M unit :=
  upd (fun s => Ok (mk_fsys (<[t := x]> (tables s)) (inodes s) (under s))).

Definition get_filemap (t : Z) : M (list file) :=
  do x <- table_of t;
  check 0 <? fs_count x;
  ret (filemap x).

Definition get_file (t : Z) (i : nat) : M file :=
  do x <- table_of t;
  lift (match filemap x !! i with Some f => Ok f | None => Panic end).
Definition put_file (t : Z) (i : nat) (f : file) : M unit :=
  do x <- table_of t;
  put_table t (mk_fs (pwd x) (<[i := f]> (filemap x)) (fs_count x)).

Definition blank_file (i : Z) : file := mk_file FD_NONE false false i 0 None 0.

(** [filemap_init] sets the count, the status and the number; the other fields
    of the new table are not set. *)
Definition filemap_init : list file := (fun i => blank_file (Z.of_nat i)) <$> seq 0 (Z.to_nat FS_STRUCT_NENTRY).

Definition testfd (fd : Z) : bool := (0 <=? fd) && (fd <? FS_STRUCT_NENTRY).

Fixpoint first_free (l : list file) (i : nat) : option nat :=
  match l with
  | [] => None
  | f :: l => if decide (status f = FD_NONE) then Some i else first_free l (S i)
  end.

(** The return value and, if it is 0, the entry. *)
Definition filemap_alloc (t fd : Z) : M (Z * nat) :=
  do l <- get_filemap t;
  let found :=
    if fd =? NO_FD then match first_free l 0 with Some i => inr i | None => inl (- E_MAX_OPEN) end
    else if testfd fd then
      match l !! Z.to_nat fd with
      | Some f => if decide (status f = FD_NONE) then inr (Z.to_nat fd) else inl (- E_BUSY)
      | None => inl (- E_INVAL)
      end
    else inl (- E_INVAL) in
  match found with
  | inl e => ret (e, O)
  | inr i =>
      do f <- get_file t i;
      check fopen_count f =? 0;
      do_ put_file t i (set_node None (set_status FD_INIT f));
      ret (0, i)
  end.

Definition the_node (f : file) : M Z := lift (match node f with Some n => Ok n | None => Panic end).

Definition filemap_free (t : Z) (i : nat) : M unit :=
  do f <- get_file t i;
  check bool_decide (status f = FD_INIT \/ status f = FD_CLOSED);
  check fopen_count f =? 0;
  do_ (if decide (status f = FD_CLOSED) then do n <- the_node f; do _ <- vfs_close n; ret tt else ret tt);
  do f <- get_file t i;
  put_file t i (set_status FD_NONE f).

Definition filemap_acquire (t : Z) (i : nat) : M unit :=
  do f <- get_file t i;
  check bool_decide (status f = FD_OPENED);
  put_file t i (set_count (fopen_count f + 1) f).

Definition filemap_release (t : Z) (i : nat) : M unit :=
  do f <- get_file t i;
  check bool_decide (status f = FD_OPENED \/ status f = FD_CLOSED);
  check 0 <? fopen_count f;
  do_ put_file t i (set_count (fopen_count f - 1) f);
  if fopen_count f - 1 =? 0 then filemap_free t i else ret tt.

Definition filemap_open (t : Z) (i : nat) : M unit :=
  do f <- get_file t i;
  check bool_decide (status f = FD_INIT /\ node f <> None);
  put_file t i (set_count (fopen_count f + 1) (set_status FD_OPENED f)).

Definition filemap_close (t : Z) (i : nat) : M unit :=
  do f <- get_file t i;
  check bool_decide (status f = FD_OPENED);
  check 0 <? fopen_count f;
  do_ put_file t i (set_count (fopen_count f - 1) (set_status FD_CLOSED f));
  if fopen_count f - 1 =? 0 then filemap_free t i else ret tt.

(** The two entries may be in different tables. *)
Definition filemap_dup (t_to : Z) (to : nat) (t_from : Z) (from : nat) : M unit :=
  do fto <- get_file t_to to;
  do ffrom <- get_file t_from from;
  check bool_decide (status fto = FD_INIT /\ status ffrom = FD_OPENED);
  do n <- the_node ffrom;
  do _ <- inode_ref_inc n;
  do _ <- inode_open_inc n;
  do_ put_file t_to to (set_node (Some n) (set_rights (readable ffrom) (writable ffrom) (set_pos (pos ffrom) fto)));
  filemap_open t_to to.

(** The entry of an open descriptor. *)
Definition fd2file (t n : Z) : M (option nat) :=
  if testfd n then
    do l <- get_filemap t;
    do f <- get_file t (Z.to_nat n);
    ret (if decide (status f = FD_OPENED /\ fd f = n) then Some (Z.to_nat n) else None)
  else ret None.

Definition file_testfd (t n : Z) (r w : bool) : M bool :=
  do o <- fd2file t n;
  match o with
  | None => ret false
  | Some i =>
      do f <- get_file t i;
      ret (negb (r && negb (readable f)) && negb (w && negb (writable f)))
  end.

Definition file_open (t : Z) (path : list Z) (open_flags : Z) : M Z :=
  let acc := Z.land open_flags O_ACCMODE in
  if negb ((acc =? O_RDONLY) || (acc =? O_WRONLY) || (acc =? O_RDWR)) then ret (- E_INVAL)
  else
    do (r, i) <- filemap_alloc t NO_FD;
    if negb (r =? 0) then ret r
    else
      do (r, n) <- vfs_open path open_flags;
      if negb (r =? 0) then do_ filemap_free t i; ret r
      else
        do (r, p) <-
          (if has_flag open_flags O_APPEND then vop n op_fstat else ret (0, 0));
        if negb (r =? 0) then do _ <- vfs_close n; do_ filemap_free t i; ret r
        else
          do f <- get_file t i;
          do_ put_file t i (set_rights (negb (acc =? O_WRONLY)) (negb (acc =? O_RDONLY)) (set_node (Some n) (set_pos p f)));
          do_ filemap_open t i;
          do f <- get_file t i;
          ret (fd f).

Definition file_close (t n : Z) : M Z :=
  do o <- fd2file t n;
  match o with
  | None => ret (- E_INVAL)
  | Some i => do_ filemap_close t i; ret 0
  end.

(** The end of [file_read] and [file_write]: [copied] bytes have been moved. *)
Definition move_pos (t : Z) (i : nat) (copied : Z) : M unit :=
  do f <- get_file t i;
  if decide (status f = FD_OPENED) then put_file t i (set_pos (s32 (pos f + copied)) f) else ret tt.

(** [file_read] and [file_write]: the return value and [*copied_store]. *)
Definition file_move (write : bool) (t n base len : Z) : M (Z * Z) :=
  do o <- fd2file t n;
  match o with
  | None => ret (- E_INVAL, 0)
  | Some i =>
      do f <- get_file t i;
      if negb (if write then writable f else readable f) then ret (- E_INVAL, 0)
      else
        do_ filemap_acquire t i;
        do n <- the_node f;
        do (r, iob) <- vop n (fun o => (if write then op_write o else op_read o) (iobuf_init base len (pos f)));
        do_ move_pos t i (iobuf_used iob);
        do_ filemap_release t i;
        ret (r, iobuf_used iob)
  end.
Definition file_read := file_move false.
Definition file_write := file_move true.

(** The operations that use an entry between [filemap_acquire] and
    [filemap_release]. *)
Definition with_file {A} (t n : Z) (bad : A) (body : nat -> Z -> M A) : M A :=
  do o <- fd2file t n;
  match o with
  | None => ret bad
  | Some i =>
      do_ filemap_acquire t i;
      do f <- get_file t i;
      do n <- the_node f;
      do a <- body i n;
      do_ filemap_release t i;
      ret a
  end.

Definition file_seek (t n p whence : Z) : M Z :=
  with_file t n (- E_INVAL) (fun i n =>
    do f <- get_file t i;
    do (r, p) <-
      (if whence =? LSEEK_SET then ret (0, p)
       else if whence =? LSEEK_CUR then ret (0, s32 (p + pos f))
       else if whence =? LSEEK_END then
         do (r, size) <- vop n op_fstat;
         ret (r, if r =? 0 then s32 (p + size) else p)
       else ret (- E_INVAL, p));
    if negb (r =? 0) then ret r
    else
      do r <- vop n (fun o => op_tryseek o p);
      if r =? 0 then do f <- get_file t i; do_ put_file t i (set_pos p f); ret r
      else ret r).

(** The return value and [stat->st_size]. *)
Definition file_fstat (t n : Z) : M (Z * Z) := with_file t n (- E_INVAL, 0) (fun _ n => vop n op_fstat).
Definition file_fsync (t n : Z) : M Z := with_file t n (- E_INVAL) (fun _ n => vop n op_fsync).

(** The return value and the new [d_off]; a name has 256 bytes. *)
Definition file_getdirentry (t n d_name d_off : Z) : M (Z * Z) :=
  with_file t n (- E_INVAL, d_off) (fun _ n =>
    do (r, iob) <- vop n (fun o => op_getdirentry o (iobuf_init d_name 256 (s32 d_off)));
    ret (r, if r =? 0 then u32 (d_off + iobuf_used iob) else d_off)).

Definition file_dup (t fd1 fd2 : Z) : M Z :=
  do o <- fd2file t fd1;
  match o with
  | None => ret (- E_INVAL)
  | Some i1 =>
      do (r, i2) <- filemap_alloc t fd2;
      if negb (r =? 0) then ret r
      else
        do_ filemap_dup t i2 t i1;
        do f <- get_file t i2;
        ret (fd f)
  end.

(** A new end of a pipe. *)
Definition pipe_end (t : Z) (i : nat) (n : Z) (reads : bool) : M unit :=
  do f <- get_file t i;
  do_ put_file t i (set_rights reads (negb reads) (set_pos 0 (set_node (Some n) f)));
  filemap_open t i.

(** The return value and the two descriptors. *)
Definition file_pipe (t : Z) : M (Z * Z * Z) :=
  do (r, i0) <- filemap_alloc t NO_FD;
  if negb (r =? 0) then ret (r, 0, 0)
  else
    do (r, i1) <- filemap_alloc t NO_FD;
    if negb (r =? 0) then do_ filemap_free t i0; ret (r, 0, 0)
    else
      do (r, n0, n1) <- pipe_open;
      if negb (r =? 0) then do_ filemap_free t i0; do_ filemap_free t i1; ret (r, 0, 0)
      else
        do_ pipe_end t i0 n0 true;
        do_ pipe_end t i1 n1 false;
        do f0 <- get_file t i0;
        do f1 <- get_file t i1;
        ret (0, fd f0, fd f1).

(** [stradd(device, name)]; [kmalloc] may fail. *)
Definition file_mkfifo (t : Z) (device_r device_w name : list Z) (mem : bool) (open_flags : Z) : M Z :=
  let acc := Z.land open_flags O_ACCMODE in
  if negb ((acc =? O_RDONLY) || (acc =? O_WRONLY)) then ret (- E_INVAL)
  else
    let readonly := acc =? O_RDONLY in
    do (r, i) <- filemap_alloc t NO_FD;
    if negb (r =? 0) then ret r
    else if negb mem then do_ filemap_free t i; ret (- E_NO_MEM)
    else
      do (r, n) <- vfs_open ((if readonly then device_r else device_w) ++ name) open_flags;
      if negb (r =? 0) then do_ filemap_free t i; ret r
      else
        do_ pipe_end t i n readonly;
        do f <- get_file t i;
        ret (fd f).

(** ** Linux devices *)

Definition __is_linux_devfile (t n : Z) : M bool :=
  do o <- fd2file t n;
  match o with
  | None => ret false
  | Some i => do f <- get_file t i; ret (match node f with Some n => is_device (in_ops n) && linux_device (in_ops n) | None => false end)
  end.

(** [vop_info(node, device)] *)
Definition device_of (n : Z) : M (inode_ops FS) := check is_device (in_ops n); ret (in_ops n).

(** The return value and, if it is given, [*copied_store]. *)
Definition linux_devfile_move (write : bool) (t n base len : Z) : M (Z * option Z) :=
  do o <- fd2file t n;
  match o with
  | None => ret (0, None)
  | Some i =>
      do f <- get_file t i;
      if negb (if write then writable f else readable f) then ret (- E_INVAL, None)
      else
        do_ filemap_acquire t i;
        do n <- the_node f;
        do dev <- device_of n;
        do r <- (if write then d_linux_write dev else d_linux_read dev) base len (pos f);
        do out <-
          (if 0 <=? r then
             do f <- get_file t i;
             do_ put_file t i (set_pos (s32 (pos f + r)) f);
             ret (0, Some r)
           else ret (r, None));
        do_ filemap_release t i;
        ret out
  end.
Definition linux_devfile_read := linux_devfile_move false.
Definition linux_devfile_write := linux_devfile_move true.
Definition linux_devfile_ioctl (t n cmd arg : Z) : M Z :=
  with_file t n 0 (fun _ n => do dev <- device_of n; d_linux_ioctl dev cmd arg).
Definition linux_devfile_mmap2 (t addr len prot flags n pgoff : Z) : M Z :=
  with_file t n 0 (fun _ n => do dev <- device_of n; d_linux_mmap dev addr len prot flags pgoff).

(** ** The tables of processes (fs/fs.c) *)

Definition fs_create (a : option Z) : M (option Z) :=
  match a with
  | Some a => do_ put_table a (mk_fs None filemap_init 0); ret (Some a)
  | None => ret None
  end.

(** Closing the open entries [i], [i + 1], ..., [i + n - 1]. *)
Fixpoint close_each (t : Z) (n i : nat) (all : bool) : M unit :=
  match n with
  | O => ret tt
  | S n =>
      do f <- get_file t i;
      do_ (if decide (status f = FD_OPENED) then filemap_close t i else ret tt);
      do f <- get_file t i;
      check negb all || bool_decide (status f = FD_NONE);
      close_each t n (S i) all
  end.

Definition fs_destroy (t : Z) : M unit :=
  do x <- table_of t;
  check fs_count x =? 0;
  do_ (match pwd x with Some n => do _ <- inode_ref_dec n; ret tt | None => ret tt end);
  do_ close_each t (Z.to_nat FS_STRUCT_NENTRY) 0 true;
  upd (fun s => Ok (mk_fsys (delete t (tables s)) (inodes s) (under s))).

(** [i] runs from 3, but the entry from 2. *)
Definition fs_closeall (t : Z) : M unit :=
  do x <- table_of t;
  check 0 <? fs_count x;
  close_each t (Z.to_nat FS_STRUCT_NENTRY - 3) 2 false.

Fixpoint dup_each (to from : Z) (n i : nat) : M unit :=
  match n with
  | O => ret tt
  | S n =>
      do f <- get_file from i;
      do_ (if decide (status f = FD_OPENED) then
             do g <- get_file to i;
             do_ put_file to i (set_status FD_INIT g);
             filemap_dup to i from i
           else ret tt);
      dup_each to from n (S i)
  end.

Definition dup_fs (to from : Z) : M Z :=
  do x <- table_of to;
  do y <- table_of from;
  check fs_count x =? 0;
  check 0 <? fs_count y;
  do_ put_table to (mk_fs (pwd y) (filemap x) (fs_count x));
  do_ (match pwd y with Some n => do _ <- inode_ref_inc n; ret tt | None => ret tt end);
  do_ dup_each to from (Z.to_nat FS_STRUCT_NENTRY) 0;
  ret 0.

(** ** Sharing a table (process/proc.c) *)

Definition fs_count_add (t d : Z) : M Z :=
  do x <- table_of t;
  do_ put_table t (mk_fs (pwd x) (filemap x) (fs_count x + d));
  ret (fs_count x + d).

(** [copy_fs]: [share] is [clone_flags & CLONE_FS], [a] what [kmalloc] returns
    for a new table; the return value and the table of the new process. *)
Definition copy_fs (share : bool) (a : option Z) (old : Z) : M (Z * Z) :=
  if share then do _ <- fs_count_add old 1; ret (0, old)
  else
    do o <- fs_create a;
    match o with
    | None => ret (- E_NO_MEM, 0)
    | Some t =>
        do r <- dup_fs t old;
        if negb (r =? 0) then do_ fs_destroy t; ret (r, 0)
        else do _ <- fs_count_add t 1; ret (0, t)
    end.

Definition put_fs (o : option Z) : M unit :=
  match o with
  | None => ret tt
  | Some t => do c <- fs_count_add t (-1); if c =? 0 then fs_destroy t else ret tt
  end.

End Ops.
