(* ===== verification/FileSafe.v ===== *)
(** * FileSafe: the open files of concurrent processes

    Processes that share a table of open files, and processes whose tables
    refer to the same inodes, are interleaved wherever a call of a file system
    sleeps.  What a process may rely on over such a sleep is what it holds:
    a [key] for each entry it is using, each reference to an inode it has, and
    so on.  [Inv R] says that the tables and the counts of the inodes are
    exactly accounted for by the keys [R] all processes hold; [sp h m Q] that
    the code [m], run by a process that holds the keys [h], does not panic
    whatever the others do, and what it holds in the end.  The file systems
    below promise their part in the class [VnodesOk]. *)
From stdpp Require Import gmultiset.
From S2P Require Import Prelude KState Sched Resume Sleep Uaccess Iobuf File.

(** ** What a process holds *)

Inductive key :=
| Tok (t : Z) (i : nat) (n : Z)  (* uses the open entry [i] of table [t], whose inode is [n] *)
| Init (t : Z) (i : nat)         (* has allocated the entry and not yet opened it *)
| Closing (t : Z) (i : nat)      (* is closing the entry's inode *)
| Ent (t : Z) (i : nat)          (* has the entry to itself *)
| Gone (t : Z) (i : nat)         (* has it to itself, and it is not in use *)
| Proc (t : Z)                   (* is one of the processes of the table *)
| Last (t : Z)                   (* has the table to itself *)
| Ref (n : Z)                    (* a reference to an inode *)
| Opn (n : Z)                    (* an inode it has opened, with the reference *)
| Room.                          (* may take a key *)

#[export] Instance key_eq_dec : EqDecision key.
Proof. solve_decision. Defined.

Definition key_code (k : key) : nat * (Z * nat * Z) :=
  match k with
  | Tok t i n => (0%nat, (t, i, n))
  | Init t i => (1%nat, (t, i, 0))
  | Closing t i => (2%nat, (t, i, 0))
  | Ent t i => (3%nat, (t, i, 0))
  | Proc t => (4%nat, (t, O, 0))
  | Last t => (5%nat, (t, O, 0))
  | Ref n => (6%nat, (n, O, 0))
  | Opn n => (7%nat, (n, O, 0))
  | Gone t i => (8%nat, (t, i, 0))
  | Room => (9%nat, (0, O, 0))
  end.

Definition key_decode (c : nat * (Z * nat * Z)) : key :=
  match c with
  | (0%nat, (t, i, n)) => Tok t i n
  | (1%nat, (t, i, _)) => Init t i
  | (2%nat, (t, i, _)) => Closing t i
  | (3%nat, (t, i, _)) => Ent t i
  | (4%nat, (t, _, _)) => Proc t
  | (5%nat, (t, _, _)) => Last t
  | (6%nat, (n, _, _)) => Ref n
  | (7%nat, (n, _, _)) => Opn n
  | (8%nat, (t, i, _)) => Gone t i
  | _ => Room
  end.

#[export] Instance key_countable : Countable key.
Proof. refine (inj_countable' key_code key_decode _). by intros []. Defined.

Notation held := (gmultiset key).

Definition num (k : key) (R : held) : Z := Z.of_nat (multiplicity k R).

(** The entry, or the inode, a key is about. *)
Definition entry_of (k : key) : option (Z * nat) :=
  match k with Tok t i _ | Init t i | Closing t i | Ent t i | Gone t i => Some (t, i) | _ => None end.
Definition inode_of (k : key) : option Z := match k with Ref n | Opn n => Some n | _ => None end.

Lemma num_nonneg k R : 0 <= num k R.
Proof. unfold num. lia. Qed.

Lemma num_union k R R' : num k (R ⊎ R') = num k R + num k R'.
Proof. unfold num. rewrite multiplicity_disj_union. lia. Qed.

Lemma num_single k k' : num k {[+ k' +]} = if decide (k = k') then 1 else 0.
Proof. unfold num. rewrite multiplicity_singleton. by case_decide. Qed.

Lemma num_empty k : num k ∅ = 0.
Proof. done. Qed.

Lemma held_union (R R' : held) : size (R ⊎ R') = (size R + size R')%nat.
Proof. apply gmultiset_size_disj_union. Qed.

Lemma held_size_none : size (∅ : held) = O.
Proof. apply gmultiset_size_empty. Qed.

Lemma held_single (k : key) : size ({[+ k +]} : held) = 1%nat.
Proof. apply gmultiset_size_singleton. Qed.

Lemma num_two k k' R : k <> k' -> num k R + num k' R <= Z.of_nat (size R).
Proof.
  intros Hne. unfold num. set (a := multiplicity k R). set (b := multiplicity k' R).
  assert (Hs : a *: {[+ k +]} ⊎ b *: {[+ k' +]} ⊆ R).
  { intros x. rewrite multiplicity_disj_union, !multiplicity_scalar_mul, !multiplicity_singleton.
    subst a b. repeat case_decide; subst; try done; lia. }
  apply gmultiset_subseteq_size in Hs. rewrite gmultiset_size_disj_union, !gmultiset_size_scalar_mul, !held_single in Hs. lia.
Qed.

#[export] Hint Rewrite num_union num_single num_empty held_union held_single held_size_none : num.

(** Rearranging what is held. *)
Ltac mset :=
  lazymatch goal with
  | |- @eq (gmultiset _) _ _ => apply gmultiset_eq; intros ?; rewrite ?multiplicity_disj_union, ?multiplicity_empty; lia
  | |- _ => multiset_solver
  end.

(** Goals about the number of keys. *)
Ltac same_key :=
  match goal with
  | |- context [decide (?a = ?b)] => (rewrite (decide_True (P := a = b)) by reflexivity) || (rewrite (decide_False (P := a = b)) by discriminate)
  | H : context [decide (?a = ?b)] |- _ =>
      (rewrite (decide_True (P := a = b)) in H by reflexivity) || (rewrite (decide_False (P := a = b)) in H by discriminate)
  end.
Ltac nums := intros; cbn [status fd node fopen_count set_status set_rights set_pos set_node set_count] in *;
  autorewrite with num in *; repeat same_key; repeat case_decide; simplify_eq/=; try done; try (unfold num in *; lia).

(** ** The abstract content of the tables

    [opens] maps an entry that is open, or closed and still in use, to its
    inode. *)

Definition uses (opens : gmap (Z * nat) Z) (n : Z) : Z := Z.of_nat (size (filter (fun kv => kv.2 = n) opens)).

Lemma uses_nonneg opens n : 0 <= uses opens n.
Proof. unfold uses. lia. Qed.

Lemma uses_insert opens k n m : opens !! k = None -> uses (<[k := n]> opens) m = uses opens m + if decide (n = m) then 1 else 0.
Proof.
  intros Hk. unfold uses. case_decide.
  - rewrite map_filter_insert_True, map_size_insert_None by (done || (apply map_lookup_filter_None; by left)). lia.
  - rewrite map_filter_insert_False by done. rewrite delete_id by done. lia.
Qed.

Lemma uses_delete opens k n m : opens !! k = Some n -> uses (delete k opens) m = uses opens m - if decide (n = m) then 1 else 0.
Proof.
  intros Hk. rewrite <- (insert_delete_id opens k n Hk) at 2. rewrite uses_insert by apply lookup_delete_eq. lia.
Qed.

Lemma uses_pos opens k n : opens !! k = Some n -> 0 < uses opens n.
Proof. intros Hk. pose proof (uses_delete opens k n n Hk) as H. rewrite decide_True in H by done. pose proof (uses_nonneg (delete k opens) n). lia. Qed.


Lemma uses_upd opens k o m : uses (partial_alter (fun _ => o) k opens) m =
  uses opens m - (if decide (opens !! k = Some m) then 1 else 0) + if decide (o = Some m) then 1 else 0.
Proof.
  assert (Hd : uses (delete k opens) m = uses opens m - if decide (opens !! k = Some m) then 1 else 0).
  { destruct (opens !! k) as [n|] eqn:E; [rewrite (uses_delete _ _ n) by done|rewrite delete_id by done]; repeat case_decide; simplify_eq; lia. }
  destruct o as [n|]; [|change (partial_alter (fun _ => None) k opens) with (delete k opens); rewrite Hd; repeat case_decide; simplify_eq; lia].
  change (partial_alter (fun _ => Some n) k opens) with (<[k := n]> opens). rewrite <- insert_delete_eq, uses_insert by apply lookup_delete_eq.
  rewrite Hd. repeat case_decide; simplify_eq; lia.
Qed.

Definition NFD : nat := Z.to_nat FS_STRUCT_NENTRY.

Lemma uses_bound opens n (T : gset Z) : (forall t i m, opens !! (t, i) = Some m -> t ∈ T /\ (i < NFD)%nat) ->
  uses opens n <= Z.of_nat (size T * NFD).
Proof.
  intros H. unfold uses. apply inj_le. transitivity (size opens); [apply map_subseteq_size, map_filter_subseteq|].
  rewrite <- length_map_to_list, <- (length_fmap fst).
  assert (El : (size T * NFD)%nat = length (list_prod (elements T) (seq 0 NFD))) by (by rewrite length_prod, length_seq).
  rewrite El. apply submseteq_length, NoDup_submseteq; [apply NoDup_fst_map_to_list|].
  intros [t i] Hk. apply list_elem_of_fmap in Hk as ([k m] & [= <-] & Hm%elem_of_map_to_list).
  destruct (H _ _ _ Hm) as [H1 H2]. apply list_elem_of_In, in_prod; apply list_elem_of_In; [by apply elem_of_elements|apply elem_of_seq; lia].
Qed.

(** ** The invariant *)

(** An entry [f] whose inode, while it is open or in use, is [o]. *)
Definition entry_ok (R : held) (o : option Z) (t : Z) (i : nat) (f : file) : Prop :=
  fd f = Z.of_nat i /\ (forall n, 0 < num (Tok t i n) R -> o = Some n) /\
  match status f with
  | FD_NONE => o = None /\ fopen_count f = 0 /\ num (Init t i) R = 0 /\ num (Closing t i) R = 0 /\ num (Ent t i) R + num (Gone t i) R <= 1
  | FD_INIT => o = None /\ fopen_count f = 0 /\ num (Init t i) R = 1 /\ num (Closing t i) R = 0 /\ num (Ent t i) R + num (Gone t i) R = 0
  | FD_OPENED => num (Init t i) R = 0 /\ num (Closing t i) R = 0 /\
      exists n, o = Some n /\ node f = Some n /\ fopen_count f = 1 + num (Tok t i n) R /\
                (num (Ent t i) R = 0 \/ num (Ent t i) R = 1 /\ num (Tok t i n) R = 0) /\ num (Gone t i) R = 0
  | FD_CLOSED => num (Init t i) R = 0 /\ num (Ent t i) R + num (Gone t i) R = 0 /\
      match o with
      | Some n => node f = Some n /\ num (Closing t i) R = 0 /\ fopen_count f = num (Tok t i n) R /\ 0 < num (Tok t i n) R
      | None => fopen_count f = 0 /\ num (Closing t i) R = 1
      end
  end.

Lemma entry_ok_ext R R' o t i f : (forall k, entry_of k = Some (t, i) -> num k R' = num k R) ->
  entry_ok R o t i f -> entry_ok R' o t i f.
Proof.
  intros Hk (H1 & H2 & H3). split; [done|]. split; [intros n; rewrite Hk by done; apply H2|].
  destruct (status f); rewrite !(Hk (Init _ _)), ?(Hk (Closing _ _)), ?(Hk (Ent _ _)), ?(Hk (Gone _ _)) by done; [done|done| |].
  - destruct H3 as (? & ? & n & H3). split_and!; [done|done|]. exists n. by rewrite !(Hk (Tok _ _ _)).
  - destruct o as [n|]; [rewrite !(Hk (Tok _ _ _)) by done|]; done.
Qed.

(** The counts of the inodes [m]. *)
Definition inodes_ok (R : held) (opens : gmap (Z * nat) Z) (m : gmap Z inode) : Prop :=
  forall n, match m !! n with
            | Some x => open_count x = num (Opn n) R + uses opens n /\ ref_count x = num (Ref n) R + num (Opn n) R + uses opens n
            | None => num (Ref n) R + num (Opn n) R + uses opens n = 0
            end.

Section Inv.
Context `{VN : Vnodes}.
Notation S := (fsys FS).
Implicit Types (s : S) (opens : gmap (Z * nat) Z) (R F h : held).

Definition set_file (t : Z) (i : nat) (f : file) s : S :=
  mk_fsys (alter (fun x => mk_fs (pwd x) (<[i := f]> (filemap x)) (fs_count x)) t (tables s)) (inodes s) (under s).
Definition has_file (t : Z) (i : nat) (f : file) s : Prop := exists x, tables s !! t = Some x /\ filemap x !! i = Some f.

Record Inv_at opens R s : Prop := {
  iv_len : forall t x, tables s !! t = Some x -> length (filemap x) = NFD;
  iv_count : forall t x, tables s !! t = Some x -> fs_count x = num (Proc t) R;
  iv_none : forall t, tables s !! t = None -> num (Proc t) R = 0 /\ num (Last t) R = 0;
  iv_last : forall t, 0 < num (Last t) R -> num (Last t) R = 1 /\ num (Proc t) R = 0;
  iv_ent : forall t i, 0 < num (Ent t i) R + num (Gone t i) R -> 0 < num (Last t) R;
  iv_file : forall t i f, has_file t i f s -> entry_ok R (opens !! (t, i)) t i f;
  iv_dom : forall t i n, opens !! (t, i) = Some n -> exists f, has_file t i f s;
  iv_keys : forall t i k, entry_of k = Some (t, i) -> 0 < num k R -> exists f, has_file t i f s;
  iv_inodes : inodes_ok R opens (inodes s);
  iv_room : Z.of_nat (size (dom (tables s)) * NFD) + Z.of_nat (size R) < MAX_INODE_COUNT }.

Definition Inv R s : Prop := exists opens, Inv_at opens R s.

Lemma has_file_tables t i f s s' : tables s' = tables s -> has_file t i f s -> has_file t i f s'.
Proof. intros E (x & Hx & Hf). exists x. by rewrite E. Qed.

Lemma has_file_eq t i f f' s : has_file t i f s -> has_file t i f' s -> f = f'.
Proof. intros (x & Hx & Hf) (x' & Hx' & Hf'). rewrite Hx in Hx'. injection Hx' as ->. congruence. Qed.

Lemma has_file_set t i f g s : has_file t i g s -> has_file t i f (set_file t i f s).
Proof.
  intros (x & Hx & Hf). eexists. split; [unfold set_file; cbn; by rewrite lookup_alter_eq, Hx|]. cbn.
  apply list_lookup_insert_eq. by eapply lookup_lt_Some.
Qed.

Lemma has_file_set_ne t i t' i' f g s : (t', i') <> (t, i) -> has_file t' i' g (set_file t i f s) <-> has_file t' i' g s.
Proof.
  intros Hne. unfold has_file, set_file. cbn. destruct (decide (t' = t)) as [->|Hd]; [|by setoid_rewrite lookup_alter_ne; [|done]].
  rewrite lookup_alter_eq. assert (i <> i') by congruence. split.
  - intros (x & Hx & Hf). destruct (tables s !! t) as [y|]; [|done]. injection Hx as <-. exists y.
    split; [done|]. cbn in Hf. by rewrite list_lookup_insert_ne in Hf.
  - intros (x & -> & Hf). eexists. split; [done|]. cbn. by rewrite list_lookup_insert_ne.
Qed.

Lemma set_file_tables t i f s t' x' : tables (set_file t i f s) !! t' = Some x' ->
  exists x, tables s !! t' = Some x /\ length (filemap x') = length (filemap x) /\ fs_count x' = fs_count x /\ pwd x' = pwd x.
Proof.
  unfold set_file. cbn. destruct (decide (t' = t)) as [->|]; [|rewrite lookup_alter_ne by done; eauto].
  rewrite lookup_alter_eq. destruct (tables s !! t) as [x|]; [|done]. intros [= <-]. exists x. cbn. by rewrite length_insert.
Qed.

Lemma set_file_dom t i f s : dom (tables (set_file t i f s)) = dom (tables s).
Proof. apply dom_alter_L. Qed.

Lemma set_file_twice t i f g s : set_file t i g (set_file t i f s) = set_file t i g s.
Proof.
  unfold set_file. cbn. f_equal. apply map_eq. intros t'. destruct (decide (t' = t)) as [->|];
    [|by rewrite !lookup_alter_ne]. rewrite !lookup_alter_eq. destruct (tables s !! t); [|done]. cbn. by rewrite list_insert_insert_eq.
Qed.

(** One entry changes, and with it the keys for it and those of the inodes. *)
Lemma Inv_entry opens R R' s s' t i f f' o :
  Inv_at opens R s -> has_file t i f s -> tables s' = tables (set_file t i f' s) ->
  (forall k, entry_of k <> Some (t, i) -> inode_of k = None -> k <> Room -> num k R' = num k R) ->
  entry_ok R' o t i f' -> (0 < num (Ent t i) R' + num (Gone t i) R' -> 0 < num (Last t) R) ->
  inodes_ok R' (partial_alter (fun _ => o) (t, i) opens) (inodes s') -> (size R' <= size R)%nat ->
  Inv_at (partial_alter (fun _ => o) (t, i) opens) R' s'.
Proof.
  intros H Hf Ht Hk Hf' He Hi Hs.
  assert (Hh : forall t' i' g, (t', i') <> (t, i) -> has_file t' i' g s' <-> has_file t' i' g s).
  { intros t' i' g Hne. rewrite <- (has_file_set_ne t i t' i' f' g s Hne). split; by apply has_file_tables. }
  assert (Hn : has_file t i f' s') by (eapply has_file_tables, has_file_set; [done|exact Hf]).
  split.
  - intros t' x' Hx'. rewrite Ht in Hx'. apply set_file_tables in Hx' as (x & Hx & -> & _). by eapply iv_len.
  - intros t' x' Hx'. rewrite Ht in Hx'. apply set_file_tables in Hx' as (x & Hx & _ & -> & _). rewrite Hk by done. by eapply iv_count.
  - intros t' Hx'. rewrite !Hk by done. eapply iv_none; [done|]. apply not_elem_of_dom. rewrite <- (set_file_dom t i f'), <- Ht. by apply not_elem_of_dom.
  - intros t'. rewrite !Hk by done. by eapply iv_last.
  - intros t' i' Hp. rewrite Hk by done. destruct (decide ((t', i') = (t, i))) as [[= -> ->]|Hne]; [auto|].
    rewrite !Hk in Hp by (done || cbn; congruence). by eapply iv_ent.
  - intros t' i' g Hg. destruct (decide ((t', i') = (t, i))) as [[= -> ->]|Hne].
    + rewrite (has_file_eq _ _ _ _ _ Hg Hn), lookup_partial_alter_eq. done.
    + rewrite lookup_partial_alter_ne by done. apply Hh in Hg; [|done]. pose proof (iv_file _ _ _ H _ _ _ Hg) as E.
      assert (Hk' : forall k, entry_of k = Some (t', i') -> num k R' = num k R) by (intros k Ek; apply Hk; [congruence|by destruct k|by intros ->]).
      by apply (entry_ok_ext R).
  - intros t' i' n Hn'. destruct (decide ((t', i') = (t, i))) as [[= -> ->]|Hne]; [by eexists|].
    rewrite lookup_partial_alter_ne in Hn' by done. destruct (iv_dom _ _ _ H _ _ _ Hn') as [g Hg]. exists g. by apply Hh.
  - intros t' i' k Ek Hp. destruct (decide ((t', i') = (t, i))) as [[= -> ->]|Hne]; [by eexists|].
    rewrite Hk in Hp by (congruence || by destruct k). destruct (iv_keys _ _ _ H t' i' k Ek Hp) as [g Hg]. exists g. by apply Hh.
  - done.
  - rewrite Ht, set_file_dom. pose proof (iv_room _ _ _ H). lia.
Qed.

(** Only the inodes and their keys change. *)
Lemma Inv_nodes opens R R' s s' :
  Inv_at opens R s -> tables s' = tables s ->
  (forall k, inode_of k = None -> k <> Room -> num k R' = num k R) ->
  inodes_ok R' opens (inodes s') -> (size R' <= size R)%nat -> Inv_at opens R' s'.
Proof.
  intros H Ht Hk Hi Hs.
  assert (Hh : forall t i f, has_file t i f s' <-> has_file t i f s) by (intros; split; by apply has_file_tables).
  split.
  - rewrite Ht. exact (iv_len _ _ _ H).
  - intros t x. rewrite Ht, Hk by done. exact (iv_count _ _ _ H t x).
  - intros t. rewrite Ht, !Hk by done. exact (iv_none _ _ _ H t).
  - intros t. rewrite !Hk by done. exact (iv_last _ _ _ H t).
  - intros t i. rewrite !Hk by done. exact (iv_ent _ _ _ H t i).
  - intros t i f Hf%Hh. apply (entry_ok_ext R); [|by eapply iv_file]. intros k Ek. apply Hk; [by destruct k|by intros ->].
  - intros t i n Hn. setoid_rewrite Hh. by eapply iv_dom.
  - intros t i k Ek. setoid_rewrite Hh. rewrite Hk by (by destruct k || by intros ->). by eapply iv_keys.
  - done.
  - rewrite Ht. pose proof (iv_room _ _ _ H). lia.
Qed.

Lemma Inv_eq R R' s : Inv R s -> R = R' -> Inv R' s.
Proof. by intros H <-. Qed.

Lemma Inv_under R s s' : tables s' = tables s -> inodes s' = inodes s -> Inv R s -> Inv R s'.
Proof. intros Ht Hi [opens H]. exists opens. apply (Inv_nodes opens R R s s' H); [done|done|rewrite Hi; apply H|done]. Qed.

(** ** Code among other processes

    [F] is what the others hold, which may change whenever the code sleeps. *)

Fixpoint runs {A} (F : held) (r : run S A) (Q : A -> held -> S -> Prop) : Prop :=
  match r with
  | Done a s => exists h, Inv (F ⊎ h) s /\ Q a h s
  | Sleep s k => exists h, Inv (F ⊎ h) s /\
      forall F' s', Inv (F' ⊎ h) s' -> match k s' with Ok r' => runs F' r' Q | Panic => False end
  end.

Definition ok {A} (F : held) (x : res (run S A)) (Q : A -> held -> S -> Prop) : Prop :=
  match x with Ok r => runs F r Q | Panic => False end.

(** Started in a state that satisfies [P], by a process that holds [h]. *)
Definition sp_when {A} (P : S -> Prop) (h : held) (m : code S A) (Q : A -> held -> S -> Prop) : Prop :=
  forall F s, Inv (F ⊎ h) s -> P s -> ok F (m s) Q.
Definition sp {A} : held -> code S A -> (A -> held -> S -> Prop) -> Prop := sp_when (fun _ => True).

(** Induction on a run, through the results of its continuations. *)
Lemma run_rect' {A} (P : run S A -> Prop) :
  (forall a s, P (Done a s)) -> (forall s k, (forall s', match k s' with Ok r => P r | Panic => True end) -> P (Sleep s k)) ->
  forall r, P r.
Proof.
  intros HD HS. fix IH 1. intros [a s|s k]; [apply HD|]. apply HS. intros s'. destruct (k s') as [r|]; [apply IH|done].
Qed.

Lemma runs_bind {A B} (r : run S A) (K : A -> code S B) Q Q' F :
  runs F r Q -> (forall F a h s, Inv (F ⊎ h) s -> Q a h s -> ok F (K a s) Q') -> ok F (run_bind r K) Q'.
Proof.
  revert F. induction r as [a s|s k IH] using run_rect'; intros F Hr HK; cbn in *.
  - destruct Hr as (h & HI & HQ). by eapply HK.
  - destruct Hr as (h & HI & Hk). exists h. split; [done|]. intros F' s' HI'. specialize (Hk F' s' HI').
    specialize (IH s'). destruct (k s') as [r'|]; [|done]. by apply (IH F').
Qed.

Lemma runs_mono {A} (r : run S A) (Q Q' : A -> held -> S -> Prop) F :
  (forall a h s, Q a h s -> Q' a h s) -> runs F r Q -> runs F r Q'.
Proof.
  intros HQ. revert F. induction r as [a s|s k IH] using run_rect'; intros F Hr; cbn in *.
  - destruct Hr as (h & HI & H). eauto.
  - destruct Hr as (h & HI & Hk). exists h. split; [done|]. intros F' s' HI'. specialize (Hk F' s' HI').
    specialize (IH s'). destruct (k s') as [r'|]; [|done]. by apply IH.
Qed.

(** What the code does not need is kept. *)
Lemma runs_frame {A} (r : run S A) (Q : A -> held -> S -> Prop) h0 F :
  runs (F ⊎ h0) r Q -> runs F r (fun a h s => exists h1, h = h0 ⊎ h1 /\ Q a h1 s).
Proof.
  revert F. induction r as [a s|s k IH] using run_rect'; intros F Hr; cbn in *.
  - destruct Hr as (h & HI & HQ). exists (h0 ⊎ h). split; [by rewrite (assoc_L _)|eauto].
  - destruct Hr as (h & HI & Hk). exists (h0 ⊎ h). split; [by rewrite (assoc_L _)|]. intros F' s' HI'.
    rewrite (assoc_L _) in HI'. specialize (Hk (F' ⊎ h0) s' HI'). specialize (IH s'). destruct (k s') as [r'|]; [|done]. by apply IH.
Qed.

(** Code that holds [h1], in the middle of code that holds [h0 ⊎ h1]. *)
Lemma ok_bind {A B} P h0 h1 h (m : code S A) (K : A -> code S B) Q Q' F s :
  sp_when P h1 m Q -> Inv (F ⊎ h) s -> h = h0 ⊎ h1 -> P s ->
  (forall F a h1' s', Inv (F ⊎ (h0 ⊎ h1')) s' -> Q a h1' s' -> ok F (K a s') Q') -> ok F (bind m K s) Q'.
Proof.
  intros Hm HI -> HP HK. rewrite (assoc_L _) in HI. specialize (Hm (F ⊎ h0) s HI HP). unfold bind.
  destruct (m s) as [r|]; [|done]. cbn. apply runs_frame in Hm. eapply runs_bind; [done|].
  intros F' a h' s' HI' (h1' & -> & HQ). by eapply HK.
Qed.

Lemma ok_last {A} P h0 h1 h (m : code S A) (Q Q' : A -> held -> S -> Prop) F s :
  sp_when P h1 m Q -> Inv (F ⊎ h) s -> h = h0 ⊎ h1 -> P s -> (forall a h1' s', Q a h1' s' -> Q' a (h0 ⊎ h1') s') -> ok F (m s) Q'.
Proof.
  intros Hm HI -> HP HQ. rewrite (assoc_L _) in HI. specialize (Hm (F ⊎ h0) s HI HP).
  destruct (m s) as [r|]; [|done]. cbn in *. apply runs_frame in Hm. eapply runs_mono; [|done]. intros a h' s' (h1' & -> & H). auto.
Qed.

Lemma ok_ret {A} (a : A) h (Q : A -> held -> S -> Prop) F s : Inv (F ⊎ h) s -> Q a h s -> ok F (ret a s) Q.
Proof. intros HI HQ. by exists h. Qed.

Lemma ok_mono {A} (x : res (run S A)) (Q Q' : A -> held -> S -> Prop) F : (forall a h s, Q a h s -> Q' a h s) -> ok F x Q -> ok F x Q'.
Proof. intros H. destruct x as [r|]; [by apply runs_mono|done]. Qed.

(** Code that does not sleep. *)
Lemma ok_done {A B} (m : code S A) (K : A -> code S B) a s s' Q F :
  m s = Ok (Done a s') -> ok F (K a s') Q -> ok F (bind m K s) Q.
Proof. intros E. by rewrite (bind_done _ _ _ _ _ E). Qed.

Lemma sp_ret {A} (a : A) h (Q : A -> held -> S -> Prop) : (forall s, Q a h s) -> sp h (ret a) Q.
Proof. intros H F s HI _. by eapply ok_ret. Qed.

(** ** Tables and entries *)

Lemma get_file_ok {A} t i f (K : file -> code S A) s : has_file t i f s -> bind (get_file t i) K s = K f s.
Proof.
  intros (x & Hx & Hf). unfold get_file, table_of, ask. unfold bind at 1 2. rewrite (fetch_ok _ _ _ Hx). cbn. by rewrite Hf.
Qed.

Lemma put_file_ok t i f g s : has_file t i g s -> put_file t i f s = Ok (Done tt (set_file t i f s)).
Proof.
  intros (x & Hx & Hf). unfold put_file, table_of, ask, put_table, upd. unfold bind. rewrite (fetch_ok _ _ _ Hx). cbn.
  unfold set_file. do 3 f_equal. apply map_eq; intros t'; destruct (decide (t' = t)) as [->|];
    [by rewrite lookup_alter_eq, Hx, lookup_insert_eq|by rewrite lookup_alter_ne, lookup_insert_ne by done].
Qed.

Lemma proc_table R t s : Inv R s -> 0 < num (Proc t) R -> exists x, tables s !! t = Some x /\ 0 < fs_count x /\ length (filemap x) = NFD.
Proof.
  intros [opens H] Hp. destruct (tables s !! t) as [x|] eqn:E; [|destruct (iv_none _ _ _ H t E); lia].
  exists x. split; [done|]. rewrite (iv_count _ _ _ H t x E). split; [done|by eapply iv_len].
Qed.

Lemma get_filemap_ok {A} t x (K : list file -> code S A) s : tables s !! t = Some x -> 0 < fs_count x ->
  bind (get_filemap t) K s = K (filemap x) s.
Proof.
  intros Hx Hc. unfold get_filemap, table_of, ask. unfold bind at 1 2 3. rewrite (fetch_ok _ _ _ Hx). cbn.
  by rewrite (proj2 (Z.ltb_lt _ _) Hc).
Qed.

Lemma no_ent opens R s t i : Inv_at opens R s -> 0 < num (Proc t) R -> num (Ent t i) R + num (Gone t i) R = 0.
Proof.
  intros H Hp. destruct (decide (0 < num (Ent t i) R + num (Gone t i) R)) as [He|];
    [|pose proof (num_nonneg (Ent t i) R); pose proof (num_nonneg (Gone t i) R); lia].
  apply (iv_ent _ _ _ H) in He. apply (iv_last _ _ _ H) in He. lia.
Qed.

(** An entry takes over an open inode from a process, or the other way round. *)
Lemma inodes_ok_entry R R' opens t i o' m :
  inodes_ok R opens m -> (forall n, num (Ref n) R' = num (Ref n) R) ->
  (forall n, num (Opn n) R' + (if decide (o' = Some n) then 1 else 0) = num (Opn n) R + if decide (opens !! (t, i) = Some n) then 1 else 0) ->
  inodes_ok R' (partial_alter (fun _ => o') (t, i) opens) m.
Proof.
  intros H Hr Ho n. specialize (H n). specialize (Ho n). rewrite uses_upd, Hr. destruct (m !! n); lia.
Qed.

(** An entry and the keys for it change. *)
Lemma entry_step opens R R' s t i f f' o :
  Inv_at opens R s -> has_file t i f s ->
  (forall k, entry_of k <> Some (t, i) -> inode_of k = None -> k <> Room -> num k R' = num k R) ->
  (forall n, num (Ref n) R' = num (Ref n) R) ->
  (forall n, num (Opn n) R' + (if decide (o = Some n) then 1 else 0) = num (Opn n) R + if decide (opens !! (t, i) = Some n) then 1 else 0) ->
  entry_ok R' o t i f' -> (0 < num (Ent t i) R' + num (Gone t i) R' -> 0 < num (Last t) R) -> (size R' <= size R)%nat -> Inv R' (set_file t i f' s).
Proof.
  intros H Hf Hk Hr Ho He HL Hs. eexists. eapply Inv_entry; [exact H|exact Hf|reflexivity|done|exact He|done| |done].
  cbn. eapply inodes_ok_entry; [apply H|done|done].
Qed.

Lemma acquire_ok R t i f n s : Inv (R ⊎ {[+ Room +]}) s -> 0 < num (Proc t) R -> has_file t i f s -> status f = FD_OPENED -> node f = Some n ->
  filemap_acquire t i s = Ok (Done tt (set_file t i (set_count (fopen_count f + 1) f) s)) /\
  Inv (R ⊎ {[+ Tok t i n +]}) (set_file t i (set_count (fopen_count f + 1) f) s).
Proof.
  intros [opens H] Hp Hf Hs Hn. split.
  { unfold filemap_acquire. rewrite (get_file_ok _ _ f) by done. rewrite bind_check by (by rewrite bool_decide_eq_true). by eapply put_file_ok. }
  pose proof (iv_file _ _ _ H _ _ _ Hf) as (E1 & E2 & E3). rewrite Hs in E3. destruct E3 as (E3 & E4 & n' & E5 & E6 & E7 & _).
  pose proof (no_ent _ _ _ t i H ltac:(nums)) as E8. assert (n' = n) as -> by congruence.
  eapply (entry_step opens _ _ s t i f _ (Some n)); [exact H|exact Hf| | | | | |]; [nums|nums|nums| |nums|nums].
  split_and!; [done| |rewrite ?Hs; cbn; rewrite ?Hs].
  - intros m. specialize (E2 m). nums; intuition congruence.
  - revert E3 E4 E7 E8. nums. split_and!; [done..|]. exists n. nums. split_and!; nums.
Qed.

(** An entry that has been allocated is given up. *)
Lemma free_init_ok R t i s : Inv (R ⊎ {[+ Init t i +]}) s ->
  exists f, has_file t i f s /\ status f = FD_INIT /\ filemap_free t i s = Ok (Done tt (set_file t i (set_status FD_NONE f) s)) /\
    Inv (R ⊎ {[+ Room +]}) (set_file t i (set_status FD_NONE f) s).
Proof.
  intros [opens H]. destruct (iv_keys _ _ _ H t i (Init t i) eq_refl) as [f Hf]; [pose proof (num_nonneg (Init t i) R); nums|].
  pose proof (iv_file _ _ _ H _ _ _ Hf) as (E1 & E2 & E3). pose proof (num_nonneg (Init t i) R).
  assert (Hs : status f = FD_INIT) by (destruct (status f); [|done| |]; destruct_and!; nums). rewrite Hs in E3.
  exists f. split; [done|]. split; [done|]. split.
  { unfold filemap_free. rewrite (get_file_ok _ _ f) by done. rewrite bind_check by (rewrite bool_decide_eq_true; auto).
    rewrite bind_check by (apply Z.eqb_eq; apply E3). rewrite decide_False by congruence. rewrite bind_ret, (get_file_ok _ _ f) by done.
    by eapply put_file_ok. }
  destruct E3 as (Eo & E3 & E4 & E5 & E6).
  eapply (entry_step opens _ _ s t i f _ None); [exact H|exact Hf|nums|nums|rewrite Eo; nums| |nums|nums].
  split_and!; [done| |nums; split_and!; nums]. intros m. specialize (E2 m). rewrite Eo in E2. nums; auto.
Qed.

Lemma first_free_ok l j : 
  match first_free l j with
  | Some k => exists m f, k = (j + m)%nat /\ l !! m = Some f /\ status f = FD_NONE /\ forall m' g, (m' < m)%nat -> l !! m' = Some g -> status g <> FD_NONE
  | None => forall m g, l !! m = Some g -> status g <> FD_NONE
  end.
Proof.
  revert j. induction l as [|f l IH]; intros j; [done|]. cbn. case_decide as E.
  - exists O, f. split_and!; [lia|done|done|intros; lia].
  - specialize (IH (Datatypes.S j)). destruct (first_free l _) as [k|].
    + destruct IH as (m & g & -> & Hg & Hs & Hm). exists (Datatypes.S m), g. split_and!; [lia|done|done|].
      intros [|m'] g' ? Hg'; [by simplify_eq/=|]. eapply Hm; [|done]. lia.
    + intros [|m] g Hg; [by simplify_eq/=|by eapply IH].
Qed.

(** The entry [filemap_alloc] chooses. *)
Definition alloc_choice (fd : Z) (t : Z) (i : nat) s : Prop :=
  if fd =? NO_FD then forall j g, (j < i)%nat -> has_file t j g s -> status g <> FD_NONE else fd = Z.of_nat i.

Lemma alloc_entry_ok R t i f s : Inv (R ⊎ {[+ Room +]}) s -> 0 < num (Proc t) R -> has_file t i f s -> status f = FD_NONE ->
  fopen_count f = 0 /\ Inv (R ⊎ {[+ Init t i +]}) (set_file t i (set_node None (set_status FD_INIT f)) s).
Proof.
  intros [opens H] Hp Hf Hs. pose proof (iv_file _ _ _ H _ _ _ Hf) as (E1 & E2 & E3). rewrite Hs in E3. destruct E3 as (Eo & E3 & E4 & E5 & _).
  split; [done|]. pose proof (no_ent _ _ _ t i H ltac:(nums)) as E8.
  eapply (entry_step opens _ _ s t i f _ None); [exact H|exact Hf|nums|nums|rewrite Eo; nums| |nums|nums].
  split_and!; [done| |nums; split_and!; nums]. intros m. specialize (E2 m). rewrite Eo in E2. nums; auto.
Qed.

Lemma alloc_ok R t n s : Inv (R ⊎ {[+ Room +]}) s -> 0 < num (Proc t) R ->
  (exists e, filemap_alloc t n s = Ok (Done (e, O) s) /\ (e = - E_MAX_OPEN \/ e = - E_BUSY \/ e = - E_INVAL)) \/
  exists i f, has_file t i f s /\ status f = FD_NONE /\ alloc_choice n t i s /\
    filemap_alloc t n s = Ok (Done (0, i) (set_file t i (set_node None (set_status FD_INIT f)) s)) /\
    Inv (R ⊎ {[+ Init t i +]}) (set_file t i (set_node None (set_status FD_INIT f)) s).
Proof.
  intros HI Hp. destruct (proc_table _ t s HI) as (x & Hx & Hc & Hl); [nums|].
  assert (Hgo : forall i f, filemap x !! i = Some f -> status f = FD_NONE ->
    (do f <- get_file t i; check fopen_count f =? 0; do_ put_file t i (set_node None (set_status FD_INIT f)); ret (0, i)) s =
    Ok (Done (0, i) (set_file t i (set_node None (set_status FD_INIT f)) s)) /\ has_file t i f s /\
    Inv (R ⊎ {[+ Init t i +]}) (set_file t i (set_node None (set_status FD_INIT f)) s)).
  { intros i f Hf Hs. assert (Hh : has_file t i f s) by (by exists x). destruct (alloc_entry_ok R t i f s) as [E1 E2]; try done.
    rewrite (get_file_ok _ _ f) by done. rewrite bind_check by (by apply Z.eqb_eq). split; [|done].
    by erewrite bind_done by (by eapply put_file_ok). }
  unfold filemap_alloc. rewrite (get_filemap_ok _ x) by done. unfold alloc_choice. destruct (n =? NO_FD).
  - pose proof (first_free_ok (filemap x) 0) as Hff. destruct (first_free (filemap x) 0) as [i|]; [|left; eexists; split; [done|auto]].
    destruct Hff as (m & f & -> & Hf & Hs & Hm). destruct (Hgo _ _ Hf Hs) as (E1 & E2 & E3).
    right. exists m, f. split_and!; try done. intros j g Hj (x' & Hx' & Hg). rewrite Hx in Hx'. injection Hx' as <-. by eapply Hm.
  - unfold testfd. destruct (Z.leb_spec 0 n), (Z.ltb_spec n FS_STRUCT_NENTRY); cbn [andb]; try (left; eexists; split; [done|auto]).
    destruct (filemap x !! Z.to_nat n) as [f|] eqn:Hf; [|left; eexists; split; [done|auto]].
    case_decide as Hs; [|left; eexists; split; [done|auto]]. destruct (Hgo _ _ Hf Hs) as (E1 & E2 & E3).
    right. exists (Z.to_nat n), f. split_and!; try done. lia.
Qed.

(** A descriptor is looked up. *)
Lemma fd2file_ok {A} R t n s (K : option nat -> code S A) : Inv R s -> 0 < num (Proc t) R ->
  (exists i f m, n = Z.of_nat i /\ has_file t i f s /\ status f = FD_OPENED /\ node f = Some m /\ bind (fd2file t n) K s = K (Some i) s) \/
  bind (fd2file t n) K s = K None s /\ forall i f, n = Z.of_nat i -> has_file t i f s -> status f <> FD_OPENED.
Proof.
  intros HI Hp. destruct (proc_table _ t s HI) as (x & Hx & Hc & Hl); [done|]. unfold fd2file, testfd.
  destruct (Z.leb_spec 0 n), (Z.ltb_spec n FS_STRUCT_NENTRY); cbn [andb]; [|right; split; [done|]..];
    try (intros i f -> (x' & Hx' & Hf%lookup_lt_Some); assert (x' = x) as -> by congruence; rewrite Hl in Hf; unfold NFD in Hf; lia).
  destruct (lookup_lt_is_Some_2 (filemap x) (Z.to_nat n)) as [f Hf]; [rewrite Hl; unfold NFD; lia|].
  assert (Hh : has_file t (Z.to_nat n) f s) by (by exists x). destruct HI as [opens HI].
  pose proof (iv_file _ _ _ HI _ _ _ Hh) as (E1 & E2 & E3).
  assert (E : bind (fd2file t n) K s = K (if decide (status f = FD_OPENED /\ fd f = n) then Some (Z.to_nat n) else None) s).
  { unfold fd2file, testfd. rewrite (proj2 (Z.leb_le _ _)), (proj2 (Z.ltb_lt _ _)) by done. cbn [andb].
    unfold bind at 1. rewrite (get_filemap_ok _ x), (get_file_ok _ _ f) by done. done. }
  unfold fd2file, testfd in E. rewrite (proj2 (Z.leb_le _ _)), (proj2 (Z.ltb_lt _ _)) in E by done. cbn [andb] in E. rewrite E.
  case_decide as Hs.
  - left. destruct Hs as [Hs _]. rewrite Hs in E3. destruct E3 as (_ & _ & m & _ & Hm & _). exists (Z.to_nat n), f, m. split_and!; try done. lia.
  - right. split; [done|]. intros i g -> Hg. rewrite Nat2Z.id in Hh. rewrite (has_file_eq _ _ _ _ _ Hg Hh). intros Hs'. apply Hs. rewrite Nat2Z.id in E1. done.
Qed.

Lemma no_tok R R' t i : (forall n, num (Tok t i n) R <= num (Tok t i n) R') -> (forall n, 0 < num (Tok t i n) R' -> None = Some n) ->
  forall n, num (Tok t i n) R = 0.
Proof.
  intros Hle H n. specialize (Hle n). specialize (H n). pose proof (num_nonneg (Tok t i n) R).
  destruct (decide (0 < num (Tok t i n) R')) as [Hp|]; [by apply H in Hp|lia].
Qed.

(** An allocated entry is opened: [g] is the entry with its inode. *)
Lemma open_ok R t i f g n s : Inv (R ⊎ {[+ Init t i +]} ⊎ {[+ Opn n +]}) s -> has_file t i f s ->
  fd g = fd f -> status g = FD_INIT -> fopen_count g = fopen_count f -> node g = Some n ->
  let g' := set_count (fopen_count f + 1) (set_status FD_OPENED g) in
  put_file t i g s = Ok (Done tt (set_file t i g s)) /\
  filemap_open t i (set_file t i g s) = Ok (Done tt (set_file t i g' s)) /\
  Inv (R ⊎ {[+ Room +]} ⊎ {[+ Room +]}) (set_file t i g' s).
Proof.
  intros [opens H] Hf Efd Hs Hc Hn g'. split; [by eapply put_file_ok|]. split.
  { unfold filemap_open. rewrite (get_file_ok _ _ g) by (by eapply has_file_set).
    rewrite bind_check by (rewrite bool_decide_eq_true; split; congruence).
    erewrite put_file_ok by (by eapply has_file_set). by rewrite set_file_twice, Hc. }
  pose proof (iv_file _ _ _ H _ _ _ Hf) as (E1 & E2 & E3). pose proof (num_nonneg (Init t i) R).
  assert (Hs' : status f = FD_INIT) by (destruct (status f); [|done| |]; destruct_and!; nums). rewrite Hs' in E3.
  destruct E3 as (Eo & E3 & E4 & E5 & E6).
  assert (E2' : forall m, num (Tok t i m) R = 0) by (eapply no_tok; [|by rewrite Eo in E2]; nums).
  eapply (entry_step opens _ _ s t i f _ (Some n)); [exact H|exact Hf|nums|nums|rewrite Eo; nums| |nums|nums].
  split_and!; [cbn; congruence|intros m; nums; specialize (E2' m); lia|nums]. split_and!; [lia|lia|]. exists n.
  specialize (E2' n). nums. split_and!; nums.
Qed.

(** ** Inodes *)

Definition set_inode (n : Z) (x : inode) s : S := mk_fsys (tables s) (<[n := x]> (inodes s)) (under s).

(** The counts of one inode change. *)
Lemma node_step R R' s n x x' :
  Inv R s -> inodes s !! n = Some x -> (forall k, inode_of k <> Some n -> k <> Room -> num k R' = num k R) ->
  open_count x' = open_count x + num (Opn n) R' - num (Opn n) R ->
  ref_count x' = ref_count x + num (Ref n) R' - num (Ref n) R + num (Opn n) R' - num (Opn n) R ->
  (size R' <= size R)%nat -> Inv R' (set_inode n x' s).
Proof.
  intros [opens H] Hx Hk Ho Hr Hs. exists opens. eapply Inv_nodes; [exact H|done|intros k Ek ?; apply Hk; [congruence|done]| |done].
  intros m. cbn. pose proof (iv_inodes _ _ _ H m) as Hm. destruct (decide (m = n)) as [->|].
  - rewrite lookup_insert_eq. rewrite Hx in Hm. lia.
  - rewrite lookup_insert_ne by done. rewrite !Hk by (done || cbn; congruence). done.
Qed.

Lemma get_inode_ok {A} n x (K : inode -> code S A) s : inodes s !! n = Some x -> bind (get_inode n) K s = K x s.
Proof. intros Hx. unfold get_inode, ask, bind. by rewrite (fetch_ok _ _ _ Hx). Qed.

Lemma inode_at R s n x : Inv R s -> inodes s !! n = Some x ->
  0 <= open_count x <= ref_count x /\ num (Opn n) R <= open_count x /\ num (Ref n) R + num (Opn n) R <= ref_count x < MAX_INODE_COUNT.
Proof.
  intros [opens H] Hx. pose proof (iv_inodes _ _ _ H n) as Hn. rewrite Hx in Hn. destruct Hn as [-> ->].
  pose proof (num_nonneg (Opn n) R). pose proof (num_nonneg (Ref n) R). pose proof (uses_nonneg opens n).
  pose proof (num_two (Ref n) (Opn n) R ltac:(done)). pose proof (iv_room _ _ _ H).
  enough (uses opens n <= Z.of_nat (size (dom (tables s)) * NFD)) by lia. apply uses_bound.
  intros t i m Hm. destruct (iv_dom _ _ _ H _ _ _ Hm) as (f & y & Hy & Hf). split; [by apply elem_of_dom|].
  rewrite <- (iv_len _ _ _ H _ _ Hy). by eapply lookup_lt_Some.
Qed.

(** A key that keeps the inode [n] allocated. *)
Definition keeps (k : key) (n : Z) : Prop := k = Ref n \/ k = Opn n \/ exists t i, k = Tok t i n.

Lemma keeps_inode R s k n : Inv R s -> keeps k n -> 0 < num k R -> exists x, inodes s !! n = Some x.
Proof.
  intros [opens H] Hk Hp. pose proof (iv_inodes _ _ _ H n) as Hn. destruct (inodes s !! n) as [x|]; [by exists x|].
  pose proof (num_nonneg (Ref n) R). pose proof (num_nonneg (Opn n) R). pose proof (uses_nonneg opens n).
  destruct Hk as [->|[->|(t & i & ->)]]; [lia|lia|]. destruct (iv_keys _ _ _ H t i (Tok t i n) eq_refl Hp) as [f Hf].
  pose proof (iv_file _ _ _ H _ _ _ Hf) as (_ & E & _). apply E in Hp. apply uses_pos in Hp. lia.
Qed.

Lemma vop_ok {A} R s n (op : inode_ops FS -> code S A) : Inv R s -> is_Some (inodes s !! n) -> vop n op s = op (in_ops n) s.
Proof.
  intros HI [x Hx]. destruct (inode_at _ _ _ _ HI Hx) as (H1 & H2 & H3). unfold vop, inode_check. unfold bind at 1.
  rewrite (get_inode_ok _ x) by done. rewrite bind_check by (apply andb_true_iff; split; apply Z.leb_le; lia).
  rewrite bind_check by (apply andb_true_iff; split; apply Z.ltb_lt; lia). done.
Qed.

(** [num k R] for a key of [h]. *)
Lemma num_in k F h : k ∈ h -> 0 < num k (F ⊎ h).
Proof. rewrite elem_of_multiplicity, num_union. unfold num. lia. Qed.

Lemma sp_vop {A} h n k (op : inode_ops FS -> code S A) Q : keeps k n -> k ∈ h -> sp h (op (in_ops n)) Q -> sp h (vop n op) Q.
Proof.
  intros Hk Hh Hop F s HI _. rewrite (vop_ok _ _ _ _ HI); [by apply Hop|]. destruct (keeps_inode _ _ k n HI Hk) as [x Hx]; [by apply num_in|by exists x].
Qed.

(** An operation of a file system on an inode that is in use leaves the tables
    and the counts consistent; its result satisfies [P]. *)
Definition steady {A} (P : A -> Prop) (n : Z) (m : code S A) : Prop :=
  forall k, keeps k n -> sp {[+ k +]} m (fun a h _ => h = {[+ k +]} /\ P a).

End Inv.

(** ** What the file systems promise (fs/vfs/inode.h) *)

Class VnodesOk `(VN : Vnodes) : Prop := {
  vn_open : forall n flags, steady (fun r => r <= 0) n (op_open (in_ops n) flags);
  vn_close : forall n, steady (fun _ => True) n (op_close (in_ops n));
  vn_read : forall n iob, steady (fun _ => True) n (op_read (in_ops n) iob);
  vn_write : forall n iob, steady (fun _ => True) n (op_write (in_ops n) iob);
  vn_fstat : forall n, steady (fun r => r.1 <= 0) n (op_fstat (in_ops n));
  vn_fsync : forall n, steady (fun r => r <= 0) n (op_fsync (in_ops n));
  vn_getdirentry : forall n iob, steady (fun _ => True) n (op_getdirentry (in_ops n) iob);
  vn_tryseek : forall n p, steady (fun r => r <= 0) n (op_tryseek (in_ops n) p);
  vn_truncate : forall n len, steady (fun r => r <= 0) n (op_truncate (in_ops n) len);
  vn_mkdir : forall n name, steady (fun _ => True) n (op_mkdir (in_ops n) name);
  vn_symlink : forall n name path, steady (fun _ => True) n (op_symlink (in_ops n) name path);
  vn_readlink : forall n iob, steady (fun _ => True) n (op_readlink (in_ops n) iob);
  vn_unlink : forall n name, steady (fun _ => True) n (op_unlink (in_ops n) name);
  vn_link : forall n name n', sp {[+ Ref n'; Ref n +]} (op_link (in_ops n) name n') (fun _ h _ => h = {[+ Ref n'; Ref n +]});
  vn_rename : forall n name n' name', sp {[+ Ref n; Ref n' +]} (op_rename (in_ops n) name n' name') (fun _ h _ => h = {[+ Ref n; Ref n' +]});
  vn_linux_read : forall n base len off, steady (fun _ => True) n (d_linux_read (in_ops n) base len off);
  vn_linux_write : forall n base len off, steady (fun _ => True) n (d_linux_write (in_ops n) base len off);
  vn_linux_ioctl : forall n cmd arg, steady (fun _ => True) n (d_linux_ioctl (in_ops n) cmd arg);
  vn_linux_mmap : forall n addr len prot flags off, steady (fun _ => True) n (d_linux_mmap (in_ops n) addr len prot flags off);
  (* hands back an inode with a reference *)
  vn_create : forall n name excl, sp {[+ Ref n; Room +]} (op_create (in_ops n) name excl)
    (fun r h _ => h = (if r.1 =? 0 then {[+ Ref n; Ref r.2 +]} else {[+ Ref n; Room +]}) /\ r.1 <= 0);
  vn_lookup : forall path, sp {[+ Room +]} (vfs_lookup path) 
    (fun r h _ => h = (if r.1 =? 0 then {[+ Ref r.2 +]} else {[+ Room +]}) /\ r.1 <= 0);
  vn_lookup_parent : forall path, sp {[+ Room +]} (vfs_lookup_parent path)
    (fun r h _ => h = (if r.1.1 =? 0 then {[+ Ref r.1.2 +]} else {[+ Room +]}) /\ r.1.1 <= 0);
  vn_pipe_open : sp {[+ Room; Room +]} pipe_open
    (fun r h _ => h = (if r.1.1 =? 0 then {[+ Opn r.1.2; Opn r.2 +]} else {[+ Room; Room +]}) /\ r.1.1 <= 0);
  (* the inode, which nobody refers to, may be freed *)
  vn_reclaim : forall n, sp_when (fun s => exists x, inodes s !! n = Some x /\ ref_count x = 0) ∅ (op_reclaim (in_ops n)) (fun _ h _ => h = ∅) }.

Section Calls.
Context `{OK : VnodesOk}.
Notation S := (fsys FS).
Implicit Types (s : S) (R F h : held).

Lemma put_inode_ok {A} n x (K : unit -> code S A) s : bind (put_inode n x) K s = K tt (set_inode n x s).
Proof. done. Qed.

(** One call of a file system in the middle of code that holds [h]. *)
Lemma ok_vop {A B} P h n k (op : inode_ops FS -> code S A) (K : A -> code S B) Q F s :
  Inv (F ⊎ h) s -> k ∈ h -> keeps k n -> steady P n (op (in_ops n)) ->
  (forall F a s', Inv (F ⊎ h) s' -> P a -> ok F (K a s') Q) -> ok F (bind (vop n op) K s) Q.
Proof.
  intros HI Hk Hn Hop HK. assert (Eh : h = h ∖ {[+ k +]} ⊎ {[+ k +]}).
  { rewrite (comm_L disj_union). by apply gmultiset_disj_union_difference'. }
  eapply (ok_bind (fun _ => True) (h ∖ {[+ k +]}) {[+ k +]}); [|exact HI|exact Eh|done|].
  - eapply sp_vop; [exact Hn|mset|by apply Hop].
  - intros F' a h1 s' HI' [-> HP]. apply HK; [by rewrite <- Eh in HI'|done].
Qed.

Lemma inode_ref_dec_ok n : sp {[+ Ref n +]} (inode_ref_dec n) (fun _ h _ => h = {[+ Room +]}).
Proof.
  intros F s HI _. destruct (keeps_inode _ _ (Ref n) n HI) as [x Hx]; [by left|apply num_in; mset|].
  destruct (inode_at _ _ _ _ HI Hx) as (H1 & H2 & H3). pose proof (num_nonneg (Ref n) F). pose proof (num_nonneg (Opn n) F).
  unfold inode_ref_dec. rewrite (get_inode_ok _ x), bind_check, put_inode_ok by (done || apply Z.ltb_lt; nums).
  assert (HI1 : Inv (F ⊎ {[+ Room +]}) (set_inode n (mk_inode (ref_count x - 1) (open_count x)) s))
    by (eapply node_step; [exact HI|exact Hx|nums; by destruct k|nums..]).
  destruct (Z.eqb_spec (ref_count x - 1) 0) as [E0|]; [|by apply (ok_ret _ {[+ Room +]})].
  assert (Hx1 : inodes (set_inode n (mk_inode (ref_count x - 1) (open_count x)) s) !! n = Some (mk_inode (ref_count x - 1) (open_count x)))
    by apply lookup_insert_eq.
  eapply (ok_bind (fun s => exists x, inodes s !! n = Some x /\ ref_count x = 0) {[+ Room +]} ∅); [|exact HI1|mset|by eexists|].
  { intros F' s' HI' (y & Hy & Ey). rewrite (vop_ok _ _ _ _ HI') by (by exists y). apply vn_reclaim; [done|by exists y]. }
  intros F' a h s' HI' ->. eapply ok_ret; [exact HI'|mset].
Qed.

Lemma open_dec_ok n : sp {[+ Opn n +]} (inode_open_dec n) (fun _ h _ => h = {[+ Ref n +]}).
Proof.
  intros F s HI _. destruct (keeps_inode _ _ (Opn n) n HI) as [x Hx]; [by right; left|apply num_in; mset|].
  destruct (inode_at _ _ _ _ HI Hx) as (H1 & H2 & H3). pose proof (num_nonneg (Ref n) F). pose proof (num_nonneg (Opn n) F).
  unfold inode_open_dec. rewrite (get_inode_ok _ x), bind_check, put_inode_ok by (done || apply Z.ltb_lt; nums).
  assert (HI1 : Inv (F ⊎ {[+ Ref n +]}) (set_inode n (mk_inode (ref_count x) (open_count x - 1)) s))
    by (eapply node_step; [exact HI|exact Hx|nums; by destruct k|nums..]).
  case_match; [|by eapply ok_ret].
  eapply (ok_vop _ _ _ (Ref n)); [exact HI1|mset|by left|apply vn_close|]. intros F' a s' HI' _. by eapply ok_ret.
Qed.

Lemma vfs_close_ok n : sp {[+ Opn n +]} (vfs_close n) (fun _ h _ => h = {[+ Room +]}).
Proof.
  intros F s HI _. unfold vfs_close. eapply (ok_bind _ ∅); [apply open_dec_ok|exact HI|mset|done|].
  intros F1 ? h s1 HI1 ->. eapply (ok_bind _ ∅); [apply inode_ref_dec_ok|exact HI1|mset|done|].
  intros F2 ? h s2 HI2 ->. eapply ok_ret; [exact HI2|mset].
Qed.
(** ** Entries are closed *)

(** The inode of a closed entry nobody uses is closed; who closes the entry
    gets [k] for it, which is [Gone] if the table is his own. *)
Lemma free_closed_ok l t i n k : k = Room \/ k = Gone t i /\ 0 < num (Last t) l ->
  sp_when (fun s => exists f, has_file t i f s /\ status f = FD_CLOSED /\ fopen_count f = 0 /\ node f = Some n)
    (l ⊎ {[+ Closing t i; Opn n +]}) (filemap_free t i)
    (fun _ h s => h = l ⊎ {[+ k; Room +]} /\ exists f, has_file t i f s /\ status f = FD_NONE).
Proof.
  intros Hk F s HI (f & Hf & Hs & Hc & Hn). unfold filemap_free, the_node.
  rewrite (get_file_ok _ _ f), bind_check by (done || rewrite bool_decide_eq_true; auto). rewrite bind_check by (by apply Z.eqb_eq).
  rewrite decide_True by done. rewrite Hn.
  eapply (ok_bind (fun _ => True) (l ⊎ {[+ Closing t i +]}) {[+ Opn n +]} _ _ _ (fun _ h _ => h = {[+ Room +]}));
    [|exact HI|mset|done|].
  { intros F1 s1 HI1 _. rewrite bind_lift. eapply (ok_bind _ ∅); [apply vfs_close_ok|exact HI1|mset|done|].
    intros F2 ? h s2 HI2 ->. eapply ok_ret; [exact HI2|mset]. }
  intros F1 ? h s1 [opens H1] ->. destruct (iv_keys _ _ _ H1 t i (Closing t i) eq_refl) as [g Hg]; [apply num_in; mset|].
  rewrite (get_file_ok _ _ g) by done. erewrite put_file_ok by done. exists (l ⊎ {[+ k; Room +]}).
  split; [|split; [done|exists (set_status FD_NONE g); split; [by eapply has_file_set|done]]].
  pose proof (iv_file _ _ _ H1 _ _ _ Hg) as (E1 & E2 & E3). pose proof (num_nonneg (Closing t i) (F1 ⊎ l)) as Hp.
  assert (Hs' : status g = FD_CLOSED) by (destruct (status g); [| | |done]; destruct_and!; nums). rewrite Hs' in E3. destruct E3 as (E3 & E4 & E5).
  destruct (opens !! (t, i)) as [m|] eqn:Eo; [destruct E5 as (_ & E5 & _); nums|]. destruct E5 as [E5 E6].
  eapply (entry_step opens _ _ s1 t i g _ None); [exact H1|exact Hg| | |rewrite Eo| | |];
    [destruct Hk as [->|[-> _]]; nums..| | |nums].
  - assert (E2' : forall m, num (Tok t i m) (F1 ⊎ l) = 0) by (eapply no_tok; [|exact E2]; nums).
    split_and!; [done| |]; destruct Hk as [->|[-> _]]; [intros m; specialize (E2' m); nums..|nums|nums]; split_and!; nums.
  - pose proof (num_nonneg (Last t) F1). destruct Hk as [->|[-> ?]]; nums.
Qed.

(** Using an entry ends. *)
Lemma release_ok t i n : sp {[+ Tok t i n; Room +]} (filemap_release t i) (fun _ h _ => h = {[+ Room; Room +]}).
Proof.
  intros F s [opens HI] _. destruct (iv_keys _ _ _ HI t i (Tok t i n) eq_refl) as [f Hf]; [apply num_in; mset|].
  pose proof (iv_file _ _ _ HI _ _ _ Hf) as (E1 & E2 & E3). pose proof (num_nonneg (Tok t i n) F) as Hp.
  assert (Eo : opens !! (t, i) = Some n) by (apply E2, num_in; mset).
  set (f' := set_count (fopen_count f - 1) f).
  assert (Hgo : status f = FD_OPENED \/ status f = FD_CLOSED /\ node f = Some n /\ fopen_count f = num (Tok t i n) F + 1).
  { destruct (status f); [naive_solver..|by left|right]. rewrite Eo in E3. destruct_and! E3. nums. }
  assert (Hc : 0 < fopen_count f).
  { destruct Hgo as [Hs|(_ & _ & ->)]; [|lia]. rewrite Hs in E3. destruct E3 as (_ & _ & m & ? & _ & -> & _). pose proof (num_nonneg (Tok t i m) (F ⊎ {[+ Tok t i n; Room +]})). lia. }
  assert (E2' : forall m, 0 < num (Tok t i m) F -> m = n) by (intros m Hm; specialize (E2 m); nums; rewrite Eo in E2; apply (inj Some); symmetry; apply E2; lia).
  unfold filemap_release. rewrite (get_file_ok _ _ f), bind_check by (done || rewrite bool_decide_eq_true; naive_solver).
  rewrite bind_check by (by apply Z.ltb_lt). erewrite bind_done by (by eapply put_file_ok). fold f'.
  destruct Hgo as [Hs|(Hs & Hn & Ec)].
  - rewrite Hs in E3. destruct E3 as (E3 & E4 & m & E5 & E6 & E7 & E8). assert (m = n) as -> by congruence.
    destruct (Z.eqb_spec (fopen_count f - 1) 0); [nums|]. apply (ok_ret _ {[+ Room; Room +]}); [|done].
    eapply (entry_step opens _ _ s t i f f' (Some n)); [exact HI|exact Hf|nums|nums|rewrite Eo; nums| | |nums].
    + split_and!; [done|intros m; specialize (E2' m); nums; intros; f_equal; symmetry; apply E2'; lia|]. subst f'. cbn [status set_count]. rewrite Hs. split_and!; [nums..|].
      exists n. nums. split_and!; nums.
    + nums.
  - rewrite Hs, Eo in E3. destruct E3 as (E3 & E4 & E5 & E6 & E7 & E8). destruct (Z.eqb_spec (fopen_count f - 1) 0) as [Ez|Ez].
    + assert (HI1 : Inv (F ⊎ {[+ Closing t i; Opn n +]}) (set_file t i f' s)).
      { eapply (entry_step opens _ _ s t i f f' None); [exact HI|exact Hf|nums|nums|rewrite Eo; nums| |nums|nums].
        split_and!; [done|intros m Hm; destruct (E2' m); nums|]. subst f'. cbn [status set_count]. rewrite Hs. split_and!; nums. }
      eapply ok_mono; [|eapply (free_closed_ok ∅ t i n Room); [by left|by rewrite (left_id_L ∅ _)|]].
      * intros _ h s' [-> _]. mset.
      * exists f'. split_and!; [by eapply has_file_set|done..].
    + apply (ok_ret _ {[+ Room; Room +]}); [|done].
      eapply (entry_step opens _ _ s t i f f' (Some n)); [exact HI|exact Hf|nums|nums|rewrite Eo; nums| |nums|nums].
      split_and!; [done|intros m; specialize (E2' m); nums; intros; f_equal; symmetry; apply E2'; lia|]. subst f'. cbn [status set_count]. rewrite Hs.
      split_and!; nums.
Qed.

(** An open entry is marked closed. *)
Lemma close_entry R t i f n s : Inv (R ⊎ {[+ Room; Room +]}) s -> 0 < num (Proc t) R -> has_file t i f s -> status f = FD_OPENED ->
  node f = Some n -> let f' := set_count (fopen_count f - 1) (set_status FD_CLOSED f) in
  0 < fopen_count f /\
  Inv (R ⊎ if fopen_count f - 1 =? 0 then {[+ Closing t i; Opn n +]} else {[+ Room; Room +]}) (set_file t i f' s).
Proof.
  intros [opens HI] Hp Hf Hs Hn f'. pose proof (iv_file _ _ _ HI _ _ _ Hf) as (E1 & E2 & E3). rewrite Hs in E3.
  destruct E3 as (E3 & E4 & m & Eo & E6 & E7 & _). assert (m = n) as -> by congruence.
  pose proof (no_ent _ _ _ t i HI ltac:(nums)) as E8. pose proof (num_nonneg (Tok t i n) R) as Hq. split; [nums|].
  assert (E2' : forall m, 0 < num (Tok t i m) R -> m = n) by (intros m Hm; specialize (E2 m); nums; rewrite Eo in E2; apply (inj Some); symmetry; apply E2; lia).
  destruct (Z.eqb_spec (fopen_count f - 1) 0) as [Ez|Ez].
  - eapply (entry_step opens _ _ s t i f f' None); [exact HI|exact Hf|nums|nums|rewrite Eo; nums| |nums|nums].
    split_and!; [done|intros m Hm; destruct (E2' m); nums|]. subst f'. cbn [status set_count set_status]. split_and!; nums.
  - eapply (entry_step opens _ _ s t i f f' (Some n)); [exact HI|exact Hf|nums|nums|rewrite Eo; nums| |nums|nums].
    split_and!; [done|intros m Hm; f_equal; symmetry; apply E2'; nums|]. subst f'. cbn [status set_count set_status]. split_and!; nums.
Qed.

Definition opened (t : Z) (i : nat) s : Prop := exists f, has_file t i f s /\ status f = FD_OPENED.

Lemma close_ok t i : sp_when (opened t i) {[+ Proc t; Room; Room +]} (filemap_close t i) (fun _ h _ => h = {[+ Proc t; Room; Room +]}).
Proof.
  intros F s HI (f & Hf & Hs). 
  assert (exists n, node f = Some n) as [n Hn].
  { destruct HI as [opens HI]. pose proof (iv_file _ _ _ HI _ _ _ Hf) as (E1 & E2 & E3). rewrite Hs in E3. naive_solver. }
  destruct (close_entry (F ⊎ {[+ Proc t +]}) t i f n s) as [Hc HI1]; try done.
  { eapply Inv_eq; [exact HI|mset]. } { apply num_in. mset. }
  unfold filemap_close. rewrite (get_file_ok _ _ f), bind_check by (done || by rewrite bool_decide_eq_true).
  rewrite bind_check by (by apply Z.ltb_lt). erewrite bind_done by (by eapply put_file_ok).
  destruct (fopen_count f - 1 =? 0) eqn:Ez.
  - eapply ok_mono; [|eapply (free_closed_ok {[+ Proc t +]} t i n Room); [by left|eapply Inv_eq; [exact HI1|mset]|]].
    + intros _ h s' [-> _]. mset.
    + eexists. split_and!; [by eapply has_file_set|done|by apply Z.eqb_eq|done].
  - apply (ok_ret _ {[+ Proc t; Room; Room +]}); [eapply Inv_eq; [exact HI1|mset]|done].
Qed.

(** ** Opening an inode *)

Lemma open_inc_ok n : sp {[+ Ref n +]} (inode_open_inc n) (fun _ h _ => h = {[+ Opn n +]}).
Proof.
  intros F s HI _. destruct (keeps_inode _ _ (Ref n) n HI) as [x Hx]; [by left|apply num_in; mset|].
  unfold inode_open_inc. rewrite (get_inode_ok _ x), put_inode_ok by done. apply (ok_ret _ {[+ Opn n +]}); [|done].
  eapply node_step; [exact HI|exact Hx|nums; by destruct k|nums..].
Qed.

(** One more use of [ok_bind], with the keys the rest of the code holds. *)
Ltac sp_bind h0 H HI := eapply (ok_bind _ h0); [apply H|exact HI|mset|done|].

Definition gives (a b : held) (r : Z) : held := if r =? 0 then a else b.

Lemma vfs_find_ok path flags :
  sp {[+ Room; Room +]}
    (if has_flag flags O_CREAT then
       do (r, dir, name) <- vfs_lookup_parent path;
       if negb (r =? 0) then ret (r, 0)
       else
         do (r, n) <- vop dir (fun o => op_create o name (has_flag flags O_EXCL));
         do _ <- inode_ref_dec dir;
         ret (r, n)
     else vfs_lookup path)
    (fun r h _ => h = gives {[+ Ref r.2; Room +]} {[+ Room; Room +]} r.1 /\ r.1 <= 0).
Proof.
  intros F s HI _. unfold gives. destruct (has_flag flags O_CREAT).
  - sp_bind ({[+ Room +]} : held) vn_lookup_parent HI. intros F1 [[r dir] name] h s1 HI1 [-> Hr]. cbn [fst snd] in *.
    destruct (r =? 0) eqn:Er; cbn [negb]; [|eapply ok_ret; [exact HI1|]; cbn [fst snd]; rewrite Er; mset].
    eapply (ok_bind (fun _ => True) ∅ {[+ Ref dir; Room +]}); [|exact HI1|mset|done|].
    { apply (sp_vop _ _ (Ref dir)); [by left|mset|]. apply vn_create. }
    intros F2 [r2 n] h s2 HI2 [-> Hr2]. cbn [fst snd] in *. eapply (ok_bind _ (if r2 =? 0 then {[+ Ref n +]} else {[+ Room +]})); [apply inode_ref_dec_ok|exact HI2| |done|].
    + destruct (r2 =? 0); mset.
    + intros F3 ? h s3 HI3 ->. eapply ok_ret; [exact HI3|]. cbn [fst snd]. destruct (r2 =? 0); mset.
  - eapply (ok_last _ {[+ Room +]}); [apply vn_lookup|exact HI|mset|done|].
    intros [r n] h s1 [-> Hr]. cbn [fst snd]. split; [|done]. destruct (r =? 0); mset.
Qed.

Lemma vfs_open_ok path flags : sp {[+ Room; Room +]} (vfs_open path flags)
  (fun r h _ => h = gives {[+ Opn r.2; Room +]} {[+ Room; Room +]} r.1 /\ r.1 <= 0).
Proof.
  intros F s HI _. unfold vfs_open. do 2 (case_match; [by eapply ok_ret|]).
  sp_bind (∅ : held) vfs_find_ok HI. intros F1 [r n] h s1 HI1 [-> Hr]. unfold gives in *. cbn [fst snd] in *.
  destruct (r =? 0) eqn:Er; cbn [negb]; [|eapply ok_ret; [exact HI1|]; cbn [fst snd]; rewrite Er; mset].
  eapply (ok_vop _ _ _ (Ref n)); [exact HI1|mset|by left|apply vn_open|]. intros F2 r2 s2 HI2 Hr2.
  destruct (r2 =? 0) eqn:Er2; cbn [negb].
  - sp_bind ({[+ Room +]} : held) open_inc_ok HI2. intros F3 ? h s3 HI3 ->. destruct (has_flag flags O_TRUNC); [|eapply ok_ret; [exact HI3|mset]].
    eapply (ok_vop _ _ _ (Opn n)); [exact HI3|mset|by right; left|apply vn_truncate|]. intros F4 r4 s4 HI4 Hr4.
    destruct (r4 =? 0) eqn:Er4; cbn [negb]; [eapply ok_ret; [exact HI4|mset]|].
    sp_bind ({[+ Room +]} : held) open_dec_ok HI4. intros F5 ? h s5 HI5 ->.
    sp_bind ({[+ Room +]} : held) inode_ref_dec_ok HI5. intros F6 ? h s6 HI6 ->.
    eapply ok_ret; [exact HI6|]. cbn [fst snd]. rewrite Er4. mset.
  - sp_bind ({[+ Room +]} : held) inode_ref_dec_ok HI2. intros F3 ? h s3 HI3 ->. eapply ok_ret; [exact HI3|]. cbn [fst snd]. rewrite Er2. mset.
Qed.

(** ** The operations on names *)

Lemma in_dir_ok path (op : Z -> list Z -> code S Z) :
  (forall dir name, sp {[+ Ref dir +]} (op dir name) (fun _ h _ => h = {[+ Ref dir +]})) ->
  sp {[+ Room +]} (in_dir path op) (fun _ h _ => h = {[+ Room +]}).
Proof.
  intros Hop F s HI _. unfold in_dir. sp_bind (∅ : held) vn_lookup_parent HI. intros F1 [[r dir] name] h s1 HI1 [-> Hr]. cbn [fst snd] in *.
  destruct (r =? 0); cbn [negb]; [|eapply ok_ret; [exact HI1|mset]].
  sp_bind (∅ : held) Hop HI1. intros F2 r2 h s2 HI2 ->. sp_bind (∅ : held) inode_ref_dec_ok HI2. intros F3 ? h s3 HI3 ->.
  eapply ok_ret; [exact HI3|mset].
Qed.

Lemma sp_steady {A} P n k h (op : inode_ops FS -> code S A) : keeps k n -> k ∈ h -> steady P n (op (in_ops n)) ->
  sp h (vop n op) (fun a h' _ => h' = h).
Proof.
  intros Hk Hh Hop F s HI _. eapply (ok_last (fun _ => True) (h ∖ {[+ k +]}) {[+ k +]}); [|exact HI| |done|].
  - eapply sp_vop; [exact Hk|mset|by apply Hop].
  - multiset_solver.
  - intros a h' s' [-> _]. multiset_solver.
Qed.

Lemma vfs_unlink_ok path : sp {[+ Room +]} (vfs_unlink path) (fun _ h _ => h = {[+ Room +]}).
Proof. apply in_dir_ok. intros dir name. eapply (sp_steady _ dir); [by left|mset|apply vn_unlink]. Qed.

Lemma vfs_mkdir_ok path : sp {[+ Room +]} (vfs_mkdir path) (fun _ h _ => h = {[+ Room +]}).
Proof. apply in_dir_ok. intros dir name. eapply (sp_steady _ dir); [by left|mset|apply vn_mkdir]. Qed.

Lemma vfs_symlink_ok old new : sp {[+ Room +]} (vfs_symlink old new) (fun _ h _ => h = {[+ Room +]}).
Proof. apply in_dir_ok. intros dir name. eapply (sp_steady _ dir); [by left|mset|apply vn_symlink]. Qed.

Lemma vfs_readlink_ok path iob : sp {[+ Room +]} (vfs_readlink path iob) (fun _ h _ => h = {[+ Room +]}).
Proof.
  intros F s HI _. unfold vfs_readlink. sp_bind (∅ : held) vn_lookup HI. intros F1 [r n] h s1 HI1 [-> Hr]. cbn [fst snd] in *.
  destruct (r =? 0); cbn [negb]; [|eapply ok_ret; [exact HI1|mset]].
  eapply (ok_vop _ _ _ (Ref n)); [exact HI1|mset|by left|apply vn_readlink|]. intros F2 [r2 iob'] s2 HI2 _.
  sp_bind (∅ : held) inode_ref_dec_ok HI2. intros F3 ? h s3 HI3 ->. eapply ok_ret; [exact HI3|mset].
Qed.

(** Two references are given back. *)
Lemma drop_both_ok {A} a b (x : A) : sp {[+ Ref a; Ref b +]} (do _ <- inode_ref_dec a; do _ <- inode_ref_dec b; ret x) (fun _ h _ => h = {[+ Room; Room +]}).
Proof.
  intros F s HI _. sp_bind ({[+ Ref b +]} : held) inode_ref_dec_ok HI. intros F1 ? h s1 HI1 ->.
  sp_bind ({[+ Room +]} : held) inode_ref_dec_ok HI1. intros F2 ? h s2 HI2 ->. eapply ok_ret; [exact HI2|mset].
Qed.

Lemma vfs_rename_ok old new : sp {[+ Room; Room +]} (vfs_rename old new) (fun _ h _ => h = {[+ Room; Room +]}).
Proof.
  intros F s HI _. unfold vfs_rename. sp_bind ({[+ Room +]} : held) vn_lookup_parent HI. intros F1 [[r a] na] h s1 HI1 [-> Hr]. cbn [fst snd] in *.
  destruct (r =? 0); cbn [negb]; [|eapply ok_ret; [exact HI1|mset]].
  sp_bind ({[+ Ref a +]} : held) vn_lookup_parent HI1. intros F2 [[r2 b] nb] h s2 HI2 [-> Hr2]. cbn [fst snd] in *.
  destruct (r2 =? 0); cbn [negb].
  - eapply (ok_bind (fun _ => True) ∅ {[+ Ref a; Ref b +]} _ _ _ (fun _ h _ => h = {[+ Ref a; Ref b +]})); [|exact HI2|mset|done|].
    { destruct (other_fs a b); [by apply sp_ret|]. eapply (sp_vop _ a (Ref a)); [by left|mset|apply vn_rename]. }
    intros F3 r3 h s3 HI3 ->. eapply (ok_last _ ∅); [apply drop_both_ok|exact HI3|mset|done|]. intros ? h ? ->. mset.
  - sp_bind ({[+ Room +]} : held) inode_ref_dec_ok HI2. intros F3 ? h s3 HI3 ->. eapply ok_ret; [exact HI3|mset].
Qed.

Lemma vfs_link_ok old new : sp {[+ Room; Room +]} (vfs_link old new) (fun _ h _ => h = {[+ Room; Room +]}).
Proof.
  intros F s HI _. unfold vfs_link. sp_bind ({[+ Room +]} : held) vn_lookup HI. intros F1 [r a] h s1 HI1 [-> Hr]. cbn [fst snd] in *.
  destruct (r =? 0); cbn [negb]; [|eapply ok_ret; [exact HI1|mset]].
  sp_bind ({[+ Ref a +]} : held) vn_lookup_parent HI1. intros F2 [[r2 b] nb] h s2 HI2 [-> Hr2]. cbn [fst snd] in *.
  destruct (r2 =? 0); cbn [negb].
  - eapply (ok_bind (fun _ => True) ∅ {[+ Ref a; Ref b +]} _ _ _ (fun _ h _ => h = {[+ Ref a; Ref b +]})); [|exact HI2|mset|done|].
    { destruct (other_fs a b); [by apply sp_ret|]. eapply (sp_vop _ b (Ref b)); [by left|mset|apply vn_link]. }
    intros F3 r3 h s3 HI3 ->. eapply (ok_last _ ∅); [apply drop_both_ok|exact HI3|mset|done|]. intros ? h ? ->. mset.
  - sp_bind ({[+ Room +]} : held) inode_ref_dec_ok HI2. intros F3 ? h s3 HI3 ->. eapply ok_ret; [exact HI3|mset].
Qed.


(** ** The calls on descriptors *)

(** What a process of table [t] holds when it makes a call. *)
Definition budget (t : Z) : held := {[+ Proc t; Room; Room; Room; Room +]}.
Definition fine (t : Z) {A} (a : A) (h : held) (s : S) : Prop := h = budget t.

Lemma proc_budget t F : 0 < num (Proc t) (F ⊎ budget t).
Proof. apply num_in. unfold budget. mset. Qed.

(** The position and the rights of an entry are not part of the invariant. *)
Lemma pos_step R t i f p s : Inv R s -> has_file t i f s -> Inv R (set_file t i (set_pos p f) s).
Proof.
  intros [opens HI] Hf. pose proof (iv_file _ _ _ HI _ _ _ Hf) as He.
  eapply (entry_step opens _ _ s t i f _ (opens !! (t, i))); [exact HI|exact Hf|done|done|done|exact He| |done].
  apply (iv_ent _ _ _ HI).
Qed.

Lemma tok_file R t i n s : Inv R s -> 0 < num (Tok t i n) R -> exists f, has_file t i f s /\ node f = Some n.
Proof.
  intros [opens HI] Hp. destruct (iv_keys _ _ _ HI t i (Tok t i n) eq_refl Hp) as [f Hf]. exists f. split; [done|].
  pose proof (iv_file _ _ _ HI _ _ _ Hf) as (_ & E2 & E3). rewrite (E2 n Hp) in E3. destruct (status f); naive_solver.
Qed.

Lemma ok_fd2file {A} t n (K : option nat -> code S A) Q F s : Inv (F ⊎ budget t) s ->
  (forall i f m, n = Z.of_nat i -> has_file t i f s -> status f = FD_OPENED -> node f = Some m -> ok F (K (Some i) s) Q) ->
  ok F (K None s) Q -> ok F (bind (fd2file t n) K s) Q.
Proof.
  intros HI HS HN. destruct (fd2file_ok _ t n s K HI (proc_budget t F)) as [(i & f & m & -> & Hf & Hs & Hm & ->)|[-> _]]; [by eapply HS|done].
Qed.

(** An open entry is acquired. *)
Lemma entry_enter_ok {A} t i f n (K : unit -> code S A) Q F s :
  Inv (F ⊎ budget t) s -> has_file t i f s -> status f = FD_OPENED -> node f = Some n ->
  (forall s', Inv (F ⊎ ({[+ Proc t; Room; Room; Room +]} ⊎ {[+ Tok t i n +]})) s' -> ok F (K tt s') Q) -> ok F (bind (filemap_acquire t i) K s) Q.
Proof.
  intros HI Hf Hs Hn HK. destruct (acquire_ok (F ⊎ {[+ Proc t; Room; Room; Room +]}) t i f n s) as [E HI1]; try done.
  - eapply Inv_eq; [exact HI|unfold budget; mset].
  - apply num_in. mset.
  - eapply ok_done; [exact E|]. apply HK. eapply Inv_eq; [exact HI1|mset].
Qed.

(** The entry is released, and the call returns [a]. *)
Lemma entry_leave_ok {A} t i n (a : A) F s : Inv (F ⊎ ({[+ Proc t; Room; Room; Room +]} ⊎ {[+ Tok t i n +]})) s ->
  ok F ((do_ filemap_release t i; ret a) s) (fine t).
Proof.
  intros HI. eapply (ok_bind (fun _ => True) {[+ Proc t; Room; Room +]} {[+ Tok t i n; Room +]}); [apply release_ok|exact HI|mset|done|].
  intros F1 _ h s1 HI1 ->. eapply ok_ret; [exact HI1|]. unfold fine, budget. mset.
Qed.

Lemma with_file_ok {A} t n (bad : A) body :
  (forall i m, sp {[+ Tok t i m +]} (body i m) (fun _ h _ => h = {[+ Tok t i m +]})) -> sp (budget t) (with_file t n bad body) (fine t).
Proof.
  intros Hb F s HI _. unfold with_file. eapply ok_fd2file; [exact HI| |by apply (ok_ret _ (budget t))]. intros i f m -> Hf Hs Hm.
  eapply entry_enter_ok; [exact HI|exact Hf|done|exact Hm|]. intros s1 HI1. destruct (tok_file _ t i m s1 HI1) as (g & Hg & Hn); [apply num_in; mset|].
  rewrite (get_file_ok _ _ g) by done. unfold the_node. rewrite Hn, bind_lift. sp_bind ({[+ Proc t; Room; Room; Room +]} : held) Hb HI1.
  intros F2 a h s2 HI2 ->. by eapply entry_leave_ok.
Qed.

Lemma sp_tok {A} P t i n (op : inode_ops FS -> code S A) : steady P n (op (in_ops n)) ->
  sp {[+ Tok t i n +]} (vop n op) (fun _ h _ => h = {[+ Tok t i n +]}).
Proof. intros H. eapply (sp_steady _ _ (Tok t i n)); [right; right; eauto|mset|exact H]. Qed.

Lemma file_fstat_ok t n : sp (budget t) (file_fstat t n) (fine t).
Proof. apply with_file_ok. intros i m. eapply sp_tok, vn_fstat. Qed.

Lemma file_fsync_ok t n : sp (budget t) (file_fsync t n) (fine t).
Proof. apply with_file_ok. intros i m. eapply sp_tok, vn_fsync. Qed.

Lemma file_getdirentry_ok t n d_name d_off : sp (budget t) (file_getdirentry t n d_name d_off) (fine t).
Proof.
  apply with_file_ok. intros i m F s HI _. eapply (ok_vop _ _ _ (Tok t i m)); [exact HI|mset|right; right; eauto|apply vn_getdirentry|].
  intros F1 [r iob] s1 HI1 _. by eapply ok_ret.
Qed.

Lemma file_seek_ok t n p whence : sp (budget t) (file_seek t n p whence) (fine t).
Proof.
  apply with_file_ok. intros i m F s HI _.
  destruct (tok_file _ t i m s HI) as (f & Hf & Hn); [apply num_in; mset|]. rewrite (get_file_ok _ _ f) by done.
  eapply (ok_bind (fun _ => True) ∅ {[+ Tok t i m +]} _ _ _ (fun _ h _ => h = {[+ Tok t i m +]})); [|exact HI|mset|done|].
  { repeat (case_match; [first [by apply sp_ret|idtac]|]); [|by apply sp_ret].
    intros F1 s1 HI1 _. eapply (ok_vop _ _ _ (Tok t i m)); [exact HI1|mset|right; right; eauto|apply vn_fstat|].
    intros F2 [r size] s2 HI2 _. by eapply ok_ret. }
  intros F1 [r q] h s1 HI1 ->. rewrite (left_id_L ∅ _) in HI1. destruct (r =? 0); cbn [negb]; [|by eapply ok_ret].
  eapply (ok_vop _ _ _ (Tok t i m)); [exact HI1|mset|right; right; eauto|apply vn_tryseek|]. intros F2 r2 s2 HI2 _.
  destruct (r2 =? 0); [|by eapply ok_ret]. destruct (tok_file _ t i m s2 HI2) as (g & Hg & _); [apply num_in; mset|].
  rewrite (get_file_ok _ _ g) by done. eapply ok_done; [by eapply put_file_ok|]. eapply ok_ret; [by eapply pos_step|done].
Qed.

Lemma move_pos_ok t i m c : sp {[+ Tok t i m +]} (move_pos t i c) (fun _ h _ => h = {[+ Tok t i m +]}).
Proof.
  intros F s HI _. destruct (tok_file _ t i m s HI) as (f & Hf & _); [apply num_in; mset|]. unfold move_pos.
  rewrite (get_file_ok _ _ f) by done. case_decide; [|by eapply ok_ret]. erewrite put_file_ok by done.
  eexists. split; [by eapply pos_step|done].
Qed.

Lemma file_move_ok write t n base len : sp (budget t) (file_move write t n base len) (fine t).
Proof.
  intros F s HI _. unfold file_move. eapply ok_fd2file; [exact HI| |by apply (ok_ret _ (budget t))]. intros i f m -> Hf Hs Hm.
  rewrite (get_file_ok _ _ f) by done. destruct (negb (if write then writable f else readable f)); [by apply (ok_ret _ (budget t))|].
  eapply entry_enter_ok; [exact HI|exact Hf|done|exact Hm|]. intros s1 HI1. unfold the_node. rewrite Hm, bind_lift.
  eapply (ok_vop (fun _ => True) _ _ (Tok t i m)); [exact HI1|mset|right; right; eauto|destruct write; [apply vn_write|apply vn_read]|].
  intros F2 [r iob] s2 HI2 _. sp_bind ({[+ Proc t; Room; Room; Room +]} : held) (move_pos_ok t i m) HI2. intros F3 _ h s3 HI3 ->. by eapply entry_leave_ok.
Qed.

Lemma file_close_ok t n : sp (budget t) (file_close t n) (fine t).
Proof.
  intros F s HI _. unfold file_close. eapply ok_fd2file; [exact HI| |by apply (ok_ret _ (budget t))]. intros i f m -> Hf Hs Hm.
  eapply (ok_bind (opened t i) {[+ Room; Room +]}); [apply close_ok|exact HI|unfold budget; mset|by exists f|].
  intros F1 _ h s1 HI1 ->. eapply ok_ret; [exact HI1|]. unfold fine, budget. mset.
Qed.

Lemma file_testfd_ok t n r w : sp (budget t) (file_testfd t n r w) (fine t).
Proof.
  intros F s HI _. unfold file_testfd. eapply ok_fd2file; [exact HI| |by apply (ok_ret _ (budget t))]. intros i f m -> Hf Hs Hm.
  rewrite (get_file_ok _ _ f) by done. by apply (ok_ret _ (budget t)).
Qed.

Lemma is_linux_devfile_ok t n : sp (budget t) (__is_linux_devfile t n) (fine t).
Proof.
  intros F s HI _. unfold __is_linux_devfile. eapply ok_fd2file; [exact HI| |by apply (ok_ret _ (budget t))]. intros i f m -> Hf Hs Hm.
  rewrite (get_file_ok _ _ f) by done. by apply (ok_ret _ (budget t)).
Qed.

(** *** Linux devices: the callers have asked [__is_linux_devfile] *)

Definition on_device (t n : Z) s : Prop :=
  forall i f m, n = Z.of_nat i -> has_file t i f s -> status f = FD_OPENED -> node f = Some m -> is_device (in_ops m) = true.

Lemma ok_device {A B} P h m k (op : inode_ops FS -> code S A) (K : A -> code S B) Q F s :
  Inv (F ⊎ h) s -> k ∈ h -> keeps k m -> is_device (in_ops m) = true -> steady P m (op (in_ops m)) ->
  (forall F a s', Inv (F ⊎ h) s' -> ok F (K a s') Q) -> ok F ((do dev <- device_of m; do a <- op dev; K a) s) Q.
Proof.
  intros HI Hk Hn Hd Hop HK. unfold device_of. unfold bind at 1. rewrite bind_check by done. cbn [ret res_bind run_bind].
  eapply (ok_bind (fun _ => True) (h ∖ {[+ k +]}) {[+ k +]}); [by apply Hop|exact HI|multiset_solver|done|].
  intros F1 a h1 s1 HI1 [-> _]. apply HK. eapply Inv_eq; [exact HI1|multiset_solver].
Qed.

Lemma linux_devfile_move_ok write t n base len : sp_when (on_device t n) (budget t) (linux_devfile_move write t n base len) (fine t).
Proof.
  intros F s HI Hd. unfold linux_devfile_move. eapply ok_fd2file; [exact HI| |by apply (ok_ret _ (budget t))]. intros i f m -> Hf Hs Hm.
  specialize (Hd i f m eq_refl Hf Hs Hm). rewrite (get_file_ok _ _ f) by done. destruct (negb (if write then writable f else readable f)); [by apply (ok_ret _ (budget t))|].
  eapply entry_enter_ok; [exact HI|exact Hf|done|exact Hm|]. intros s1 HI1. unfold the_node. rewrite Hm, bind_lift.
  eapply (ok_device (fun _ => True) _ m (Tok t i m) (fun dev => (if write then d_linux_write dev else d_linux_read dev) base len (pos f)));
    [exact HI1|mset|right; right; eauto|done|destruct write; [apply vn_linux_write|apply vn_linux_read]|].
  intros F2 r s2 HI2.
  eapply (ok_bind (fun _ => True) {[+ Proc t; Room; Room; Room +]} {[+ Tok t i m +]} _ _ _ (fun _ h _ => h = {[+ Tok t i m +]})); [|exact HI2|done|done|].
  { destruct (0 <=? r); [|by apply sp_ret]. intros F3 s3 HI3 _. destruct (tok_file _ t i m s3 HI3) as (g & Hg & _); [apply num_in; mset|].
    rewrite (get_file_ok _ _ g) by done. eapply ok_done; [by eapply put_file_ok|]. eapply ok_ret; [by eapply pos_step|done]. }
  intros F3 o h s3 HI3 ->. by eapply entry_leave_ok.
Qed.

Lemma device_call_ok {A} P t n (bad : A) (op : inode_ops FS -> code S A) : (forall m, steady P m (op (in_ops m))) ->
  sp_when (on_device t n) (budget t) (with_file t n bad (fun _ m => do dev <- device_of m; op dev)) (fine t).
Proof.
  intros Hop F s HI Hd. unfold with_file. eapply ok_fd2file; [exact HI| |by apply (ok_ret _ (budget t))]. intros i f m -> Hf Hs Hm.
  specialize (Hd i f m eq_refl Hf Hs Hm). eapply entry_enter_ok; [exact HI|exact Hf|done|exact Hm|]. intros s1 HI1.
  destruct (tok_file _ t i m s1 HI1) as (g & Hg & Hn); [apply num_in; mset|].
  rewrite (get_file_ok _ _ g) by done. unfold the_node. rewrite Hn, bind_lift.
  eapply (ok_bind (fun _ => True) {[+ Proc t; Room; Room; Room +]} {[+ Tok t i m +]} _ _ _ (fun _ h _ => h = {[+ Tok t i m +]})); [|exact HI1|done|done|].
  { intros F2 s2 HI2 _. unfold device_of. unfold bind at 1. rewrite bind_check by done. cbn [ret res_bind run_bind].
    eapply ok_mono; [|apply (Hop m (Tok t i m)); [right; right; eauto|exact HI2|done]]. by intros a h s' [-> _]. }
  intros F2 a h s2 HI2 ->. by eapply entry_leave_ok.
Qed.

Lemma linux_devfile_ioctl_ok t n cmd arg : sp_when (on_device t n) (budget t) (linux_devfile_ioctl t n cmd arg) (fine t).
Proof. apply (device_call_ok (fun _ => True)). intros m. apply vn_linux_ioctl. Qed.

Lemma linux_devfile_mmap2_ok t addr len prot flags n off : sp_when (on_device t n) (budget t) (linux_devfile_mmap2 t addr len prot flags n off) (fine t).
Proof. apply (device_call_ok (fun _ => True)). intros m. apply vn_linux_mmap. Qed.

(** *** New descriptors *)

(** The descriptor [r] is open for the inode [n]. *)
Definition open_as (t r n p : Z) (rd wr : bool) s : Prop :=
  exists i f, r = Z.of_nat i /\ has_file t i f s /\ status f = FD_OPENED /\ node f = Some n /\ pos f = p /\ readable f = rd /\ writable f = wr.

Lemma ok_alloc {A} t n (K : Z * nat -> code S A) Q F s h : Inv (F ⊎ (h ⊎ {[+ Room +]})) s -> Proc t ∈ h ->
  (forall e, e < 0 -> ok F (K (e, O) s) Q) ->
  (forall i s', alloc_choice n t i s -> Inv (F ⊎ (h ⊎ {[+ Init t i +]})) s' -> ok F (K (0, i) s') Q) ->
  ok F (bind (filemap_alloc t n) K s) Q.
Proof.
  intros HI Hp HE HK. rewrite (assoc_L _) in HI. destruct (alloc_ok _ t n s HI) as [(e & E & He)|(i & f & Hf & Hs & Hc & E & HI1)].
  - by apply num_in.
  - eapply ok_done; [exact E|]. apply HE. destruct He as [->|[->| ->]]; done.
  - eapply ok_done; [exact E|]. apply HK; [done|]. by rewrite <- (assoc_L _) in HI1.
Qed.

(** The entry is given up and the call fails. *)
Lemma ok_give_up {A} t i (a : A) Q F s h : Inv (F ⊎ (h ⊎ {[+ Init t i +]})) s -> (forall s', Inv (F ⊎ (h ⊎ {[+ Room +]})) s' -> Q a (h ⊎ {[+ Room +]}) s') ->
  ok F ((do_ filemap_free t i; ret a) s) Q.
Proof.
  intros HI HQ. rewrite (assoc_L _) in HI. destruct (free_init_ok _ t i s HI) as (f & Hf & Hs & E & HI1). eapply ok_done; [exact E|].
  rewrite <- (assoc_L _) in HI1. eapply ok_ret; [exact HI1|by apply HQ].
Qed.

(** The entry [f] becomes [g f], with an inode, and is opened. *)
Lemma open_entry_ok t i (g : file -> file) n s R :
  Inv (R ⊎ {[+ Init t i; Opn n +]}) s ->
  (forall f, fd (g f) = fd f /\ status (g f) = status f /\ fopen_count (g f) = fopen_count f /\ node (g f) = Some n) ->
  exists f, let s' := set_file t i (set_count 1 (set_status FD_OPENED (g f))) s in
    has_file t i (set_count 1 (set_status FD_OPENED (g f))) s' /\ fd f = Z.of_nat i /\ Inv (R ⊎ {[+ Room; Room +]}) s' /\
    (do f <- get_file t i; do_ put_file t i (g f); filemap_open t i) s = Ok (Done tt s') /\
    forall B (K : unit -> code S B), (do f <- get_file t i; do_ put_file t i (g f); bind (filemap_open t i) K) s = K tt s'.
Proof.
  intros HI Hg. assert (HI' : Inv (R ⊎ {[+ Init t i +]} ⊎ {[+ Opn n +]}) s) by (eapply Inv_eq; [exact HI|mset]).
  destruct HI' as [opens HI']. destruct (iv_keys _ _ _ HI' t i (Init t i) eq_refl) as [f Hf]; [pose proof (num_nonneg (Init t i) R); nums|].
  pose proof (iv_file _ _ _ HI' _ _ _ Hf) as (E1 & E2 & E3). pose proof (num_nonneg (Init t i) R).
  assert (Hs : status f = FD_INIT) by (destruct (status f); [|done| |]; destruct_and!; nums). rewrite Hs in E3. destruct E3 as (_ & Ec & _).
  destruct (Hg f) as (G1 & G2 & G3 & G4). destruct (open_ok R t i f (g f) n s) as (P1 & P2 & P3); try done; [by exists opens|congruence|].
  rewrite Ec in *. exists f. split; [by eapply has_file_set|]. split; [done|]. split; [eapply Inv_eq; [exact P3|mset]|].
  rewrite (get_file_ok _ _ f) by done. erewrite bind_done by exact P1. split; [exact P2|]. intros B K.
  rewrite (get_file_ok _ _ f) by done. erewrite bind_done by exact P1. by erewrite bind_done by exact P2.
Qed.

Definition can_read (flags : Z) : bool := negb (Z.land flags O_ACCMODE =? O_WRONLY).
Definition can_write (flags : Z) : bool := negb (Z.land flags O_ACCMODE =? O_RDONLY).

Lemma file_open_ok t path flags : sp (budget t) (file_open t path flags)
  (fun r h s => h = budget t /\ (r < 0 \/ exists n p, open_as t r n p (can_read flags) (can_write flags) s)).
Proof.
  intros F s HI _. unfold file_open. case_match; [apply (ok_ret _ (budget t)); [done|split; [done|by left]]|].
  assert (Eb : budget t = {[+ Proc t; Room; Room; Room +]} ⊎ {[+ Room +]}) by (unfold budget; mset).
  eapply (ok_alloc _ _ _ _ _ _ {[+ Proc t; Room; Room; Room +]}); [by rewrite <- Eb|mset| |].
  { intros e He. destruct (Z.eqb_spec e 0); [lia|]. cbn [negb]. apply (ok_ret _ (budget t)); [done|split; [done|by left]]. }
  intros i s1 _ HI1. cbn [Z.eqb negb]. 
  eapply (ok_bind _ ({[+ Proc t; Room +]} ⊎ {[+ Init t i +]})); [apply vfs_open_ok|exact HI1|mset|done|].
  intros F2 [r n] h s2 HI2 [-> Hr]. cbn [fst snd] in *. unfold gives in HI2. destruct (Z.eqb_spec r 0) as [->|Hr0]; cbn [negb].
  - eapply (ok_bind (fun _ => True) ({[+ Proc t; Room +]} ⊎ {[+ Init t i; Room +]}) {[+ Opn n +]} _ _ _ (fun a h _ => h = {[+ Opn n +]} /\ a.1 <= 0)); [|exact HI2|mset|done|].
    { destruct (has_flag flags O_APPEND); [|by apply sp_ret].
      apply (sp_vop _ n (Opn n)); [by right; left|mset|apply vn_fstat; by right; left]. }
    intros F3 [r p] h s3 HI3 [-> Hr3]. cbn [fst] in Hr3. destruct (Z.eqb_spec r 0) as [->|Hr0]; cbn [negb].
    + destruct (open_entry_ok t i (fun f => set_rights (can_read flags) (can_write flags) (set_node (Some n) (set_pos p f))) n s3 (F3 ⊎ {[+ Proc t; Room; Room +]}))
        as (f & Hf & Efd & HI4 & _ & EK); [eapply Inv_eq; [exact HI3|mset]|done|].
      unfold can_read, can_write in *. rewrite EK. rewrite (get_file_ok _ _ _ _ _ Hf). cbn [fd set_count set_status set_rights set_node set_pos].
      apply (ok_ret _ (budget t)); [eapply Inv_eq; [exact HI4|unfold budget; mset]|]. split; [done|]. right. exists n, p, i. eexists. split; [exact Efd|].
      split; [exact Hf|done].
    + eapply (ok_bind _ ({[+ Proc t; Room +]} ⊎ {[+ Init t i; Room +]})); [apply vfs_close_ok|exact HI3|mset|done|].
      intros F4 _ h s4 HI4 ->. eapply (ok_give_up _ _ _ _ _ _ {[+ Proc t; Room; Room; Room +]}); [eapply Inv_eq; [exact HI4|mset]|].
      intros s5 _. split; [by rewrite Eb|left; lia].
  - eapply (ok_give_up _ _ _ _ _ _ {[+ Proc t; Room; Room; Room +]}); [eapply Inv_eq; [exact HI2|mset]|].
    intros s5 _. split; [by rewrite Eb|left; lia].
Qed.

(** An open entry is copied to an allocated one. *)
Definition dup_file (from to : file) : file :=
  set_count (fopen_count to + 1) (set_status FD_OPENED
    (set_node (node from) (set_rights (readable from) (writable from) (set_pos (pos from) to)))).

Lemma filemap_dup_ok R t1 i1 t2 i2 f n s :
  Inv (R ⊎ {[+ Init t2 i2; Room +]}) s -> has_file t1 i1 f s -> status f = FD_OPENED -> node f = Some n ->
  exists x g, inodes s !! n = Some x /\ has_file t2 i2 g s /\ status g = FD_INIT /\ fd g = Z.of_nat i2 /\ fopen_count g = 0 /\
    let s' := set_file t2 i2 (dup_file f g) (set_inode n (mk_inode (ref_count x + 1) (open_count x + 1)) s) in
    filemap_dup t2 i2 t1 i1 s = Ok (Done tt s') /\ Inv (R ⊎ {[+ Room; Room +]}) s'.
Proof.
  intros HI Hf Hs Hn. assert (Hx : exists x, inodes s !! n = Some x).
  { destruct HI as [opens HI]. pose proof (iv_file _ _ _ HI _ _ _ Hf) as (_ & _ & E3). rewrite Hs in E3. destruct E3 as (_ & _ & m & Eo & Em & _).
    assert (m = n) as -> by congruence. apply uses_pos in Eo. pose proof (iv_inodes _ _ _ HI n) as E. destruct (inodes s !! n) as [x|]; [by exists x|].
    pose proof (num_nonneg (Ref n) (R ⊎ {[+ Init t2 i2; Room +]})). pose proof (num_nonneg (Opn n) (R ⊎ {[+ Init t2 i2; Room +]})). lia. }
  destruct Hx as [x Hx]. set (s1 := set_inode n (mk_inode (ref_count x + 1) (open_count x + 1)) s).
  assert (HI1 : Inv (R ⊎ {[+ Init t2 i2 +]} ⊎ {[+ Opn n +]}) s1).
  { eapply node_step; [exact HI|exact Hx| |nums..]. intros k Hk1 Hk2. nums. }
  assert (Hg : exists g, has_file t2 i2 g s /\ status g = FD_INIT /\ fopen_count g = 0 /\ fd g = Z.of_nat i2).
  { destruct HI as [opens HI]. destruct (iv_keys _ _ _ HI t2 i2 (Init t2 i2) eq_refl) as [g Hg]; [pose proof (num_nonneg (Init t2 i2) R); nums|].
    pose proof (iv_file _ _ _ HI _ _ _ Hg) as (E1 & E2 & E3). pose proof (num_nonneg (Init t2 i2) R). exists g.
    assert (Hs' : status g = FD_INIT) by (destruct (status g); [|done| |]; destruct_and!; nums). rewrite Hs' in E3. split_and!; [done|done|apply E3|done]. }
  destruct Hg as (g & Hg & Hgs & Hgc & Hgf).
  assert (Hg1 : has_file t2 i2 g s1) by (by apply (has_file_tables _ _ _ s)).
  set (g' := set_node (Some n) (set_rights (readable f) (writable f) (set_pos (pos f) g))).
  destruct (open_ok R t2 i2 g g' n s1 HI1 Hg1) as (P1 & P2 & P3); [done..|]. exists x, g. split_and!; try done.
  assert (Ed : dup_file f g = set_count (fopen_count g + 1) (set_status FD_OPENED g')) by (unfold dup_file; by rewrite Hn).
  rewrite Ed. fold s1. split; [|eapply Inv_eq; [exact P3|mset]].
  unfold filemap_dup. rewrite (get_file_ok _ _ g), (get_file_ok _ _ f), bind_check by (done || by rewrite bool_decide_eq_true).
  unfold the_node. rewrite Hn, bind_lift. unfold inode_ref_inc, inode_open_inc.
  erewrite bind_done by (rewrite (get_inode_ok _ x) by done; rewrite put_inode_ok; reflexivity).
  erewrite bind_done by (erewrite get_inode_ok by apply lookup_insert_eq; rewrite put_inode_ok; reflexivity).
  assert (Es : set_inode n {| ref_count := ref_count x + 1; open_count := open_count x + 1 |}
     (set_inode n {| ref_count := ref_count x + 1; open_count := open_count x |} s) = s1).
  { unfold s1, set_inode. cbn. by rewrite insert_insert_eq. }
  cbn [open_count ref_count]. rewrite Es. erewrite bind_done by exact P1. exact P2.
Qed.

Lemma file_dup_ok t n1 n2 F s : Inv (F ⊎ budget t) s -> ok F (file_dup t n1 n2 s)
  (fun r h s' => h = budget t /\ (r < 0 /\ s' = s \/ exists m p rd wr, open_as t n1 m p rd wr s /\ open_as t n1 m p rd wr s' /\ open_as t r m p rd wr s' /\
     r <> n1 /\ (n2 <> NO_FD -> r = n2))).
Proof.
  intros HI. unfold file_dup. eapply ok_fd2file; [exact HI| |apply (ok_ret _ (budget t)); [done|split; [done|left; split; [done|done]]]]. intros i1 f m -> Hf Hs Hm.
  assert (Eb : budget t = {[+ Proc t; Room; Room; Room +]} ⊎ {[+ Room +]}) by (unfold budget; mset).
  rewrite Eb in HI. rewrite (assoc_L _) in HI. destruct (alloc_ok _ t n2 s HI) as [(e & E & He)|(i & g & Hg & Hgs & Hc & E & HI1)].
  - apply num_in. mset.
  - eapply ok_done; [exact E|]. assert (e < 0) by (destruct He as [->|[->| ->]]; done). cbv beta iota. destruct (Z.eqb_spec e 0); [lia|]. cbn [negb].
    rewrite <- (assoc_L _), <- Eb in HI. apply (ok_ret _ (budget t)); [done|split; [done|left; split; [done|done]]].
  - eapply ok_done; [exact E|]. cbn [Z.eqb negb].
    assert (Hne : (t, i1) <> (t, i)) by (intros [= ->]; rewrite (has_file_eq _ _ _ _ _ Hf Hg) in Hs; congruence).
    assert (Hf1 : has_file t i1 f (set_file t i (set_node None (set_status FD_INIT g)) s)) by (by apply has_file_set_ne).
    destruct (filemap_dup_ok (F ⊎ {[+ Proc t; Room; Room +]}) t i1 t i f m _ ltac:(eapply Inv_eq; [exact HI1|mset]) Hf1 Hs Hm)
      as (x & g' & Hx & Hg' & _ & Hfd & Hcnt & Ed & HI2).
    eapply ok_done; [exact Ed|]. set (s2 := set_file t i (dup_file f g') _) in *. assert (Hd : has_file t i (dup_file f g') s2) by (by eapply has_file_set).
    rewrite (get_file_ok _ _ _ _ _ Hd). apply (ok_ret _ (budget t)); [eapply Inv_eq; [exact HI2|unfold budget; mset]|].
    split; [done|]. right. exists m, (pos f), (readable f), (writable f). split_and!.
    + by exists i1, f.
    + exists i1, f. split_and!; try done. apply has_file_set_ne; [done|]. by apply (has_file_tables _ _ _ (set_file t i (set_node None (set_status FD_INIT g)) s)).
    + exists i. eexists. split; [exact Hfd|]. split; [exact Hd|]. split_and!; [done|exact Hm|done..].
    + cbn. rewrite Hfd. intros ?%Nat2Z.inj. congruence.
    + intros Hn2. unfold alloc_choice in Hc. rewrite (proj2 (Z.eqb_neq _ _) Hn2) in Hc. cbn. by rewrite Hfd.
Qed.

Lemma pipe_end_ok t i n rd R s : Inv (R ⊎ {[+ Init t i; Opn n +]}) s ->
  exists s', pipe_end t i n rd s = Ok (Done tt s') /\ Inv (R ⊎ {[+ Room; Room +]}) s' /\ open_as t (Z.of_nat i) n 0 rd (negb rd) s' /\
    forall t' i' f, has_file t' i' f s -> (t', i') <> (t, i) -> has_file t' i' f s'.
Proof.
  intros HI. destruct (open_entry_ok t i (fun f => set_rights rd (negb rd) (set_pos 0 (set_node (Some n) f))) n s R HI) as (f & Hf & Efd & HI' & E & _); [done|].
  eexists. split; [exact E|]. split; [done|]. split; [exists i; eexists; split; [done|split; [exact Hf|done]]|].
  intros t' i' f' Hf' Hne. by apply has_file_set_ne.
Qed.

Lemma open_as_file t r n p rd wr s R : Inv R s -> open_as t r n p rd wr s -> exists i f, r = Z.of_nat i /\ has_file t i f s /\ fd f = r.
Proof.
  intros [opens HI] (i & f & -> & Hf & _). exists i, f. split_and!; try done. apply (iv_file _ _ _ HI _ _ _ Hf).
Qed.

Lemma file_pipe_ok t : sp (budget t) (file_pipe t)
  (fun r h s => h = budget t /\ (r.1.1 < 0 \/ exists n0 n1, r.1.1 = 0 /\ open_as t r.1.2 n0 0 true false s /\ open_as t r.2 n1 0 false true s)).
Proof.
  intros F s HI _. unfold file_pipe.
  assert (Eb : budget t = {[+ Proc t; Room; Room; Room +]} ⊎ {[+ Room +]}) by (unfold budget; mset).
  eapply (ok_alloc _ _ _ _ _ _ {[+ Proc t; Room; Room; Room +]}); [by rewrite <- Eb|mset| |].
  { intros e He. destruct (Z.eqb_spec e 0); [lia|]. cbn [negb]. apply (ok_ret _ (budget t)); [done|split; [done|by left]]. }
  intros i0 s1 _ HI1. cbn [Z.eqb negb].
  eapply (ok_alloc _ _ _ _ _ _ {[+ Proc t; Room; Room; Init t i0 +]}); [eapply Inv_eq; [exact HI1|mset]|mset| |].
  { intros e He. destruct (Z.eqb_spec e 0); [lia|]. cbn [negb].
    eapply (ok_give_up _ _ _ _ _ _ {[+ Proc t; Room; Room; Room +]}); [eapply Inv_eq; [exact HI1|mset]|]. intros s5 _. split; [by rewrite Eb|by left]. }
  intros i1 s2 _ HI2. cbn [Z.eqb negb].
  eapply (ok_bind _ {[+ Proc t; Init t i0; Init t i1 +]}); [apply vn_pipe_open|exact HI2|mset|done|].
  intros F3 [[r n0] n1] h s3 HI3 [-> Hr]. cbn [fst snd] in *. destruct (Z.eqb_spec r 0) as [->|Hr0]; cbn [negb].
  - destruct (pipe_end_ok t i0 n0 true (F3 ⊎ {[+ Proc t; Init t i1; Opn n1 +]}) s3) as (s4 & E4 & HI4 & O4 & _); [eapply Inv_eq; [exact HI3|mset]|].
    eapply ok_done; [exact E4|].
    destruct (pipe_end_ok t i1 n1 false (F3 ⊎ {[+ Proc t; Room; Room +]}) s4) as (s5 & E5 & HI5 & O5 & K5); [eapply Inv_eq; [exact HI4|mset]|].
    eapply ok_done; [exact E5|]. assert (O4' : open_as t (Z.of_nat i0) n0 0 true false s5).
    { destruct O4 as (j & f & ->%Nat2Z.inj & Hf & Ho). exists j, f. split_and!; [done|apply K5; [done|]|apply Ho..]. intros [= ->].
      destruct HI4 as [opens HI4]. pose proof (iv_file _ _ _ HI4 _ _ _ Hf) as (_ & _ & E). destruct Ho as (Ho & _). rewrite Ho in E.
      destruct E as (E & _). pose proof (num_nonneg (Init t i1) F3). nums. }
    destruct (open_as_file _ _ _ _ _ _ _ _ HI5 O4') as (j0 & f0 & ->%Nat2Z.inj & Hf0 & Efd0). destruct (open_as_file _ _ _ _ _ _ _ _ HI5 O5) as (j1 & f1 & ->%Nat2Z.inj & Hf1 & Efd1).
    rewrite (get_file_ok _ _ f0), (get_file_ok _ _ f1) by done. apply (ok_ret _ (budget t)); [eapply Inv_eq; [exact HI5|unfold budget; mset]|].
    split; [done|]. right. exists n0, n1. cbn [fst snd]. by rewrite Efd0, Efd1.
  - destruct (free_init_ok (F3 ⊎ {[+ Proc t; Room; Room; Init t i1 +]}) t i0 s3) as (f & Hf & Hs & E & HI4); [eapply Inv_eq; [exact HI3|mset]|].
    eapply ok_done; [exact E|]. eapply (ok_give_up _ _ _ _ _ _ {[+ Proc t; Room; Room; Room +]}); [eapply Inv_eq; [exact HI4|mset]|].
    intros s5 _. split; [by rewrite Eb|left; cbn; lia].
Qed.

Lemma file_mkfifo_ok t dr dw name mem flags : sp (budget t) (file_mkfifo t dr dw name mem flags)
  (fun r h s => h = budget t /\ (r < 0 \/ exists n, let rd := Z.land flags O_ACCMODE =? O_RDONLY in open_as t r n 0 rd (negb rd) s)).
Proof.
  intros F s HI _. unfold file_mkfifo. case_match; [apply (ok_ret _ (budget t)); [done|split; [done|by left]]|].
  assert (Eb : budget t = {[+ Proc t; Room; Room; Room +]} ⊎ {[+ Room +]}) by (unfold budget; mset).
  eapply (ok_alloc _ _ _ _ _ _ {[+ Proc t; Room; Room; Room +]}); [by rewrite <- Eb|mset| |].
  { intros e He. destruct (Z.eqb_spec e 0); [lia|]. cbn [negb]. apply (ok_ret _ (budget t)); [done|split; [done|by left]]. }
  intros i s1 _ HI1. cbn [Z.eqb negb]. destruct mem; cbn [negb].
  2: { eapply (ok_give_up _ _ _ _ _ _ {[+ Proc t; Room; Room; Room +]}); [exact HI1|]. intros s5 _. split; [by rewrite Eb|by left]. }
  eapply (ok_bind _ ({[+ Proc t; Room +]} ⊎ {[+ Init t i +]})); [apply vfs_open_ok|exact HI1|mset|done|].
  intros F2 [r n] h s2 HI2 [-> Hr]. cbn [fst snd] in *. unfold gives in HI2. destruct (Z.eqb_spec r 0) as [->|Hr0]; cbn [negb].
  - destruct (pipe_end_ok t i n (Z.land flags O_ACCMODE =? O_RDONLY) (F2 ⊎ {[+ Proc t; Room; Room +]}) s2) as (s3 & E3 & HI3 & O3 & _);
      [eapply Inv_eq; [exact HI2|mset]|]. eapply ok_done; [exact E3|].
    destruct (open_as_file _ _ _ _ _ _ _ _ HI3 O3) as (j & f & ->%Nat2Z.inj & Hf & Efd). rewrite (get_file_ok _ _ f) by done.
    apply (ok_ret _ (budget t)); [eapply Inv_eq; [exact HI3|unfold budget; mset]|]. split; [done|]. right. exists n. by rewrite Efd.
  - eapply (ok_give_up _ _ _ _ _ _ {[+ Proc t; Room; Room; Room +]}); [eapply Inv_eq; [exact HI2|mset]|].
    intros s5 _. split; [by rewrite Eb|left; lia].
Qed.


End Calls.
