(* ===== verification/FileTabs.v ===== *)
(** * FileTabs: tables of open files over the life of a process

    Creating, copying, sharing and destroying a table ([fs_create], [dup_fs],
    [fs_destroy], [fs_closeall] of fs/fs.c, [copy_fs] and [put_fs] of
    process/proc.c), among other processes. *)
From stdpp Require Import gmultiset.
From S2P Require Import Prelude KState Sched Resume Sleep Uaccess Iobuf File FileSafe.

(** The keys of the entries [l] of a table. *)
Definition keys_of (k : nat -> key) (l : list nat) : held := list_to_set_disj (k <$> l).

Lemma keys_of_app k l l' : keys_of k (l ++ l') = keys_of k l ⊎ keys_of k l'.
Proof. unfold keys_of. by rewrite fmap_app, list_to_set_disj_app. Qed.

Lemma keys_of_cons k i l : keys_of k (i :: l) = {[+ k i +]} ⊎ keys_of k l.
Proof. done. Qed.

Lemma keys_of_size k l : size (keys_of k l) = length l.
Proof. induction l as [|i l IH]; [done|]. rewrite keys_of_cons, held_union, held_single, IH. done. Qed.

Lemma keys_of_in k l i : i ∈ l -> k i ∈ keys_of k l.
Proof. intros H. unfold keys_of. apply elem_of_list_to_set_disj, list_elem_of_fmap. eauto. Qed.

Lemma num_keys_of k l x : (forall i, k i <> x) -> num x (keys_of k l) = 0.
Proof. intros H. induction l as [|i l IH]; [done|]. rewrite keys_of_cons. nums. by destruct (H i). Qed.

Section Tabs.
Context `{OK : VnodesOk}.
Notation S := (fsys FS).
Implicit Types (s : S) (R F h : held).

Definition fds (n i : nat) : list nat := seq i n.
Definition all_fds : list nat := fds NFD 0.

(** ** Closing the entries of a shared table *)

Lemma table_file R t x i s : Inv R s -> tables s !! t = Some x -> (i < NFD)%nat -> exists f, has_file t i f s.
Proof.
  intros [opens HI] Hx Hi. destruct (lookup_lt_is_Some_2 (filemap x) i) as [f Hf]; [by rewrite (iv_len _ _ _ HI _ _ Hx)|]. exists f. by exists x.
Qed.

Lemma close_each_shared_ok t n i : (i + n <= NFD)%nat -> sp (budget t) (close_each t n i false) (fine t).
Proof.
  revert i. induction n as [|n IH]; intros i Hi; [by apply sp_ret|]. intros F s HI _. cbn [close_each].
  assert (Hg : forall F s, Inv (F ⊎ budget t) s -> exists f, has_file t i f s).
  { intros F' s' HI'. destruct (proc_table _ t s' HI' (proc_budget t F')) as (x & Hx & _ & Hl). eapply table_file; [exact HI'|exact Hx|lia]. }
  destruct (Hg F s HI) as [f Hf]. rewrite (get_file_ok _ _ f) by done.
  eapply (ok_bind (fun s => status f = FD_OPENED -> opened t i s) ∅ (budget t) _ _ _ (fine t)); [|exact HI|mset|by exists f|].
  { intros F1 s1 HI1 Ho. case_decide as Hs; [|by apply (ok_ret _ (budget t))].
    eapply (ok_last (opened t i) {[+ Room; Room +]}); [apply close_ok|exact HI1|unfold budget; mset|by apply Ho|].
    intros a h s' ->. unfold fine, budget. mset. }
  intros F1 _ h s1 HI1 ->. rewrite (left_id_L ∅ _) in HI1. destruct (Hg F1 s1 HI1) as [g Hg1]. rewrite (get_file_ok _ _ g), bind_check by done.
  apply IH; [lia|done|done].
Qed.

Lemma fs_closeall_ok t : sp (budget t) (fs_closeall t) (fine t).
Proof.
  intros F s HI _. destruct (proc_table _ t s HI (proc_budget t F)) as (x & Hx & Hc & _). unfold fs_closeall, table_of, ask.
  unfold bind at 1. rewrite (fetch_ok _ _ _ Hx). cbn [res_bind run_bind]. rewrite bind_check by (by apply Z.ltb_lt).
  apply close_each_shared_ok; [vm_compute; lia|done|done].
Qed.

(** ** Destroying a table *)

Lemma set_file_same t i f s : has_file t i f s -> tables (set_file t i f s) = tables s.
Proof.
  intros (x & Hx & Hf). apply map_eq. intros t'. unfold set_file. cbn. destruct (decide (t' = t)) as [->|]; [|by rewrite lookup_alter_ne].
  rewrite lookup_alter_eq, Hx. cbn. rewrite list_insert_id by done. by destruct x.
Qed.

(** The state stays, but the keys for an entry change. *)
Lemma rekey opens R R' s t i f :
  Inv_at opens R s -> has_file t i f s ->
  (forall k, entry_of k <> Some (t, i) -> k <> Room -> num k R' = num k R) ->
  entry_ok R' (opens !! (t, i)) t i f -> (0 < num (Ent t i) R' + num (Gone t i) R' -> 0 < num (Last t) R) -> (size R' <= size R)%nat -> Inv R' s.
Proof.
  intros HI Hf Hk He HL Hs. apply (Inv_under R' (set_file t i f s)); [by rewrite set_file_same|done|].
  eapply entry_step; [exact HI|exact Hf|auto| | |exact He|done|done].
  - intros n. by rewrite Hk.
  - intros n. by rewrite Hk.
Qed.

Lemma owned_table R t s : Inv R s -> 0 < num (Last t) R -> exists x, tables s !! t = Some x /\ fs_count x = 0.
Proof.
  intros [opens HI] Hl. destruct (iv_last _ _ _ HI t Hl) as [_ Hp]. destruct (tables s !! t) as [x|] eqn:E; [|destruct (iv_none _ _ _ HI t E); lia].
  exists x. split; [done|]. by rewrite (iv_count _ _ _ HI t x E).
Qed.

(** An entry of the table is open and nobody uses it. *)
Lemma close_own_ok t i l : 0 < num (Last t) l ->
  sp_when (opened t i) (l ⊎ {[+ Ent t i; Room +]}) (filemap_close t i)
    (fun _ h s => h = l ⊎ {[+ Gone t i; Room +]} /\ exists f, has_file t i f s /\ status f = FD_NONE).
Proof.
  intros Hl F s [opens HI] (f & Hf & Hs). pose proof (iv_file _ _ _ HI _ _ _ Hf) as (E1 & E2 & E3). rewrite Hs in E3.
  destruct E3 as (E3 & E4 & n & Eo & En & Ec & E5 & E6). assert (Ht : num (Tok t i n) (F ⊎ (l ⊎ {[+ Ent t i; Room +]})) = 0) by nums.
  rewrite Ht in Ec. set (f' := set_count (fopen_count f - 1) (set_status FD_CLOSED f)).
  assert (HI1 : Inv (F ⊎ (l ⊎ {[+ Closing t i; Opn n +]})) (set_file t i f' s)).
  { eapply (entry_step opens _ _ s t i f f' None); [exact HI|exact Hf|nums|nums|rewrite Eo; nums| |nums|nums].
    split_and!; [done|intros m Hm|subst f'; cbn [status set_count set_status]; split_and!; nums].
    exfalso. assert (Hm' : 0 < num (Tok t i m) (F ⊎ (l ⊎ {[+ Ent t i; Room +]}))) by (revert Hm; nums). pose proof (E2 m Hm') as Em. assert (m = n) as -> by congruence. lia. }
  unfold filemap_close. rewrite (get_file_ok _ _ f), bind_check by (done || by rewrite bool_decide_eq_true).
  rewrite bind_check by (apply Z.ltb_lt; lia). erewrite bind_done by (by eapply put_file_ok). fold f'. rewrite (proj2 (Z.eqb_eq _ _)) by lia.
  eapply (free_closed_ok l t i n (Gone t i)); [by right|exact HI1|]. exists f'. split_and!; [by eapply has_file_set|done|cbn; lia|done].
Qed.

Lemma close_step_ok t i l f : 0 < num (Last t) l ->
  sp_when (has_file t i f) (l ⊎ {[+ Ent t i; Room +]}) (if decide (status f = FD_OPENED) then filemap_close t i else ret tt)
    (fun _ h s => h = l ⊎ {[+ Gone t i; Room +]} /\ exists f, has_file t i f s /\ status f = FD_NONE).
Proof.
  intros Hl F s HI Hf. case_decide as Hs; [apply close_own_ok; [done|done|by exists f]|].
  destruct HI as [opens HI]. pose proof (iv_file _ _ _ HI _ _ _ Hf) as (E1 & E2 & E3).
  assert (Hn : status f = FD_NONE) by (destruct (status f); [done| |done|]; destruct_and!; nums). rewrite Hn in E3. destruct E3 as (Eo & E3 & E4 & E5 & E6).
  apply (ok_ret _ (l ⊎ {[+ Gone t i; Room +]})); [|split; [done|by exists f]].
  eapply (rekey opens); [exact HI|exact Hf|nums| |nums|nums]. split_and!; [done| |rewrite Hn; split_and!; nums].
  intros m Hm. apply E2. revert Hm. nums.
Qed.

Lemma close_each_own_ok t l n i : 0 < num (Last t) l ->
  sp (l ⊎ {[+ Room +]} ⊎ keys_of (Ent t) (fds n i)) (close_each t n i true) (fun _ h _ => h = l ⊎ {[+ Room +]} ⊎ keys_of (Gone t) (fds n i)).
Proof.
  revert i l. induction n as [|n IH]; intros i l Hl; [by apply sp_ret|]. intros F s HI _. cbn [close_each fds seq] in *. rewrite keys_of_cons in HI.
  assert (exists f, has_file t i f s) as [f Hf].
  { destruct HI as [opens HI]. apply (iv_keys _ _ _ HI t i (Ent t i) eq_refl), num_in. mset. }
  rewrite (get_file_ok _ _ f) by done.
  eapply (ok_bind (has_file t i f) (keys_of (Ent t) (seq (Datatypes.S i) n))); [by apply close_step_ok|exact HI|mset|done|].
  intros F1 _ h s1 HI1 [-> (g & Hg & Hs)]. rewrite (get_file_ok _ _ g), bind_check by (done || by apply bool_decide_eq_true_2).
  eapply (ok_last _ ∅); [apply (IH (Datatypes.S i) (l ⊎ {[+ Gone t i +]}))|exact HI1| |done|].
  - pose proof (num_nonneg (Last t) ({[+ Gone t i +]} : held)). rewrite num_union. lia.
  - unfold fds. mset.
  - intros _ h s' ->. unfold fds. cbn [seq]. rewrite keys_of_cons. mset.
Qed.

(** The table goes, when all of its entries are the process's own and not in
    use. *)
Definition drop_table (t : Z) s : S := mk_fsys (delete t (tables s)) (inodes s) (under s).

Lemma drop_table_ok R t s : Inv (R ⊎ ({[+ Last t +]} ⊎ keys_of (Gone t) all_fds)) s -> Inv R (drop_table t s).
Proof.
  set (R0 := R ⊎ ({[+ Last t +]} ⊎ keys_of (Gone t) all_fds)). intros [opens HI]. exists opens.
  assert (Hk : forall k, (forall i, k <> Gone t i) -> k <> Last t -> num k R0 = num k R).
  { intros k H1 H2. subst R0. rewrite !num_union, num_single, decide_False by done. rewrite num_keys_of by naive_solver. lia. }
  assert (Hle : forall k, num k R <= num k R0) by (intros k; subst R0; rewrite num_union; pose proof (num_nonneg k ({[+ Last t +]} ⊎ keys_of (Gone t) all_fds)); lia).
  assert (Hlast : num (Last t) R = 0 /\ num (Proc t) R = 0).
  { assert (E : num (Last t) R0 = num (Last t) R + 1) by (subst R0; rewrite !num_union, num_single, decide_True, num_keys_of by done; lia).
    pose proof (num_nonneg (Last t) R). destruct (iv_last _ _ _ HI t) as [E1 E2]; [lia|]. rewrite <- (Hk (Proc t)) by done. lia. }
  assert (Hgone : forall i f, has_file t i f s -> opens !! (t, i) = None /\ forall k, entry_of k = Some (t, i) -> num k R = 0).
  { intros i f Hf. assert (Hi : (i < NFD)%nat) by (destruct Hf as (x & Hx & Hl%lookup_lt_Some); by rewrite (iv_len _ _ _ HI _ _ Hx) in Hl).
    pose proof (iv_file _ _ _ HI _ _ _ Hf) as (_ & E2 & E3).
    assert (Eg : num (Gone t i) R + 1 <= num (Gone t i) R0).
    { subst R0. rewrite !num_union. assert (Hin : Gone t i ∈ keys_of (Gone t) all_fds) by (apply keys_of_in, elem_of_seq; lia).
      rewrite elem_of_multiplicity in Hin. unfold num. lia. }
    pose proof (num_nonneg (Gone t i) R). pose proof (num_nonneg (Ent t i) R0).
    assert (Hn : status f = FD_NONE) by (destruct (status f); [done| | |]; [lia|destruct E3 as (_ & _ & ? & E3); lia|lia]). rewrite Hn in E3.
    destruct E3 as (Eo & _ & E4 & E5 & E6). split; [done|]. intros k Ek. pose proof (num_nonneg k R). pose proof (Hle k).
    destruct k as [t' i' n| | | | | | | | | ]; cbn [entry_of] in Ek; (discriminate Ek || injection Ek as -> ->); try lia.
    destruct (decide (0 < num (Tok t i n) R0)) as [Hp|]; [|lia]. apply E2 in Hp. congruence. }
  assert (Hh : forall t' i f, has_file t' i f (drop_table t s) <-> t' <> t /\ has_file t' i f s).
  { intros t' i f. unfold has_file, drop_table. cbn. split.
    - intros (x & [Hne Hx]%lookup_delete_Some & Hf). split; [done|by exists x].
    - intros [Hne (x & Hx & Hf)]. exists x. by rewrite lookup_delete_ne. }
  assert (Hk' : forall t' k, t' <> t -> entry_of k = None \/ (exists i, entry_of k = Some (t', i)) -> k <> Last t -> num k R = num k R0).
  { intros t' k Hne He Hl. symmetry. apply Hk; [|done]. intros i ->. destruct He as [|[? [= ]]]; done. }
  destruct (tables s !! t) as [x0|] eqn:Ex0; [|destruct (iv_none _ _ _ HI t Ex0) as [_ E]; subst R0; nums].
  split; cbn [drop_table tables inodes].
  - intros t' x [Hne Hx]%lookup_delete_Some. by eapply iv_len.
  - intros t' x [Hne Hx]%lookup_delete_Some. rewrite (Hk' t' (Proc t')) by naive_solver. by eapply iv_count.
  - intros t' [->|Hx]%lookup_delete_None; [lia|]. destruct (decide (t' = t)) as [->|Hne]; [lia|].
    rewrite (Hk' t' (Proc t')), (Hk' t' (Last t')) by (naive_solver congruence). by eapply iv_none.
  - intros t'. destruct (decide (t' = t)) as [->|Hne]; [lia|]. rewrite (Hk' t' (Proc t')), (Hk' t' (Last t')) by naive_solver. by eapply iv_last.
  - intros t' i. destruct (decide (t' = t)) as [->|Hne].
    + intros Hp. exfalso. destruct (iv_keys _ _ _ HI t i (if decide (0 < num (Ent t i) R) then Ent t i else Gone t i)) as [f Hf];
        [by case_decide|pose proof (Hle (Ent t i)); pose proof (Hle (Gone t i)); case_decide; lia|].
      destruct (Hgone i f Hf) as [_ E]. rewrite !E in Hp by done. lia.
    + rewrite (Hk' t' (Ent t' i)), (Hk' t' (Gone t' i)), (Hk' t' (Last t')) by naive_solver. by eapply iv_ent.
  - intros t' i f [Hne Hf]%Hh. apply (entry_ok_ext R0); [|by eapply iv_file]. intros k Ek. apply (Hk' t'); [done|eauto|by intros ->].
  - intros t' i n Hn. destruct (iv_dom _ _ _ HI _ _ _ Hn) as [f Hf]. destruct (decide (t' = t)) as [->|Hne]; [|exists f; by apply Hh].
    destruct (Hgone i f Hf) as [E _]. congruence.
  - intros t' i k Ek Hp. destruct (iv_keys _ _ _ HI t' i k Ek) as [f Hf]; [pose proof (Hle k); lia|].
    destruct (decide (t' = t)) as [->|Hne]; [|exists f; by apply Hh]. destruct (Hgone i f Hf) as [_ E]. rewrite E in Hp by done. lia.
  - intros n. pose proof (iv_inodes _ _ _ HI n) as E. by rewrite (Hk (Ref n)), (Hk (Opn n)) in E by done.
  - pose proof (iv_room _ _ _ HI) as E. subst R0. unfold drop_table. cbn [tables]. rewrite dom_delete_L.
    assert (size (dom (tables s) ∖ {[t]}) <= size (dom (tables s)))%nat by (apply subseteq_size; set_solver).
    rewrite !held_union, held_single in E. nia.
Qed.

(** What the last process of a table has. *)
Definition own_table (t : Z) : held := {[+ Last t +]} ⊎ keys_of (Ent t) all_fds.
Definition ref_of (o : option Z) : held := match o with Some n => {[+ Ref n +]} | None => ∅ end.
Definition room_of (o : option Z) : held := match o with Some _ => {[+ Room +]} | None => ∅ end.

Lemma fs_destroy_ok t p : sp_when (fun s => exists x, tables s !! t = Some x /\ pwd x = p) (own_table t ⊎ {[+ Room +]} ⊎ ref_of p) (fs_destroy t)
  (fun _ h s => h = {[+ Room +]} ⊎ room_of p /\ tables s !! t = None).
Proof.
  intros F s HI (x & Hx & Hp). destruct (owned_table _ t s HI) as (x' & Hx' & Hc); [apply num_in; unfold own_table; generalize (keys_of (Ent t) all_fds); mset|].
  assert (x' = x) as -> by congruence. unfold fs_destroy, table_of, ask. unfold bind at 1. rewrite (fetch_ok _ _ _ Hx). cbn [res_bind run_bind].
  rewrite bind_check by (by apply Z.eqb_eq). rewrite Hp.
  eapply (ok_bind (fun _ => True) (own_table t ⊎ {[+ Room +]}) (ref_of p) _ _ _ (fun _ h _ => h = room_of p)); [|exact HI|done|done|].
  { destruct p as [n|]; [|by apply sp_ret]. intros F1 s1 HI1 _. eapply (ok_bind _ ∅); [apply inode_ref_dec_ok|exact HI1|unfold ref_of; mset|done|].
    intros F2 ? h s2 HI2 ->. eapply ok_ret; [exact HI2|unfold room_of; mset]. }
  intros F1 _ h s1 HI1 ->. eapply (ok_bind _ (room_of p)); [apply (close_each_own_ok t {[+ Last t +]})|exact HI1| |done|].
  - nums.
  - change (fds (Z.to_nat FS_STRUCT_NENTRY) 0) with all_fds. unfold own_table. generalize (keys_of (Ent t) all_fds) (room_of p). intros. mset.
  - intros F2 _ h s2 HI2 ->. exists ({[+ Room +]} ⊎ room_of p). split; [|split; [done|apply lookup_delete_eq]].
    apply drop_table_ok. eapply Inv_eq; [exact HI2|]. change (fds (Z.to_nat FS_STRUCT_NENTRY) 0) with all_fds.
    generalize (keys_of (Gone t) all_fds) (room_of p). intros. mset.
Qed.

(** ** Copying a table *)

(** The working directory and the number of processes of a table. *)
Definition top (x : fs_struct) : option Z * Z := (pwd x, fs_count x).
Definition same_tops s s' : Prop := forall t, top <$> tables s' !! t = top <$> tables s !! t.

Lemma set_file_top t i f s : same_tops s (set_file t i f s).
Proof.
  intros t'. unfold set_file. cbn. destruct (decide (t' = t)) as [->|]; [|by rewrite lookup_alter_ne].
  rewrite lookup_alter_eq. by destruct (tables s !! t).
Qed.

(** The copy [g] of an entry [f]: only open entries are copied. *)
Definition copied (f g : file) : Prop :=
  if decide (status f = FD_OPENED) then
    status g = FD_OPENED /\ node g = node f /\ pos g = pos f /\ readable g = readable f /\ writable g = writable f /\ fopen_count g = 1
  else status g = FD_NONE.

Lemma dup_entry_ok R t1 t2 i f g s :
  Inv (R ⊎ {[+ Ent t2 i; Room +]}) s -> 0 < num (Last t2) R -> t1 <> t2 ->
  has_file t1 i f s -> status f = FD_OPENED -> has_file t2 i g s -> status g = FD_NONE ->
  exists s' g', (do g <- get_file t2 i; do_ put_file t2 i (set_status FD_INIT g); filemap_dup t2 i t1 i) s = Ok (Done tt s') /\
    Inv (R ⊎ {[+ Ent t2 i; Room +]}) s' /\ has_file t2 i g' s' /\ copied f g' /\ same_tops s s' /\
    forall t j f', (t, j) <> (t2, i) -> has_file t j f' s' <-> has_file t j f' s.
Proof.
  intros HI Hl Hne Hf Hs Hg Hgs. rewrite (get_file_ok _ _ g) by done. set (g0 := set_status FD_INIT g). set (s0 := set_file t2 i g0 s).
  assert (HI0 : Inv (R ⊎ {[+ Init t2 i; Room +]}) s0).
  { destruct HI as [opens HI]. pose proof (iv_file _ _ _ HI _ _ _ Hg) as (E1 & E2 & E3). rewrite Hgs in E3. destruct E3 as (Eo & E3 & E4 & E5 & E6).
    eapply (entry_step opens _ _ s t2 i g g0 None); [exact HI|exact Hg|nums|nums|rewrite Eo; nums| |nums|nums].
    split_and!; [done| |subst g0; cbn [status set_status]; split_and!; nums]. intros m Hm. rewrite <- Eo. apply E2. revert Hm. nums. }
  assert (Hf0 : has_file t1 i f s0) by (apply has_file_set_ne; [congruence|done]). assert (exists n, node f = Some n) as [n Hn].
  { destruct HI as [opens HI]. pose proof (iv_file _ _ _ HI _ _ _ Hf) as (_ & _ & E3). rewrite Hs in E3. naive_solver. }
  destruct (filemap_dup_ok R t1 i t2 i f n s0 HI0 Hf0 Hs Hn) as (x & g1 & Hx & Hg1 & Hg1s & Hg1f & Hg1c & E & HI1).
  eexists _, (dup_file f g1). split; [erewrite bind_done by (by eapply put_file_ok); exact E|].
  set (s1 := set_file t2 i (dup_file f g1) _) in *. assert (Hd : has_file t2 i (dup_file f g1) s1) by (by eapply has_file_set).
  split; [|split; [done|split; [|split]]].
  - assert (He : num (Ent t2 i) R + num (Gone t2 i) R = 0).
    { destruct HI0 as [opens HI0]. pose proof (iv_file _ _ _ HI0 _ _ _ Hg1) as (_ & _ & E3). rewrite Hg1s in E3. destruct_and! E3. nums. }
    destruct HI1 as [opens HI1]. pose proof (iv_file _ _ _ HI1 _ _ _ Hd) as (E1 & E2 & E3). cbn [status dup_file set_count set_status] in E3.
    destruct E3 as (E3 & E4 & m & Eo & Em & Ec & E5 & E6). cbn [fopen_count dup_file set_count] in Ec. rewrite Hg1c in Ec.
    eapply (rekey opens); [exact HI1|exact Hd|nums| |nums|nums].
    split_and!; [done|intros m' Hm'; apply E2; revert Hm'; nums|cbn [status dup_file set_count set_status]; split_and!; [nums|nums|]].
    exists m. cbn [fopen_count dup_file set_count]. rewrite Hg1c. split_and!; [done|done|nums|nums|nums].
  - unfold copied. rewrite decide_True by done. cbn. by rewrite Hg1c.
  - intros t. unfold s1. rewrite (set_file_top t2 i _ _ t). cbn [set_inode tables]. apply set_file_top.
  - intros t j f' Hne'. unfold s1. rewrite (has_file_set_ne _ _ _ _ _ _ _ Hne').
    assert (Hq : forall a, has_file t j f' (set_inode n a s0) <-> has_file t j f' s0) by (intros a; split; by apply has_file_tables).
    rewrite Hq. by apply has_file_set_ne.
Qed.

Lemma dup_each_ok t1 t2 n i R s x1 :
  Inv (R ⊎ keys_of (Ent t2) (fds n i) ⊎ {[+ Room +]}) s -> 0 < num (Last t2) R -> t1 <> t2 -> (i + n <= NFD)%nat -> tables s !! t1 = Some x1 ->
  (forall j g, (i <= j)%nat -> has_file t2 j g s -> status g = FD_NONE) ->
  exists s', dup_each t2 t1 n i s = Ok (Done tt s') /\ Inv (R ⊎ keys_of (Ent t2) (fds n i) ⊎ {[+ Room +]}) s' /\ same_tops s s' /\
    (forall t j f, t <> t2 \/ (j < i)%nat -> has_file t j f s' <-> has_file t j f s) /\
    (forall j f, (i <= j < i + n)%nat -> has_file t1 j f s -> exists g, has_file t2 j g s' /\ copied f g).
Proof.
  revert i R s x1. induction n as [|n IH]; intros i R s x1 HI Hl Hne Hi Hx1 Hno.
  { exists s. split_and!; [done|done|done|done|intros; lia]. }
  cbn [dup_each fds seq] in *. rewrite keys_of_cons in *. fold (fds n (Datatypes.S i)) in *. set (E := keys_of (Ent t2) (fds n (Datatypes.S i))) in *.
  destruct (table_file _ t1 x1 i s HI Hx1) as [f Hf]; [lia|]. rewrite (get_file_ok _ _ f) by done.
  assert (exists g, has_file t2 i g s) as [g Hg].
  { destruct HI as [opens HI]. apply (iv_keys _ _ _ HI t2 i (Ent t2 i) eq_refl). clear. nums. }
  pose proof (Hno i g (le_n i) Hg) as Hgs.
  assert (Hstep : exists s1 g1, (if decide (status f = FD_OPENED) then do g <- get_file t2 i; do_ put_file t2 i (set_status FD_INIT g); filemap_dup t2 i t1 i else ret tt) s
      = Ok (Done tt s1) /\ Inv (R ⊎ E ⊎ {[+ Ent t2 i; Room +]}) s1 /\ has_file t2 i g1 s1 /\ copied f g1 /\ same_tops s s1 /\
      forall t j f', (t, j) <> (t2, i) -> has_file t j f' s1 <-> has_file t j f' s).
  { assert (HI0 : Inv (R ⊎ E ⊎ {[+ Ent t2 i; Room +]}) s) by (eapply Inv_eq; [exact HI|mset]). case_decide as Hs.
    - eapply dup_entry_ok; try done. rewrite num_union. unfold num in *. lia.
    - exists s, g. unfold copied. rewrite decide_False by done. by split_and!. }
  destruct Hstep as (s1 & g1 & E1 & HI1 & Hg1 & Hc1 & T1 & F1). erewrite bind_done by exact E1.
  assert (exists y1, tables s1 !! t1 = Some y1) as [y1 Hy1].
  { specialize (T1 t1). rewrite Hx1 in T1. destruct (tables s1 !! t1) as [y|]; [by exists y|done]. }
  destruct (IH (Datatypes.S i) (R ⊎ {[+ Ent t2 i +]}) s1 y1) as (s' & E' & HI' & T' & F' & C').
  - eapply Inv_eq; [exact HI1|fold E; mset].
  - rewrite num_union. unfold num in *. lia.
  - done.
  - lia.
  - done.
  - intros j g' Hj Hg'. apply F1 in Hg'; [|intros [=]; lia]. eapply Hno; [|done]. lia.
  - exists s'. split; [done|]. split; [eapply Inv_eq; [exact HI'|fold E; mset]|]. split_and!.
    + intros t. by rewrite T', T1.
    + intros t j f' Hj. rewrite F', F1; [done|intros [=]; destruct Hj; [done|lia]|destruct Hj; [by left|right; lia]].
    + intros j f' Hj Hf'. destruct (decide (j = i)) as [->|Hd].
      * exists g1. rewrite (has_file_eq _ _ _ _ _ Hf' Hf). split; [|done]. apply F'; [right; lia|done].
      * apply C'; [lia|]. apply F1; [congruence|done].
Qed.

(** The processes of a table change; its entries stay. *)
Definition set_table (t : Z) (x : fs_struct) s : S := mk_fsys (<[t := x]> (tables s)) (inodes s) (under s).

Lemma has_file_set_table t x x' t' i f s : tables s !! t = Some x -> filemap x' = filemap x -> has_file t' i f (set_table t x' s) <-> has_file t' i f s.
Proof.
  intros Hx Ef. unfold has_file, set_table. cbn. destruct (decide (t' = t)) as [->|]; [|by rewrite lookup_insert_ne].
  rewrite lookup_insert_eq, Hx. split; intros (y & [= <-] & Hf); eexists; (split; [done|]); congruence.
Qed.

Lemma table_step R R' t x x' s :
  Inv R s -> tables s !! t = Some x -> filemap x' = filemap x -> fs_count x' = num (Proc t) R' ->
  (forall k, (forall i, k <> Ent t i) -> k <> Proc t -> k <> Last t -> k <> Room -> num k R' = num k R) ->
  (forall i, num (Ent t i) R' <= num (Ent t i) R) ->
  (0 < num (Last t) R' -> num (Last t) R' = 1 /\ num (Proc t) R' = 0) ->
  (forall i, 0 < num (Ent t i) R' + num (Gone t i) R' -> 0 < num (Last t) R') -> (size R' <= size R)%nat ->
  Inv R' (set_table t x' s).
Proof.
  intros [opens HI] Hx Ef Ec Hk He Hl Hg Hs. exists opens.
  assert (Hh : forall t' i f, has_file t' i f (set_table t x' s) <-> has_file t' i f s) by (intros; by eapply has_file_set_table).
  split; cbn [set_table tables inodes].
  - intros t' y Hy. destruct (decide (t' = t)) as [->|]; [rewrite lookup_insert_eq in Hy; injection Hy as <-; rewrite Ef|rewrite lookup_insert_ne in Hy by done];
      by eapply iv_len.
  - intros t' y Hy. destruct (decide (t' = t)) as [->|]; [rewrite lookup_insert_eq in Hy; by injection Hy as <-|rewrite lookup_insert_ne in Hy by done].
    rewrite Hk by congruence. by eapply iv_count.
  - intros t' [Hy Hne]%lookup_insert_None. rewrite !Hk by congruence. by eapply iv_none.
  - intros t'. destruct (decide (t' = t)) as [->|]; [done|]. rewrite !Hk by congruence. by eapply iv_last.
  - intros t' i. destruct (decide (t' = t)) as [->|]; [by apply Hg|]. rewrite !Hk by congruence. by eapply iv_ent.
  - intros t' i f Hf%Hh. pose proof (iv_file _ _ _ HI _ _ _ Hf) as E. destruct (decide (t' = t)) as [->|Hne].
    + destruct E as (E1 & E2 & E3). pose proof (He i) as He'. pose proof (num_nonneg (Ent t i) R') as Hp. split; [done|].
      split; [intros n; rewrite Hk by congruence; apply E2|].
      destruct (status f); rewrite !(Hk (Init _ _)), ?(Hk (Closing _ _)), ?(Hk (Gone _ _)) by congruence; pose proof (num_nonneg (Gone t i) R).
      * split_and!; (apply E3 || lia).
      * split_and!; (apply E3 || lia).
      * destruct E3 as (E3 & E4 & n & E5 & E6 & E7 & E8 & E9). split_and!; [done..|]. exists n. rewrite !(Hk (Tok _ _ _)) by congruence. split_and!; (done || lia).
      * destruct E3 as (E3 & E4 & E5). split_and!; [done|lia|]. destruct (opens !! (t, i)) as [n|]; [rewrite !(Hk (Tok _ _ _)) by congruence|]; done.
    + apply (entry_ok_ext R); [|done]. intros k Ek. apply Hk; [intros j ->; by injection Ek|by intros ->..].
  - intros t' i n Hn. destruct (iv_dom _ _ _ HI _ _ _ Hn) as [f Hf]. exists f. by apply Hh.
  - intros t' i k Ek Hp. destruct (iv_keys _ _ _ HI t' i k Ek) as [f Hf]; [|exists f; by apply Hh].
    destruct (decide (k = Ent t i)) as [->|Hne]; [pose proof (He i); lia|]. rewrite Hk in Hp; [done|intros j ->; injection Ek as -> ->; done|by intros ->..].
  - intros n. pose proof (iv_inodes _ _ _ HI n) as E. by rewrite !(Hk (Ref n)), !(Hk (Opn n)) by congruence.
  - rewrite dom_insert_L. assert (Ed : {[t]} ∪ dom (tables s) = dom (tables s)) by (apply elem_of_dom_2 in Hx; set_solver). rewrite Ed.
    pose proof (iv_room _ _ _ HI). lia.
Qed.

(** A new table. *)
Lemma filemap_init_lookup i f : filemap_init !! i = Some f -> (i < NFD)%nat /\ f = blank_file (Z.of_nat i).
Proof.
  unfold filemap_init. rewrite list_lookup_fmap. fold NFD. destruct (seq 0 NFD !! i) as [j|] eqn:E; [|done].
  apply lookup_seq in E as [-> Hi]. by intros [= <-].
Qed.

Lemma num_keys_all k i : Inj (=) (=) k -> (i < NFD)%nat -> num (k i) (keys_of k all_fds) = 1.
Proof.
  intros Hk Hi. unfold all_fds, fds. replace NFD with (i + Datatypes.S (NFD - i - 1))%nat by lia. rewrite seq_app, keys_of_app. cbn [seq]. rewrite keys_of_cons.
  assert (Hz : forall l, i ∉ l -> num (k i) (keys_of k l) = 0).
  { induction l as [|j l IH]; [done|]. intros Hn. rewrite keys_of_cons. rewrite num_union, num_single, IH by set_solver.
    rewrite decide_False; [done|]. intros ->%(inj k). set_solver. }
  rewrite !num_union, num_single, decide_True by done. rewrite !Hz; [done|rewrite elem_of_seq; lia..].
Qed.

Definition rooms (n : nat) : held := n *: {[+ Room +]}.

Lemma num_rooms k n : k <> Room -> num k (rooms n) = 0.
Proof. intros H. unfold num, rooms. rewrite multiplicity_scalar_mul, multiplicity_singleton_ne by done. lia. Qed.

Lemma size_rooms n : size (rooms n) = n.
Proof. unfold rooms. rewrite gmultiset_size_scalar_mul, held_single. lia. Qed.

(** What a new table takes: room for its entries, and for the keys of its
    owner. *)
Definition table_rooms : held := rooms (Datatypes.S (2 * NFD)).

Lemma new_fs_ok R a s : Inv (R ⊎ table_rooms) s -> tables s !! a = None -> Inv (R ⊎ own_table a) (set_table a (mk_fs None filemap_init 0) s).
Proof.
  intros [opens HI] Ha. exists opens.
  assert (Hk : forall k, k <> Last a -> (forall i, k <> Ent a i) -> k <> Room -> num k (R ⊎ own_table a) = num k (R ⊎ table_rooms)).
  { intros k H1 H2 H3. unfold own_table, table_rooms. rewrite !num_union, num_single, decide_False by done. rewrite num_keys_of by naive_solver.
    rewrite num_rooms by done. lia. }
  assert (Hno : forall i f, ~ has_file a i f s) by (intros i f (x & Hx & _); congruence).
  assert (Hz : forall i k, entry_of k = Some (a, i) -> num k R = 0).
  { intros i k Ek. pose proof (num_nonneg k R). destruct (decide (0 < num k (R ⊎ table_rooms))) as [Hp|Hp].
    - destruct (iv_keys _ _ _ HI a i k Ek Hp) as [f Hf]. by destruct (Hno i f).
    - rewrite num_union in Hp. pose proof (num_nonneg k table_rooms). lia. }
  assert (Hl : num (Last a) (R ⊎ own_table a) = 1).
  { destruct (iv_none _ _ _ HI a Ha) as [_ E]. rewrite num_union in E. unfold own_table. rewrite !num_union, num_single, decide_True, num_keys_of by done.
    pose proof (num_nonneg (Last a) R). pose proof (num_nonneg (Last a) table_rooms). lia. }
  assert (Hp : num (Proc a) (R ⊎ own_table a) = 0) by (rewrite Hk by done; apply (iv_none _ _ _ HI a Ha)).
  assert (Hh : forall t i f, t <> a -> has_file t i f (set_table a (mk_fs None filemap_init 0) s) <-> has_file t i f s).
  { intros t i f Hne. unfold has_file, set_table. cbn. by rewrite lookup_insert_ne. }
  assert (Hn : forall i f, has_file a i f (set_table a (mk_fs None filemap_init 0) s) -> (i < NFD)%nat /\ f = blank_file (Z.of_nat i)).
  { intros i f (x & Hx & Hf). unfold set_table in Hx. cbn in Hx. rewrite lookup_insert_eq in Hx. injection Hx as <-. by apply filemap_init_lookup. }
  assert (Ho : forall i, opens !! (a, i) = None).
  { intros i. destruct (opens !! (a, i)) as [n|] eqn:E; [|done]. destruct (iv_dom _ _ _ HI _ _ _ E) as [f Hf]. by destruct (Hno i f). }
  assert (Hmine : forall i, (i < NFD)%nat -> exists f, has_file a i f (set_table a (mk_fs None filemap_init 0) s)).
  { intros i Hi. exists (blank_file (Z.of_nat i)). eexists. split; [apply lookup_insert_eq|]. cbn [filemap]. unfold filemap_init. fold NFD.
    by rewrite list_lookup_fmap, lookup_seq_lt. }
  assert (Hent : forall i k, entry_of k = Some (a, i) -> k <> Ent a i -> num k (R ⊎ own_table a) = 0).
  { intros i k Ek Hne. rewrite Hk; [|by intros ->|intros j ->; injection Ek as ->; done|by intros ->]. rewrite num_union, (Hz i k Ek).
    unfold table_rooms. rewrite num_rooms by (by intros ->). done. }
  split.
  - intros t x. cbn [set_table tables]. destruct (decide (t = a)) as [->|]; [rewrite lookup_insert_eq; intros [= <-]|rewrite lookup_insert_ne by done; by eapply iv_len].
    unfold filemap_init. cbn [filemap]. by rewrite length_fmap, length_seq.
  - intros t x. cbn [set_table tables]. destruct (decide (t = a)) as [->|]; [rewrite lookup_insert_eq; intros [= <-]; by rewrite Hp|].
    rewrite lookup_insert_ne, Hk by done. by eapply iv_count.
  - intros t. cbn [set_table tables]. intros [Ht Hne]%lookup_insert_None. rewrite !Hk by congruence. by eapply iv_none.
  - intros t. destruct (decide (t = a)) as [->|]; [lia|]. rewrite !Hk by congruence. by eapply iv_last.
  - intros t i. destruct (decide (t = a)) as [->|]; [lia|]. rewrite !Hk by congruence. by eapply iv_ent.
  - intros t i f Hf. destruct (decide (t = a)) as [->|Hne].
    + destruct (Hn i f Hf) as [Hi ->]. rewrite Ho. split_and!; [done|intros n; rewrite (Hent i) by done; lia|]. cbn [status blank_file].
      rewrite (Hent i (Init a i)), (Hent i (Closing a i)), (Hent i (Gone a i)) by done. split_and!; [done..|]. unfold own_table. rewrite !num_union, num_single, decide_False, (num_keys_all (Ent a)) by (done || by intros ? ? [=]).
      rewrite (Hz i (Ent a i)) by done. lia.
    + apply Hh in Hf; [|done]. apply (entry_ok_ext (R ⊎ table_rooms)); [|by eapply iv_file]. intros k Ek.
      apply Hk; [by intros ->|intros j ->; by injection Ek|by intros ->].
  - intros t i n Hn'. destruct (decide (t = a)) as [->|Hne]; [by rewrite Ho in Hn'|]. destruct (iv_dom _ _ _ HI _ _ _ Hn') as [f Hf]. exists f. by apply Hh.
  - intros t i k Ek Hp'. destruct (decide (t = a)) as [->|Hne].
    + apply Hmine. destruct (decide (k = Ent a i)) as [->|Hd]; [|rewrite (Hent i k) in Hp' by done; lia].
      destruct (decide (i < NFD)%nat) as [|Hge]; [done|exfalso]. revert Hp'. unfold own_table.
      rewrite !num_union, num_single, decide_False, (Hz i (Ent a i)) by done. enough (num (Ent a i) (keys_of (Ent a) all_fds) = 0) by lia.
      unfold num. assert (Hn0 : Ent a i ∉ keys_of (Ent a) all_fds); [|by apply not_elem_of_multiplicity in Hn0; rewrite Hn0].
      unfold keys_of. rewrite elem_of_list_to_set_disj, list_elem_of_fmap. intros (j & [= ->] & Hj%elem_of_seq). lia.
    + destruct (iv_keys _ _ _ HI t i k Ek) as [f Hf]; [|exists f; by apply Hh].
      rewrite Hk in Hp'; [done|by intros ->|intros j ->; by injection Ek|by intros ->].
  - intros n. pose proof (iv_inodes _ _ _ HI n) as E. by rewrite !(Hk (Ref n)), !(Hk (Opn n)) by done.
  - pose proof (iv_room _ _ _ HI) as E. cbn [set_table tables]. rewrite dom_insert_L, size_union, size_singleton by (apply not_elem_of_dom in Ha; set_solver).
    unfold own_table, table_rooms in *. rewrite !held_union, size_rooms in E. rewrite !held_union, held_single, keys_of_size.
    unfold all_fds, fds. rewrite length_seq. lia.
Qed.

Lemma table_of_ok {A} t x (K : fs_struct -> code S A) s : tables s !! t = Some x -> bind (table_of t) K s = K x s.
Proof. intros Hx. unfold table_of, ask, bind. by rewrite (fetch_ok _ _ _ Hx). Qed.

Lemma put_table_ok {A} t x (K : unit -> code S A) s : bind (put_table t x) K s = K tt (set_table t x s).
Proof. done. Qed.

(** The working directory of the copy. *)
Lemma pwd_ref_ok R p s : Inv (R ⊎ room_of p) s -> (forall n, p = Some n -> is_Some (inodes s !! n)) ->
  exists s', (match p with Some n => do _ <- inode_ref_inc n; ret tt | None => ret tt end) s = Ok (Done tt s') /\ Inv (R ⊎ ref_of p) s' /\ tables s' = tables s.
Proof.
  intros HI Hp. destruct p as [n|]; [|by exists s]. destruct (Hp n eq_refl) as [x Hx]. unfold room_of, ref_of in *.
  exists (set_inode n (mk_inode (ref_count x + 1) (open_count x)) s). split_and!; [|eapply node_step; [exact HI|exact Hx|nums; by destruct k|nums..]|done].
  unfold inode_ref_inc. erewrite bind_done; [reflexivity|]. by rewrite (get_inode_ok _ x), put_inode_ok.
Qed.

Lemma dup_fs_ok R t1 t2 p y s :
  Inv (R ⊎ own_table t2 ⊎ {[+ Room +]} ⊎ room_of p) s -> 0 < num (Proc t1) R -> tables s !! t1 = Some y -> pwd y = p ->
  (forall n, p = Some n -> is_Some (inodes s !! n)) -> (forall j g, has_file t2 j g s -> status g = FD_NONE) ->
  exists s' x', dup_fs t2 t1 s = Ok (Done 0 s') /\ Inv (R ⊎ own_table t2 ⊎ {[+ Room +]} ⊎ ref_of p) s' /\
    tables s' !! t2 = Some x' /\ pwd x' = p /\ fs_count x' = 0 /\
    (forall t j f, t <> t2 -> has_file t j f s' <-> has_file t j f s) /\
    (forall j f, has_file t1 j f s -> exists g, has_file t2 j g s' /\ copied f g).
Proof.
  intros HI Hp Hy Ep Hin Hno. set (E := keys_of (Ent t2) all_fds). change (own_table t2) with ({[+ Last t2 +]} ⊎ E) in *.
  assert (HL : 0 < num (Last t2) (R ⊎ ({[+ Last t2 +]} ⊎ E) ⊎ {[+ Room +]} ⊎ room_of p)) by (clearbody E; nums).
  destruct (owned_table _ t2 s HI HL) as (x & Hx & Hc).
  destruct (proc_table _ t1 s HI) as (y' & Hy' & Hcy & Hly); [rewrite !num_union; unfold num in *; lia|]. assert (y' = y) as -> by congruence.
  assert (Hne : t1 <> t2) by (intros ->; assert (x = y) as -> by congruence; lia).
  assert (HPr : num (Proc t2) (R ⊎ ({[+ Last t2 +]} ⊎ E) ⊎ {[+ Room +]} ⊎ room_of p) = 0) by (destruct HI as [opens HI]; by apply (iv_last _ _ _ HI)).
  unfold dup_fs. rewrite (table_of_ok _ x), (table_of_ok _ y), bind_check by (done || by apply Z.eqb_eq). rewrite bind_check by (by apply Z.ltb_lt).
  rewrite put_table_ok, Ep. set (x1 := mk_fs p (filemap x) (fs_count x)). set (s1 := set_table t2 x1 s).
  assert (HI1 : Inv (R ⊎ ({[+ Last t2 +]} ⊎ E) ⊎ {[+ Room +]} ⊎ room_of p) s1).
  { eapply table_step; [exact HI|exact Hx|done|by rewrite HPr|done|done| | |done].
    - destruct HI as [opens HI]. apply (iv_last _ _ _ HI).
    - destruct HI as [opens HI]. apply (iv_ent _ _ _ HI). }
  assert (Hh1 : forall t j f, has_file t j f s1 <-> has_file t j f s) by (intros; by eapply has_file_set_table).
  destruct (pwd_ref_ok _ p s1 HI1) as (s2 & E2 & HI2 & T2); [done|]. erewrite bind_done by exact E2.
  assert (Hh2 : forall t j f, has_file t j f s2 <-> has_file t j f s1) by (intros; split; by apply has_file_tables).
  destruct (dup_each_ok t1 t2 NFD 0 (R ⊎ {[+ Last t2 +]} ⊎ ref_of p) s2 y) as (s3 & E3 & HI3 & T3 & F3 & C3).
  - eapply Inv_eq; [exact HI2|]. fold all_fds. fold E. mset.
  - clear. nums.
  - done.
  - lia.
  - rewrite T2. unfold s1, set_table. cbn. by rewrite lookup_insert_ne.
  - intros j g _ Hg. apply (Hno j). by apply Hh1, Hh2.
  - fold NFD. erewrite bind_done by exact E3. pose proof (T3 t2) as Ht2. rewrite T2 in Ht2. unfold s1, set_table in Ht2. cbn in Ht2. rewrite lookup_insert_eq in Ht2.
    destruct (tables s3 !! t2) as [x'|] eqn:Hx'; [|done]. injection Ht2 as Hpw Hcn. exists s3, x'. split_and!; try done.
    + eapply Inv_eq; [exact HI3|]. fold all_fds. fold E. mset.
    + by rewrite Hcn.
    + intros t j f Hne'. rewrite F3, Hh2, Hh1; [done|by left].
    + intros j f Hf. apply C3; [|by apply Hh2, Hh1]. destruct Hf as (z & Hz & Hl%lookup_lt_Some). assert (z = y) as -> by congruence. lia.
Qed.

(** ** Sharing a table, and leaving it *)

Lemma fs_count_add_ok t d x s : tables s !! t = Some x ->
  fs_count_add t d s = Ok (Done (fs_count x + d) (set_table t (mk_fs (pwd x) (filemap x) (fs_count x + d)) s)).
Proof. intros Hx. unfold fs_count_add. by rewrite (table_of_ok _ x), put_table_ok. Qed.

(** Another process uses the table. *)
Lemma share_ok R t x s : Inv (R ⊎ {[+ Proc t; Room +]}) s -> tables s !! t = Some x ->
  Inv (R ⊎ {[+ Proc t; Proc t +]}) (set_table t (mk_fs (pwd x) (filemap x) (fs_count x + 1)) s).
Proof.
  intros HI Hx. eapply table_step; [exact HI|exact Hx|done| | | | | |nums]; destruct HI as [opens HI].
  - pose proof (iv_count _ _ _ HI t x Hx). cbn [fs_count]. nums.
  - nums; by match goal with H : ?a <> ?a |- _ => destruct H end.
  - nums.
  - intros Hl. destruct (iv_last _ _ _ HI t); nums.
  - intros i Hi. pose proof (iv_ent _ _ _ HI t i). nums.
Qed.

(** One process less, and not the last. *)
Lemma leave_table_ok R t x s : Inv (R ⊎ {[+ Proc t +]}) s -> tables s !! t = Some x ->
  Inv (R ⊎ {[+ Room +]}) (set_table t (mk_fs (pwd x) (filemap x) (fs_count x - 1)) s).
Proof.
  intros HI Hx. eapply table_step; [exact HI|exact Hx|done| | | | | |nums]; destruct HI as [opens HI].
  - pose proof (iv_count _ _ _ HI t x Hx). cbn [fs_count]. nums.
  - nums.
  - nums.
  - intros Hl. destruct (iv_last _ _ _ HI t); nums.
  - intros i Hi. pose proof (iv_ent _ _ _ HI t i). nums.
Qed.

(** The owner of a table makes it the table of a process. *)
Lemma publish_ok R t x s : Inv (R ⊎ own_table t) s -> tables s !! t = Some x ->
  Inv (R ⊎ {[+ Proc t +]}) (set_table t (mk_fs (pwd x) (filemap x) (fs_count x + 1)) s).
Proof.
  intros HI Hx. set (E := keys_of (Ent t) all_fds). change (own_table t) with ({[+ Last t +]} ⊎ E) in HI.
  assert (HE : forall k, (forall i, k <> Ent t i) -> num k E = 0) by (intros; apply num_keys_of; naive_solver).
  assert (HL : num (Last t) R = 0 /\ num (Proc t) R = 0).
  { destruct HI as [opens HI]. destruct (iv_last _ _ _ HI t) as [H1 H2]; rewrite !num_union, !num_single, !HE, ?decide_True, ?decide_False in * by done;
      unfold num in *; lia. }
  assert (HG : forall i, num (Ent t i) R + num (Gone t i) R = 0).
  { intros i. destruct HI as [opens HI]. pose proof (num_nonneg (Ent t i) R). pose proof (num_nonneg (Gone t i) R).
    destruct (decide (0 < num (Ent t i) R + num (Gone t i) R)) as [Hp|]; [exfalso|lia].
    destruct (iv_keys _ _ _ HI t i (if decide (0 < num (Ent t i) R) then Ent t i else Gone t i)) as [f Hf];
      [by case_decide|case_decide; rewrite num_union; unfold num in *; lia|].
    assert (Hi : (i < NFD)%nat) by (destruct Hf as (z & Hz & Hl%lookup_lt_Some); by rewrite (iv_len _ _ _ HI _ _ Hz) in Hl).
    assert (H1 : num (Ent t i) E = 1) by (apply num_keys_all; [by intros ? ? [=]|done]).
    pose proof (iv_file _ _ _ HI _ _ _ Hf) as (_ & _ & E3). rewrite !(num_union (Ent t i)), !(num_union (Gone t i)), H1, (HE (Gone t i)), !num_single in E3 by done.
    rewrite !decide_False in E3 by done. destruct (status f); [lia..|destruct E3 as (_ & _ & m & E3)|]; lia. }
  assert (Hc : fs_count x = 0).
  { destruct HI as [opens HI]. rewrite (iv_count _ _ _ HI t x Hx), !num_union, num_single, HE, decide_False by done. lia. }
  eapply table_step; [exact HI|exact Hx|done| | | | | |].
  - cbn [fs_count]. rewrite num_union, num_single, decide_True by done. lia.
  - intros k H1 H2 H3 H4. rewrite !num_union, !num_single, HE, !decide_False by done. lia.
  - intros i. rewrite !num_union, !num_single, !decide_False by done. pose proof (num_nonneg (Ent t i) E). lia.
  - rewrite num_union, num_single, decide_False by done. lia.
  - intros i. rewrite !num_union, !num_single, !decide_False by done. specialize (HG i). lia.
  - rewrite !held_union, !held_single. lia.
Qed.

(** Nobody is using the entry. *)
Definition idle (f : file) : Prop := status f = FD_NONE \/ status f = FD_OPENED /\ fopen_count f = 1.

Lemma take_entry_ok R t i f s : Inv (R ⊎ {[+ Room +]}) s -> 0 < num (Last t) R -> num (Ent t i) R + num (Gone t i) R = 0 -> has_file t i f s -> idle f ->
  Inv (R ⊎ {[+ Ent t i +]}) s.
Proof.
  intros [opens HI] Hl Hz Hf Hd. pose proof (iv_file _ _ _ HI _ _ _ Hf) as (E1 & E2 & E3).
  eapply (rekey opens); [exact HI|exact Hf|nums| |nums|nums]. split_and!; [done|intros n Hn; apply E2; revert Hn; nums|].
  destruct Hd as [Hs|[Hs Hc]]; rewrite Hs in *.
  - destruct E3 as (E3 & E4 & E5 & E6 & E7). split_and!; nums.
  - destruct E3 as (E3 & E4 & n & E5 & E6 & E7 & E8 & E9). split_and!; [nums|nums|]. exists n. split_and!; [done|done|nums|nums|nums].
Qed.

Lemma take_entries_ok t n i R s x : Inv (R ⊎ rooms n) s -> 0 < num (Last t) R -> (forall j, (i <= j)%nat -> num (Ent t j) R + num (Gone t j) R = 0) ->
  (i + n <= NFD)%nat -> tables s !! t = Some x -> (forall j f, has_file t j f s -> idle f) -> Inv (R ⊎ keys_of (Ent t) (fds n i)) s.
Proof.
  revert i R. induction n as [|n IH]; intros i R HI Hl Hz Hi Hx Hd; [exact HI|].
  unfold fds. cbn [seq]. rewrite keys_of_cons. unfold rooms in HI. rewrite gmultiset_scalar_mul_S_r in HI. fold (rooms n) in HI.
  destruct (table_file _ t x i s HI Hx) as [f Hf]; [lia|].
  assert (HI1 : Inv (R ⊎ rooms n ⊎ {[+ Ent t i +]}) s).
  { eapply take_entry_ok; [eapply Inv_eq; [exact HI|mset]| | |exact Hf|by eapply Hd].
    - rewrite num_union. unfold num in *. lia.
    - rewrite !num_union, !num_rooms by done. rewrite !Z.add_0_r. by apply Hz. }
  specialize (IH (Datatypes.S i) (R ⊎ {[+ Ent t i +]})). rewrite (assoc_L _). apply IH; [eapply Inv_eq; [exact HI1|mset]| | |lia|done|done].
  - rewrite num_union. unfold num in *. lia.
  - intros j Hj. specialize (Hz j ltac:(lia)). rewrite !num_union, !num_single, !decide_False by (done || intros [=]; lia). lia.
Qed.

(** The last process leaves: the table is its own. *)
Lemma last_leaves_ok R t x s : Inv (R ⊎ {[+ Proc t +]} ⊎ rooms NFD) s -> tables s !! t = Some x -> fs_count x = 1 -> (forall j f, has_file t j f s -> idle f) ->
  Inv (R ⊎ own_table t) (set_table t (mk_fs (pwd x) (filemap x) (fs_count x - 1)) s).
Proof.
  intros HI Hx Hc Hd.
  assert (HZ : num (Proc t) R = 0 /\ num (Last t) R = 0 /\ forall i, num (Ent t i) R + num (Gone t i) R = 0).
  { destruct HI as [opens HI]. pose proof (iv_count _ _ _ HI t x Hx) as E. rewrite Hc in E.
    assert (Hp : 0 < num (Proc t) (R ⊎ {[+ Proc t +]} ⊎ rooms NFD)) by lia. split_and!.
    - rewrite !num_union, num_single, num_rooms, decide_True in E by done. lia.
    - pose proof (num_nonneg (Last t) R). destruct (decide (0 < num (Last t) R)) as [Hl|]; [|lia].
      destruct (iv_last _ _ _ HI t) as [_ H1]; [|lia]. rewrite !num_union. unfold num in *. lia.
    - intros i. pose proof (no_ent _ _ _ t i HI Hp) as H1. rewrite !num_union, !num_single, !num_rooms, !decide_False in H1 by done. lia. }
  destruct HZ as (H1 & H2 & H3). set (x' := mk_fs (pwd x) (filemap x) (fs_count x - 1)).
  assert (HI1 : Inv (R ⊎ {[+ Last t +]} ⊎ rooms NFD) (set_table t x' s)).
  { eapply table_step; [exact HI|exact Hx|done| | | | | |].
    - unfold x'. cbn [fs_count]. rewrite !num_union, num_single, num_rooms, decide_False by done. lia.
    - intros k _ K1 K2 K3. rewrite !num_union, !num_single, !decide_False by done. done.
    - intros i. rewrite !num_union, !num_single, !decide_False by done. lia.
    - intros _. rewrite !num_union, !num_single, !num_rooms by done. repeat same_key. lia.
    - intros i. rewrite !num_union, !num_single, !num_rooms by done. repeat same_key. specialize (H3 i). lia.
    - rewrite !held_union, !held_single. lia. }
  unfold own_table. rewrite (assoc_L _). eapply take_entries_ok; [exact HI1| | |done|apply lookup_insert_eq|].
  - rewrite num_union, num_single, decide_True by done. lia.
  - intros j _. rewrite !num_union, !num_single, !decide_False by done. specialize (H3 j). lia.
  - intros j f Hf. apply (Hd j). by rewrite (has_file_set_table t x x') in Hf by done.
Qed.

End Tabs.
