(* ===== verification/FilePool.v ===== *)
(** * FilePool: file calls of concurrent processes

    Any number of processes, each making file calls on its table, interleaved
    wherever a call sleeps; a file system in memory that keeps the promises of
    [VnodesOk]; and what single calls do. *)
From stdpp Require Import gmultiset.
From S2P Require Import Prelude KState Sched Resume Sleep Uaccess Iobuf File FileSafe FileTabs.

(** ** Processes that make file calls *)

Inductive call :=
| C_open (path : list Z) (flags : Z)
| C_close (n : Z)
| C_read (n base len : Z)
| C_write (n base len : Z)
| C_seek (n p whence : Z)
| C_fstat (n : Z)
| C_fsync (n : Z)
| C_getdirentry (n d_name d_off : Z)
| C_dup (n1 n2 : Z)
| C_pipe
| C_mkfifo (dr dw name : list Z) (mem : bool) (flags : Z)
| C_closeall
| C_unlink (path : list Z)
| C_mkdir (path : list Z)
| C_symlink (old new : list Z)
| C_readlink (path : list Z) (iob : iobuf)
| C_rename (old new : list Z)
| C_link (old new : list Z).

Section Pool.
Context `{VN : Vnodes}.
Notation S := (fsys FS).

Definition drop {A} (m : code S A) : code S unit := do _ <- m; ret tt.

Definition do_call (t : Z) (c : call) : code S unit :=
  match c with
  | C_open path flags => drop (file_open t path flags)
  | C_close n => drop (file_close t n)
  | C_read n base len => drop (file_read t n base len)
  | C_write n base len => drop (file_write t n base len)
  | C_seek n p whence => drop (file_seek t n p whence)
  | C_fstat n => drop (file_fstat t n)
  | C_fsync n => drop (file_fsync t n)
  | C_getdirentry n d_name d_off => drop (file_getdirentry t n d_name d_off)
  | C_dup n1 n2 => drop (file_dup t n1 n2)
  | C_pipe => drop (file_pipe t)
  | C_mkfifo dr dw name mem flags => drop (file_mkfifo t dr dw name mem flags)
  | C_closeall => fs_closeall t
  | C_unlink path => drop (vfs_unlink path)
  | C_mkdir path => drop (vfs_mkdir path)
  | C_symlink old new => drop (vfs_symlink old new)
  | C_readlink path iob => drop (vfs_readlink path iob)
  | C_rename old new => drop (vfs_rename old new)
  | C_link old new => drop (vfs_link old new)
  end.

Fixpoint do_calls (t : Z) (l : list call) : code S unit :=
  match l with
  | [] => ret tt
  | c :: l => do_ do_call t c; do_calls t l
  end.

(** The processes that have not finished, as what is left of them. *)
Definition pool : Type := S * list (code S unit).

Inductive pstep : pool -> pool -> Prop :=
| step_sleep s l1 k l2 s' k' : k s = Ok (Sleep s' k') -> pstep (s, l1 ++ k :: l2) (s', l1 ++ k' :: l2)
| step_done s l1 k l2 s' : k s = Ok (Done tt s') -> pstep (s, l1 ++ k :: l2) (s', l1 ++ l2).

(** The open entries refer to inodes that are open. *)
Definition sound (s : S) : Prop :=
  forall t i f, has_file t i f s -> status f = FD_OPENED ->
    0 < fopen_count f /\ fd f = Z.of_nat i /\
    exists n x, node f = Some n /\ inodes s !! n = Some x /\ 0 < open_count x <= ref_count x.

Lemma Inv_sound R s : Inv R s -> sound s.
Proof.
  intros [opens HI] t i f Hf Hs. pose proof (iv_file _ _ _ HI _ _ _ Hf) as (E1 & _ & E3). rewrite Hs in E3.
  destruct E3 as (_ & _ & n & Eo & En & Ec & _). pose proof (num_nonneg (Tok t i n) R). split; [lia|]. split; [done|]. exists n.
  apply uses_pos in Eo. pose proof (iv_inodes _ _ _ HI n) as E. pose proof (num_nonneg (Ref n) R). pose proof (num_nonneg (Opn n) R).
  destruct (inodes s !! n) as [x|]; [exists x; split_and!; (done || lia)|lia].
Qed.

Context {OK : VnodesOk VN}.

(** What is left of a process that holds [h]. *)
Definition safe (h : held) (k : code S unit) : Prop := forall F s, Inv (F ⊎ h) s -> ok F (k s) (fun _ _ _ => True).

Definition pool_ok (p : pool) : Prop := exists F hs, Inv (F ⊎ ⋃+ hs) p.1 /\ Forall2 safe hs p.2.

Lemma pool_step p p' : pool_ok p -> pstep p p' -> pool_ok p'.
Proof.
  intros (F & hs & HI & Hs) Hp. destruct Hp as [s l1 k l2 s' k' E|s l1 k l2 s' E]; cbn [fst snd] in *;
    apply Forall2_app_inv_r in Hs as (h1 & h2 & H1 & H2 & ->); apply Forall2_cons_inv_r in H2 as (h & h3 & Hk & H3 & ->);
    rewrite gmultiset_disj_union_list_app, gmultiset_disj_union_list_cons in HI;
    specialize (Hk (F ⊎ ⋃+ h1 ⊎ ⋃+ h3) s ltac:(eapply Inv_eq; [exact HI|mset])); rewrite E in Hk; destruct Hk as (h' & HI' & Hk).
  - exists F, (h1 ++ h' :: h3). cbn [fst snd]. split; [|by apply Forall2_app, Forall2_cons_2].
    rewrite gmultiset_disj_union_list_app, gmultiset_disj_union_list_cons. eapply Inv_eq; [exact HI'|mset].
  - exists (F ⊎ h'), (h1 ++ h3). cbn [fst snd]. split; [|by apply Forall2_app].
    rewrite gmultiset_disj_union_list_app. eapply Inv_eq; [exact HI'|mset].
Qed.

Lemma pool_runs p p' : pool_ok p -> rtc pstep p p' -> pool_ok p'.
Proof. intros H Hr. induction Hr as [|p1 p2 p3 Hs Hr IH]; [done|]. apply IH. by eapply pool_step. Qed.

(** No process of the pool can make the kernel panic. *)
Lemma pool_no_panic p k : pool_ok p -> k ∈ p.2 -> sound p.1 /\ k p.1 <> Panic.
Proof.
  intros (F & hs & HI & Hs) Hk. split; [by eapply Inv_sound|]. apply list_elem_of_split in Hk as (l1 & l2 & E). rewrite E in Hs.
  apply Forall2_app_inv_r in Hs as (h1 & h2 & H1 & H2 & ->). apply Forall2_cons_inv_r in H2 as (h & h3 & Hk & H3 & ->).
  rewrite gmultiset_disj_union_list_app, gmultiset_disj_union_list_cons in HI.
  specialize (Hk (F ⊎ ⋃+ h1 ⊎ ⋃+ h3) p.1 ltac:(eapply Inv_eq; [exact HI|mset])). by destruct (k p.1).
Qed.

(** ** The calls are safe *)

Lemma drop_ok {A} t (m : code S A) : sp (budget t) m (fine t) -> sp (budget t) (drop m) (fine t).
Proof.
  intros Hm F s HI _. eapply (ok_bind _ ∅); [apply Hm|exact HI|mset|done|]. intros F1 a h s1 HI1 ->. eapply ok_ret; [exact HI1|]. unfold fine. mset.
Qed.

Lemma sp_mono {A} h (m : code S A) (Q Q' : A -> held -> S -> Prop) : sp h m Q -> (forall a h s, Q a h s -> Q' a h s) -> sp h m Q'.
Proof. intros Hm HQ F s HI _. eapply ok_mono; [exact HQ|by apply Hm]. Qed.

(** A call on names needs room for two references. *)
Lemma named_ok {A} t h h0 (m : code S A) : sp h m (fun _ h' _ => h' = h) -> budget t = h0 ⊎ h -> sp (budget t) m (fine t).
Proof.
  intros Hm Eb F s HI _. eapply (ok_last _ h0); [apply Hm|exact HI|exact Eb|done|]. intros a h' s' ->. unfold fine. by rewrite Eb.
Qed.

Lemma do_call_ok t c : sp (budget t) (do_call t c) (fine t).
Proof.
  assert (E1 : budget t = {[+ Proc t; Room; Room; Room +]} ⊎ {[+ Room +]}) by (unfold budget; mset).
  assert (E2 : budget t = {[+ Proc t; Room; Room +]} ⊎ {[+ Room; Room +]}) by (unfold budget; mset).
  destruct c; cbn [do_call]; try apply drop_ok.
  - eapply sp_mono; [apply file_open_ok|]. by intros a h s [-> _].
  - apply file_close_ok.
  - apply file_move_ok.
  - apply file_move_ok.
  - apply file_seek_ok.
  - apply file_fstat_ok.
  - apply file_fsync_ok.
  - apply file_getdirentry_ok.
  - intros F s HI _. eapply ok_mono; [|by apply file_dup_ok]. by intros a h s' [-> _].
  - eapply sp_mono; [apply file_pipe_ok|]. by intros a h s [-> _].
  - eapply sp_mono; [apply file_mkfifo_ok|]. by intros a h s [-> _].
  - apply fs_closeall_ok.
  - eapply named_ok; [apply vfs_unlink_ok|exact E1].
  - eapply named_ok; [apply vfs_mkdir_ok|exact E1].
  - eapply named_ok; [apply vfs_symlink_ok|exact E1].
  - eapply named_ok; [apply vfs_readlink_ok|exact E1].
  - eapply named_ok; [apply vfs_rename_ok|exact E2].
  - eapply named_ok; [apply vfs_link_ok|exact E2].
Qed.

Lemma do_calls_ok t l : sp (budget t) (do_calls t l) (fine t).
Proof.
  induction l as [|c l IH]; [by apply sp_ret|]. intros F s HI _. cbn [do_calls]. eapply (ok_bind _ ∅); [apply do_call_ok|exact HI|mset|done|].
  intros F1 _ h s1 HI1 ->. apply IH; [|done]. eapply Inv_eq; [exact HI1|mset].
Qed.


(** ** What single calls do *)

Lemma open_as_eq t r n p rd wr n' p' rd' wr' (s : S) : open_as t r n p rd wr s -> open_as t r n' p' rd' wr' s ->
  n = n' /\ p = p' /\ rd = rd' /\ wr = wr'.
Proof.
  intros (i & f & -> & Hf & _ & H1 & <- & <- & <-) (j & g & ->%Nat2Z.inj & Hg & _ & H2 & <- & <- & <-).
  rewrite (has_file_eq _ _ _ _ _ Hg Hf) in *. split_and!; congruence.
Qed.

(** A file is opened and its descriptor duplicated. *)
Definition open_dup (t : Z) (path : list Z) (flags : Z) : code S (Z * Z) :=
  do r <- file_open t path flags;
  if r <? 0 then ret (r, r)
  else do r2 <- file_dup t r NO_FD; ret (r, r2).


(** The entry after a transfer of [c] bytes. *)
Definition moved (c : Z) (f : file) : file := set_pos (s32 (pos f + c)) f.

(** A read or a write through an open descriptor with the right calls the
    operation of the inode with a buffer at the entry's position; if it does
    not sleep, the call returns its result and the number of bytes moved, the
    position has advanced by them, and the entry is otherwise as before. *)
Theorem file_move_spec (write : bool) t i f n base len F s r iob s2 :
  Inv (F ⊎ budget t) s -> has_file t i f s -> status f = FD_OPENED -> node f = Some n ->
  (if write then writable f else readable f) = true ->
  let s1 := set_file t i (set_count (fopen_count f + 1) f) s in
  (if write then op_write (in_ops n) else op_read (in_ops n)) (iobuf_init base len (pos f)) s1 = Ok (Done (r, iob) s2) -> tables s2 = tables s1 ->
  exists s', file_move write t (Z.of_nat i) base len s = Ok (Done (r, iobuf_used iob) s') /\ has_file t i (moved (iobuf_used iob) f) s' /\ inodes s' = inodes s2.
Proof.
  intros HI Hf Hs Hn Hw s1 Hop Ht. destruct (acquire_ok (F ⊎ {[+ Proc t; Room; Room; Room +]}) t i f n s) as [E HI1]; try done.
  { eapply Inv_eq; [exact HI|unfold budget; mset]. } { apply num_in. mset. }
  fold s1 in E, HI1. set (f1 := set_count (fopen_count f + 1) f) in *. assert (Hf1 : has_file t i f1 s1) by (by eapply has_file_set).
  assert (Hf2 : has_file t i f1 s2) by (by apply (has_file_tables _ _ _ s1)).
  assert (Hc : 0 < fopen_count f) by (by destruct (Inv_sound _ _ HI t i f Hf Hs)).
  destruct (keeps_inode _ _ (Tok t i n) n HI1) as [x Hx]; [right; right; eauto|apply num_in; mset|].
  set (p := s32 (pos f + iobuf_used iob)). set (s3 := set_file t i (set_pos p f1) s2).
  assert (Hf3 : has_file t i (set_pos p f1) s3) by (by eapply has_file_set).
  exists (set_file t i (moved (iobuf_used iob) f) s2). split; [|split; [by eapply has_file_set|done]].
  unfold file_move. set (K := fun o : option nat => _).
  destruct (fd2file_ok _ t (Z.of_nat i) s K HI (proc_budget t F)) as [(j & g & m & Ej%Nat2Z.inj & _ & _ & _ & ->)|[_ Hno]]; [|by destruct (Hno i f eq_refl Hf)].
  subst j. unfold K. rewrite (get_file_ok _ _ f) by done. rewrite Hw. cbn [negb]. erewrite bind_done by exact E.
  unfold the_node. rewrite Hn, bind_lift. erewrite bind_done; [|erewrite vop_ok; [|exact HI1|by exists x]; destruct write; exact Hop].
  unfold move_pos. erewrite bind_done; [|rewrite (get_file_ok _ _ f1) by done; rewrite decide_True by done; by eapply put_file_ok].
  unfold filemap_release. erewrite bind_done; [reflexivity|].
  change (set_file t i (set_pos (s32 (pos f1 + iobuf_used iob)) f1) s2) with s3. rewrite (get_file_ok _ _ _ _ _ Hf3).
  rewrite bind_check by (rewrite bool_decide_eq_true; by left). rewrite bind_check by (apply Z.ltb_lt; cbn; lia).
  erewrite bind_done by (by eapply put_file_ok). unfold s3. rewrite set_file_twice.
  assert (Ef : set_count (fopen_count (set_pos p f1) - 1) (set_pos p f1) = moved (iobuf_used iob) f).
  { unfold f1, moved, set_count, set_pos. cbn. f_equal. lia. }
  rewrite Ef. cbn [fopen_count set_pos f1 set_count]. destruct (Z.eqb_spec (fopen_count f + 1 - 1) 0); [lia|done].
Qed.

(** ** A process leaves its table, or gives one to a new process *)


(** C19: [copy_fs] lets the new process use the table of its parent, or gives it
    a new table in which exactly the parent's open entries are open, for the
    same inodes, with the same positions and rights and their own counts, and
    the same working directory; without memory it fails and changes nothing. *)
Theorem copy_fs_spec share a t p :
  sp_when (fun s => (exists y, tables s !! t = Some y /\ pwd y = p) /\ (forall n, p = Some n -> is_Some (inodes s !! n)) /\
      (forall b, a = Some b -> tables s !! b = None))
    ({[+ Proc t; Room +]} ⊎ table_rooms ⊎ room_of p) (copy_fs share a t)
    (fun r h s =>
       if share then r = (0, t) /\ h = {[+ Proc t; Proc t +]} ⊎ table_rooms ⊎ room_of p
       else match a with
            | None => r = (- E_NO_MEM, 0) /\ h = {[+ Proc t; Room +]} ⊎ table_rooms ⊎ room_of p
            | Some b => r = (0, b) /\ h = {[+ Proc t; Proc b; Room +]} ⊎ ref_of p /\
                (exists x, tables s !! b = Some x /\ pwd x = p /\ fs_count x = 1) /\
                forall j f, has_file t j f s -> exists g, has_file b j g s /\ copied f g
            end).
Proof.
  intros F s HI ((y & Hy & Ep) & Hin & Ha). unfold copy_fs. destruct share.
  - eapply ok_done; [by apply fs_count_add_ok|]. eapply ok_ret; [|split; reflexivity].
    eapply Inv_eq; [eapply (share_ok (F ⊎ (table_rooms ⊎ room_of p)) t y); [eapply Inv_eq; [exact HI|mset]|done]|mset].
  - destruct a as [b|]; [|eapply ok_done; [reflexivity|]; eapply ok_ret; [exact HI|done]]. specialize (Ha b eq_refl).
    eapply ok_done; [reflexivity|]. cbv beta iota. fold (set_table b (mk_fs None filemap_init 0) s). set (s1 := set_table b (mk_fs None filemap_init 0) s).
    assert (HI1 : Inv (F ⊎ {[+ Proc t +]} ⊎ own_table b ⊎ {[+ Room +]} ⊎ room_of p) s1).
    { eapply Inv_eq; [apply (new_fs_ok (F ⊎ ({[+ Proc t; Room +]} ⊎ room_of p))); [eapply Inv_eq; [exact HI|mset]|done]|mset]. }
    assert (Hbt : b <> t) by congruence.
    destruct (dup_fs_ok (F ⊎ {[+ Proc t +]}) t b p y s1) as (s2 & x & E2 & HI2 & Hx & Epx & Ecx & F2 & C2); [done|apply num_in; mset| |done|done| |].
    { unfold s1, set_table. cbn. by rewrite lookup_insert_ne. }
    { intros j g (z & Hz & Hg). unfold s1, set_table in Hz. cbn in Hz. rewrite lookup_insert_eq in Hz. injection Hz as <-. by apply filemap_init_lookup in Hg as [_ ->]. }
    eapply ok_done; [exact E2|]. cbn [Z.eqb negb]. eapply ok_done; [by apply fs_count_add_ok|].
    eapply ok_ret; [eapply Inv_eq; [eapply (publish_ok (F ⊎ ({[+ Proc t; Room +]} ⊎ ref_of p)) b x); [eapply Inv_eq; [exact HI2|mset]|done]|]|].
    + shelve.
    + split; [done|]. split; [reflexivity|]. split.
      * exists (mk_fs (pwd x) (filemap x) (fs_count x + 1)). split; [apply lookup_insert_eq|]. cbn [pwd fs_count]. split; [done|]. by rewrite Ecx.
      * intros j f Hf. rewrite (has_file_set_table b x) in Hf by done. apply F2 in Hf; [|congruence]. destruct (C2 j f Hf) as (g & Hg & Hc). exists g. split; [|done].
        by apply (has_file_set_table b x).
    Unshelve. mset.
Qed.

End Pool.

(** ** A file system in memory

    A path names an inode; an inode that is not in use is not kept.  Reading
    and writing inode 7 sleep once. *)

Section MemOps.
Context {T : Type}.
Notation S := (fsys T).

Definition once {A} (a : A) : code S A := fun s => Ok (Sleep s (fun s' => Ok (Done a s'))).

Definition with_nodes (m : gmap Z inode) (s : S) : S := mk_fsys (tables s) m (under s).

Definition mem_load (n : Z) : code S (Z * Z) := fun s =>
  let x := default (mk_inode 0 0) (inodes s !! n) in
  Ok (Done (0, n) (with_nodes (<[n := mk_inode (ref_count x + 1) (open_count x)]> (inodes s)) s)).

Definition mem_reclaim (n : Z) : code S Z := fun s =>
  Ok (Done 0 (with_nodes (match inodes s !! n with Some x => if ref_count x =? 0 then delete n (inodes s) else inodes s | None => inodes s end) s)).

Definition mem_pipe : code S (Z * Z * Z) := fun s =>
  let n0 := fresh (dom (inodes s)) in
  let s := with_nodes (<[n0 := mk_inode 1 1]> (inodes s)) s in
  let n1 := fresh (dom (inodes s)) in
  Ok (Done (0, n0, n1) (with_nodes (<[n1 := mk_inode 1 1]> (inodes s)) s)).

End MemOps.

Section Mem.
Context `{VN : Vnodes}.

Lemma steady_ret {A} (P : A -> Prop) n (a : A) : P a -> steady P n (ret a).
Proof. intros HP k _ F s HI _. by eapply ok_ret. Qed.

Lemma steady_once {A} (P : A -> Prop) n (a : A) : P a -> steady P n (once a).
Proof. intros HP k _ F s HI _. exists {[+ k +]}. split; [done|]. intros F' s' HI'. by exists {[+ k +]}. Qed.

(** An inode nobody refers to comes, or goes. *)
Lemma new_inode_ok (R R' : held) n x (s : fsys FS) : Inv R s -> inodes s !! n = None ->
  (forall k, inode_of k <> Some n -> k <> Room -> num k R' = num k R) ->
  open_count x = num (Opn n) R' -> ref_count x = num (Ref n) R' + num (Opn n) R' -> (size R' <= size R)%nat ->
  Inv R' (with_nodes (<[n := x]> (inodes s)) s).
Proof.
  intros [opens HI] Hx Hk Ho Hr Hs. exists opens. eapply Inv_nodes; [exact HI|done|intros k Ek ?; apply Hk; [congruence|done]| |done].
  intros m. cbn [inodes with_nodes]. pose proof (iv_inodes _ _ _ HI m) as Hm. destruct (decide (m = n)) as [->|].
  - rewrite lookup_insert_eq. rewrite Hx in Hm. pose proof (num_nonneg (Ref n) R). pose proof (num_nonneg (Opn n) R). pose proof (uses_nonneg opens n). lia.
  - rewrite lookup_insert_ne by done. rewrite !Hk by (done || cbn; congruence). done.
Qed.

Lemma no_inode_num (R : held) n (s : fsys FS) : Inv R s -> inodes s !! n = None -> num (Ref n) R = 0 /\ num (Opn n) R = 0.
Proof.
  intros [opens HI] Hx. pose proof (iv_inodes _ _ _ HI n) as E. rewrite Hx in E.
  pose proof (num_nonneg (Ref n) R). pose proof (num_nonneg (Opn n) R). pose proof (uses_nonneg opens n). lia.
Qed.

Lemma mem_load_ok n : sp {[+ Room +]} (mem_load n) (fun r h _ => h = (if r.1 =? 0 then {[+ Ref r.2 +]} else {[+ Room +]}) /\ r.1 <= 0).
Proof.
  intros F s HI _. exists {[+ Ref n +]}. split; [|done]. destruct (inodes s !! n) as [x|] eqn:Hx; cbn [default].
  - eapply node_step; [exact HI|exact Hx|nums; by destruct k|nums..].
  - destruct (no_inode_num _ _ _ HI Hx). eapply new_inode_ok; [exact HI|exact Hx|nums; by destruct k| | |nums]; cbn [ref_count open_count]; nums.
Qed.

Lemma mem_reclaim_ok n : sp_when (fun s => exists x, inodes s !! n = Some x /\ ref_count x = 0) ∅ (mem_reclaim n) (fun _ h _ => h = ∅).
Proof.
  intros F s HI (x & Hx & Hr). exists ∅. split; [|done]. rewrite Hx, Hr. cbn [Z.eqb]. destruct HI as [opens HI]. exists opens.
  eapply Inv_nodes; [exact HI|done|done| |done]. intros m. cbn [inodes with_nodes]. pose proof (iv_inodes _ _ _ HI m) as Hm.
  destruct (decide (m = n)) as [->|]; [rewrite lookup_delete_eq; rewrite Hx in Hm; lia|by rewrite lookup_delete_ne].
Qed.

Lemma new_open_ok (R : held) n (s : fsys FS) : Inv (R ⊎ {[+ Room +]}) s -> inodes s !! n = None -> Inv (R ⊎ {[+ Opn n +]}) (with_nodes (<[n := mk_inode 1 1]> (inodes s)) s).
Proof.
  intros HI Hx. destruct (no_inode_num _ _ _ HI Hx). eapply new_inode_ok; [exact HI|exact Hx|nums; by destruct k| | |nums]; cbn [ref_count open_count]; nums.
Qed.

Lemma mem_pipe_ok : sp {[+ Room; Room +]} mem_pipe
  (fun r h _ => h = (if r.1.1 =? 0 then {[+ Opn r.1.2; Opn r.2 +]} else {[+ Room; Room +]}) /\ r.1.1 <= 0).
Proof.
  intros F s HI _. unfold mem_pipe. set (n0 := fresh _). set (s1 := with_nodes _ s). set (n1 := fresh (dom (inodes s1))).
  assert (HI1 : Inv (F ⊎ {[+ Room +]} ⊎ {[+ Opn n0 +]}) s1).
  { apply new_open_ok; [eapply Inv_eq; [exact HI|mset]|]. apply not_elem_of_dom. apply is_fresh. }
  exists {[+ Opn n0; Opn n1 +]}. split; [|done]. eapply Inv_eq; [apply (new_open_ok (F ⊎ {[+ Opn n0 +]}) n1 s1)|mset].
  - eapply Inv_eq; [exact HI1|mset].
  - apply not_elem_of_dom. apply is_fresh.
Qed.

End Mem.

Definition memfs : Type := gmap (list Z) Z.

Definition mem_ops (n : Z) : inode_ops memfs := {|
  op_open := fun _ => ret 0;
  op_close := ret 0;
  op_read := fun iob => (if n =? 7 then once else ret) (0, mk_iob (io_base iob) (io_offset iob) (io_len iob) 0);
  op_write := fun iob => (if n =? 7 then once else ret) (0, mk_iob (io_base iob) (io_offset iob) (io_len iob) 0);
  op_fstat := ret (0, 100);
  op_fsync := ret 0;
  op_getdirentry := fun iob => ret (- E_NOTDIR, iob);
  op_reclaim := mem_reclaim n;
  op_tryseek := fun p => ret (if 0 <=? p then 0 else - E_INVAL);
  op_truncate := fun _ => ret 0;
  op_create := fun _ _ => ret (- E_NOTDIR, 0);
  op_mkdir := fun _ => ret (- E_NOTDIR);
  op_link := fun _ _ => ret (- E_NOTDIR);
  op_rename := fun _ _ _ => ret (- E_NOTDIR);
  op_symlink := fun _ _ => ret (- E_NOTDIR);
  op_readlink := fun iob => ret (- E_INVAL, iob);
  op_unlink := fun _ => ret (- E_NOTDIR);
  is_device := false;
  linux_device := false;
  d_linux_read := fun _ _ _ => ret (- E_INVAL);
  d_linux_write := fun _ _ _ => ret (- E_INVAL);
  d_linux_ioctl := fun _ _ => ret (- E_INVAL);
  d_linux_mmap := fun _ _ _ _ _ => ret 0 |}.

Definition mem_lookup (path : list Z) : code (fsys memfs) (Z * Z) := fun s =>
  match under s !! path with
  | Some n => mem_load n s
  | None => ret (- E_NOENT, 0) s
  end.

#[export] Instance mem_vnodes : Vnodes := {|
  FS := memfs;
  in_ops := mem_ops;
  in_fs := fun _ => Some 1;
  vfs_lookup := mem_lookup;
  vfs_lookup_parent := fun _ => ret (- E_NOENT, 0, []);
  pipe_open := mem_pipe |}.

#[export] Instance mem_vnodes_ok : VnodesOk mem_vnodes.
Proof.
  split; intros; try (apply steady_ret; done); try (by apply sp_ret).
  - cbn [in_ops mem_vnodes mem_ops op_read]. destruct (n =? 7); [by apply steady_once|by apply steady_ret].
  - cbn [in_ops mem_vnodes mem_ops op_write]. destruct (n =? 7); [by apply steady_once|by apply steady_ret].
  - apply (steady_ret (fun r => r <= 0)). by case_match.
  - intros F s HI _. change (ok F (mem_lookup path s) (fun r h _ => h = (if r.1 =? 0 then {[+ Ref r.2 +]} else {[+ Room +]}) /\ r.1 <= 0)).
    unfold mem_lookup. destruct (@under memfs s !! path) as [n|]; [exact (mem_load_ok n F s HI I)|]. by eapply ok_ret.
  - exact mem_pipe_ok.
  - exact (mem_reclaim_ok n).
Qed.

(** ** A run

    Two processes share table 1. *)

Definition path_a : list Z := [97].
Definition path_b : list Z := [98].
Definition empty_fs : fsys memfs := mk_fsys ∅ ∅ (<[path_b := 8]> {[ path_a := 7 ]}).
Definition two_procs : fsys memfs :=
  set_table 1 (mk_fs None filemap_init 2) empty_fs.

Lemma empty_ok : Inv (VN := mem_vnodes) (rooms 4000) empty_fs.
Proof.
  exists ∅. split; cbn [empty_fs tables inodes].
  - done.
  - done.
  - intros t _. by rewrite !num_rooms.
  - intros t. rewrite num_rooms by done. lia.
  - intros t i. rewrite !num_rooms by done. lia.
  - intros t i f (x & Hx & _). done.
  - done.
  - intros t i k Ek. rewrite num_rooms by (by intros ->). lia.
  - intros n. rewrite lookup_empty, !num_rooms by done. done.
  - rewrite size_rooms. done.
Qed.

Ltac mset_rooms := unfold budget, rooms; cbn [foldr disj_union_list]; apply gmultiset_eq; intros ?;
  rewrite ?multiplicity_disj_union, ?multiplicity_scalar_mul, ?multiplicity_empty; lia.

(** A process with a new table. *)
Definition one_proc : fsys memfs := set_table (VN := mem_vnodes) 1 (mk_fs None filemap_init 1) empty_fs.

Lemma one_proc_ok n : (n <= 3000)%nat -> Inv (VN := mem_vnodes) (rooms n ⊎ {[+ Proc 1 +]}) one_proc.
Proof.
  intros Hn. assert (HI : Inv (VN := mem_vnodes) (rooms n ⊎ own_table 1) (set_table (VN := mem_vnodes) 1 (mk_fs None filemap_init 0) empty_fs)).
  { apply (new_fs_ok (VN := mem_vnodes)); [|done]. destruct empty_ok as [opens HI]. exists opens.
    eapply Inv_nodes; [exact HI|done| |intros m|].
    - intros k _ Hk. unfold table_rooms. by rewrite num_union, !num_rooms.
    - pose proof (iv_inodes _ _ _ HI m) as E. unfold table_rooms. rewrite !num_union, !num_rooms in * by done. exact E.
    - unfold table_rooms. rewrite held_union, !size_rooms. assert (Datatypes.S (2 * NFD) <= 1000)%nat by (apply Nat.leb_le; vm_compute; done). lia. }
  eapply (publish_ok (VN := mem_vnodes)) in HI; [|apply lookup_insert_eq].
  eapply Inv_under; [| |exact HI]; [|done]. cbn [set_table one_proc tables pwd filemap fs_count]. by rewrite insert_insert_eq.
Qed.

Lemma two_procs_ok : Inv (VN := mem_vnodes) (∅ ⊎ ⋃+ [budget 1; budget 1]) two_procs.
Proof.
  pose proof (one_proc_ok 9 ltac:(lia)) as HI.
  assert (HI2 : Inv (VN := mem_vnodes) (rooms 8 ⊎ {[+ Proc 1; Room +]}) one_proc) by (eapply Inv_eq; [exact HI|mset_rooms]).
  eapply (share_ok (VN := mem_vnodes)) in HI2; [|apply lookup_insert_eq].
  eapply Inv_under; [| |eapply Inv_eq; [exact HI2|mset_rooms]]; [|done]. cbn [set_table one_proc two_procs tables pwd filemap fs_count]. by rewrite insert_insert_eq.
Qed.

(** The first process opens the file and reads; while the read sleeps, the
    second one closes the descriptor. *)
Definition proc_1 : list call := [C_open path_a O_RDONLY; C_read 0 0 16].
Definition proc_2 : list call := [C_close 0].

Definition entry_0 (s : fsys memfs) : option (file_status * Z) :=
  match tables s !! 1 with Some x => (fun f => (status f, fopen_count f)) <$> filemap x !! 0%nat | None => None end.

(** What the second process, then the first one, leaves. *)
Definition run_both : option (option (file_status * Z) * option inode * option (file_status * Z) * option inode) :=
  match do_calls (VN := mem_vnodes) 1 proc_1 two_procs with
  | Ok (Sleep s1 k1) =>
      match do_calls (VN := mem_vnodes) 1 proc_2 s1 with
      | Ok (Done _ s2) =>
          match k1 s2 with
          | Ok (Done _ s3) => Some (entry_0 s2, @inodes memfs s2 !! 7, entry_0 s3, @inodes memfs s3 !! 7)
          | _ => None
          end
      | _ => None
      end
  | _ => None
  end.

(** The entry stays, and its inode stays open, until the read has ended. *)
Example close_during_read : run_both = Some (Some (FD_CLOSED, 1), Some (mk_inode 1 1), Some (FD_NONE, 0), None).
Proof. vm_compute. reflexivity. Qed.


Lemma two_budgets_ok : Inv (VN := mem_vnodes) (budget 1 ⊎ budget 1) two_procs.
Proof. eapply Inv_eq; [exact two_procs_ok|mset_rooms]. Qed.


(** The descriptors are open in turn. *)
Definition open_b : fsys memfs := match file_open (VN := mem_vnodes) 1 path_b O_RDWR one_proc with Ok (Done _ s) => s | _ => one_proc end.
Definition file_b : file := mk_file FD_OPENED true true 0 0 (Some 8) 1.

Lemma open_b_ok : Inv (VN := mem_vnodes) (∅ ⊎ budget 1) open_b /\ has_file (VN := mem_vnodes) 1 0 file_b open_b.
Proof.
  split.
  - assert (HI : Inv (VN := mem_vnodes) (∅ ⊎ budget 1) one_proc) by (eapply Inv_eq; [apply (one_proc_ok 4); lia|mset_rooms]).
    pose proof (file_open_ok (VN := mem_vnodes) 1 path_b O_RDWR ∅ one_proc HI I) as H.
    assert (E : file_open (VN := mem_vnodes) 1 path_b O_RDWR one_proc = Ok (Done 0 open_b)) by (vm_compute; reflexivity).
    rewrite E in H. destruct H as (h & H1 & -> & _). exact H1.
  - eexists. split; [vm_compute; reflexivity|]. vm_compute. reflexivity.
Qed.

Lemma file_move_spec_witness :
  exists s', file_move (VN := mem_vnodes) true 1 0 64 16 open_b = Ok (Done (0, 16) s') /\ has_file (VN := mem_vnodes) 1 0 (moved 16 file_b) s' /\
    inodes s' = inodes open_b.
Proof.
  destruct open_b_ok as [HI Hf].
  apply (file_move_spec (VN := mem_vnodes) (OK := mem_vnodes_ok) true 1 0 file_b 8 64 16 ∅ open_b 0 (mk_iob 64 0 16 0) (set_file (VN := mem_vnodes) 1 0 (set_count 2 file_b) open_b));
    [exact HI|exact Hf|reflexivity|reflexivity|reflexivity|reflexivity|reflexivity].
Defined.


Lemma copy_fs_spec_witness :
  ok (VN := mem_vnodes) ∅ (copy_fs (VN := mem_vnodes) false (Some 2) 1 one_proc)
    (fun r h s => r = (0, 2) /\ h = {[+ Proc 1; Proc 2; Room +]} ⊎ ref_of None /\
       (exists x, tables s !! 2 = Some x /\ pwd x = None /\ fs_count x = 1) /\
       forall j f, has_file (VN := mem_vnodes) 1 j f s -> exists g, has_file (VN := mem_vnodes) 2 j g s /\ copied f g).
Proof.
  apply (copy_fs_spec (VN := mem_vnodes) (OK := mem_vnodes_ok) false (Some 2) 1 None).
  - eapply Inv_eq; [apply (one_proc_ok (2 + 2 * NFD)); apply Nat.leb_le; vm_compute; reflexivity|]. unfold room_of, table_rooms. generalize NFD. intros n. mset_rooms.
  - split; [|split]; [|intros n [=]|intros b [= <-]; reflexivity]. exists (mk_fs None filemap_init 1). split; reflexivity.
Defined.

(** [fs_closeall] is to keep the descriptors 0, 1 and 2: it closes 2, and does
    not close the last one. *)
Definition open_fds (s : fsys memfs) : list nat :=
  match tables s !! 1 with
  | Some x => filter (fun i => status <$> filemap x !! i = Some FD_OPENED) (seq 0 NFD)
  | None => []
  end.

Definition fds_after (l : list call) : option (list nat) :=
  match do_calls (VN := mem_vnodes) 1 l one_proc with Ok (Done _ s) => Some (open_fds s) | _ => None end.

Definition some_files : list call := [C_open path_b O_RDWR; C_dup 0 1; C_dup 0 2; C_dup 0 3; C_dup 0 (FS_STRUCT_NENTRY - 1)].

Example closeall_range :
  fds_after some_files = Some [0; 1; 2; 3; 290]%nat /\ fds_after (some_files ++ [C_closeall]) = Some [0; 1; 290]%nat.
Proof. split; vm_compute; reflexivity. Qed.
